(* ===== verification/_CoqProject ===== *)
-Q . S2P
Prelude.v
Text.v
NetAddr.v
Event.v
Policy.v
Flow.v
Dns.v
Inspection.v
AuditLog.v
Config.v
Device.v
Effects.v
AuditIo.v
Egress.v
ProxyParse.v
Proxy.v
Limiter.v
Tcp.v
TcpStages.v
Udp.v
Combined.v
Bounds.v
Args.v
Os.v
Setup.v
RunConfig.v
Cli.v
SetupSocket.v
Launcher.v
Icmp.v
Commands.v
EndToEnd.v
Totality.v
CoreTests.v
ProxyTests.v
NetTests.v
CliTests.v
