(* ===== verification/Prelude.v ===== *)
(** * Foxprox: a verification development of the foxprox network broker

    Foxprox is the network broker of a sandbox.  Frontends (an HTTP proxy, a
    SOCKS5 proxy, a TUN packet device, a DNS resolver) turn sandbox traffic into
    normalized events; one policy engine decides each event; the decision is
    written to an audit log; only then does the egress adapter touch the host
    network.  The development follows that order, one file per crate file or
    component; definitions keep the names of the source.

    ** Parts and correspondence (paths under src/crates)

    - [Prelude]: outcomes of Rust code ([Result] with [Panic] and [OutOfFuel]),
      the [let?] notation, bytes, big-endian numbers, slices, hash maps with an
      unspecified iteration order ([IterOrder]), tactics and hint databases.
    - [Text]: the methods of [str] the broker calls, on UTF-8 byte lists.
    - [NetAddr]: [std::net] addresses, their display and their parsers.
    - [Event] (foxprox-core/src/event.rs, frontend.rs): identifiers, hostnames,
      methods, attribution, [NetworkEvent].
    - [Policy] (policy.rs): rules, guards and [evaluate].
    - [Flow] (flow.rs): flow keys, the UDP flow table, expiry.
    - [Dns] (dns.rs): wire parsers with compression and the attribution cache.
    - [Inspection] (inspection.rs): HTTP head and TLS ClientHello inspection.
    - [AuditLog] (audit.rs): schema, JSON encoder, bounded buffer, drain.
    - [Config] (config.rs, egress.rs): configuration records and the egress
      requests, outcomes and errors.
    - [Device] (foxprox-device/src/lib.rs): IPv4/ICMP parsing, the Internet
      checksum, echo replies, drop events.
    - [Effects]: programs over host operations.  [Prog] is the tree of calls a
      program makes, [run] executes it against an environment (any function from
      history to what the next call comes to: an answer or, for the calls of
      [may_panic], a panic that ends the thread), [wp] quantifies over every valid
      answer, so a theorem stated with [wp] covers every host behaviour and failure;
      [wp_run] says so of the runs, panics included ([executes]).  [Host] is the part
      of the standard library the broker calls; [eprintln!] panics there when stderr
      fails, and the calls that spawn threads when there is no thread.
    - [AuditIo] (the recording helpers of foxprox-proxy and foxprox-net): the
      programs that record an event and drain the buffer to stderr, and the rules
      of [wp] the clients' proofs share.
    - [Egress] (foxprox-egress/src/lib.rs): the standard-library adapter.
    - [ProxyParse], [Proxy] (foxprox-proxy/src/lib.rs): request parsers; the two
      connection handlers and the two listeners as programs.
    - [Limiter] (foxprox-proxy/src/lib.rs, 226-289; foxprox-net/src/udp.rs,
      75-131): the connection and worker limiters, a step relation with one step per
      atomic access; the class [AtomicLimiter] is what both implement.
    - [Tcp] (foxprox-net/src/lib.rs): the transparent TCP relay, the state machine
      of a flow (listening, inspecting, connecting, active) as the poll functions
      drive it over the user-space stack's socket and the host stream.
    - [TcpStages]: the stages of such a flow as a step relation, with its deadlines.
    - [Udp] (foxprox-net/src/udp.rs): the UDP and DNS relay, the handlers of
      datagrams and worker results, expiry, the worker threads and the loop.
    - [Combined] (foxprox-net/src/combined.rs): the loop that runs the TCP sockets,
      the proxy bridges and the UDP relay together, its validation and start-up.
    - [Bounds]: what those loops may hold, and that every state on the way keeps to it.
    - [Args] (foxprox-cli/src/main.rs, 1152-1211, and the option loops of both
      binaries): values of options, and the loop over the arguments as a function
      of the arms ([Arm], [parse_options]).
    - [Os]: the interface of the two binaries, files, Unix sockets, children,
      capabilities, threads and paths, over the programs of [Effects]; [OnHost]
      embeds the calls of [Host].
    - [Setup] (foxprox-setup/src/main.rs): the privileged helper inside the
      sandbox, from its arguments to [exec].
    - [RunConfig] (foxprox-cli/src/run_config.rs): the configuration file.
    - [Cli] (foxprox-cli/src/main.rs): the arguments of the commands, the rules and
      configurations they build, the [bwrap] command line.
    - [SetupSocket], [Launcher], [Icmp], [Commands] (foxprox-cli/src/main.rs): the
      socket on which a command waits for the helper, behind the class
      [SetupSteps]; [foxprox run]; the ICMP packet loop; the other proof commands,
      the dispatch and [main].
    - [EndToEnd]: the file, the launcher, the broker and the proxies put together.
    - [Totality]: every parser of hostile input, in one statement.
    - [CoreTests], [ProxyTests], [NetTests], [CliTests]: the unit tests of the crates,
      translated to booleans that are false where the test would panic, and run on
      the model ([core_tests_pass] and the like): the definitions compute what the
      authors of the code expect of it.

    ** What the theorems show

    - The whole.  The connections and datagrams that the broker and the proxies of a
      session send to the host network are those the sandbox asked for, allowed by a rule
      written in the configuration file (or, for connections to the launcher's own ports,
      by a rule the launcher adds), and in the audit log first ([EndToEnd]); the groups
      below are its parts.  The exception is the one the code makes: DNS queries to the
      broker are not put to the policy; they are recorded under a fixed allow and leave
      for the configured resolver only.
    - Decisions.  [evaluate] refines a declarative decision (guards, then the
      first matching rule, then the default); the guards hold against any rule
      list; hidden server names are denied unless some rule allows the address by
      itself; hostname rules need hostname evidence; CIDR masks are network membership.
    - Order of effects.  The proxy handlers resolve and connect only for an
      event that parses from the received bytes, that policy allows and whose
      decision is already in the audit log; the origin gets the path policy judged and
      the method up to the case of its letters; the egress adapter performs nothing for a denied context; the
      listeners announce themselves before they accept and never exceed the
      connection limit under any interleaving.  The TCP relay connects only for
      an allowed, audited event and moves payload only afterwards.  The UDP relay
      starts a worker only for a received, allowed and audited datagram or a query
      to the broker itself, and the worker does that job and no other.
    - Composition.  The combined runtime's history is an interleaving of component
      histories, each as its own specification permits ([Effects.Interleaves]), so
      one policy and one audit log govern its connections and datagrams, broker DNS
      excepted.
    - Parsers.  Every parser of hostile input is total (no panic, no endless
      loop), and the DNS, TLS, HTTP and SOCKS5 parsers invert the wire encodings
      of their well-formed inputs.
    - State.  The flow table refines an unbounded ledger, expiry partitions it;
      the DNS cache answers with the last unexpired insertion; the audit buffer
      is a bounded FIFO whose drain never loses an unwritten event; a JSON reader gets
      exactly the fields of the event back from its line, whatever they contain.
    - Streams.  The TCP relay is a bounded pipe in each direction: no byte is
      lost, repeated or reordered, buffers stay within their limits, and the
      counters of the closing audit record are the delivered lengths
      ([TcpStages.closes]).
    - Stages and deadlines.  However often it is polled, a TCP flow moves along its
      stages only (listening, inspecting, connecting, active, closed) and keeps the
      endpoints it was accepted with; past its deadline it leaves its stage at the
      next poll, where inspection and connection count from the start of the stage
      and relaying from the last byte ([TcpStages]).
    - Resources.  At every point of the combined loop the audit queue, the flow
      table and the pending buffers stay within the configured limits ([Bounds]);
      the limiters bound the threads ([Limiter]).  The DNS cache has no limit but
      the expiry of its entries.
    - Progress.  No error that a call returns stops the UDP relay's loop (a panic of
      [eprintln!] or of a spawn does), and an allowed datagram is handed to a worker
      whenever resources permit.
    - Binaries.  [foxprox run] builds, from a well-formed file, a configuration that
      the runtime accepts and whose added rules allow only the ports of the file; it
      passes its options to the helper so that the helper reads them back; it
      starts the broker only on the descriptor of a trusted peer.  The helper runs
      the target only after the network is set up, the broker is ready and the
      privileges are dropped.  Every command makes only the calls its arguments
      permit.
    - Packets.  [checksum16] is the Internet checksum, echo replies are exactly
      the answers of RFC 792 to requests for the local address.

    ** Fuel

    Recursion that is not structural takes fuel, and a theorem excludes
    [OutOfFuel]: DNS names use 145 rounds (a name has at most 127 labels and 16
    compression jumps), the TLS and DNS loops use the number of bytes or records
    left, the flush and read loops of [Tcp] the bytes pending or still admitted,
    [read_proxy_head] one round per byte of its limit, [fold_carries]
    three rounds (two carries of a 32-bit sum).  [accept_connections] takes the
    number of connections served from the endless accept loop, and the theorems on
    the relays, the ICMP loop and the launcher's wait hold for any number of rounds.  The draining loops of a UDP
    round take fuel, and exhausting it means that many deliveries have arrived.

    ** Not modelled

    The configuration of the packet interface before the relays' loops (a
    parameter of the start-up programs, which [EndToEnd] takes to return and to
    send nothing to the host network); the text of diagnostic lines on stderr; the
    destructors that run while a thread unwinds (such as the removal of the setup
    socket) and what the panic of one thread does to the others; the channel on
    which a backend thread reports (its answer is any address or error);
    descriptors that close when the process ends; [escape_debug] of non-ASCII
    characters; scope ids of IPv6 addresses, paths that are not UTF-8 and
    arguments that are not ([env::args] panics on one). Of the unit tests, those
    that need a file system or threads of their own, and those of a full audit
    queue: the test build leaves records in the queue, the modelled build writes
    each at once, so that a full queue refuses nothing there
    ([AuditIo.record_event_never_full]). Parameters: hash-map iteration order, the
    TOML parser, every answer of the operating system. *)

From Stdlib Require Export ZArith Lia Bool.
From Stdlib Require Export Strings.Byte.
From stdpp Require Export base tactics list option numbers gmap strings fin_maps sorting.

Declare Scope rust_scope.
Delimit Scope rust_scope with rust.
Open Scope rust_scope.
Open Scope Z_scope.

(** ** Outcomes of Rust code

    [Ok]/[Err] are the two constructors of [std::result::Result]; [Panic] is
    the abort of an out-of-range index or slice, and [OutOfFuel] marks a loop
    whose fuel was too small, so a theorem that excludes both says that the
    code neither panics nor diverges. *)

Inductive Result (A E : Type) : Type :=
| Ok (a : A)
| Err (e : E)
| Panic
| OutOfFuel.

Arguments Ok {A E} a.
Arguments Err {A E} e.
Arguments Panic {A E}.
Arguments OutOfFuel {A E}.

(** The [?] operator. *)
Definition result_bind {A B E} (r : Result A E) (k : A -> Result B E) : Result B E :=
  match r with
  | Ok a => k a
  | Err e => Err e
  | Panic => Panic
  | OutOfFuel => OutOfFuel
  end.

Notation "'let?' p := r 'in' k" := (result_bind r (fun p => k))
  (at level 10, p strict pattern, r at level 200, k at level 200,
   format "'[v' 'let?'  p  :=  r  'in' '/' k ']'") : rust_scope.

Definition result_map {A B E} (f : A -> B) (r : Result A E) : Result B E :=
  match r with
  | Ok a => Ok (f a)
  | Err e => Err e
  | Panic => Panic
  | OutOfFuel => OutOfFuel
  end.

Definition map_err {A E F} (f : E -> F) (r : Result A E) : Result A F :=
  match r with
  | Ok a => Ok a
  | Err e => Err (f e)
  | Panic => Panic
  | OutOfFuel => OutOfFuel
  end.

Definition ok_or {A E} (o : option A) (e : E) : Result A E :=
  match o with
  | Some a => Ok a
  | None => Err e
  end.

(** Indexing and slicing that abort when out of range. *)
Definition or_panic {A E} (o : option A) : Result A E :=
  match o with
  | Some a => Ok a
  | None => Panic
  end.

(** [Result::ok]. *)
Definition result_ok {A E} (r : Result A E) : option A :=
  match r with
  | Ok a => Some a
  | _ => None
  end.

Definition is_ok {A E} (r : Result A E) : bool :=
  match r with
  | Ok _ => true
  | _ => false
  end.

(** The outcomes code is allowed to have: a value or an error it returns. *)
Definition returns {A E} (r : Result A E) : Prop :=
  match r with
  | Ok _ | Err _ => True
  | Panic | OutOfFuel => False
  end.

Fixpoint result_traverse {A B E} (f : A -> Result B E) (l : list A) : Result (list B) E :=
  match l with
  | [] => Ok []
  | x :: l =>
      let? y := f x in
      let? ys := result_traverse f l in
      Ok (y :: ys)
  end.

(** ** Bytes

    [u8] is [Byte.byte]; [u8_val] is its number and [u8_of] wraps modulo 256. *)

Definition u8_val (b : byte) : Z := Z.of_N (Byte.to_N b).

Definition u8_of (z : Z) : byte := default x00 (Byte.of_N (Z.to_N (z mod 256))).

(** Big-endian numbers: [uN::from_be_bytes] and [uN::to_be_bytes]. *)
Definition be_val (bs : list byte) : Z :=
  fold_left (fun acc b => acc * 256 + u8_val b) bs 0.

Fixpoint be_bytes (n : nat) (z : Z) : list byte :=
  match n with
  | O => []
  | S n => be_bytes n (z / 256) ++ [u8_of z]
  end.

(** [bs.get(i..j)]. *)
Definition slice {A} (bs : list A) (i j : nat) : option (list A) :=
  if (i <=? j)%nat && (j <=? length bs)%nat then Some (take (j - i) (drop i bs)) else None.

(** Largest values of the unsigned widths. *)
Definition u16_max : Z := 65535.
Definition u32_max : Z := 4294967295.
Definition u64_max : Z := 18446744073709551615.
Definition u128_max : Z := 340282366920938463463374607431768211455.

(** [u64::saturating_add]. *)
Definition u64_saturating_add (a b : Z) : Z := Z.min (a + b) u64_max.

(** ** Instances *)

#[export] Instance byte_eq_dec : EqDecision byte.
Proof. intros x y. unfold Decision. apply Byte.byte_eq_dec. Defined.

#[export] Instance byte_countable : Countable byte :=
  inj_countable Byte.to_N Byte.of_N Byte.of_to_N.

#[export] Instance Result_eq_dec {A E} `{EqDecision A, EqDecision E} : EqDecision (Result A E).
Proof. solve_decision. Defined.

(** ** Tactics *)

(** Splits the matches and conditionals of a hypothesis and closes or
    substitutes the branches. *)
Ltac inv_result H :=
  unfold result_bind, ok_or, or_panic in H;
  repeat (case_match; simplify_eq/=; try done).

(** Checks a boolean fact of all 256 bytes. *)
Ltac by_bytes := let b := fresh "b" in intros b; destruct b; vm_compute; reflexivity.

(** Turns boolean comparisons in the context into propositions. *)
Ltac to_prop :=
  repeat match goal with
  | H : _ && _ = true |- _ => apply andb_prop in H; destruct H
  | H : _ || _ = false |- _ => apply orb_false_elim in H; destruct H
  | H : negb _ = true |- _ => apply negb_true_iff in H
  | H : negb _ = false |- _ => apply negb_false_iff in H
  | H : (_ <=? _)%nat = true |- _ => apply Nat.leb_le in H
  | H : (_ <=? _)%nat = false |- _ => apply Nat.leb_gt in H
  | H : (_ <? _)%nat = true |- _ => apply Nat.ltb_lt in H
  | H : (_ <? _)%nat = false |- _ => apply Nat.ltb_ge in H
  | H : (_ =? _)%nat = true |- _ => apply Nat.eqb_eq in H
  | H : (_ =? _)%nat = false |- _ => apply Nat.eqb_neq in H
  | H : (_ <=? _) = true |- _ => apply Z.leb_le in H
  | H : (_ <=? _) = false |- _ => apply Z.leb_gt in H
  | H : (_ <? _) = true |- _ => apply Z.ltb_lt in H
  | H : (_ <? _) = false |- _ => apply Z.ltb_ge in H
  | H : (_ =? _) = true |- _ => apply Z.eqb_eq in H
  | H : (_ =? _) = false |- _ => apply Z.eqb_neq in H
  | H : bool_decide _ = true |- _ => apply bool_decide_eq_true in H
  | H : bool_decide _ = false |- _ => apply bool_decide_eq_false in H
  end.

Create HintDb foxprox.
Create Rewrite HintDb foxprox.

(** ** Lemmas on bytes and numbers *)

Lemma u8_val_range (b : byte) : 0 <= u8_val b < 256.
Proof. unfold u8_val. pose proof (Byte.to_N_bounded b). lia. Qed.

Lemma u8_val_inj (a b : byte) : u8_val a = u8_val b -> a = b.
Proof.
  unfold u8_val. intros H%N2Z.inj.
  pose proof (Byte.of_to_N a) as Ha. rewrite H, Byte.of_to_N in Ha. congruence.
Qed.

Lemma u8_val_of (z : Z) : u8_val (u8_of z) = z mod 256.
Proof.
  unfold u8_of, u8_val. pose proof (Z.mod_pos_bound z 256 ltac:(lia)).
  destruct (Byte.of_N (Z.to_N (z mod 256))) as [b|] eqn:E.
  - apply Byte.to_of_N in E. cbn. rewrite E. lia.
  - apply Byte.of_N_None_iff in E. lia.
Qed.

Lemma u8_of_val (b : byte) : u8_of (u8_val b) = b.
Proof.
  apply u8_val_inj. rewrite u8_val_of. apply Z.mod_small, u8_val_range.
Qed.

Lemma u8_of_mod (z : Z) : u8_of (z mod 256) = u8_of z.
Proof. apply u8_val_inj. rewrite !u8_val_of. by rewrite Z.mod_mod by lia. Qed.

Lemma be_val_app (l1 l2 : list byte) :
  be_val (l1 ++ l2) = be_val l1 * 256 ^ Z.of_nat (length l2) + be_val l2.
Proof.
  unfold be_val. rewrite fold_left_app.
  generalize (fold_left (fun acc b => acc * 256 + u8_val b) l1 0). intros a.
  induction l2 as [|b l2 IH] using rev_ind; [cbn; lia|].
  rewrite !fold_left_app, length_app. cbn [fold_left length]. rewrite IH.
  rewrite Nat2Z.inj_add, Z.pow_add_r by lia.
  change (256 ^ Z.of_nat 1) with 256. ring.
Qed.

Lemma be_val_range (bs : list byte) : 0 <= be_val bs < 256 ^ Z.of_nat (length bs).
Proof.
  induction bs as [|b bs IH] using rev_ind; [cbn; lia|].
  rewrite be_val_app, length_app, Nat2Z.inj_add, Z.pow_add_r by lia.
  change (Z.of_nat (length [b])) with 1. rewrite Z.pow_1_r.
  change (be_val [b]) with (u8_val b).
  pose proof (u8_val_range b). lia.
Qed.

Lemma length_be_bytes (n : nat) (z : Z) : length (be_bytes n z) = n.
Proof. revert z. induction n; intros z; cbn; [done|]. rewrite length_app, IHn. cbn. lia. Qed.

Lemma be_val_bytes (n : nat) (z : Z) : be_val (be_bytes n z) = z mod 256 ^ Z.of_nat n.
Proof.
  revert z. induction n as [|n IH]; intros z; [cbn; by rewrite Z.mod_1_r|].
  cbn [be_bytes]. rewrite be_val_app, IH.
  change (length [u8_of z]) with 1%nat. change (be_val [u8_of z]) with (u8_val (u8_of z)).
  rewrite u8_val_of, Z.pow_1_r, Nat2Z.inj_succ, Z.pow_succ_r by lia.
  rewrite (Z.rem_mul_r z 256) by lia. lia.
Qed.

Lemma be_bytes_val (bs : list byte) : be_bytes (length bs) (be_val bs) = bs.
Proof.
  induction bs as [|b bs IH] using rev_ind; [done|].
  rewrite length_app. cbn [length]. rewrite Nat.add_comm. cbn [be_bytes Nat.add].
  rewrite be_val_app. change (length [b]) with 1%nat. rewrite Z.pow_1_r.
  change (be_val [b]) with (u8_val b).
  pose proof (u8_val_range b).
  rewrite Z.div_add_l, Z.div_small, Z.add_0_r by lia. rewrite IH.
  f_equal. f_equal. apply u8_val_inj. rewrite u8_val_of.
  rewrite Z.add_comm, Z.mod_add by lia. by apply Z.mod_small.
Qed.

Lemma be_val_bytes_small (n : nat) (z : Z) :
  0 <= z < 256 ^ Z.of_nat n -> be_val (be_bytes n z) = z.
Proof. intros H. rewrite be_val_bytes. by apply Z.mod_small. Qed.

Lemma be_val_inj (l1 l2 : list byte) :
  length l1 = length l2 -> be_val l1 = be_val l2 -> l1 = l2.
Proof. intros Hl H. rewrite <- (be_bytes_val l1), <- (be_bytes_val l2). congruence. Qed.

(** A big-endian pair combined with shift and or. *)
Lemma lor_shiftl_add (a b n : Z) :
  0 <= n -> 0 <= b < 2 ^ n -> Z.lor (Z.shiftl a n) b = a * 2 ^ n + b.
Proof.
  intros Hn Hb. rewrite <- Z.shiftl_mul_pow2 by lia.
  assert (Z.land (Z.shiftl a n) b = 0) as Hz.
  { apply Z.bits_inj'. intros i Hi. rewrite Z.land_spec, Z.shiftl_spec, Z.bits_0 by lia.
    destruct (Z.ltb_spec i n).
    - by rewrite Z.testbit_neg_r by lia.
    - rewrite <- (Z.mod_small b (2 ^ n)), Z.mod_pow2_bits_high by lia. apply andb_false_r. }
  rewrite <- Z.lxor_lor by done. symmetry. by apply Z.add_nocarry_lxor.
Qed.

(** ** Lemmas on slices *)

Lemma slice_Some {A} (l r : list A) (i j : nat) :
  slice l i j = Some r <->
  (i <= j <= length l)%nat /\ r = take (j - i) (drop i l).
Proof.
  unfold slice. destruct (i <=? j)%nat eqn:E1; destruct (j <=? length l)%nat eqn:E2;
    cbn; to_prop; split; intros H; destruct_and?; simplify_eq; try done; lia.
Qed.

Lemma slice_None {A} (l : list A) (i j : nat) :
  slice l i j = None <-> ~ (i <= j <= length l)%nat.
Proof.
  unfold slice. destruct (i <=? j)%nat eqn:E1; destruct (j <=? length l)%nat eqn:E2;
    cbn; to_prop; split; intros H; try done; try lia.
Qed.

Lemma length_slice {A} (l r : list A) (i j : nat) :
  slice l i j = Some r -> length r = (j - i)%nat.
Proof.
  intros [? ->]%slice_Some. rewrite length_take, length_drop. lia.
Qed.

Lemma slice_app_mid {A} (l1 l2 l3 : list A) (i j : nat) :
  i = length l1 -> j = (length l1 + length l2)%nat ->
  slice (l1 ++ l2 ++ l3) i j = Some l2.
Proof.
  intros -> ->. apply slice_Some. rewrite !length_app. split; [lia|].
  rewrite drop_app_length, Nat.add_comm, Nat.add_sub, take_app_length. done.
Qed.

(** Reading at an offset, in terms of what is left there. *)
Lemma slice_drop {A} (p a b : list A) (i : nat) :
  drop i p = a ++ b -> a <> [] -> slice p i (i + length a) = Some a.
Proof.
  intros H Ha. apply slice_Some. assert (0 < length a)%nat by (destruct a; [done|cbn; lia]).
  pose proof (f_equal length H) as Hl. rewrite length_drop, length_app in Hl.
  split; [lia|]. rewrite H, Nat.add_comm, Nat.add_sub, take_app_length. done.
Qed.

Lemma drop_next {A} (p a b : list A) (i : nat) :
  drop i p = a ++ b -> drop (i + length a) p = b.
Proof. intros H. by rewrite <- drop_drop, H, drop_app_length. Qed.

Lemma lookup_drop_head {A} (p b : list A) (x : A) (i : nat) :
  drop i p = x :: b -> p !! i = Some x.
Proof. intros H. rewrite <- (Nat.add_0_r i), <- lookup_drop, H. done. Qed.

(** ** Lemmas on results *)

Lemma result_bind_Ok {A B E} (r : Result A E) (k : A -> Result B E) (b : B) :
  result_bind r k = Ok b <-> exists a, r = Ok a /\ k a = Ok b.
Proof. destruct r; cbn; split; naive_solver. Qed.

Lemma result_bind_returns {A B E} (r : Result A E) (k : A -> Result B E) :
  returns r -> (forall a, r = Ok a -> returns (k a)) -> returns (result_bind r k).
Proof. destruct r; cbn; naive_solver. Qed.

Lemma ok_or_returns {A E} (o : option A) (e : E) : returns (ok_or o e).
Proof. by destruct o. Qed.

Lemma map_err_returns {A E F} (f : E -> F) (r : Result A E) :
  returns r -> returns (map_err f r).
Proof. by destruct r. Qed.

Lemma result_map_returns {A B E} (f : A -> B) (r : Result A E) :
  returns r -> returns (result_map f r).
Proof. by destruct r. Qed.

Lemma result_traverse_Ok {A B E} (f : A -> Result B E) (l : list A) (k : list B) :
  result_traverse f l = Ok k <-> Forall2 (fun x y => f x = Ok y) l k.
Proof.
  revert k. induction l as [|x l IH]; intros k; cbn.
  - split; [intros; simplify_eq; constructor|]. by inversion 1.
  - rewrite result_bind_Ok. setoid_rewrite result_bind_Ok. split.
    + intros (y & Hy & ys & Hys & ?). simplify_eq. constructor; [done|]. by apply IH.
    + inversion 1 as [|? y ? ys Hy Hys]; subst. apply IH in Hys. eauto.
Qed.

(** ** Hash maps

    [HashMap] iteration visits every value once in an order the standard
    library does not specify: the order is a parameter of the model. *)

Class IterOrder (K V : Type) `{Countable K} : Type := {
  values : gmap K V -> list V;
  values_perm : forall m, values m ≡ₚ (map_to_list m).*2
}.

Definition canonical_order (K V : Type) `{Countable K} : IterOrder K V :=
  {| values := fun m => (map_to_list m).*2; values_perm := fun m => reflexivity _ |}.

Lemma elem_of_values {K V} `{Countable K, !IterOrder K V} (m : gmap K V) (v : V) :
  v ∈ values m <-> exists k, m !! k = Some v.
Proof.
  rewrite values_perm, list_elem_of_fmap. split.
  - intros ([k w] & -> & Hin%elem_of_map_to_list). by exists k.
  - intros [k Hk]. exists (k, v). by rewrite elem_of_map_to_list.
Qed.

#[export] Hint Resolve ok_or_returns map_err_returns result_map_returns u8_val_range : foxprox.
#[export] Hint Rewrite @length_be_bytes u8_of_val u8_val_of : foxprox.
