(* ===== verification/Text.v ===== *)
(** * Rust strings

    [str] and [String] values are lists of UTF-8 bytes.  This file models the
    methods of [core::str] the broker calls.  UTF-8 is self-synchronising, so
    searching, splitting and trimming are done on bytes: a whitespace or
    delimiter encoding can only match at a character boundary. *)

From S2P Require Import Prelude.

Abbreviation str := (list byte).

Definition lit (s : string) : str := String.list_byte_of_string s.

(** ** ASCII classes and case *)

Definition in_range (lo hi : Z) (b : byte) : bool := (lo <=? u8_val b) && (u8_val b <=? hi).

Definition is_ascii_digit (b : byte) : bool := in_range 48 57 b.
Definition is_ascii_uppercase (b : byte) : bool := in_range 65 90 b.
Definition is_ascii_lowercase (b : byte) : bool := in_range 97 122 b.
Definition is_ascii_alphabetic (b : byte) : bool := is_ascii_uppercase b || is_ascii_lowercase b.
Definition is_ascii_alphanumeric (b : byte) : bool := is_ascii_digit b || is_ascii_alphabetic b.

(** Printable ASCII other than the space. *)
Definition is_ascii_graphic (b : byte) : bool := in_range 33 126 b.

Definition byte_to_lower (b : byte) : byte :=
  if is_ascii_uppercase b then u8_of (u8_val b + 32) else b.
Definition byte_to_upper (b : byte) : byte :=
  if is_ascii_lowercase b then u8_of (u8_val b - 32) else b.

Definition to_ascii_lowercase (s : str) : str := map byte_to_lower s.
Definition to_ascii_uppercase (s : str) : str := map byte_to_upper s.

Definition eq_ignore_ascii_case (a b : str) : bool :=
  bool_decide (to_ascii_lowercase a = to_ascii_lowercase b).

(** ** UTF-8 ([core::str::from_utf8], Unicode table 3-7) *)

Definition is_cont (b : byte) : bool := in_range 128 191 b.

Fixpoint utf8_valid (bs : list byte) : bool :=
  match bs with
  | [] => true
  | b0 :: r =>
      if in_range 0 127 b0 then utf8_valid r
      else if in_range 194 223 b0 then
        match r with
        | b1 :: r => is_cont b1 && utf8_valid r
        | _ => false
        end
      else if in_range 224 239 b0 then
        match r with
        | b1 :: b2 :: r =>
            (if u8_val b0 =? 224 then in_range 160 191 b1
             else if u8_val b0 =? 237 then in_range 128 159 b1
             else is_cont b1) && is_cont b2 && utf8_valid r
        | _ => false
        end
      else if in_range 240 244 b0 then
        match r with
        | b1 :: b2 :: b3 :: r =>
            (if u8_val b0 =? 240 then in_range 144 191 b1
             else if u8_val b0 =? 244 then in_range 128 143 b1
             else is_cont b1) && is_cont b2 && is_cont b3 && utf8_valid r
        | _ => false
        end
      else false
  end.

Definition from_utf8 (bs : list byte) : option str :=
  if utf8_valid bs then Some bs else None.

(** ** Prefixes, suffixes and searching *)

Fixpoint strip_prefix (p s : str) : option str :=
  match p, s with
  | [], _ => Some s
  | x :: p, y :: s => if bool_decide (x = y) then strip_prefix p s else None
  | _ :: _, [] => None
  end.

Definition strip_suffix (p s : str) : option str :=
  @rev byte <$> strip_prefix (rev p) (rev s).

Definition starts_with (p s : str) : bool := bool_decide (is_Some (strip_prefix p s)).
Definition ends_with (p s : str) : bool := bool_decide (is_Some (strip_suffix p s)).

(** [s.find(p)]: the byte offset of the first match. *)
Fixpoint find (p s : str) : option nat :=
  if starts_with p s then Some O
  else match s with
       | [] => None
       | _ :: s => S <$> find p s
       end.

Definition contains_byte (c : byte) (s : str) : bool := bool_decide (c ∈ s).

(** [s.split_once(c)] and [s.rsplit_once(c)] for a one-byte character. *)
Fixpoint split_once (c : byte) (s : str) : option (str * str) :=
  match s with
  | [] => None
  | x :: s =>
      if bool_decide (x = c) then Some ([], s)
      else match split_once c s with
           | Some (a, b) => Some (x :: a, b)
           | None => None
           end
  end.

Definition rsplit_once (c : byte) (s : str) : option (str * str) :=
  match split_once c (rev s) with
  | Some (a, b) => Some (rev b, rev a)
  | None => None
  end.

Definition push_head (x : byte) (ls : list str) : list str :=
  match ls with
  | [] => [[x]]
  | l :: ls => (x :: l) :: ls
  end.

(** [s.split(c)] for a one-byte character. *)
Fixpoint split_byte (c : byte) (s : str) : list str :=
  match s with
  | [] => [[]]
  | x :: s =>
      if bool_decide (x = c) then [] :: split_byte c s
      else push_head x (split_byte c s)
  end.

(** [s.split("\r\n")]. *)
Fixpoint split_crlf (s : str) : list str :=
  match s with
  | [] => [[]]
  | x :: s' =>
      match s' with
      | y :: r =>
          if bool_decide (x = x0d) && bool_decide (y = x0a) then [] :: split_crlf r
          else push_head x (split_crlf s')
      | [] => [[x]]
      end
  end.

(** [labels.join(sep)]. *)
Fixpoint join (sep : str) (ls : list str) : str :=
  match ls with
  | [] => []
  | [l] => l
  | l :: ls => l ++ sep ++ join sep ls
  end.

(** [s.replace(from, to)] for one-byte characters. *)
Definition replace_byte (from to : byte) (s : str) : str :=
  map (fun b => if bool_decide (b = from) then to else b) s.

(** ** Whitespace ([char::is_whitespace], the Unicode White_Space property) *)

Definition whitespace_encodings : list str :=
  [[x09]; [x0a]; [x0b]; [x0c]; [x0d]; [x20]; [xc2; x85]; [xc2; xa0]; [xe1; x9a; x80];
   [xe2; x80; x80]; [xe2; x80; x81]; [xe2; x80; x82]; [xe2; x80; x83]; [xe2; x80; x84];
   [xe2; x80; x85]; [xe2; x80; x86]; [xe2; x80; x87]; [xe2; x80; x88]; [xe2; x80; x89];
   [xe2; x80; x8a]; [xe2; x80; xa8]; [xe2; x80; xa9]; [xe2; x80; xaf]; [xe2; x81; x9f];
   [xe3; x80; x80]].

Fixpoint strip_any (ps : list str) (s : str) : option str :=
  match ps with
  | [] => None
  | p :: ps =>
      match strip_prefix p s with
      | Some r => Some r
      | None => strip_any ps s
      end
  end.

(** Every match removes a byte, so the length of [s] is enough fuel. *)
Fixpoint strip_all (ps : list str) (fuel : nat) (s : str) : str :=
  match fuel with
  | O => s
  | S fuel =>
      match strip_any ps s with
      | Some r => strip_all ps fuel r
      | None => s
      end
  end.

Definition trim_start (s : str) : str := strip_all whitespace_encodings (length s) s.
Definition trim_end (s : str) : str :=
  rev (strip_all (map (@rev byte) whitespace_encodings) (length s) (rev s)).
Definition trim (s : str) : str := trim_end (trim_start s).

(** [s.trim_end_matches(c)] for a one-byte character. *)
Definition trim_end_byte (c : byte) (s : str) : str :=
  rev (strip_all [[c]] (length s) (rev s)).

(** [s.split_whitespace()]: [cur] is the current word, reversed. *)
Fixpoint split_whitespace_loop (fuel : nat) (cur s : str) : list str :=
  let flush (k : list str) := match cur with [] => k | _ => rev cur :: k end in
  match fuel with
  | O => flush []
  | S fuel =>
      match s with
      | [] => flush []
      | x :: r =>
          match strip_any whitespace_encodings s with
          | Some r' => flush (split_whitespace_loop fuel [] r')
          | None => split_whitespace_loop fuel (x :: cur) r
          end
      end
  end.

Definition split_whitespace (s : str) : list str := split_whitespace_loop (S (length s)) [] s.

(** ** Numbers in text *)

Inductive IntErrorKind := IntEmpty | IntInvalidDigit | IntPosOverflow.

(** [<uN as FromStr>::from_str]: an optional [+], then decimal digits. *)
Fixpoint parse_digits (max acc : Z) (s : str) : Result Z IntErrorKind :=
  match s with
  | [] => Ok acc
  | d :: s =>
      if is_ascii_digit d then
        let acc := acc * 10 + (u8_val d - 48) in
        if acc <=? max then parse_digits max acc s else Err IntPosOverflow
      else Err IntInvalidDigit
  end.

Definition parse_uint (max : Z) (s : str) : Result Z IntErrorKind :=
  match s with
  | [] => Err IntEmpty
  | [x2b] | [x2d] => Err IntInvalidDigit
  | x2b :: s => parse_digits max 0 s
  | s => parse_digits max 0 s
  end.

(** Digits of [n] in a base, most significant first. *)
Definition digit_char (d : Z) : byte := if d <? 10 then u8_of (48 + d) else u8_of (87 + d).

Fixpoint print_base (base : Z) (fuel : nat) (n : Z) (acc : str) : str :=
  match fuel with
  | O => acc
  | S fuel =>
      let acc := digit_char (n mod base) :: acc in
      if n / base =? 0 then acc else print_base base fuel (n / base) acc
  end.

(** [to_string()] of an unsigned integer of at most 128 bits (39 digits). *)
Definition dec (n : Z) : str := print_base 10 40 n [].
Definition hex (n : Z) : str := print_base 16 40 n [].

(** ** [Debug] of strings

    [impl Debug for str] with [char::escape_debug]; characters outside ASCII
    are printed as they are (the printability tables of [core::unicode] are
    not modelled). *)

Definition escape_debug_byte (b : byte) : str :=
  let v := u8_val b in
  if v =? 0 then lit "\0"
  else if v =? 9 then lit "\t"
  else if v =? 10 then lit "\n"
  else if v =? 13 then lit "\r"
  else if v =? 34 then x5c :: [x22]
  else if v =? 92 then lit "\\"
  else if (v <? 32) || (v =? 127) then lit "\u{" ++ hex v ++ lit "}"
  else [b].

Definition debug_str (s : str) : str := [x22] ++ flat_map escape_debug_byte s ++ [x22].

Definition debug_option {A} (f : A -> str) (o : option A) : str :=
  match o with
  | Some a => lit "Some(" ++ f a ++ lit ")"
  | None => lit "None"
  end.

(** ** Lemmas: bytes *)

Lemma byte_to_lower_idemp (b : byte) : byte_to_lower (byte_to_lower b) = byte_to_lower b.
Proof. revert b. by_bytes. Qed.

Lemma to_ascii_lowercase_idemp (s : str) :
  to_ascii_lowercase (to_ascii_lowercase s) = to_ascii_lowercase s.
Proof. unfold to_ascii_lowercase. rewrite map_map. apply map_ext, byte_to_lower_idemp. Qed.

Lemma byte_to_upper_idemp (b : byte) : byte_to_upper (byte_to_upper b) = byte_to_upper b.
Proof. revert b. by_bytes. Qed.

Lemma to_ascii_uppercase_idemp (s : str) :
  to_ascii_uppercase (to_ascii_uppercase s) = to_ascii_uppercase s.
Proof. unfold to_ascii_uppercase. rewrite map_map. apply map_ext, byte_to_upper_idemp. Qed.

Lemma graphic_not_ws (b : byte) (s : str) :
  is_ascii_graphic b = true -> strip_any whitespace_encodings (b :: s) = None.
Proof. destruct b; vm_compute; intros; try done; by destruct s. Qed.

Lemma graphic_not_ws_rev (b : byte) (s : str) :
  is_ascii_graphic b = true -> strip_any (map (@rev byte) whitespace_encodings) (b :: s) = None.
Proof. destruct b; vm_compute; intros; try done; by destruct s. Qed.

Lemma utf8_valid_ascii (s : str) : Forall (fun b => in_range 0 127 b = true) s -> utf8_valid s = true.
Proof. induction 1 as [|b s Hb _ IH]; [done|]. cbn [utf8_valid]. by rewrite Hb. Qed.

Lemma graphic_ascii (b : byte) : is_ascii_graphic b = true -> in_range 0 127 b = true.
Proof. revert b. intros b; destruct b; vm_compute; done. Qed.

Lemma utf8_valid_graphic (s : str) : Forall (fun b => is_ascii_graphic b = true) s -> utf8_valid s = true.
Proof. intros H. apply utf8_valid_ascii. eapply Forall_impl; [done|]. intros b. apply graphic_ascii. Qed.

Lemma alphanumeric_graphic (b : byte) : is_ascii_alphanumeric b = true -> is_ascii_graphic b = true.
Proof. destruct b; vm_compute; done. Qed.

(** ** Lemmas: prefixes and suffixes *)

Lemma strip_prefix_Some (p s r : str) : strip_prefix p s = Some r <-> s = p ++ r.
Proof.
  revert s. induction p as [|x p IH]; intros s; cbn; [naive_solver|].
  destruct s as [|y s]; [naive_solver|]. case_bool_decide; subst.
  - rewrite IH. naive_solver.
  - naive_solver.
Qed.

Lemma strip_prefix_app (p r : str) : strip_prefix p (p ++ r) = Some r.
Proof. by apply strip_prefix_Some. Qed.

Lemma strip_suffix_Some (p s r : str) : strip_suffix p s = Some r <-> s = r ++ p.
Proof.
  unfold strip_suffix. rewrite fmap_Some. split.
  - intros (t & H & ->). apply strip_prefix_Some in H.
    apply (f_equal (@rev byte)) in H. by rewrite rev_app_distr, !rev_involutive in H.
  - intros ->. exists (rev r). rewrite rev_involutive, rev_app_distr. split; [|done].
    apply strip_prefix_app.
Qed.

Lemma starts_with_true (p s : str) : starts_with p s = true <-> exists r, s = p ++ r.
Proof. unfold starts_with. rewrite bool_decide_eq_true. unfold is_Some. by setoid_rewrite strip_prefix_Some. Qed.

Lemma ends_with_true (p s : str) : ends_with p s = true <-> exists r, s = r ++ p.
Proof. unfold ends_with. rewrite bool_decide_eq_true. unfold is_Some. by setoid_rewrite strip_suffix_Some. Qed.

(** [find] returns the offset of the first match. *)
Lemma find_Some (p s : str) (n : nat) :
  find p s = Some n <->
  (exists r, drop n s = p ++ r) /\ (n <= length s)%nat /\
  forall m, (m < n)%nat -> starts_with p (drop m s) = false.
Proof.
  revert n. induction s as [|x s IH]; intros n; cbn [find].
  - destruct (starts_with p []) eqn:E.
    + split; [intros [= <-]|].
      * apply starts_with_true in E. cbn. split; [done|]. split; [lia|]. intros; lia.
      * intros (_ & H & _). f_equal. cbn in H. lia.
    + split; [done|]. intros ([r Hr] & _). exfalso. rewrite drop_nil in Hr.
      apply not_true_iff_false in E. apply E, starts_with_true. eauto.
  - destruct (starts_with p (x :: s)) eqn:E.
    + split; [intros [= <-]|].
      * apply starts_with_true in E. cbn. split; [done|]. split; [lia|]. intros; lia.
      * intros (_ & _ & H). destruct n; [done|]. specialize (H O ltac:(lia)). cbn [drop] in H. congruence.
    + rewrite fmap_Some. setoid_rewrite IH. split.
      * intros (m & (? & ? & Hm) & ->). cbn. split; [done|]. split; [lia|].
        intros [|k] ?; cbn; [done|]. apply Hm. lia.
      * intros ([r Hr] & Hn & Hm). destruct n as [|n].
        { exfalso. cbn in Hr. apply not_true_iff_false in E. apply E, starts_with_true. eauto. }
        exists n. cbn in *. split; [|done]. split; [eauto|]. split; [lia|].
        intros m ?. apply (Hm (S m)). lia.
Qed.

(** ** Lemmas: trimming *)

Lemma strip_any_None_all (ps : list str) (fuel : nat) (s : str) :
  strip_any ps s = None -> strip_all ps fuel s = s.
Proof. intros H. destruct fuel; cbn; [done|]. by rewrite H. Qed.

Lemma trim_graphic (a : byte) (s : str) (z : byte) :
  is_ascii_graphic a = true -> is_ascii_graphic z = true ->
  (exists m, s = a :: m) -> (exists m, s = m ++ [z]) -> trim s = s.
Proof.
  intros Ha Hz [m ->] [k Hk]. unfold trim, trim_start.
  rewrite strip_any_None_all by by apply graphic_not_ws.
  unfold trim_end. rewrite Hk, rev_app_distr. cbn [rev app].
  rewrite strip_any_None_all by by apply graphic_not_ws_rev.
  cbn [rev]. by rewrite rev_involutive.
Qed.

(** A string of graphic bytes is left alone by [trim]. *)
Lemma trim_all_graphic (s : str) :
  Forall (fun b => is_ascii_graphic b = true) s -> trim s = s.
Proof.
  intros H. destruct s as [|a s]; [done|].
  destruct (exists_last (l := a :: s) ltac:(done)) as (m & z & Hz).
  eapply (trim_graphic a _ z); eauto; [by inversion H|].
  rewrite Hz in H. apply Forall_app in H as [_ H]. by inversion H.
Qed.

Lemma trim_end_byte_id (c z : byte) (m : str) :
  z <> c -> trim_end_byte c (m ++ [z]) = m ++ [z].
Proof.
  intros H. unfold trim_end_byte. rewrite rev_app_distr. cbn [rev app].
  rewrite strip_any_None_all; [cbn; by rewrite rev_involutive|].
  cbn. rewrite bool_decide_eq_false_2 by congruence. done.
Qed.

(** ** Lemmas: splitting and joining *)

Lemma split_byte_nonempty (c : byte) (s : str) : split_byte c s <> [].
Proof.
  destruct s; cbn; [done|]. case_bool_decide; [done|].
  destruct (split_byte c s); done.
Qed.

Lemma join_split_byte (c : byte) (s : str) : join [c] (split_byte c s) = s.
Proof.
  induction s as [|x s IH]; cbn; [done|].
  pose proof (split_byte_nonempty c s) as Hne.
  case_bool_decide; subst; destruct (split_byte c s) as [|l ls]; try done; cbn in *.
  - by rewrite IH.
  - destruct ls; cbn in *; congruence.
Qed.

Lemma split_byte_no_sep (c : byte) (s : str) : Forall (fun l => c ∉ l) (split_byte c s).
Proof.
  induction s as [|x s IH]; cbn; [repeat constructor; set_solver|].
  case_bool_decide; [constructor; [set_solver|done]|].
  destruct (split_byte c s) as [|l ls]; cbn.
  - repeat constructor. set_solver.
  - inversion IH; subst. constructor; [set_solver|done].
Qed.

Lemma split_byte_single (c : byte) (l : str) : c ∉ l -> split_byte c l = [l].
Proof.
  induction l as [|x l IH]; intros H; cbn; [done|].
  apply not_elem_of_cons in H as [? ?]. rewrite bool_decide_eq_false_2 by congruence.
  by rewrite IH.
Qed.

Lemma split_byte_app (c : byte) (l r : str) :
  c ∉ l -> split_byte c (l ++ c :: r) = l :: split_byte c r.
Proof.
  induction l as [|x l IH]; intros H; cbn.
  - by rewrite bool_decide_eq_true_2.
  - apply not_elem_of_cons in H as [? ?]. rewrite bool_decide_eq_false_2 by congruence.
    by rewrite IH.
Qed.

Lemma split_join_byte (c : byte) (ls : list str) :
  ls <> [] -> Forall (fun l => c ∉ l) ls -> split_byte c (join [c] ls) = ls.
Proof.
  induction ls as [|l ls IH]; intros Hne H; [done|]. inversion H; subst.
  destruct ls as [|l' ls]; [by apply split_byte_single|].
  transitivity (l :: split_byte c (join [c] (l' :: ls))); [|by rewrite IH].
  by apply split_byte_app.
Qed.

Lemma Forall_join (P : byte -> Prop) (c : byte) (ls : list str) :
  P c -> Forall (Forall P) ls -> Forall P (join [c] ls).
Proof.
  intros Hc. induction 1 as [|l ls Hl H IH]; cbn; [constructor|].
  destruct ls; [done|]. apply Forall_app; split; [done|]. by constructor.
Qed.

Lemma map_split_byte (f : byte -> byte) (c : byte) (s : str) :
  (forall b, f b = c <-> b = c) -> split_byte c (map f s) = map (map f) (split_byte c s).
Proof.
  intros Hf. induction s as [|x s IH]; cbn; [done|]. rewrite IH.
  pose proof (Hf x) as Hx. case_bool_decide; case_bool_decide; try naive_solver.
  destruct (split_byte c s); done.
Qed.

Lemma split_once_Some (c : byte) (s a b : str) :
  split_once c s = Some (a, b) <-> s = a ++ c :: b /\ c ∉ a.
Proof.
  revert a. induction s as [|x s IH]; intros a; cbn; [split; [done|]; intros [H ?]; by destruct a|].
  case_bool_decide as Hx.
  - subst. split; [intros; simplify_eq; split; [done|set_solver]|].
    intros [H Ha]. destruct a as [|y a]; cbn in H; simplify_eq; [done|]. set_solver.
  - destruct (split_once c s) as [[a' b']|] eqn:E.
    + split.
      * intros; simplify_eq. destruct (proj1 (IH a') eq_refl) as [-> ?]. split; [done|]. set_solver.
      * intros [H Ha]. destruct a as [|y a]; cbn in H; simplify_eq.
        assert (Some (a', b') = Some (a, b)) as [= -> ->]; [|done].
        apply IH. set_solver.
    + split; [done|]. intros [H Ha]. destruct a as [|y a]; cbn in H; simplify_eq.
      assert (None = Some (a, b)); [|done]. apply IH. set_solver.
Qed.

Lemma rsplit_once_Some (c : byte) (s a b : str) :
  rsplit_once c s = Some (a, b) <-> s = a ++ c :: b /\ c ∉ b.
Proof.
  unfold rsplit_once. destruct (split_once c (rev s)) as [[x y]|] eqn:E.
  - apply split_once_Some in E as [H Hx]. apply (f_equal (@rev byte)) in H.
    rewrite rev_involutive, rev_app_distr in H. cbn in H. rewrite <- app_assoc in H. cbn in H.
    split.
    + intros; simplify_eq. split; [done|]. by rewrite list_elem_of_In, <- in_rev, <- list_elem_of_In.
    + intros [H' Hb]. enough (split_once c (rev s) = Some (rev b, rev a)) as E'.
      { assert (split_once c (rev s) = Some (x, y)) as E''.
        { apply split_once_Some. split; [|done]. rewrite H, rev_app_distr. cbn.
          by rewrite !rev_involutive, <- app_assoc. }
        rewrite E' in E''. simplify_eq. by rewrite !rev_involutive. }
      apply split_once_Some. rewrite H', rev_app_distr. cbn. rewrite <- app_assoc. split; [done|].
      by rewrite list_elem_of_In, <- in_rev, <- list_elem_of_In.
  - split; [done|]. intros [H' Hb].
    assert (split_once c (rev s) = Some (rev b, rev a)) as E'; [|congruence].
    apply split_once_Some. rewrite H', rev_app_distr. cbn. rewrite <- app_assoc. split; [done|].
    by rewrite list_elem_of_In, <- in_rev, <- list_elem_of_In.
Qed.

Lemma split_byte_app_sep (c : byte) (a b : str) :
  split_byte c (a ++ c :: b) = split_byte c a ++ split_byte c b.
Proof.
  induction a as [|x a IH]; cbn.
  - by rewrite bool_decide_eq_true_2.
  - rewrite IH. case_bool_decide; [done|].
    pose proof (split_byte_nonempty c a). by destruct (split_byte c a).
Qed.

Lemma join_app (c : byte) (l1 l2 : list str) :
  l1 <> [] -> l2 <> [] -> join [c] (l1 ++ l2) = join [c] l1 ++ c :: join [c] l2.
Proof.
  intros H1 H2. induction l1 as [|x l1 IH]; [done|].
  destruct l1 as [|y l1].
  - destruct l2; done.
  - change (join [c] ((x :: y :: l1) ++ l2)) with (x ++ [c] ++ join [c] ((y :: l1) ++ l2)).
    change (join [c] (x :: y :: l1)) with (x ++ [c] ++ join [c] (y :: l1)).
    rewrite IH by done. by rewrite <- !app_assoc.
Qed.

Lemma ends_with_byte (c : byte) (s : str) :
  ends_with [c] s = true <-> exists r, s = r ++ [c].
Proof. apply ends_with_true. Qed.

Lemma starts_with_byte_map (c : byte) (f : byte -> byte) (s : str) :
  (forall b, f b = c <-> b = c) -> starts_with [c] (map f s) = starts_with [c] s.
Proof.
  intros Hf. unfold starts_with. apply bool_decide_ext.
  destruct s as [|x s]; cbn; [done|]. pose proof (Hf x).
  repeat case_bool_decide; naive_solver.
Qed.

Lemma ends_with_rev (p s : str) : ends_with p s = starts_with (rev p) (rev s).
Proof.
  unfold ends_with, starts_with, strip_suffix. apply bool_decide_ext. by rewrite fmap_is_Some.
Qed.

Lemma ends_with_byte_map (c : byte) (f : byte -> byte) (s : str) :
  (forall b, f b = c <-> b = c) -> ends_with [c] (map f s) = ends_with [c] s.
Proof.
  intros Hf. rewrite !ends_with_rev, <- map_rev. cbn [rev app]. by apply starts_with_byte_map.
Qed.

Lemma length_to_ascii_lowercase (s : str) : length (to_ascii_lowercase s) = length s.
Proof. apply length_map. Qed.

(** ** Lemmas: numbers in text *)

Lemma parse_digits_returns (max : Z) (s : str) : forall acc, returns (parse_digits max acc s).
Proof. induction s as [|d s IH]; intros acc; cbn; [done|]. repeat case_match; auto; done. Qed.

Lemma parse_uint_returns (max : Z) (s : str) : returns (parse_uint max s).
Proof.
  unfold parse_uint. destruct s as [|b s]; [done|].
  repeat case_match; try done; apply parse_digits_returns.
Qed.

Lemma digit_char_spec (d : Z) :
  0 <= d < 10 -> is_ascii_digit (digit_char d) = true /\ u8_val (digit_char d) - 48 = d.
Proof.
  intros H. unfold digit_char. rewrite (proj2 (Z.ltb_lt _ _)) by lia.
  unfold is_ascii_digit, in_range. rewrite u8_val_of, Z.mod_small by lia.
  rewrite andb_true_iff, !Z.leb_le. lia.
Qed.

Lemma print_base_10_digits (fuel : nat) : forall n acc,
  Forall (fun b => is_ascii_digit b = true) acc ->
  Forall (fun b => is_ascii_digit b = true) (print_base 10 fuel n acc).
Proof.
  induction fuel as [|fuel IH]; intros n acc Hacc; cbn [print_base]; [done|].
  pose proof (Z.mod_pos_bound n 10 ltac:(lia)).
  assert (Forall (fun b => is_ascii_digit b = true) (digit_char (n mod 10) :: acc))
    by (constructor; [by apply digit_char_spec|done]).
  case_match; [done|]. by apply IH.
Qed.

Lemma parse_print_base (max : Z) (fuel : nat) : forall n acc,
  0 <= n <= max -> n < 10 ^ Z.of_nat fuel ->
  parse_digits max 0 (print_base 10 fuel n acc) = parse_digits max n acc.
Proof.
  induction fuel as [|fuel IH]; intros n acc Hn Hf; cbn [print_base].
  - cbn in Hf. by replace n with 0 by lia.
  - pose proof (Z.mod_pos_bound n 10 ltac:(lia)) as Hm. pose proof (Z.div_mod n 10 ltac:(lia)) as Hdm.
    destruct (digit_char_spec (n mod 10) Hm) as [Hd Hv].
    case_match eqn:Hz.
    + to_prop. cbn [parse_digits]. rewrite Hd, Hv, (proj2 (Z.leb_le _ _)) by lia. f_equal. lia.
    + rewrite IH.
      * cbn [parse_digits]. rewrite Hd, Hv, (proj2 (Z.leb_le _ _)) by lia. f_equal. lia.
      * split; [apply Z.div_pos; lia|]. etransitivity; [|apply Hn]. apply Z.div_le_upper_bound; lia.
      * rewrite Nat2Z.inj_succ, Z.pow_succ_r in Hf by lia. apply Z.div_lt_upper_bound; lia.
Qed.

Lemma dec_digits (n : Z) : Forall (fun b => is_ascii_digit b = true) (dec n).
Proof. apply print_base_10_digits. constructor. Qed.

Lemma dec_nonempty (n : Z) : dec n <> [].
Proof.
  assert (forall f n acc, acc <> [] -> print_base 10 f n acc <> []) as H.
  { induction f; intros m acc Ha; cbn [print_base]; [done|]. case_match; [done|]. by apply IHf. }
  assert (exists f, 40%nat = S f) as [f E] by by eexists. unfold dec. rewrite E. cbn [print_base].
  case_match; [done|]. by apply H.
Qed.

(** Printing a number in decimal and parsing it returns it. *)
Lemma parse_uint_dec (max n : Z) :
  0 <= n <= max -> n < 10 ^ 40 -> parse_uint max (dec n) = Ok n.
Proof.
  intros Hn Hb. pose proof (dec_nonempty n) as Hne. pose proof (dec_digits n) as Hd.
  assert (parse_digits max 0 (dec n) = Ok n) as Hp by (unfold dec; by rewrite parse_print_base).
  unfold parse_uint. destruct (dec n) as [|b s]; [done|]. apply Forall_cons in Hd as [Hb0 _].
  destruct b; try (vm_compute in Hb0; discriminate Hb0); destruct s; done.
Qed.

Lemma digit_graphic (b : byte) : is_ascii_digit b = true -> is_ascii_graphic b = true.
Proof. destruct b; vm_compute; done. Qed.

(** ** Lemmas: trimming and words *)

Definition graphic (s : str) : Prop := Forall (fun b => is_ascii_graphic b = true) s.

Lemma trim_leading_space (s : str) : graphic s -> trim (x20 :: s) = s.
Proof.
  intros H. rewrite <- (trim_all_graphic s H) at 2. reflexivity.
Qed.

Lemma split_whitespace_word (w : str) : forall fuel cur s, graphic w ->
  split_whitespace_loop (length w + fuel) cur (w ++ s) = split_whitespace_loop fuel (rev w ++ cur) s.
Proof.
  induction w as [|b w IH]; intros fuel cur s H; [done|].
  apply Forall_cons in H as [Hb H]. cbn [length Nat.add app split_whitespace_loop].
  rewrite graphic_not_ws by done. rewrite IH by done. cbn [rev]. by rewrite <- app_assoc.
Qed.

(** Words of printable ASCII separated by single spaces. *)
Lemma split_whitespace_words (ws : list str) : forall fuel,
  Forall (fun w => w <> [] /\ graphic w) ws -> ws <> [] -> (length (join [x20] ws) < fuel)%nat ->
  split_whitespace_loop fuel [] (join [x20] ws) = ws.
Proof.
  induction ws as [|w ws IH]; intros fuel H Hne Hf; [done|].
  apply Forall_cons in H as [[Hw Hg] H].
  assert (exists a z, rev w = a :: z) as (a & z & Hr).
  { destruct (rev w) eqn:E; [|eauto]. apply (f_equal (@rev byte)) in E. rewrite rev_involutive in E. done. }
  destruct ws as [|w' ws].
  - cbn [join] in *. replace fuel with (length w + S (fuel - length w - 1))%nat by lia.
    pose proof (split_whitespace_word w (S (fuel - length w - 1)) [] [] Hg) as E.
    rewrite !app_nil_r in E. rewrite E. cbn [split_whitespace_loop]. rewrite Hr. rewrite <- Hr, rev_involutive. done.
  - change (join [x20] (w :: w' :: ws)) with (w ++ x20 :: join [x20] (w' :: ws)) in *.
    rewrite length_app in Hf. cbn [length] in Hf.
    replace fuel with (length w + S (fuel - length w - 1))%nat by lia.
    rewrite split_whitespace_word by done. cbn [split_whitespace_loop].
    set (rest := join [x20] (w' :: ws)) in *.
    replace (strip_any whitespace_encodings (x20 :: rest)) with (Some rest) by (by vm_compute).
    rewrite app_nil_r, Hr. rewrite <- Hr, rev_involutive. subst rest. rewrite IH; [done|done|done|lia].
Qed.

(** No part of [w] from some place on starts with whitespace. *)
Definition unspaced (w s : str) : Prop :=
  forall m t, w = m ++ t -> t <> [] -> strip_any whitespace_encodings (t ++ s) = None.

Lemma strip_any_app_None (ps : list str) (t s : str) : strip_any ps (t ++ s) = None -> strip_any ps t = None.
Proof.
  induction ps as [|p ps IH]; cbn; [done|]. destruct (strip_prefix p t) as [r|] eqn:E.
  - apply strip_prefix_Some in E as ->. by rewrite <- app_assoc, strip_prefix_app.
  - destruct (strip_prefix p (t ++ s)); [done|exact IH].
Qed.

Lemma strip_any_elem (ps : list str) (p : str) : p ∈ ps -> is_Some (strip_any ps p).
Proof.
  induction ps as [|q ps IH]; intros H; [by apply not_elem_of_nil in H|]. cbn.
  destruct (strip_prefix q p) eqn:E; [by eexists|]. apply elem_of_cons in H as [->|H]; [|by apply IH].
  rewrite <- (app_nil_r q) in E at 2. by rewrite strip_prefix_app in E.
Qed.

(** The words of a text have no whitespace in them. *)
Lemma split_whitespace_unspaced (fuel : nat) : forall cur s w,
  unspaced (rev cur) s -> w ∈ split_whitespace_loop fuel cur s -> unspaced w [].
Proof.
  assert (forall cur s, unspaced (rev cur) s -> unspaced (rev cur) []) as Hflush.
  { intros cur s H m t E Ht. rewrite app_nil_r. eapply strip_any_app_None. by apply (H m). }
  induction fuel as [|fuel IH]; intros cur s w H Hw; cbn [split_whitespace_loop] in Hw.
  { destruct cur; [by apply not_elem_of_nil in Hw|]. apply list_elem_of_singleton in Hw as ->. by eapply Hflush. }
  destruct s as [|x r].
  { destruct cur; [by apply not_elem_of_nil in Hw|]. apply list_elem_of_singleton in Hw as ->. by eapply Hflush. }
  destruct (strip_any _ _) as [r'|] eqn:E.
  - assert (w ∈ split_whitespace_loop fuel [] r' -> unspaced w []) as Hrest.
    { apply IH. intros m t Em Ht. by destruct m, t. }
    destruct cur; [by apply Hrest|]. apply elem_of_cons in Hw as [->|Hw]; [by eapply Hflush|by apply Hrest].
  - eapply IH; [|exact Hw]. intros m t Em Ht. cbn [rev] in Em.
    destruct t as [|z t _] using rev_ind; [done|]. rewrite app_assoc in Em. apply app_inj_tail in Em as [Em <-].
    rewrite <- app_assoc. cbn [app]. destruct t as [|y t]; [exact E|]. by apply (H m).
Qed.

(** So a word is left alone by [trim]. *)
Lemma split_whitespace_trim (s w : str) : w ∈ split_whitespace s -> trim w = w.
Proof.
  intros Hw. assert (unspaced w []) as H.
  { eapply split_whitespace_unspaced; [|exact Hw]. intros m t Em Ht. by destruct m, t. }
  unfold trim, trim_start. rewrite strip_any_None_all.
  2:{ destruct w; [done|]. rewrite <- (app_nil_r (_ :: _)). by apply (H []). }
  unfold trim_end. rewrite strip_any_None_all; [apply rev_involutive|].
  assert (forall ps, Forall (fun p => p ∈ whitespace_encodings) ps ->
    strip_any (map (@rev byte) ps) (rev w) = None) as Hrev; [|apply Hrev, Forall_forall; done].
  intros ps Hps. induction Hps as [|p ps Hp _ IH]; [done|]. cbn [map strip_any].
  destruct (strip_prefix (rev p) (rev w)) as [r|] eqn:E; [|exact IH]. exfalso.
  apply strip_prefix_Some, (f_equal (@rev byte)) in E. rewrite rev_app_distr, !rev_involutive in E.
  destruct (strip_any_elem _ p Hp) as [r' Hr].
  rewrite <- (app_nil_r p), (H (rev r) p E) in Hr; [done|]. intros ->. by vm_compute in Hr.
Qed.

(** ** Lemmas: lines *)

Definition line_wf (l : str) : Prop := l <> [] /\ x0d ∉ l.

Definition crlf : str := [x0d; x0a].

Lemma split_crlf_line (l : str) : x0d ∉ l -> split_crlf l = [l].
Proof.
  induction l as [|x l IH]; intros H; [done|]. apply not_elem_of_cons in H as [Hx H].
  cbn [split_crlf]. destruct l as [|y r]; [done|].
  rewrite (bool_decide_eq_false_2 (x = x0d)) by congruence. cbn [andb]. by rewrite IH.
Qed.

Lemma split_crlf_app (l r : str) : x0d ∉ l -> split_crlf (l ++ crlf ++ r) = l :: split_crlf r.
Proof.
  induction l as [|x l IH]; intros H; [done|]. apply not_elem_of_cons in H as [Hx H].
  cbn [app split_crlf]. destruct (l ++ crlf ++ r) as [|y s] eqn:E; [by destruct l|].
  rewrite (bool_decide_eq_false_2 (x = x0d)) by congruence. cbn [andb].
  rewrite IH by done. done.
Qed.

Lemma split_crlf_join (ls : list str) :
  ls <> [] -> Forall (fun l => x0d ∉ l) ls -> split_crlf (join crlf ls) = ls.
Proof.
  induction ls as [|l ls IH]; intros Hne H; [done|]. apply Forall_cons in H as [Hl H].
  destruct ls as [|l' ls]; [by apply split_crlf_line|].
  change (join crlf (l :: l' :: ls)) with (l ++ crlf ++ join crlf (l' :: ls)).
  rewrite split_crlf_app by done. by rewrite IH.
Qed.

Lemma starts_with_head_ne (p s : str) (a b : byte) :
  a <> b -> starts_with (a :: p) (b :: s) = false.
Proof.
  intros H. apply not_true_iff_false. rewrite starts_with_true. intros [r Hr]. cbn in Hr. congruence.
Qed.

Lemma find_skip_line (p l s : str) : x0d ∉ l ->
  find (x0d :: p) (l ++ s) = (fun n => length l + n)%nat <$> find (x0d :: p) s.
Proof.
  induction l as [|b l IH]; intros H.
  - cbn [app length Nat.add]. by destruct (find _ s).
  - apply not_elem_of_cons in H as [Hb H]. cbn [app find].
    rewrite starts_with_head_ne by done. rewrite IH by done. by destruct (find _ s).
Qed.

Lemma find_step (p s : str) (x : byte) :
  starts_with p (x :: s) = false -> find p (x :: s) = S <$> find p s.
Proof. intros H. cbn [find]. by rewrite H. Qed.

Lemma find_here (p s : str) : find p (p ++ s) = Some 0%nat.
Proof.
  assert (starts_with p (p ++ s) = true) as H by (apply starts_with_true; eauto).
  destruct (p ++ s); cbn [find]; by rewrite H.
Qed.

(** The blank line that ends a head is the first one. *)
Lemma find_head_end (ls : list str) (body : str) :
  ls <> [] -> Forall line_wf ls ->
  find (crlf ++ crlf) (join crlf ls ++ crlf ++ crlf ++ body) = Some (length (join crlf ls)).
Proof.
  induction ls as [|l ls IH]; intros Hne H; [done|]. apply Forall_cons in H as [[Hl Hcr] H].
  destruct ls as [|l' ls].
  - cbn [join]. change (crlf ++ crlf) with (x0d :: [x0a; x0d; x0a]) at 1.
    rewrite find_skip_line by done.
    change (x0d :: [x0a; x0d; x0a]) with (crlf ++ crlf). rewrite (app_assoc crlf crlf), find_here.
    cbn. f_equal. lia.
  - change (join crlf (l :: l' :: ls)) with (l ++ crlf ++ join crlf (l' :: ls)).
    rewrite <- !app_assoc. change (crlf ++ crlf) with (x0d :: [x0a; x0d; x0a]) at 1.
    rewrite find_skip_line by done.
    assert (exists b r, join crlf (l' :: ls) = b :: r /\ b <> x0d) as (b & r & Hj & Hb).
    { apply Forall_cons in H as [[Hl' Hcr'] _]. destruct l' as [|b r]; [done|].
      apply not_elem_of_cons in Hcr' as [? _]. destruct ls; cbn; eauto. }
    change (x0d :: [x0a; x0d; x0a]) with (crlf ++ crlf).
    assert (find (crlf ++ crlf) (crlf ++ join crlf (l' :: ls) ++ crlf ++ crlf ++ body) =
            S <$> (S <$> find (crlf ++ crlf) (join crlf (l' :: ls) ++ crlf ++ crlf ++ body))) as ->.
    { rewrite Hj. cbn [crlf app]. rewrite (find_step _ (x0a :: _) x0d), (find_step _ _ x0a);
        [done|by apply starts_with_head_ne|].
      apply not_true_iff_false. rewrite starts_with_true. intros [r' Hr']. cbn in Hr'. congruence. }
    rewrite IH by done. cbn [fmap option_fmap option_map]. f_equal.
    rewrite !length_app. cbn [crlf length]. lia.
Qed.
