(* ===== verification/NetAddr.v ===== *)
(** * Internet addresses ([std::net])

    An IPv4 address is its [u32], an IPv6 address its [u128]; [IpAddr] is
    their tagged union, as in [std::net].  Parsing and printing follow the
    standard library's grammar. *)

From S2P Require Import Prelude Text.

Inductive IpAddr : Type :=
| V4 (a : Z)
| V6 (a : Z).

Record SocketAddr : Type := mkSocketAddr { sa_ip : IpAddr; sa_port : Z }.

#[export] Instance IpAddr_eq_dec : EqDecision IpAddr.
Proof. solve_decision. Defined.

#[export] Instance IpAddr_countable : Countable IpAddr.
Proof.
  refine (inj_countable'
    (fun ip => match ip with V4 a => inl a | V6 a => inr a end)
    (fun s => match s with inl a => V4 a | inr a => V6 a end) _).
  by intros [].
Defined.

#[export] Instance SocketAddr_eq_dec : EqDecision SocketAddr.
Proof. solve_decision. Defined.

Definition ipv4_new (a b c d : Z) : Z := ((a * 256 + b) * 256 + c) * 256 + d.

Definition ipv4_octets (a : Z) : list byte := be_bytes 4 a.
Definition ipv6_octets (a : Z) : list byte := be_bytes 16 a.

Definition IPV4_BROADCAST : Z := u32_max.

Definition ipv4_is_multicast (a : Z) : bool :=
  (224 <=? a / 2 ^ 24) && (a / 2 ^ 24 <=? 239).
Definition ipv6_is_multicast (a : Z) : bool := a / 2 ^ 120 =? 255.

Definition is_loopback (ip : IpAddr) : bool :=
  match ip with
  | V4 a => a / 2 ^ 24 =? 127
  | V6 a => a =? 1
  end.

Definition is_ipv4 (sa : SocketAddr) : bool :=
  match sa_ip sa with V4 _ => true | V6 _ => false end.

Definition ip_wf (ip : IpAddr) : Prop :=
  match ip with
  | V4 a => 0 <= a <= u32_max
  | V6 a => 0 <= a <= u128_max
  end.

(** ** Display *)

Definition ipv4_display (a : Z) : str :=
  join (lit ".") (map (fun b => dec (u8_val b)) (ipv4_octets a)).

Definition ipv6_segments (a : Z) : list Z :=
  map (fun i => (a / 2 ^ (16 * (7 - Z.of_nat i))) mod 2 ^ 16) (seq 0 8).

(** The first longest run of zero segments: start and length. *)
Fixpoint longest_zeros (i : nat) (cur best : nat * nat) (segs : list Z) : nat * nat :=
  match segs with
  | [] => best
  | s :: segs =>
      if s =? 0 then
        let cur := if (snd cur =? 0)%nat then (i, 1%nat) else (fst cur, S (snd cur)) in
        longest_zeros (S i) cur (if (snd best <? snd cur)%nat then cur else best) segs
      else longest_zeros (S i) (O, O) best segs
  end.

Definition ipv6_display (a : Z) : str :=
  if a / 2 ^ 32 =? 65535 then lit "::ffff:" ++ ipv4_display (a mod 2 ^ 32)
  else
    let segs := ipv6_segments a in
    let (start, len) := longest_zeros 0 (O, O) (O, O) segs in
    if (1 <? len)%nat then
      join (lit ":") (map hex (take start segs)) ++ lit "::" ++
      join (lit ":") (map hex (drop (start + len) segs))
    else join (lit ":") (map hex segs).

Definition ip_display (ip : IpAddr) : str :=
  match ip with
  | V4 a => ipv4_display a
  | V6 a => ipv6_display a
  end.

Definition socket_addr_display (sa : SocketAddr) : str :=
  match sa_ip sa with
  | V4 a => ipv4_display a ++ lit ":" ++ dec (sa_port sa)
  | V6 a => lit "[" ++ ipv6_display a ++ lit "]:" ++ dec (sa_port sa)
  end.

(** ** Parsing *)

Definition to_digit (radix : Z) (b : byte) : option Z :=
  let v := u8_val b in
  let d := if is_ascii_digit b then v - 48
           else if in_range 97 102 b then v - 87
           else if in_range 65 70 b then v - 55 else 99 in
  if d <? radix then Some d else None.

Fixpoint read_digits (radix : Z) (max_digits count : nat) (acc : Z) (s : str)
  : option (Z * nat * str) :=
  match s with
  | d :: s' =>
      match to_digit radix d with
      | Some v =>
          if (max_digits <? S count)%nat then None
          else read_digits radix max_digits (S count) (acc * radix + v) s'
      | None => Some (acc, count, s)
      end
  | [] => Some (acc, count, s)
  end.

Definition read_number (radix : Z) (max_digits : nat) (max : Z) (allow_zero_prefix : bool)
  (s : str) : option (Z * str) :=
  match read_digits radix max_digits 0 0 s with
  | Some (v, count, rest) =>
      if (count =? 0)%nat then None
      else if negb allow_zero_prefix && bool_decide (head s = Some x30) && (1 <? count)%nat then None
      else if v <=? max then Some (v, rest) else None
  | None => None
  end.

Definition read_separator {A} (sep : byte) (index : nat) (inner : str -> option (A * str))
  (s : str) : option (A * str) :=
  if (0 <? index)%nat then
    match s with
    | c :: s => if bool_decide (c = sep) then inner s else None
    | [] => None
    end
  else inner s.

Definition read_octet (i : nat) (s : str) : option (Z * str) :=
  read_separator x2e i (read_number 10 3 255 false) s.

Definition read_ipv4_addr (s : str) : option (Z * str) :=
  '(a, s) ← read_octet 0 s; '(b, s) ← read_octet 1 s;
  '(c, s) ← read_octet 2 s; '(d, s) ← read_octet 3 s;
  Some (ipv4_new a b c d, s).

Definition parse_ipv4 (s : str) : option Z :=
  if (15 <? length s)%nat then None
  else match read_ipv4_addr s with
       | Some (a, []) => Some a
       | _ => None
       end.

(** [read_groups]: [n] groups are left of [limit]; returns the groups, whether
    an embedded IPv4 address ended them, and the rest of the input. *)
Fixpoint read_groups (n i : nat) (s : str) : list Z * bool * str :=
  match n with
  | O => ([], false, s)
  | S n' =>
      match (if (0 <? n')%nat then read_separator x3a i read_ipv4_addr s else None) with
      | Some (a, s) => ([a / 2 ^ 16; a mod 2 ^ 16], true, s)
      | None =>
          match read_separator x3a i (read_number 16 4 65535 true) s with
          | Some (g, s) =>
              let '(gs, v4, s) := read_groups n' (S i) s in (g :: gs, v4, s)
          | None => ([], false, s)
          end
      end
  end.

Definition ipv6_of_segments (segs : list Z) : Z := fold_left (fun acc s => acc * 2 ^ 16 + s) segs 0.

Definition read_ipv6_addr (s : str) : option (Z * str) :=
  let '(head, head_ipv4, s) := read_groups 8 0 s in
  if (length head =? 8)%nat then Some (ipv6_of_segments head, s)
  else if head_ipv4 then None
  else match s with
       | c1 :: c2 :: s =>
           if bool_decide (c1 = x3a) && bool_decide (c2 = x3a) then
             let '(tail, _, s) := read_groups (8 - S (length head)) 0 s in
             Some (ipv6_of_segments
                     (head ++ repeat 0 (8 - length head - length tail) ++ tail), s)
           else None
       | _ => None
       end.

Definition parse_ip (s : str) : option IpAddr :=
  match read_ipv4_addr s with
  | Some (a, rest) => if bool_decide (rest = []) then Some (V4 a) else None
  | None =>
      match read_ipv6_addr s with
      | Some (a, []) => Some (V6 a)
      | _ => None
      end
  end.

(** ** Lemmas *)

Example parse_ip_v4 : parse_ip (lit "93.184.216.34") = Some (V4 (ipv4_new 93 184 216 34)).
Proof. reflexivity. Qed.

Example parse_ip_v6 : parse_ip (lit "2001:db8::1") = Some (V6 0x20010db8000000000000000000000001).
Proof. reflexivity. Qed.

Example ip_display_v6 : ip_display (V6 0x20010db8000000000000000000000001) = lit "2001:db8::1".
Proof. reflexivity. Qed.

Lemma ipv4_octets_new (a b c d : byte) :
  ipv4_octets (ipv4_new (u8_val a) (u8_val b) (u8_val c) (u8_val d)) = [a; b; c; d].
Proof. exact (be_bytes_val [a; b; c; d]). Qed.

Lemma be_val_ipv4_new (a b c d : byte) :
  be_val [a; b; c; d] = ipv4_new (u8_val a) (u8_val b) (u8_val c) (u8_val d).
Proof. reflexivity. Qed.

(** ** Lemmas: what the parsers deliver *)

Lemma to_digit_bound (radix v : Z) (b : byte) : to_digit radix b = Some v -> 0 <= v < radix.
Proof.
  unfold to_digit, is_ascii_digit, in_range. pose proof (u8_val_range b).
  repeat case_match; intros; simplify_eq; to_prop; lia.
Qed.

(** [read_digits] consumes some digits, at most [max_digits] of them. *)
Lemma read_digits_Some (radix : Z) (md : nat) (s rest : str) : forall count acc v n,
  0 <= acc -> (count <= md)%nat -> read_digits radix md count acc s = Some (v, n, rest) ->
  0 <= v /\ (n <= md)%nat /\ exists ds, s = ds ++ rest /\ n = (count + length ds)%nat.
Proof.
  induction s as [|d s IH]; intros count acc v n Ha Hc H; cbn [read_digits] in H.
  - simplify_eq. split_and!; [done..|]. exists []. split; [done|cbn; lia].
  - destruct (to_digit radix d) as [x|] eqn:E.
    + case_match; [done|]. to_prop. apply to_digit_bound in E.
      apply IH in H as (? & ? & ds & -> & ->); [|nia|lia]. split_and!; [done..|].
      exists (d :: ds). split; [done|cbn; lia].
    + simplify_eq. split_and!; [done..|]. exists []. split; [done|cbn; lia].
Qed.

Lemma read_number_Some (radix max v : Z) (md : nat) (z : bool) (s rest : str) :
  read_number radix md max z s = Some (v, rest) ->
  0 <= v <= max /\ exists ds, s = ds ++ rest /\ (length ds <= md)%nat.
Proof.
  unfold read_number. destruct (read_digits radix md 0 0 s) as [[[x n] r]|] eqn:E; [|done].
  apply read_digits_Some in E as (? & ? & ds & -> & ->); [|lia..].
  repeat case_match; intros; simplify_eq; to_prop. split; [lia|]. exists ds. split; [done|lia].
Qed.

Lemma read_octet_Some (i : nat) (v : Z) (s rest : str) :
  read_octet i s = Some (v, rest) -> 0 <= v <= 255.
Proof.
  unfold read_octet, read_separator. intros Hr. repeat case_match; try done; by apply read_number_Some in Hr as [? _].
Qed.

Lemma read_ipv4_addr_Some (a : Z) (s rest : str) :
  read_ipv4_addr s = Some (a, rest) -> 0 <= a <= u32_max.
Proof.
  unfold read_ipv4_addr. intros H.
  destruct (read_octet 0 s) as [[o0 s0]|] eqn:E0; cbn [mbind option_bind] in H; [|done].
  destruct (read_octet 1 s0) as [[o1 s1]|] eqn:E1; cbn [mbind option_bind] in H; [|done].
  destruct (read_octet 2 s1) as [[o2 s2]|] eqn:E2; cbn [mbind option_bind] in H; [|done].
  destruct (read_octet 3 s2) as [[o3 s3]|] eqn:E3; cbn [mbind option_bind] in H; [|done].
  apply read_octet_Some in E0, E1, E2, E3. simplify_eq. unfold ipv4_new, u32_max. lia.
Qed.

Definition segment_wf (g : Z) : Prop := 0 <= g <= 65535.

Lemma read_groups_wf (n : nat) : forall i s gs v4 rest,
  read_groups n i s = (gs, v4, rest) -> Forall segment_wf gs /\ (length gs <= n)%nat.
Proof.
  induction n as [|n IH]; intros i s gs v4 rest H; cbn [read_groups] in H; [by simplify_eq|].
  destruct (if (0 <? n)%nat then _ else _) as [[a r]|] eqn:E.
  - simplify_eq. case_match; [|done]. to_prop.
    assert (0 <= a <= u32_max) as Ha.
    { unfold read_separator in E. repeat case_match; try done; by apply read_ipv4_addr_Some in E. }
    unfold u32_max in Ha. split; [|cbn; lia].
    change (2 ^ 16) with 65536. rewrite !Forall_cons. unfold segment_wf.
    split_and!; try done; Z.div_mod_to_equations; lia.
  - destruct (read_separator x3a i (read_number 16 4 65535 true) s) as [[g r]|] eqn:E';
      [|simplify_eq; split; [constructor|cbn; lia]].
    destruct (read_groups n (S i) r) as [[gs' v4'] r'] eqn:Eg. apply IH in Eg as [Hf Hl]. simplify_eq.
    split; [|cbn; lia]. constructor; [|done]. unfold read_separator in E'.
    repeat case_match; try done; by apply read_number_Some in E' as [? _].
Qed.

Lemma ipv6_of_segments_bound (segs : list Z) : Forall segment_wf segs ->
  0 <= ipv6_of_segments segs < 2 ^ (16 * Z.of_nat (length segs)).
Proof.
  unfold ipv6_of_segments. induction segs as [|g segs IH] using rev_ind; intros H; [cbn; lia|].
  apply Forall_app in H as [H Hg]. inversion_clear Hg as [|? ? Hg' _]. unfold segment_wf in Hg'.
  rewrite fold_left_app, length_app. cbn [fold_left length]. specialize (IH H).
  replace (16 * Z.of_nat (length segs + 1)) with (16 * Z.of_nat (length segs) + 16) by lia.
  rewrite Z.pow_add_r by lia. set (p := 2 ^ _) in *. lia.
Qed.

Lemma segments_wf_bound (segs : list Z) :
  Forall segment_wf segs -> (length segs <= 8)%nat -> 0 <= ipv6_of_segments segs <= u128_max.
Proof.
  intros H Hl. apply ipv6_of_segments_bound in H.
  assert (2 ^ (16 * Z.of_nat (length segs)) <= 2 ^ 128) by (apply Z.pow_le_mono_r; lia).
  unfold u128_max. change (2 ^ 128) with 340282366920938463463374607431768211456 in *. lia.
Qed.

Lemma read_ipv6_addr_Some (a : Z) (s rest : str) :
  read_ipv6_addr s = Some (a, rest) -> 0 <= a <= u128_max.
Proof.
  unfold read_ipv6_addr. destruct (read_groups 8 0 s) as [[hd v4] r] eqn:E.
  apply read_groups_wf in E as [Hf Hl]. case_match eqn:H8.
  { intros; simplify_eq. by apply segments_wf_bound. }
  to_prop. destruct v4; [done|]. destruct r as [|c1 [|c2 r]]; [done..|]. case_match; [|done].
  destruct (read_groups _ 0 r) as [[tl v4] r'] eqn:E'. apply read_groups_wf in E' as [Hf' Hl'].
  intros; simplify_eq. apply segments_wf_bound.
  - repeat apply Forall_app_2; [done| |done]. apply Forall_forall. intros x Hx.
    apply list_elem_of_In, repeat_spec in Hx as ->. unfold segment_wf. lia.
  - rewrite !length_app, repeat_length. lia.
Qed.

Lemma parse_ip_wf (s : str) (ip : IpAddr) : parse_ip s = Some ip -> ip_wf ip.
Proof.
  unfold parse_ip. destruct (read_ipv4_addr s) as [[a r]|] eqn:E4.
  - apply read_ipv4_addr_Some in E4. case_match; intros; by simplify_eq.
  - destruct (read_ipv6_addr s) as [[a [|]]|] eqn:E6; intros; simplify_eq.
    by apply read_ipv6_addr_Some in E6.
Qed.

(** ** Lemmas: addresses written out read back *)

(** No digit starts the string. *)
Definition stops (radix : Z) (s : str) : Prop :=
  match s with [] => True | c :: _ => to_digit radix c = None end.

Lemma read_digits_app (radix : Z) (md : nat) (ds rest : str) : stops radix rest ->
  forall count acc v n, read_digits radix md count acc ds = Some (v, n, []) ->
  read_digits radix md count acc (ds ++ rest) = Some (v, n, rest).
Proof.
  intros Hs. induction ds as [|d ds IH]; intros count acc v n H; cbn [read_digits app] in *.
  - simplify_eq. destruct rest as [|c rest]; [done|]. cbn in Hs. cbn [read_digits]. by rewrite Hs.
  - repeat case_match; try done. by apply IH.
Qed.

Lemma read_number_app (radix max v : Z) (md : nat) (z : bool) (ds rest : str) :
  stops radix rest -> read_number radix md max z ds = Some (v, []) ->
  read_number radix md max z (ds ++ rest) = Some (v, rest).
Proof.
  intros Hs H. unfold read_number in *.
  destruct (read_digits radix md 0 0 ds) as [[[x n] r]|] eqn:E; [|done].
  assert (r = []) as -> by (repeat case_match; by simplify_eq).
  destruct ds as [|d ds]; [cbn in E; by simplify_eq|].
  rewrite (read_digits_app _ _ _ _ Hs _ _ _ _ E). cbn [head app] in *.
  revert H. repeat case_match; intros; by simplify_eq.
Qed.

Lemma read_octet_dec (b : byte) :
  read_number 10 3 255 false (dec (u8_val b)) = Some (u8_val b, []).
Proof. revert b. by_bytes. Qed.

Lemma read_octet_first (b : byte) (rest : str) : stops 10 rest ->
  read_octet 0 (dec (u8_val b) ++ rest) = Some (u8_val b, rest).
Proof. intros Hs. exact (read_number_app _ _ _ _ _ _ _ Hs (read_octet_dec b)). Qed.

(** An octet after the first, with its dot. *)
Lemma read_octet_next (i : nat) (b : byte) (rest : str) : stops 10 rest ->
  read_octet (S i) (lit "." ++ dec (u8_val b) ++ rest) = Some (u8_val b, rest).
Proof.
  intros Hs. exact (read_number_app _ _ _ _ _ _ _ Hs (read_octet_dec b)).
Qed.

Lemma parse_ipv4_text (a : Z) (rest : str) : stops 10 rest -> 0 <= a <= u32_max ->
  read_ipv4_addr (ipv4_display a ++ rest) = Some (a, rest).
Proof.
  intros Hs Ha. unfold ipv4_display, ipv4_octets.
  assert (be_val (be_bytes 4 a) = a) as Hv by (apply be_val_bytes_small; cbn; unfold u32_max in Ha; lia).
  pose proof (length_be_bytes 4 a) as Hl. destruct (be_bytes 4 a) as [|b0 [|b1 [|b2 [|b3 [|]]]]]; try done.
  rewrite be_val_ipv4_new in Hv. cbn [map join]. rewrite <- !app_assoc.
  unfold read_ipv4_addr. rewrite read_octet_first by done. cbn [mbind option_bind].
  do 3 (rewrite read_octet_next by done; cbn [mbind option_bind]). by rewrite Hv.
Qed.

(** [Display] of an IPv4 address reads back, whatever follows it. *)
Lemma parse_ip_v4_display (a : Z) : 0 <= a <= u32_max -> parse_ip (ipv4_display a) = Some (V4 a).
Proof.
  intros Ha. unfold parse_ip. rewrite <- (app_nil_r (ipv4_display a)).
  by rewrite (parse_ipv4_text a [] I Ha).
Qed.

(** An IPv6 address written as eight groups of four digits. *)
Definition hex4 (g : Z) : str :=
  map (fun k => digit_char ((g / 16 ^ k) mod 16)) [3; 2; 1; 0].

Fixpoint groups_text (i : nat) (gs : list Z) : str :=
  match gs with
  | [] => []
  | g :: gs => (if (0 <? i)%nat then [x3a] else []) ++ hex4 g ++ groups_text (S i) gs
  end.

Definition ipv6_text (a : Z) : str := groups_text 0 (ipv6_segments a).

Lemma to_digit_hex (d : Z) : 0 <= d < 16 -> to_digit 16 (digit_char d) = Some d.
Proof.
  intros Hd. assert (exists n : nat, d = Z.of_nat n /\ (n < 16)%nat) as (n & -> & Hn)
    by (exists (Z.to_nat d); lia).
  do 16 (destruct n as [|n]; [reflexivity|]). lia.
Qed.

Lemma hex_not_separator (d : Z) (c : byte) : 0 <= d < 16 -> c = x2e \/ c = x3a \/ c = x2f -> digit_char d <> c.
Proof. intros Hd Hc E. apply to_digit_hex in Hd. rewrite E in Hd. by destruct Hc as [->|[->| ->]]. Qed.

Lemma read_hex4 (g : Z) (rest : str) : segment_wf g -> stops 16 rest ->
  read_number 16 4 65535 true (hex4 g ++ rest) = Some (g, rest).
Proof.
  intros Hg Hs. apply read_number_app; [done|]. unfold segment_wf in Hg. unfold read_number, hex4.
  cbn [map read_digits].
  rewrite !to_digit_hex by (apply Z.mod_pos_bound; lia). cbn [Nat.ltb Nat.leb Nat.eqb negb andb].
  assert ((((0 * 16 + (g / 16 ^ 3) mod 16) * 16 + (g / 16 ^ 2) mod 16) * 16 + (g / 16 ^ 1) mod 16) * 16
    + (g / 16 ^ 0) mod 16 = g) as E.
  { change (16 ^ 3) with 4096. change (16 ^ 2) with 256. change (16 ^ 1) with 16. change (16 ^ 0) with 1.
    Z.div_mod_to_equations. lia. }
  rewrite E. by rewrite (proj2 (Z.leb_le _ _)) by lia.
Qed.

(** Four hexadecimal digits do not start a dotted address. *)
Lemma read_ipv4_addr_hex4 (g : Z) (rest : str) : read_ipv4_addr (hex4 g ++ rest) = None.
Proof.
  unfold read_ipv4_addr. destruct (read_octet 0 (hex4 g ++ rest)) as [[v r]|] eqn:E; cbn [mbind option_bind]; [|done].
  unfold read_octet, read_separator in E. cbn [Nat.ltb Nat.leb] in E.
  apply read_number_Some in E as (_ & ds & Hs & Hl).
  enough (read_octet 1 r = None) as -> by done.
  unfold read_octet, read_separator. cbn [Nat.ltb Nat.leb].
  unfold hex4 in Hs. cbn [map app] in Hs.
  destruct ds as [|d0 [|d1 [|d2 [|d3 [|]]]]]; cbn in Hs, Hl; try lia; simplify_eq;
    rewrite bool_decide_eq_false_2; try done; apply hex_not_separator; auto; apply Z.mod_pos_bound; lia.
Qed.

Lemma read_groups_text (gs : list Z) : forall i, Forall segment_wf gs ->
  read_groups (length gs) i (groups_text i gs) = (gs, false, []).
Proof.
  induction gs as [|g gs IH]; intros i H; [done|]. apply Forall_cons in H as [Hg H].
  cbn [length read_groups groups_text].
  assert (read_separator x3a i read_ipv4_addr
    ((if (0 <? i)%nat then [x3a] else []) ++ hex4 g ++ groups_text (S i) gs) = None) as E4.
  { unfold read_separator. case_match; cbn [app]; [rewrite bool_decide_eq_true_2 by done|]; apply read_ipv4_addr_hex4. }
  assert (read_separator x3a i (read_number 16 4 65535 true)
    ((if (0 <? i)%nat then [x3a] else []) ++ hex4 g ++ groups_text (S i) gs) = Some (g, groups_text (S i) gs)) as E6.
  { assert (stops 16 (groups_text (S i) gs)) as Hs by (by destruct gs).
    unfold read_separator. case_match; cbn [app]; [rewrite bool_decide_eq_true_2 by done|]; by apply read_hex4. }
  rewrite E4, E6. replace (if (0 <? length gs)%nat then None else None) with (@None (Z * str)) by (by destruct (0 <? length gs)%nat).
  by rewrite IH.
Qed.

Lemma ipv6_segments_wf (a : Z) : Forall segment_wf (ipv6_segments a).
Proof.
  apply Forall_forall. intros g Hg. unfold ipv6_segments in Hg.
  apply list_elem_of_In, in_map_iff in Hg as (i & <- & _). unfold segment_wf.
  pose proof (Z.mod_pos_bound (a / 2 ^ (16 * (7 - Z.of_nat i))) (2 ^ 16)). lia.
Qed.

Lemma ipv6_of_segments_of (a : Z) : 0 <= a <= u128_max -> ipv6_of_segments (ipv6_segments a) = a.
Proof.
  intros Ha. set (q := fun k => a / 2 ^ (16 * k)).
  assert (forall j k, 0 <= k -> j = k + 1 -> q j * 2 ^ 16 + q k mod 2 ^ 16 = q k) as Hstep.
  { intros j k Hk ->. unfold q. replace (16 * (k + 1)) with (16 * k + 16) by lia.
    rewrite Z.pow_add_r, <- Z.div_div by lia. pose proof (Z.div_mod (a / 2 ^ (16 * k)) (2 ^ 16)). lia. }
  assert (q 8 = 0) as H8 by (apply Z.div_small; unfold u128_max in Ha; lia).
  assert (q 0 = a) as H0 by (apply Z.div_1_r).
  transitivity (fold_left (fun acc s => acc * 2 ^ 16 + s)
    (map (fun k => q k mod 2 ^ 16) [7; 6; 5; 4; 3; 2; 1; 0]) (q 8)); [by rewrite H8|].
  cbn [map fold_left].
  rewrite (Hstep 8 7), (Hstep 7 6), (Hstep 6 5), (Hstep 5 4), (Hstep 4 3), (Hstep 3 2), (Hstep 2 1),
    (Hstep 1 0) by lia. done.
Qed.

Lemma length_ipv6_segments (a : Z) : length (ipv6_segments a) = 8%nat.
Proof. done. Qed.

Lemma parse_ip_v6_text (a : Z) : 0 <= a <= u128_max -> parse_ip (ipv6_text a) = Some (V6 a).
Proof.
  intros Ha. pose proof (read_groups_text _ 0 (ipv6_segments_wf a)) as H.
  assert (read_ipv4_addr (ipv6_text a) = None) as E4 by apply read_ipv4_addr_hex4.
  unfold parse_ip. rewrite E4. unfold read_ipv6_addr. rewrite length_ipv6_segments in H.
  unfold ipv6_text. rewrite H, length_ipv6_segments. cbn [Nat.eqb]. by rewrite ipv6_of_segments_of.
Qed.
