(* ===== verification/Event.v ===== *)
(** * Normalized events ([crates/foxprox-core/src/event.rs], [frontend.rs])

    Identifiers, hostnames, endpoints, attribution and the [NetworkEvent] every
    frontend emits.  Rust enums are modules of the same name, so that
    constructors read as in the source ([Protocol.Tcp]). *)

From S2P Require Import Prelude Text NetAddr.

(** ** Identifiers *)

Record SandboxId : Type := mkSandboxId { sandbox_str : str }.

Inductive IdentifierError : Type := IdentifierEmpty.

Definition sandbox_id_new (value : str) : Result SandboxId IdentifierError :=
  if bool_decide (trim value = []) then Err IdentifierEmpty else Ok (mkSandboxId value).

Definition identifier_error_display (e : IdentifierError) : str :=
  match e with IdentifierEmpty => lit "identifier must not be empty" end.

(** ** Hostnames *)

Record Hostname : Type := mkHostname { hostname_str : str }.

Module HostnameError.
Inductive HostnameError : Type := Empty | TooLong | InvalidLabel.
End HostnameError.
Abbreviation HostnameError := HostnameError.HostnameError.

Definition is_valid_label (label : str) : bool :=
  forallb (fun b => is_ascii_alphanumeric b || bool_decide (b = x2d)) label
  && negb (starts_with (lit "-") label)
  && negb (ends_with (lit "-") label).

Definition hostname_parse (value : str) : Result Hostname HostnameError :=
  let trimmed := trim_end_byte x2e (trim value) in
  if bool_decide (trimmed = []) then Err HostnameError.Empty
  else if (253 <? length trimmed)%nat then Err HostnameError.TooLong
  else if existsb (fun label => bool_decide (label = []) || (63 <? length label)%nat
                                || negb (is_valid_label label))
                  (split_byte x2e trimmed)
       then Err HostnameError.InvalidLabel
  else Ok (mkHostname (to_ascii_lowercase trimmed)).

Definition matches_domain_suffix (self domain : Hostname) : bool :=
  bool_decide (hostname_str self = hostname_str domain)
  || match strip_suffix (hostname_str domain) (hostname_str self) with
     | Some prefix => ends_with (lit ".") prefix
     | None => false
     end.

Definition hostname_error_display (e : HostnameError) : str :=
  match e with
  | HostnameError.Empty => lit "hostname must not be empty"
  | HostnameError.TooLong => lit "hostname is too long"
  | HostnameError.InvalidLabel => lit "hostname contains an invalid label"
  end.

(** ** Frontends, protocols, endpoints *)

Module Frontend.
Inductive Frontend : Type := Tun | HttpProxy | Socks5 | Dns | Setup.
End Frontend.
Abbreviation Frontend := Frontend.Frontend.

Module Protocol.
Inductive Protocol : Type :=
  Tcp | Udp | Dns | Icmp | Http | HttpsConnect | Tls | Socks | Quic | Unsupported.
End Protocol.
Abbreviation Protocol := Protocol.Protocol.

Record TransportEndpoint : Type := mkEndpoint { ep_ip : IpAddr; ep_port : Z }.

Definition endpoint_of_socket_addr (value : SocketAddr) : TransportEndpoint :=
  mkEndpoint (sa_ip value) (sa_port value).

(** ** Attribution *)

Module AttributionSource.
Inductive AttributionSource : Type :=
  ExplicitProxy | HttpHostHeader | TlsSni | DnsCache | IpOnly | QuicMetadata.
End AttributionSource.
Abbreviation AttributionSource := AttributionSource.AttributionSource.

Module AttributionConfidence.
Inductive AttributionConfidence : Type := Low | Medium | High.
End AttributionConfidence.
Abbreviation AttributionConfidence := AttributionConfidence.AttributionConfidence.

(** The derived [Ord]: declaration order. *)
Definition confidence_rank (c : AttributionConfidence) : nat :=
  match c with
  | AttributionConfidence.Low => 0
  | AttributionConfidence.Medium => 1
  | AttributionConfidence.High => 2
  end.

Definition confidence_ltb (a b : AttributionConfidence) : bool :=
  (confidence_rank a <? confidence_rank b)%nat.

Record Attribution : Type := mkAttribution {
  at_hostname : option Hostname;
  at_source : AttributionSource;
  at_confidence : AttributionConfidence
}.

Definition attribution_explicit_proxy (hostname : Hostname) : Attribution :=
  mkAttribution (Some hostname) AttributionSource.ExplicitProxy AttributionConfidence.High.

Definition attribution_ip_only : Attribution :=
  mkAttribution None AttributionSource.IpOnly AttributionConfidence.Low.

Record Origin : Type := mkOrigin { or_scheme : str; or_host : Hostname; or_port : Z }.

Module SocksDestination.
Inductive SocksDestination : Type :=
| Host (host : Hostname) (port : Z)
| Ip (endpoint : TransportEndpoint).
End SocksDestination.
Abbreviation SocksDestination := SocksDestination.SocksDestination.

Definition socks_port (self : SocksDestination) : Z :=
  match self with
  | SocksDestination.Host _ port => port
  | SocksDestination.Ip endpoint => ep_port endpoint
  end.

Definition socks_host (self : SocksDestination) : option Hostname :=
  match self with
  | SocksDestination.Host host _ => Some host
  | SocksDestination.Ip _ => None
  end.

Definition socks_endpoint (self : SocksDestination) : option TransportEndpoint :=
  match self with
  | SocksDestination.Host _ _ => None
  | SocksDestination.Ip endpoint => Some endpoint
  end.

(** ** HTTP methods *)

Record HttpMethod : Type := mkHttpMethod { method_str : str }.

Module HttpMethodError.
Inductive HttpMethodError : Type := Empty | InvalidToken.
End HttpMethodError.
Abbreviation HttpMethodError := HttpMethodError.HttpMethodError.

Definition is_token_byte (b : byte) : bool :=
  is_ascii_alphanumeric b || bool_decide (b ∈ lit "!#$%&'*+-.^_`|~").

Definition http_method_parse (value : str) : Result HttpMethod HttpMethodError :=
  let value := trim value in
  if bool_decide (value = []) then Err HttpMethodError.Empty
  else if negb (forallb is_token_byte value) then Err HttpMethodError.InvalidToken
  else Ok (mkHttpMethod (to_ascii_uppercase value)).

Definition http_method_error_display (e : HttpMethodError) : str :=
  match e with
  | HttpMethodError.Empty => lit "HTTP method must not be empty"
  | HttpMethodError.InvalidToken => lit "HTTP method is not a valid token"
  end.

(** ** Events *)

Module UnsupportedReason.
Inductive UnsupportedReason : Type :=
| Malformed (detail : str)
| UnsupportedIpProtocol (protocol : Z)
| UnsupportedFragmentation
| DirectDnsBypass
| MulticastOrBroadcast
| UnsupportedIcmp (ty code : Z)
| MissingRequiredAttribution
| SetupFailure (detail : str).
End UnsupportedReason.
Abbreviation UnsupportedReason := UnsupportedReason.UnsupportedReason.

(** The derived [Debug] of [UnsupportedReason]. *)
Definition debug_unsupported_reason (r : UnsupportedReason) : str :=
  match r with
  | UnsupportedReason.Malformed d => lit "Malformed(" ++ debug_str d ++ lit ")"
  | UnsupportedReason.UnsupportedIpProtocol p => lit "UnsupportedIpProtocol(" ++ dec p ++ lit ")"
  | UnsupportedReason.UnsupportedFragmentation => lit "UnsupportedFragmentation"
  | UnsupportedReason.DirectDnsBypass => lit "DirectDnsBypass"
  | UnsupportedReason.MulticastOrBroadcast => lit "MulticastOrBroadcast"
  | UnsupportedReason.UnsupportedIcmp ty code =>
      lit "UnsupportedIcmp { ty: " ++ dec ty ++ lit ", code: " ++ dec code ++ lit " }"
  | UnsupportedReason.MissingRequiredAttribution => lit "MissingRequiredAttribution"
  | UnsupportedReason.SetupFailure d => lit "SetupFailure(" ++ debug_str d ++ lit ")"
  end.

Module NetworkEvent.
Inductive NetworkEvent : Type :=
| SessionStarted (sandbox_id : SandboxId) (frontend : Frontend)
| TunConfigured (sandbox_id : SandboxId) (address : IpAddr) (mtu : Z)
| TcpConnectAttempt (sandbox_id : SandboxId) (frontend : Frontend)
    (source : option TransportEndpoint) (destination : TransportEndpoint)
    (attribution : Attribution)
| UdpFlowAttempt (sandbox_id : SandboxId) (frontend : Frontend)
    (source destination : TransportEndpoint) (attribution : Attribution)
    (classification : Protocol)
| DnsQuery (sandbox_id : SandboxId) (hostname : Hostname) (query_type : str)
    (frontend : Frontend)
| HttpRequest (sandbox_id : SandboxId) (frontend : Frontend) (method : HttpMethod)
    (origin : Origin) (path_and_query : str)
| HttpsConnect (sandbox_id : SandboxId) (frontend : Frontend) (host : Hostname) (port : Z)
| TlsClientHello (sandbox_id : SandboxId) (frontend : Frontend)
    (destination : TransportEndpoint) (sni : option Hostname) (ech_present : bool)
    (dns_hostname : option Hostname) (mismatch : bool)
| SocksConnect (sandbox_id : SandboxId) (target : SocksDestination)
| IcmpMessage (sandbox_id : SandboxId) (source destination : IpAddr) (ty code : Z)
| Unsupported (sandbox_id : option SandboxId) (frontend : Frontend)
    (reason : UnsupportedReason).
End NetworkEvent.
Abbreviation NetworkEvent := NetworkEvent.NetworkEvent.

Definition event_sandbox_id (self : NetworkEvent) : option SandboxId :=
  match self with
  | NetworkEvent.SessionStarted s _ | NetworkEvent.TunConfigured s _ _
  | NetworkEvent.TcpConnectAttempt s _ _ _ _ | NetworkEvent.UdpFlowAttempt s _ _ _ _ _
  | NetworkEvent.DnsQuery s _ _ _ | NetworkEvent.HttpRequest s _ _ _ _
  | NetworkEvent.HttpsConnect s _ _ _ | NetworkEvent.TlsClientHello s _ _ _ _ _ _
  | NetworkEvent.SocksConnect s _ | NetworkEvent.IcmpMessage s _ _ _ _ => Some s
  | NetworkEvent.Unsupported s _ _ => s
  end.

Definition event_protocol (self : NetworkEvent) : Protocol :=
  match self with
  | NetworkEvent.SessionStarted _ _ | NetworkEvent.TunConfigured _ _ _ => Protocol.Unsupported
  | NetworkEvent.TcpConnectAttempt _ _ _ _ _ => Protocol.Tcp
  | NetworkEvent.UdpFlowAttempt _ _ _ _ _ classification => classification
  | NetworkEvent.DnsQuery _ _ _ _ => Protocol.Dns
  | NetworkEvent.HttpRequest _ _ _ _ _ => Protocol.Http
  | NetworkEvent.HttpsConnect _ _ _ _ => Protocol.HttpsConnect
  | NetworkEvent.TlsClientHello _ _ _ _ _ _ _ => Protocol.Tls
  | NetworkEvent.SocksConnect _ _ => Protocol.Socks
  | NetworkEvent.IcmpMessage _ _ _ _ _ => Protocol.Icmp
  | NetworkEvent.Unsupported _ _ _ => Protocol.Unsupported
  end.

(** ** The frontend boundary ([frontend.rs]) *)

Record FrontendContext : Type := mkFrontendContext {
  fc_sandbox_id : SandboxId;
  fc_frontend : Frontend;
  fc_label : str
}.

Module FrontendErrorKind.
Inductive FrontendErrorKind : Type :=
  MalformedInput | UnsupportedProtocol | FailedClosed | Io | ResourceLimit.
End FrontendErrorKind.
Abbreviation FrontendErrorKind := FrontendErrorKind.FrontendErrorKind.

Record FrontendError : Type := mkFrontendError {
  fe_kind : FrontendErrorKind;
  fe_detail : str
}.

(** [trait NetworkFrontend]. *)
Class NetworkFrontend (S Input : Type) : Type := {
  frontend_context : S -> FrontendContext;
  frontend_normalize : S -> Input -> S * Result (list NetworkEvent) FrontendError
}.

(** ** Instances *)

#[export] Instance SandboxId_eq_dec : EqDecision SandboxId.
Proof. solve_decision. Defined.
#[export] Instance Hostname_eq_dec : EqDecision Hostname.
Proof. solve_decision. Defined.
#[export] Instance Frontend_eq_dec : EqDecision Frontend.
Proof. solve_decision. Defined.
#[export] Instance Protocol_eq_dec : EqDecision Protocol.
Proof. solve_decision. Defined.
#[export] Instance TransportEndpoint_eq_dec : EqDecision TransportEndpoint.
Proof. solve_decision. Defined.
#[export] Instance AttributionSource_eq_dec : EqDecision AttributionSource.
Proof. solve_decision. Defined.
#[export] Instance AttributionConfidence_eq_dec : EqDecision AttributionConfidence.
Proof. solve_decision. Defined.
#[export] Instance Attribution_eq_dec : EqDecision Attribution.
Proof. solve_decision. Defined.
#[export] Instance Origin_eq_dec : EqDecision Origin.
Proof. solve_decision. Defined.
#[export] Instance SocksDestination_eq_dec : EqDecision SocksDestination.
Proof. solve_decision. Defined.
#[export] Instance HttpMethod_eq_dec : EqDecision HttpMethod.
Proof. solve_decision. Defined.
#[export] Instance UnsupportedReason_eq_dec : EqDecision UnsupportedReason.
Proof. solve_decision. Defined.
#[export] Instance NetworkEvent_eq_dec : EqDecision NetworkEvent.
Proof. solve_decision. Defined.

#[export] Instance SandboxId_countable : Countable SandboxId :=
  inj_countable' sandbox_str mkSandboxId (fun '(mkSandboxId _) => eq_refl).
#[export] Instance Hostname_countable : Countable Hostname :=
  inj_countable' hostname_str mkHostname (fun '(mkHostname _) => eq_refl).

(** ** Canonical hostnames *)

Definition labels (h : Hostname) : list str := split_byte x2e (hostname_str h).

Definition is_canonical_byte (b : byte) : bool :=
  is_ascii_digit b || is_ascii_lowercase b || bool_decide (b = x2d).

(** One DNS label in normal form: 1 to 63 lower-case letters, digits and inner
    hyphens. *)
Definition label_wf (l : str) : Prop :=
  (1 <= length l <= 63)%nat /\
  Forall (fun b => is_canonical_byte b = true) l /\
  (forall r, l <> x2d :: r) /\ (forall r, l <> r ++ [x2d]).

Definition hostname_wf (h : Hostname) : Prop :=
  (length (hostname_str h) <= 253)%nat /\ Forall label_wf (labels h).

Lemma canonical_byte_graphic (b : byte) : is_canonical_byte b = true -> is_ascii_graphic b = true.
Proof. destruct b; vm_compute; done. Qed.

Lemma canonical_byte_lower (b : byte) : is_canonical_byte b = true -> byte_to_lower b = b.
Proof. destruct b; vm_compute; done. Qed.

Lemma canonical_byte_valid (b : byte) :
  is_canonical_byte b = true -> is_ascii_alphanumeric b || bool_decide (b = x2d) = true.
Proof. destruct b; vm_compute; done. Qed.

Lemma valid_byte_canonical (b : byte) :
  is_ascii_alphanumeric b || bool_decide (b = x2d) = true -> is_canonical_byte (byte_to_lower b) = true.
Proof. destruct b; vm_compute; done. Qed.

Lemma lower_dot (b : byte) : byte_to_lower b = x2e <-> b = x2e.
Proof. destruct b; vm_compute; split; congruence. Qed.

Lemma lower_hyphen (b : byte) : byte_to_lower b = x2d <-> b = x2d.
Proof. destruct b; vm_compute; split; congruence. Qed.

(** The label test of the parser accepts [l] exactly when its lower-case form
    is in normal form. *)
Lemma label_check_wf (l : str) :
  bool_decide (l = []) || (63 <? length l)%nat || negb (is_valid_label l) = false ->
  label_wf (to_ascii_lowercase l).
Proof.
  unfold is_valid_label. intros H. to_prop.
  apply negb_false_iff in H0. to_prop.
  unfold label_wf, to_ascii_lowercase. rewrite length_map.
  split; [destruct l; cbn in *; [done|lia]|].
  split.
  { apply Forall_map, Forall_forall. intros b Hb. apply valid_byte_canonical.
    rewrite forallb_forall in H0. by apply H0, list_elem_of_In. }
  rewrite <- (starts_with_byte_map x2d byte_to_lower) in H3 by apply lower_hyphen.
  rewrite <- (ends_with_byte_map x2d byte_to_lower) in H2 by apply lower_hyphen.
  split; intros r Hr; rewrite Hr in *.
  - apply not_true_iff_false in H3. apply H3, starts_with_true. by exists r.
  - apply not_true_iff_false in H2. apply H2, ends_with_true. by exists r.
Qed.

Lemma label_wf_check (l : str) :
  label_wf l ->
  bool_decide (l = []) || (63 <? length l)%nat || negb (is_valid_label l) = false.
Proof.
  intros (Hlen & Hb & Hs & He). unfold is_valid_label.
  rewrite bool_decide_eq_false_2 by (intros ->; cbn in *; lia).
  rewrite (proj2 (Nat.ltb_ge _ _)) by lia. cbn [orb].
  apply negb_false_iff. rewrite !andb_true_iff, !negb_true_iff. split; [split|].
  - apply forallb_forall. intros b Hin%list_elem_of_In. apply canonical_byte_valid.
    rewrite Forall_forall in Hb. auto.
  - apply not_true_iff_false. intros [r Hr]%starts_with_true. by apply (Hs r).
  - apply not_true_iff_false. intros [r Hr]%ends_with_true. by apply (He r).
Qed.

Lemma hostname_wf_bytes (h : Hostname) :
  hostname_wf h ->
  Forall (fun b => is_canonical_byte b = true \/ b = x2e) (hostname_str h).
Proof.
  intros [_ H]. rewrite <- (join_split_byte x2e (hostname_str h)).
  apply Forall_join; [by right|].
  eapply Forall_impl; [exact H|]. intros l (_ & Hl & _).
  eapply Forall_impl; [exact Hl|]. by left.
Qed.

Lemma hostname_wf_graphic (h : Hostname) :
  hostname_wf h -> Forall (fun b => is_ascii_graphic b = true) (hostname_str h).
Proof.
  intros H%hostname_wf_bytes. eapply Forall_impl; [exact H|].
  intros b [Hb| ->]; [by apply canonical_byte_graphic|done].
Qed.

Lemma hostname_wf_last (h : Hostname) :
  hostname_wf h -> exists m z, hostname_str h = m ++ [z] /\ z <> x2e.
Proof.
  intros [_ H]. unfold labels in H.
  destruct (exists_last (split_byte_nonempty x2e (hostname_str h))) as (ls & l & E).
  rewrite E in H. apply Forall_app in H as [_ Hl]. inversion Hl as [|? ? Hl' _]; subst.
  destruct Hl' as (Hlen & Hb & _).
  destruct (exists_last (l := l)) as (m & z & ->); [by intros ->; cbn in *; lia|].
  apply Forall_app in Hb as [_ Hz]. inversion Hz; subst.
  rewrite <- (join_split_byte x2e (hostname_str h)), E.
  destruct ls as [|l0 ls].
  - exists m, z. split; [done|]. by intros ->.
  - exists (join [x2e] (l0 :: ls) ++ x2e :: m), z.
    rewrite join_app by done. cbn [join]. rewrite <- app_assoc. split; [done|]. by intros ->.
Qed.

Lemma hostname_parse_Ok_wf (v : str) (h : Hostname) : hostname_parse v = Ok h -> hostname_wf h.
Proof.
  unfold hostname_parse. intros H. inv_result H.
  to_prop. unfold hostname_wf, labels. cbn. rewrite length_to_ascii_lowercase. split; [done|].
  unfold to_ascii_lowercase. rewrite map_split_byte by apply lower_dot.
  apply Forall_map, Forall_forall. intros l Hl. apply label_check_wf.
  match goal with E : existsb _ _ = false |- _ => rename E into Hex end.
  apply not_true_iff_false. intros Hc. apply not_true_iff_false in Hex. apply Hex.
  apply existsb_exists. exists l. split; [by apply list_elem_of_In|done].
Qed.

Lemma hostname_parse_returns (v : str) : returns (hostname_parse v).
Proof. unfold hostname_parse. by repeat case_match. Qed.

Lemma http_method_parse_returns (v : str) : returns (http_method_parse v).
Proof. unfold http_method_parse. by repeat case_match. Qed.

#[export] Hint Resolve hostname_parse_returns http_method_parse_returns : foxprox.

Lemma hostname_parse_of_wf (h : Hostname) : hostname_wf h -> hostname_parse (hostname_str h) = Ok h.
Proof.
  intros Hwf. unfold hostname_parse.
  rewrite trim_all_graphic by by apply hostname_wf_graphic.
  destruct (hostname_wf_last h Hwf) as (m & z & Hz & Hne).
  replace (trim_end_byte x2e (hostname_str h)) with (hostname_str h)
    by (rewrite Hz; by rewrite trim_end_byte_id).
  rewrite bool_decide_eq_false_2 by (rewrite Hz; by destruct m).
  pose proof (hostname_wf_bytes h Hwf) as Hb. destruct Hwf as [Hlen Hl].
  rewrite (proj2 (Nat.ltb_ge _ _)) by lia.
  replace (existsb _ _) with false.
  - f_equal. destruct h as [s]. cbn in *. f_equal.
    unfold to_ascii_lowercase. rewrite <- (map_id s) at 2. apply map_ext_Forall.
    eapply Forall_impl; [exact Hb|]. intros b [?| ->]; [by apply canonical_byte_lower|done].
  - symmetry. apply not_true_iff_false. intros (l & Hin & Hc)%existsb_exists.
    rewrite label_wf_check in Hc; [done|]. unfold labels in Hl.
    rewrite Forall_forall in Hl. by apply Hl, list_elem_of_In.
Qed.

Lemma matches_domain_suffix_labels (h d : Hostname) :
  matches_domain_suffix h d = true <-> exists ls, labels h = ls ++ labels d.
Proof.
  unfold matches_domain_suffix, labels. rewrite orb_true_iff, bool_decide_eq_true. split.
  - intros [H|H].
    + exists []. by rewrite H.
    + destruct (strip_suffix _ _) as [p|] eqn:E; [|done].
      apply strip_suffix_Some in E. apply ends_with_true in H as [r ->].
      rewrite E. change (r ++ lit ".") with (r ++ [x2e]). rewrite <- app_assoc. cbn [app].
      rewrite split_byte_app_sep. by eexists.
  - intros [ls H]. destruct ls as [|l ls]; [left|right].
    + rewrite <- (join_split_byte x2e (hostname_str h)), H. apply join_split_byte.
    + assert (hostname_str h = (join [x2e] (l :: ls) ++ [x2e]) ++ hostname_str d) as ->.
      { rewrite <- (join_split_byte x2e (hostname_str h)), H.
        rewrite join_app by (done || apply split_byte_nonempty).
        rewrite join_split_byte, <- app_assoc. done. }
      rewrite (proj2 (strip_suffix_Some _ _ _) eq_refl). apply ends_with_true. by eexists.
Qed.

(** ** HTTP method tokens *)

Definition method_wf (m : HttpMethod) : Prop :=
  method_str m <> [] /\
  Forall (fun b => is_token_byte b = true /\ is_ascii_lowercase b = false) (method_str m).

Lemma token_graphic (b : byte) : is_token_byte b = true -> is_ascii_graphic b = true.
Proof. destruct b; vm_compute; done. Qed.

Lemma token_upper (b : byte) :
  is_token_byte b = true ->
  is_token_byte (byte_to_upper b) = true /\ is_ascii_lowercase (byte_to_upper b) = false.
Proof. destruct b; vm_compute; done. Qed.

Lemma upper_id (b : byte) : is_ascii_lowercase b = false -> byte_to_upper b = b.
Proof. destruct b; vm_compute; done. Qed.

Lemma http_method_parse_wf (v : str) (m : HttpMethod) : http_method_parse v = Ok m -> method_wf m.
Proof.
  unfold http_method_parse. intros H. inv_result H. to_prop. unfold method_wf. cbn.
  split; [by destruct (trim v)|].
  apply Forall_map, Forall_forall. intros b Hb. apply token_upper.
  match goal with E : forallb _ _ = true |- _ => rewrite forallb_forall in E; apply E end.
  by apply list_elem_of_In.
Qed.

Lemma http_method_parse_of_wf (m : HttpMethod) :
  method_wf m -> http_method_parse (method_str m) = Ok m.
Proof.
  intros [Hne H]. unfold http_method_parse.
  rewrite trim_all_graphic
    by (eapply Forall_impl; [exact H|]; intros b [? _]; by apply token_graphic).
  rewrite bool_decide_eq_false_2 by done.
  replace (forallb _ _) with true; cbn.
  - destruct m as [s]. cbn in *. do 2 f_equal. unfold to_ascii_uppercase.
    rewrite <- (map_id s) at 2. apply map_ext_Forall.
    eapply Forall_impl; [exact H|]. intros b [_ ?]. by apply upper_id.
  - symmetry. apply forallb_forall. intros b Hb%list_elem_of_In.
    rewrite Forall_forall in H. by apply H.
Qed.

(** ** Properties *)

(** [Hostname::parse] normalises: whatever it accepts is a canonical name
    (at most 253 bytes; dot-separated labels of 1 to 63 lower-case letters,
    digits and inner hyphens), and parsing that name again returns it
    unchanged, so hostnames compare by their canonical form. *)
Theorem hostname_parse_canonical (v : str) (h : Hostname) :
  hostname_parse v = Ok h -> hostname_wf h /\ hostname_parse (hostname_str h) = Ok h.
Proof.
  intros H%hostname_parse_Ok_wf. split; [done|]. by apply hostname_parse_of_wf.
Qed.

Lemma hostname_parse_canonical_witness :
  hostname_wf (mkHostname (lit "www.example.com")) /\
  hostname_parse (lit "www.example.com") = Ok (mkHostname (lit "www.example.com")).
Proof. apply (hostname_parse_canonical (lit " WWW.Example.COM. ")). vm_compute. reflexivity. Defined.

(** [matches_domain_suffix] compares whole labels: it holds exactly when
    the labels of the domain are a suffix of the labels of the hostname, so
    [evilexample.com] never matches [example.com]; the relation is therefore
    reflexive and transitive. *)
Theorem domain_suffix_is_label_suffix (h d e : Hostname) :
  (matches_domain_suffix h d = true <-> exists ls, labels h = ls ++ labels d) /\
  matches_domain_suffix h h = true /\
  (matches_domain_suffix h d = true -> matches_domain_suffix d e = true ->
   matches_domain_suffix h e = true).
Proof.
  rewrite !matches_domain_suffix_labels. split; [done|]. split; [by exists []|].
  intros [l1 ->] [l2 ->]. exists (l1 ++ l2). by rewrite app_assoc.
Qed.

(** [HttpMethod::parse] accepts only RFC 9110 tokens, returns them in upper
    case, and is stable on its own output, so the method list of a rule and the
    method of a request compare case-insensitively. *)
Theorem http_method_parse_canonical (v : str) (m : HttpMethod) :
  http_method_parse v = Ok m -> method_wf m /\ http_method_parse (method_str m) = Ok m.
Proof.
  intros H%http_method_parse_wf. split; [done|]. by apply http_method_parse_of_wf.
Qed.

Lemma http_method_parse_canonical_witness :
  method_wf (mkHttpMethod (lit "GET")) /\
  http_method_parse (lit "GET") = Ok (mkHttpMethod (lit "GET")).
Proof. apply (http_method_parse_canonical (lit "get")). vm_compute. reflexivity. Defined.
