(* ===== verification/Policy.v ===== *)
(** * The policy engine ([crates/foxprox-core/src/policy.rs]) *)

From S2P Require Import Prelude Text NetAddr Event.

(** ** Decisions *)

Module DecisionAction.
Inductive DecisionAction : Type :=
  Allow | DenyDrop | DenyReset | DenyIcmpUnreachable | FailClosed | RequireBrokerDns.
End DecisionAction.
Abbreviation DecisionAction := DecisionAction.DecisionAction.

Module DenialReason.
Inductive DenialReason : Type :=
| DefaultDeny
| RuleDenied (rule : str)
| Unsupported (reason : str)
| DirectDnsBypass
| MissingRequiredAttribution
| MulticastOrBroadcast
| SniDnsMismatch
| HiddenSni
| ResourceLimit (limit : str).
End DenialReason.
Abbreviation DenialReason := DenialReason.DenialReason.

Record Decision : Type := mkDecision {
  d_action : DecisionAction;
  d_rule_id : option str;
  d_reason : option DenialReason
}.

Definition decision_allow (rule_id : str) : Decision :=
  mkDecision DecisionAction.Allow (Some rule_id) None.

Definition decision_default_deny (action : DecisionAction) : Decision :=
  mkDecision action None (Some DenialReason.DefaultDeny).

Definition is_allowed (self : Decision) : bool :=
  match d_action self with
  | DecisionAction.Allow => true
  | _ => false
  end.

Module RuleEffect.
Inductive RuleEffect : Type := Allow | Deny.
End RuleEffect.
Abbreviation RuleEffect := RuleEffect.RuleEffect.

(** ** Port ranges and networks *)

Record PortRange : Type := mkPortRange { pr_start : Z; pr_end : Z }.

Definition port_range_new (start end_ : Z) : option PortRange :=
  if start <=? end_ then Some (mkPortRange start end_) else None.

Definition port_range_single (port : Z) : PortRange := mkPortRange port port.

Definition port_range_contains (self : PortRange) (port : Z) : bool :=
  (pr_start self <=? port) && (port <=? pr_end self).

Module Cidr.
Inductive Cidr : Type :=
| V4 (network prefix : Z)
| V6 (network prefix : Z).
End Cidr.
Abbreviation Cidr := Cidr.Cidr.

Definition cidr_v4 (network prefix : Z) : option Cidr :=
  if prefix <=? 32 then Some (Cidr.V4 network prefix) else None.

Definition cidr_v6 (network prefix : Z) : option Cidr :=
  if prefix <=? 128 then Some (Cidr.V6 network prefix) else None.

(** [uN::MAX << n] at width [N]. *)
Definition prefix_mask_v4 (prefix : Z) : Z :=
  if prefix =? 0 then 0 else Z.land (Z.shiftl u32_max (32 - prefix)) u32_max.

Definition prefix_mask_v6 (prefix : Z) : Z :=
  if prefix =? 0 then 0 else Z.land (Z.shiftl u128_max (128 - prefix)) u128_max.

Definition cidr_contains (self : Cidr) (ip : IpAddr) : bool :=
  match self, ip with
  | Cidr.V4 network prefix, V4 ip =>
      let mask := prefix_mask_v4 prefix in Z.land network mask =? Z.land ip mask
  | Cidr.V6 network prefix, V6 ip =>
      let mask := prefix_mask_v6 prefix in Z.land network mask =? Z.land ip mask
  | _, _ => false
  end.

(** ** What a rule can look at *)

Definition event_destination (event : NetworkEvent) : option TransportEndpoint :=
  match event with
  | NetworkEvent.TcpConnectAttempt _ _ _ destination _
  | NetworkEvent.UdpFlowAttempt _ _ _ destination _ _
  | NetworkEvent.TlsClientHello _ _ destination _ _ _ _ => Some destination
  | NetworkEvent.SocksConnect _ (SocksDestination.Ip destination) => Some destination
  | _ => None
  end.

Definition event_destination_port (event : NetworkEvent) : option Z :=
  match event with
  | NetworkEvent.TcpConnectAttempt _ _ _ destination _
  | NetworkEvent.UdpFlowAttempt _ _ _ destination _ _
  | NetworkEvent.TlsClientHello _ _ destination _ _ _ _ => Some (ep_port destination)
  | NetworkEvent.HttpRequest _ _ _ origin _ => Some (or_port origin)
  | NetworkEvent.HttpsConnect _ _ _ port => Some port
  | NetworkEvent.SocksConnect _ target => Some (socks_port target)
  | _ => None
  end.

Definition event_hostname (event : NetworkEvent) : option (Hostname * AttributionConfidence) :=
  match event with
  | NetworkEvent.TcpConnectAttempt _ _ _ _ attribution
  | NetworkEvent.UdpFlowAttempt _ _ _ _ attribution _ =>
      match at_hostname attribution with
      | Some hostname => Some (hostname, at_confidence attribution)
      | None => None
      end
  | NetworkEvent.DnsQuery _ hostname _ _ => Some (hostname, AttributionConfidence.High)
  | NetworkEvent.HttpRequest _ _ _ origin _ => Some (or_host origin, AttributionConfidence.High)
  | NetworkEvent.HttpsConnect _ _ host _ => Some (host, AttributionConfidence.High)
  | NetworkEvent.TlsClientHello _ _ _ (Some sni) _ _ _ => Some (sni, AttributionConfidence.High)
  | NetworkEvent.SocksConnect _ target =>
      match socks_host target with
      | Some host => Some (host, AttributionConfidence.High)
      | None => None
      end
  | _ => None
  end.

Definition event_origin_scheme (event : NetworkEvent) : option str :=
  match event with
  | NetworkEvent.HttpRequest _ _ _ origin _ => Some (or_scheme origin)
  | NetworkEvent.HttpsConnect _ _ _ _ => Some (lit "https")
  | _ => None
  end.

Definition event_http_method (event : NetworkEvent) : option HttpMethod :=
  match event with
  | NetworkEvent.HttpRequest _ _ method _ _ => Some method
  | _ => None
  end.

Definition event_http_path (event : NetworkEvent) : option str :=
  match event with
  | NetworkEvent.HttpRequest _ _ _ _ path_and_query => Some path_and_query
  | _ => None
  end.

(** ** Rules *)

Record PolicyRule : Type := mkPolicyRule {
  r_id : str;
  r_effect : RuleEffect;
  r_protocol : option Protocol;
  r_destination_cidr : option Cidr;
  r_destination_ports : option PortRange;
  r_hostname : option Hostname;
  r_domain_suffix : option Hostname;
  r_origin_scheme : option str;
  r_http_methods : list HttpMethod;
  r_http_path_prefix : option str;
  r_min_attribution : AttributionConfidence
}.

Definition policy_rule_new (id : str) (effect : RuleEffect) : PolicyRule :=
  {| r_id := id; r_effect := effect; r_protocol := None; r_destination_cidr := None;
     r_destination_ports := None; r_hostname := None; r_domain_suffix := None;
     r_origin_scheme := None; r_http_methods := []; r_http_path_prefix := None;
     r_min_attribution := AttributionConfidence.Low |}.

Definition with_protocol (self : PolicyRule) (protocol : Protocol) : PolicyRule :=
  let '(mkPolicyRule a b _ d e f g h i j k) := self in
  mkPolicyRule a b (Some protocol) d e f g h i j k.
Definition with_destination_cidr (self : PolicyRule) (cidr : Cidr) : PolicyRule :=
  let '(mkPolicyRule a b c _ e f g h i j k) := self in
  mkPolicyRule a b c (Some cidr) e f g h i j k.
Definition with_destination_ports (self : PolicyRule) (ports : PortRange) : PolicyRule :=
  let '(mkPolicyRule a b c d _ f g h i j k) := self in
  mkPolicyRule a b c d (Some ports) f g h i j k.
Definition with_hostname (self : PolicyRule) (hostname : Hostname) : PolicyRule :=
  let '(mkPolicyRule a b c d e _ g h i j _) := self in
  mkPolicyRule a b c d e (Some hostname) g h i j AttributionConfidence.Medium.
Definition with_domain_suffix (self : PolicyRule) (domain_suffix : Hostname) : PolicyRule :=
  let '(mkPolicyRule a b c d e f _ h i j _) := self in
  mkPolicyRule a b c d e f (Some domain_suffix) h i j AttributionConfidence.Medium.
Definition with_origin_scheme (self : PolicyRule) (scheme : str) : PolicyRule :=
  let '(mkPolicyRule a b c d e f g _ i j k) := self in
  mkPolicyRule a b c d e f g (Some (to_ascii_lowercase scheme)) i j k.
Definition with_http_method (self : PolicyRule) (method : HttpMethod) : PolicyRule :=
  let '(mkPolicyRule a b c d e f g h i j k) := self in
  mkPolicyRule a b c d e f g h (i ++ [method]) j k.
Definition with_http_path_prefix (self : PolicyRule) (prefix : str) : PolicyRule :=
  let '(mkPolicyRule a b c d e f g h i _ k) := self in
  mkPolicyRule a b c d e f g h i (Some prefix) k.
Definition with_min_attribution (self : PolicyRule) (confidence : AttributionConfidence) : PolicyRule :=
  let '(mkPolicyRule a b c d e f g h i j _) := self in
  mkPolicyRule a b c d e f g h i j confidence.

(** [o.is_some_and(|x| !p(x))] returns false in [matches]: an absent
    constraint passes. *)
Definition unset_or {A} (o : option A) (p : A -> bool) : bool :=
  match o with
  | Some a => p a
  | None => true
  end.

Definition is_set {A} (o : option A) : bool := match o with Some _ => true | None => false end.

Definition rule_matches (self : PolicyRule) (event : NetworkEvent) : bool :=
  if negb (unset_or (r_protocol self) (fun p => bool_decide (p = event_protocol event)))
  then false
  else if negb (unset_or (r_destination_cidr self) (fun cidr =>
            match event_destination event with
            | Some destination => cidr_contains cidr (ep_ip destination)
            | None => false
            end))
  then false
  else if negb (unset_or (r_destination_ports self) (fun ports =>
            match event_destination_port event with
            | Some port => port_range_contains ports port
            | None => false
            end))
  then false
  else if negb (if is_set (r_hostname self) || is_set (r_domain_suffix self) then
                  match event_hostname event with
                  | None => false
                  | Some (hostname, confidence) =>
                      if confidence_ltb confidence (r_min_attribution self) then false
                      else if negb (unset_or (r_hostname self) (fun e => bool_decide (hostname = e)))
                      then false
                      else unset_or (r_domain_suffix self) (fun e => matches_domain_suffix hostname e)
                  end
                else true)
  then false
  else if negb (unset_or (r_origin_scheme self) (fun expected =>
            match event_origin_scheme event with
            | Some scheme => eq_ignore_ascii_case scheme expected
            | None => false
            end))
  then false
  else if negb (if bool_decide (r_http_methods self = []) then true
                else match event_http_method event with
                     | Some method => existsb (fun e => bool_decide (e = method)) (r_http_methods self)
                     | None => false
                     end)
  then false
  else unset_or (r_http_path_prefix self) (fun prefix =>
            match event_http_path event with
            | Some path => starts_with prefix path
            | None => false
            end).

Record PolicyRuleSet : Type := mkPolicyRuleSet {
  rs_rules : list PolicyRule;
  rs_default_action : DecisionAction;
  rs_deny_direct_dns : bool;
  rs_deny_multicast_broadcast : bool;
  rs_broadcast_addresses : list IpAddr;
  rs_deny_sni_dns_mismatch : bool;
  rs_deny_hidden_sni : bool
}.

Definition policy_rule_set_default : PolicyRuleSet :=
  {| rs_rules := []; rs_default_action := DecisionAction.DenyDrop;
     rs_deny_direct_dns := true; rs_deny_multicast_broadcast := true;
     rs_broadcast_addresses := [V4 IPV4_BROADCAST];
     rs_deny_sni_dns_mismatch := true; rs_deny_hidden_sni := true |}.

(** ** Evaluation *)

#[export] Instance DecisionAction_eq_dec : EqDecision DecisionAction.
Proof. solve_decision. Defined.
#[export] Instance DenialReason_eq_dec : EqDecision DenialReason.
Proof. solve_decision. Defined.
#[export] Instance Decision_eq_dec : EqDecision Decision.
Proof. solve_decision. Defined.
#[export] Instance RuleEffect_eq_dec : EqDecision RuleEffect.
Proof. solve_decision. Defined.
#[export] Instance PortRange_eq_dec : EqDecision PortRange.
Proof. solve_decision. Defined.
#[export] Instance Cidr_eq_dec : EqDecision Cidr.
Proof. solve_decision. Defined.
#[export] Instance PolicyRule_eq_dec : EqDecision PolicyRule.
Proof. solve_decision. Defined.
#[export] Instance PolicyRuleSet_eq_dec : EqDecision PolicyRuleSet.
Proof. solve_decision. Defined.

Definition deny_action_for (protocol : Protocol) : DecisionAction :=
  match protocol with
  | Protocol.Tcp | Protocol.Http | Protocol.HttpsConnect | Protocol.Socks =>
      DecisionAction.DenyReset
  | Protocol.Icmp => DecisionAction.DenyDrop
  | Protocol.Unsupported => DecisionAction.FailClosed
  | _ => DecisionAction.DenyDrop
  end.

Definition tls_names_mismatch (sni dns_hostname : option Hostname) (caller_reported_mismatch : bool) : bool :=
  caller_reported_mismatch
  || match sni, dns_hostname with
     | Some sni, Some dns => negb (bool_decide (sni = dns))
     | _, _ => false
     end.

Definition has_explicit_ip_allow (rules : PolicyRuleSet) (destination : TransportEndpoint)
  (protocol : Protocol) : bool :=
  existsb (fun rule =>
    bool_decide (r_effect rule = RuleEffect.Allow)
    && negb (is_set (r_hostname rule)) && negb (is_set (r_domain_suffix rule))
    && negb (is_set (r_origin_scheme rule)) && bool_decide (r_http_methods rule = [])
    && negb (is_set (r_http_path_prefix rule))
    && unset_or (r_protocol rule) (fun p => bool_decide (p = protocol))
    && match r_destination_cidr rule with
       | Some cidr => cidr_contains cidr (ep_ip destination)
       | None => false
       end
    && unset_or (r_destination_ports rule) (fun ports => port_range_contains ports (ep_port destination)))
    (rs_rules rules).

Definition is_multicast_or_broadcast (ip : IpAddr) (rules : PolicyRuleSet) : bool :=
  if bool_decide (ip ∈ rs_broadcast_addresses rules) then true
  else match ip with
       | V4 ip => ipv4_is_multicast ip || (ip =? IPV4_BROADCAST)
       | V6 ip => ipv6_is_multicast ip
       end.

Definition fail_closed (reason : DenialReason) : Decision :=
  mkDecision DecisionAction.FailClosed None (Some reason).

Definition fail_closed_precheck (event : NetworkEvent) (rules : PolicyRuleSet) : option Decision :=
  match event with
  | NetworkEvent.Unsupported _ _ reason =>
      Some (fail_closed (DenialReason.Unsupported (debug_unsupported_reason reason)))
  | NetworkEvent.TcpConnectAttempt _ _ _ destination _
  | NetworkEvent.UdpFlowAttempt _ _ _ destination _ _ =>
      if rs_deny_direct_dns rules && (ep_port destination =? 53) then
        Some (mkDecision DecisionAction.RequireBrokerDns None (Some DenialReason.DirectDnsBypass))
      else if rs_deny_multicast_broadcast rules
              && is_multicast_or_broadcast (ep_ip destination) rules then
        Some (fail_closed DenialReason.MulticastOrBroadcast)
      else None
  | NetworkEvent.TlsClientHello _ _ destination sni ech_present dns_hostname mismatch =>
      if rs_deny_sni_dns_mismatch rules && tls_names_mismatch sni dns_hostname mismatch then
        Some (fail_closed DenialReason.SniDnsMismatch)
      else if rs_deny_hidden_sni rules && (negb (is_set sni) || ech_present)
              && negb (has_explicit_ip_allow rules destination Protocol.Tls) then
        Some (fail_closed DenialReason.HiddenSni)
      else None
  | _ => None
  end.

Fixpoint evaluate_rules (rules : list PolicyRule) (default_action : DecisionAction)
  (event : NetworkEvent) : Decision :=
  match rules with
  | [] => decision_default_deny default_action
  | rule :: rules =>
      if rule_matches rule event then
        match r_effect rule with
        | RuleEffect.Allow => decision_allow (r_id rule)
        | RuleEffect.Deny =>
            mkDecision (deny_action_for (event_protocol event)) (Some (r_id rule))
              (Some (DenialReason.RuleDenied (r_id rule)))
        end
      else evaluate_rules rules default_action event
  end.

(** [PolicyEngine::new(rules).evaluate(event)]. *)
Definition evaluate (rules : PolicyRuleSet) (event : NetworkEvent) : Decision :=
  match fail_closed_precheck event rules with
  | Some decision => decision
  | None => evaluate_rules (rs_rules rules) (rs_default_action rules) event
  end.

(** ** Specifications *)

Definition cidr_wf (c : Cidr) : Prop :=
  match c with
  | Cidr.V4 network prefix => 0 <= network <= u32_max /\ 0 <= prefix <= 32
  | Cidr.V6 network prefix => 0 <= network <= u128_max /\ 0 <= prefix <= 128
  end.

(** The address is in the network: the first [prefix] bits agree. *)
Definition in_network (c : Cidr) (ip : IpAddr) : Prop :=
  match c, ip with
  | Cidr.V4 network prefix, V4 ip => network / 2 ^ (32 - prefix) = ip / 2 ^ (32 - prefix)
  | Cidr.V6 network prefix, V6 ip => network / 2 ^ (128 - prefix) = ip / 2 ^ (128 - prefix)
  | _, _ => False
  end.

Definition rule_decision (rule : PolicyRule) (event : NetworkEvent) : Decision :=
  match r_effect rule with
  | RuleEffect.Allow => decision_allow (r_id rule)
  | RuleEffect.Deny =>
      mkDecision (deny_action_for (event_protocol event)) (Some (r_id rule))
        (Some (DenialReason.RuleDenied (r_id rule)))
  end.

(** What the engine promises: guards first, then the first matching rule, then
    the default. *)
Inductive decides (rs : PolicyRuleSet) (event : NetworkEvent) : Decision -> Prop :=
| decides_guard d :
    fail_closed_precheck event rs = Some d -> decides rs event d
| decides_rule pre rule post :
    fail_closed_precheck event rs = None ->
    rs_rules rs = pre ++ rule :: post ->
    Forall (fun r => rule_matches r event = false) pre ->
    rule_matches rule event = true ->
    decides rs event (rule_decision rule event)
| decides_default :
    fail_closed_precheck event rs = None ->
    Forall (fun r => rule_matches r event = false) (rs_rules rs) ->
    decides rs event (decision_default_deny (rs_default_action rs)).

(** An address the multicast/broadcast guard covers. *)
Definition group_address (rs : PolicyRuleSet) (ip : IpAddr) : Prop :=
  ip ∈ rs_broadcast_addresses rs \/
  match ip with
  | V4 a => 0xE0000000 <= a < 0xF0000000 \/ a = 0xFFFFFFFF
  | V6 a => 0xFF * 2 ^ 120 <= a < 0x100 * 2 ^ 120
  end.

(** The events the enabled guards must stop whatever the rules say. *)
Definition guarded (rs : PolicyRuleSet) (event : NetworkEvent) : Prop :=
  match event with
  | NetworkEvent.Unsupported _ _ _ => True
  | NetworkEvent.TcpConnectAttempt _ _ _ dst _ | NetworkEvent.UdpFlowAttempt _ _ _ dst _ _ =>
      (rs_deny_direct_dns rs = true /\ ep_port dst = 53) \/
      (rs_deny_multicast_broadcast rs = true /\ group_address rs (ep_ip dst))
  | NetworkEvent.TlsClientHello _ _ _ sni _ dns mismatch =>
      rs_deny_sni_dns_mismatch rs = true /\
      (mismatch = true \/ exists a b, sni = Some a /\ dns = Some b /\ a <> b)
  | _ => False
  end.

Definition set_rules (rs : PolicyRuleSet) (rules : list PolicyRule) : PolicyRuleSet :=
  mkPolicyRuleSet rules (rs_default_action rs) (rs_deny_direct_dns rs)
    (rs_deny_multicast_broadcast rs) (rs_broadcast_addresses rs)
    (rs_deny_sni_dns_mismatch rs) (rs_deny_hidden_sni rs).

(** A rule that allows by address alone. *)
Definition explicit_ip_allow (rule : PolicyRule) (dst : TransportEndpoint) : Prop :=
  r_effect rule = RuleEffect.Allow /\
  r_hostname rule = None /\ r_domain_suffix rule = None /\ r_origin_scheme rule = None /\
  r_http_methods rule = [] /\ r_http_path_prefix rule = None /\
  exists cidr, r_destination_cidr rule = Some cidr /\ cidr_contains cidr (ep_ip dst) = true.

(** ** Lemmas *)

(** Masking with [w]-bit [MAX << (w - p)] keeps the top [p] bits. *)
Lemma land_prefix_mask (w p n : Z) :
  0 <= p <= w -> 0 <= n < 2 ^ w ->
  Z.land n (Z.land (Z.shiftl (Z.ones w) (w - p)) (Z.ones w)) = n / 2 ^ (w - p) * 2 ^ (w - p).
Proof.
  intros Hp Hn. rewrite <- Z.shiftr_div_pow2, <- Z.shiftl_mul_pow2 by lia.
  apply Z.bits_inj'. intros i Hi.
  rewrite !Z.land_spec, !Z.shiftl_spec by lia.
  destruct (Z.ltb_spec i (w - p)).
  - rewrite !(Z.testbit_neg_r _ (i - (w - p))) by lia. by rewrite andb_false_r.
  - rewrite Z.shiftr_spec by lia. replace (i - (w - p) + (w - p)) with i by lia.
    destruct (Z.ltb_spec i w).
    + rewrite !Z.ones_spec_low by lia. by rewrite andb_true_r.
    + rewrite (Z.ones_spec_high w i) by lia. rewrite !andb_false_r. symmetry.
      rewrite <- (Z.mod_small n (2 ^ w)) by lia. apply Z.mod_pow2_bits_high. lia.
Qed.

Lemma land_prefix_mask_all (w p : Z) :
  0 <= p <= w ->
  Z.land (Z.ones w) (Z.shiftl (Z.ones w) (w - p)) = (2 ^ p - 1) * 2 ^ (w - p).
Proof.
  intros Hp. assert (0 < 2 ^ p) by (apply Z.pow_pos_nonneg; lia).
  assert (2 ^ p * 2 ^ (w - p) = 2 ^ w) as E by (rewrite <- Z.pow_add_r by lia; f_equal; lia).
  assert (0 < 2 ^ (w - p)) by (apply Z.pow_pos_nonneg; lia).
  rewrite <- (Z.land_diag (Z.ones w)) at 1.
  rewrite <- Z.land_assoc, (Z.land_comm (Z.ones w) (Z.shiftl _ _)), land_prefix_mask
    by (rewrite ?Z.ones_equiv; nia).
  f_equal. rewrite Z.ones_equiv. symmetry.
  apply (Z.div_unique _ _ _ (2 ^ (w - p) - 1)); nia.
Qed.

Lemma masked_eq (w p n m : Z) :
  0 <= p <= w -> 0 <= n < 2 ^ w -> 0 <= m < 2 ^ w ->
  let mask := if p =? 0 then 0 else Z.land (Z.shiftl (Z.ones w) (w - p)) (Z.ones w) in
  (Z.land n mask =? Z.land m mask) = true <-> n / 2 ^ (w - p) = m / 2 ^ (w - p).
Proof.
  intros Hp Hn Hm mask. subst mask. rewrite Z.eqb_eq.
  destruct (Z.eqb_spec p 0) as [->|Hp0].
  - rewrite Z.sub_0_r, !Z.land_0_r, !Z.div_small by lia. done.
  - rewrite !land_prefix_mask by lia.
    assert (2 ^ (w - p) <> 0) by (apply Z.pow_nonzero; lia).
    rewrite Z.mul_cancel_r by done. done.
Qed.

Lemma evaluate_rules_first_match (rules : list PolicyRule) (da : DecisionAction) (event : NetworkEvent) :
  (exists pre rule post, rules = pre ++ rule :: post /\
     Forall (fun r => rule_matches r event = false) pre /\ rule_matches rule event = true /\
     evaluate_rules rules da event = rule_decision rule event) \/
  (Forall (fun r => rule_matches r event = false) rules /\
   evaluate_rules rules da event = decision_default_deny da).
Proof.
  induction rules as [|rule rules IH]; cbn; [by right|].
  destruct (rule_matches rule event) eqn:E.
  - left. exists [], rule, rules. repeat split; [constructor|done].
  - destruct IH as [(pre & r & post & -> & Hpre & Hr & ->)|[Hall ->]].
    + left. exists (rule :: pre), r, post. repeat split; [|done]. by constructor.
    + right. split; [by constructor|done].
Qed.

Lemma first_match_unique (event : NetworkEvent) (pre pre' post post' : list PolicyRule) (r r' : PolicyRule) :
  pre ++ r :: post = pre' ++ r' :: post' ->
  Forall (fun r => rule_matches r event = false) pre -> rule_matches r event = true ->
  Forall (fun r => rule_matches r event = false) pre' -> rule_matches r' event = true -> r = r'.
Proof.
  revert pre'. induction pre as [|x pre IH]; intros [|y pre'] Heq H1 H2 H3 H4; cbn in *; simplify_eq.
  - done.
  - apply Forall_cons in H3 as [? _]. congruence.
  - apply Forall_cons in H1 as [? _]. congruence.
  - apply Forall_cons in H1 as [_ ?]. apply Forall_cons in H3 as [_ ?]. eauto.
Qed.

Lemma precheck_denies (event : NetworkEvent) (rs : PolicyRuleSet) (d : Decision) :
  fail_closed_precheck event rs = Some d -> is_allowed d = false /\ is_Some (d_reason d).
Proof. unfold fail_closed_precheck. intros H. repeat case_match; simplify_eq/=; eauto. Qed.

Lemma is_multicast_or_broadcast_spec (rs : PolicyRuleSet) (ip : IpAddr) :
  is_multicast_or_broadcast ip rs = true <-> group_address rs ip.
Proof.
  unfold is_multicast_or_broadcast, group_address. case_bool_decide as Hin.
  - split; [by left|done].
  - split.
    + intros H. right. destruct ip as [a|a].
      * unfold ipv4_is_multicast, IPV4_BROADCAST, u32_max in H.
        apply orb_true_iff in H as [H|H]; to_prop; [left|right; lia].
        pose proof (Z.div_mod a (2 ^ 24) ltac:(lia)). pose proof (Z.mod_pos_bound a (2 ^ 24) ltac:(lia)). lia.
      * unfold ipv6_is_multicast in H. to_prop.
        pose proof (Z.div_mod a (2 ^ 120) ltac:(lia)). pose proof (Z.mod_pos_bound a (2 ^ 120) ltac:(lia)). lia.
    + intros [H|H]; [done|]. destruct ip as [a|a].
      * unfold ipv4_is_multicast, IPV4_BROADCAST, u32_max. apply orb_true_iff.
        destruct H as [H| ->]; [left|by right]. apply andb_true_iff. rewrite !Z.leb_le. split.
        -- apply Z.div_le_lower_bound; lia.
        -- apply Z.lt_succ_r, Z.div_lt_upper_bound; lia.
      * unfold ipv6_is_multicast. apply Z.eqb_eq. symmetry.
        apply (Z.div_unique _ _ _ (a - 0xFF * 2 ^ 120)); lia.
Qed.

Lemma guarded_precheck (rs : PolicyRuleSet) (event : NetworkEvent) :
  guarded rs event -> exists d, forall rules, fail_closed_precheck event (set_rules rs rules) = Some d.
Proof.
  intros H. cut (exists d, fail_closed_precheck event rs = Some d /\
    forall rules, fail_closed_precheck event (set_rules rs rules) = fail_closed_precheck event rs).
  { intros (d & Hd & E). exists d. intros rules. by rewrite E. }
  destruct event; cbn [guarded] in H; try done.
  1, 2: cbn [fail_closed_precheck]; destruct H as [[H1 H2]|[H1 H2%is_multicast_or_broadcast_spec]];
    [rewrite H1, H2|rewrite H1, H2; case_match]; (eexists; split; [done|]); intros rules;
    unfold fail_closed_precheck; cbn -[Z.eqb is_multicast_or_broadcast]; rewrite ?H1, ?H2 in *;
    change (is_multicast_or_broadcast (ep_ip destination) (set_rules rs rules))
      with (is_multicast_or_broadcast (ep_ip destination) rs); rewrite ?H2;
    repeat case_match; done.
  - destruct H as [H1 H2]. cbn [fail_closed_precheck].
    assert (tls_names_mismatch sni dns_hostname mismatch = true) as Hm.
    { unfold tls_names_mismatch. destruct H2 as [->|(a & b & -> & -> & ?)]; [done|].
      rewrite (bool_decide_eq_false_2 (a = b)) by done. by rewrite orb_true_r. }
    rewrite H1, Hm. eexists. split; [done|]. intros rules. cbn. by rewrite H1.
  - eexists. split; [done|]. done.
Qed.

Lemma has_explicit_ip_allow_spec (rs : PolicyRuleSet) (dst : TransportEndpoint) (p : Protocol) :
  has_explicit_ip_allow rs dst p = true <->
  exists rule, rule ∈ rs_rules rs /\ explicit_ip_allow rule dst /\
    (r_protocol rule = None \/ r_protocol rule = Some p) /\
    (r_destination_ports rule = None \/
     exists ports, r_destination_ports rule = Some ports /\ port_range_contains ports (ep_port dst) = true).
Proof.
  unfold has_explicit_ip_allow, explicit_ip_allow. rewrite existsb_exists.
  setoid_rewrite <- list_elem_of_In. split.
  - intros (rule & Hin & H). exists rule. split; [done|].
    destruct (r_hostname rule), (r_domain_suffix rule), (r_origin_scheme rule),
      (r_http_path_prefix rule), (r_destination_cidr rule), (r_protocol rule),
      (r_destination_ports rule); cbn in H; rewrite ?andb_true_r, ?andb_false_r in H; try done;
      to_prop; subst; naive_solver.
  - intros (rule & Hin & (He & Hh & Hd & Ho & Hm & Hp & cidr & Hc & Hcon) & Hproto & Hports).
    exists rule. split; [done|]. rewrite He, Hh, Hd, Ho, Hm, Hp, Hc, Hcon. cbn.
    destruct Hproto as [->| ->], Hports as [->|(ports & -> & Hports)]; cbn;
      rewrite ?Hports, ?bool_decide_eq_true_2 by done; done.
Qed.

(** A rule that allows the address of a TLS event by itself matches the event. *)
Lemma explicit_ip_allow_matches (rule : PolicyRule) s f dst sni ech dns mm :
  explicit_ip_allow rule dst ->
  (r_protocol rule = None \/ r_protocol rule = Some Protocol.Tls) ->
  (r_destination_ports rule = None \/
   exists ports, r_destination_ports rule = Some ports /\ port_range_contains ports (ep_port dst) = true) ->
  rule_matches rule (NetworkEvent.TlsClientHello s f dst sni ech dns mm) = true.
Proof.
  intros (He & Hh & Hd & Ho & Hm & Hp & cidr & Hc & Hcon) Hproto Hports.
  unfold rule_matches. rewrite Hh, Hd, Ho, Hm, Hp, Hc. cbn. rewrite Hcon. cbn.
  destruct Hproto as [->| ->], Hports as [->|(ports & -> & Hports)]; cbn; rewrite ?Hports; done.
Qed.

(** ** Properties *)

(** [C2] [PolicyEngine::evaluate] refines its specification [decides]: an active
    guard decides first; otherwise the first matching rule of the ordered list
    decides; otherwise the configured default does.  The specification is
    functional, so this determines the decision on every event. *)
Theorem evaluate_refines_decides (rs : PolicyRuleSet) (event : NetworkEvent) (d : Decision) :
  decides rs event d <-> evaluate rs event = d.
Proof.
  assert (decides rs event (evaluate rs event)) as Hev.
  { unfold evaluate. destruct (fail_closed_precheck event rs) eqn:E; [by constructor|].
    destruct (evaluate_rules_first_match (rs_rules rs) (rs_default_action rs) event)
      as [(pre & r & post & Hr & ? & ? & ->)|[? ->]]; [by eapply decides_rule|by constructor]. }
  split; [|by intros <-]. intros Hd.
  destruct Hd as [d Hg|pre r post Hg Hr Hpre Hm|Hg Hall];
    destruct Hev as [d' Hg'|pre' r' post' Hg' Hr' Hpre' Hm'|Hg' Hall']; try congruence.
  - f_equal. rewrite Hr in Hr'. symmetry. by eapply first_match_unique.
  - rewrite Hr in Hall'. apply Forall_app in Hall' as [_ [? _]%Forall_cons]. congruence.
  - rewrite Hr' in Hall. apply Forall_app in Hall as [_ [? _]%Forall_cons]. congruence.
Qed.

(** [C22] No rule can override an enabled guard: an unsupported event, a TCP or UDP
    attempt to port 53 under [deny_direct_dns], to a multicast, broadcast or
    configured broadcast address under [deny_multicast_broadcast], and a TLS
    ClientHello whose SNI contradicts DNS under [deny_sni_dns_mismatch] are denied
    with a reason, and the decision is the same whatever the rule list is. *)
Theorem guards_override_rules (rs : PolicyRuleSet) (event : NetworkEvent) (rules : list PolicyRule) :
  guarded rs event ->
  is_allowed (evaluate rs event) = false /\ is_Some (d_reason (evaluate rs event)) /\
  evaluate (set_rules rs rules) event = evaluate rs event.
Proof.
  intros H. destruct (guarded_precheck rs event H) as (d & Hd).
  assert (evaluate rs event = d) as ->.
  { unfold evaluate. specialize (Hd (rs_rules rs)). destruct rs. unfold set_rules in Hd.
    cbn in Hd. by rewrite Hd. }
  destruct (precheck_denies event _ d (Hd [])). split; [done|]. split; [done|].
  unfold evaluate. by rewrite Hd.
Qed.

(** A broad allow rule for UDP does not open multicast 224.0.0.251. *)
Lemma guards_override_rules_witness :
  let rs := set_rules policy_rule_set_default
              [with_protocol (policy_rule_new (lit "allow-all-udp") RuleEffect.Allow) Protocol.Udp] in
  let event := NetworkEvent.UdpFlowAttempt (mkSandboxId (lit "alpha")) Frontend.Tun
    (mkEndpoint (V4 (ipv4_new 10 0 0 2)) 40000) (mkEndpoint (V4 (ipv4_new 224 0 0 251)) 5353)
    attribution_ip_only Protocol.Udp in
  is_allowed (evaluate rs event) = false /\ is_Some (d_reason (evaluate rs event)) /\
  evaluate (set_rules rs []) event = evaluate rs event.
Proof.
  intros rs event. apply (guards_override_rules rs event []). right. split; [reflexivity|].
  right. left. vm_compute. split; [discriminate|reflexivity].
Defined.

(** A decision other than the configured default explains itself: when the
    default action is a denial, [evaluate] allows exactly when no guard fires and
    the first matching rule is an allow rule; the decision then names that rule and
    carries no denial reason, and every denial carries a reason. *)
Theorem evaluate_allows_iff (rs : PolicyRuleSet) (event : NetworkEvent) :
  rs_default_action rs <> DecisionAction.Allow ->
  (is_allowed (evaluate rs event) = true <->
   fail_closed_precheck event rs = None /\
   exists pre rule post, rs_rules rs = pre ++ rule :: post /\
     Forall (fun r => rule_matches r event = false) pre /\ rule_matches rule event = true /\
     r_effect rule = RuleEffect.Allow /\ evaluate rs event = decision_allow (r_id rule)) /\
  (is_allowed (evaluate rs event) = true <-> d_reason (evaluate rs event) = None).
Proof.
  intros Hda. unfold evaluate. destruct (fail_closed_precheck event rs) as [d|] eqn:E.
  - destruct (precheck_denies event rs d E) as [-> [r ->]]. naive_solver.
  - destruct (evaluate_rules_first_match (rs_rules rs) (rs_default_action rs) event)
      as [(pre & r & post & Hr & Hpre & Hm & ->)|[Hall ->]].
    + unfold rule_decision. destruct (r_effect r) eqn:He; cbn.
      * split; [|done]. split; [|done]. intros _. split; [done|]. by exists pre, r, post.
      * destruct (deny_action_for (event_protocol event)) eqn:Hda';
          try (split; [|done]; split; [done|]; intros (_ & ? & ? & ? & _ & _ & _ & _ & ?); done).
        by destruct (event_protocol event).
    + unfold is_allowed. cbn. destruct (rs_default_action rs); try done;
        (split; [|done]; split; [done|]; intros (_ & ? & ? & ? & _ & _ & _ & _ & ?); done).
Qed.

Lemma evaluate_allows_iff_witness :
  let rs := set_rules policy_rule_set_default
              [with_protocol (policy_rule_new (lit "allow-tcp") RuleEffect.Allow) Protocol.Tcp] in
  let event := NetworkEvent.TcpConnectAttempt (mkSandboxId (lit "alpha")) Frontend.Tun None
    (mkEndpoint (V4 (ipv4_new 93 184 216 34)) 80) attribution_ip_only in
  is_allowed (evaluate rs event) = true /\ d_reason (evaluate rs event) = None.
Proof.
  intros rs event. destruct (evaluate_allows_iff rs event) as [_ H]; [vm_compute; discriminate|].
  split; [vm_compute; reflexivity|]. apply H. vm_compute. reflexivity.
Defined.

(** Conversely, a rule that matches a TLS event accepts its protocol and port. *)
Lemma rule_matches_tls (rule : PolicyRule) s f dst sni ech dns mm :
  rule_matches rule (NetworkEvent.TlsClientHello s f dst sni ech dns mm) = true ->
  (r_protocol rule = None \/ r_protocol rule = Some Protocol.Tls) /\
  (r_destination_ports rule = None \/
   exists ports, r_destination_ports rule = Some ports /\ port_range_contains ports (ep_port dst) = true).
Proof.
  unfold rule_matches. destruct (unset_or (r_protocol rule) _) eqn:Hp; [|done].
  destruct (unset_or (r_destination_cidr rule) _); [|done].
  destruct (unset_or (r_destination_ports rule) _) eqn:Hports; [|done]. intros _. split.
  - destruct (r_protocol rule); [right|by left]. cbn in Hp. to_prop. by subst.
  - destruct (r_destination_ports rule) as [ports|]; [right; by exists ports|by left].
Qed.

(** The hidden-SNI guard looks for a rule that admits the address of this very event. *)
Lemma has_explicit_ip_allow_tls (rs : PolicyRuleSet) s f dst sni ech dns mm :
  has_explicit_ip_allow rs dst Protocol.Tls = true <->
  exists rule, rule ∈ rs_rules rs /\ explicit_ip_allow rule dst /\
    rule_matches rule (NetworkEvent.TlsClientHello s f dst sni ech dns mm) = true.
Proof.
  rewrite has_explicit_ip_allow_spec. split; intros (rule & Hin & He & H); exists rule.
  - destruct H. split; [done|]. split; [done|]. by apply explicit_ip_allow_matches.
  - split; [done|]. split; [done|]. by eapply rule_matches_tls.
Qed.

Lemma tls_not_guarded (rs : PolicyRuleSet) s f dst sni ech dns mm :
  ~ guarded rs (NetworkEvent.TlsClientHello s f dst sni ech dns mm) ->
  rs_deny_sni_dns_mismatch rs && tls_names_mismatch sni dns mm = false.
Proof.
  intros H. apply not_true_iff_false. intros [H1 H2]%andb_true_iff. apply H. split; [done|].
  apply orb_true_iff in H2 as [->|H2]; [by left|right]. destruct sni as [a|], dns as [b|]; try done.
  exists a, b. split_and!; try done. by to_prop.
Qed.

(** [C31] What [deny_hidden_sni] does to a TLS ClientHello without a visible SNI, or with
    Encrypted ClientHello, that no other guard stops: if no allow rule that matches it
    admits its destination by CIDR alone (no hostname, scheme, method or path constraint),
    it is denied as a hidden SNI, whatever the other rules say; if there is such a rule,
    the guard is satisfied and the first matching rule of the list decides.  That rule
    need not be the CIDR rule: an earlier domain rule can be the one that allows an
    Encrypted ClientHello by its outer SNI. *)
Theorem hidden_sni_needs_ip_allow (rs : PolicyRuleSet) s f dst sni ech dns mm :
  let event := NetworkEvent.TlsClientHello s f dst sni ech dns mm in
  let admits rule := rule ∈ rs_rules rs /\ explicit_ip_allow rule dst /\ rule_matches rule event = true in
  rs_deny_hidden_sni rs = true -> (sni = None \/ ech = true) -> ~ guarded rs event ->
  ((forall rule, ~ admits rule) -> evaluate rs event = fail_closed DenialReason.HiddenSni) /\
  (forall rule, admits rule -> exists pre first post,
     rs_rules rs = pre ++ first :: post /\ Forall (fun r => rule_matches r event = false) pre /\
     rule_matches first event = true /\ evaluate rs event = rule_decision first event).
Proof.
  intros event admits Hh Hs Hg. unfold evaluate. cbn [event fail_closed_precheck].
  rewrite (tls_not_guarded _ _ _ _ _ _ _ _ Hg), Hh.
  replace (negb (is_set sni) || ech) with true by (destruct Hs as [->| ->]; [done|by rewrite orb_true_r]).
  pose proof (has_explicit_ip_allow_tls rs s f dst sni ech dns mm) as Hip. split.
  - intros Hno. destruct (has_explicit_ip_allow _ _ _); [|done].
    destruct (proj1 Hip eq_refl) as (rule & H). by destruct (Hno rule).
  - intros rule (Hin & He & Hm). rewrite (proj2 Hip) by by exists rule. cbn [andb negb].
    destruct (evaluate_rules_first_match (rs_rules rs) (rs_default_action rs) event)
      as [(pre & first & post & H)|[Hall _]]; [by exists pre, first, post|].
    rewrite Forall_forall in Hall. by rewrite Hall in Hm.
Qed.

(** Under a domain rule alone an Encrypted ClientHello is denied; with a CIDR rule behind
    it, the domain rule allows it. *)
Lemma hidden_sni_needs_ip_allow_witness :
  let dst := mkEndpoint (V4 (ipv4_new 93 184 216 34)) 443 in
  let by_domain := with_domain_suffix (policy_rule_new (lit "allow-domain") RuleEffect.Allow) (mkHostname (lit "example.com")) in
  let by_cidr := with_destination_cidr (with_protocol (policy_rule_new (lit "allow-ip") RuleEffect.Allow) Protocol.Tls)
                   (Cidr.V4 (ipv4_new 93 184 216 0) 24) in
  let event := NetworkEvent.TlsClientHello (mkSandboxId (lit "alpha")) Frontend.Tun dst
                 (Some (mkHostname (lit "www.example.com"))) true None false in
  let policy rules := set_rules policy_rule_set_default rules in
  evaluate (policy [by_domain]) event = fail_closed DenialReason.HiddenSni /\
  evaluate (policy [by_domain; by_cidr]) event = decision_allow (lit "allow-domain").
Proof.
  intros dst by_domain by_cidr event policy.
  assert (forall rules, ~ guarded (policy rules) event) as Hg.
  { intros rules [_ [H|(a & b & _ & H & _)]]; discriminate H. }
  split.
  - apply (hidden_sni_needs_ip_allow (policy [by_domain]) _ _ _ _ _ _ _ eq_refl (or_intror eq_refl) (Hg _)).
    intros rule (Hin & (_ & _ & Hd & _) & _). apply list_elem_of_singleton in Hin as ->. discriminate Hd.
  - destruct (proj2 (hidden_sni_needs_ip_allow (policy [by_domain; by_cidr]) _ _ _ _ _ _ _ eq_refl
      (or_intror eq_refl) (Hg _)) by_cidr) as (pre & first & post & Hr & Hpre & _ & Hev).
    + split_and!; [by right; left| |vm_compute; reflexivity]. repeat (split; [vm_compute; reflexivity|]).
      eexists. split; [reflexivity|vm_compute; reflexivity].
    + refine (eq_trans Hev _). destruct pre as [|x pre]; [injection Hr as <-; reflexivity|]. exfalso.
      injection Hr as <- _. apply Forall_inv in Hpre. vm_compute in Hpre. discriminate Hpre.
Defined.

(** A rule with a hostname or domain constraint matches only on hostname
    evidence of at least the rule's confidence: the attributed name equals the
    required hostname and ends with all labels of the required domain, so an
    IP-only flow never matches such a rule. *)
Theorem hostname_rule_needs_evidence (rule : PolicyRule) (event : NetworkEvent) :
  rule_matches rule event = true ->
  r_hostname rule <> None \/ r_domain_suffix rule <> None ->
  exists h c, event_hostname event = Some (h, c) /\
    (confidence_rank (r_min_attribution rule) <= confidence_rank c)%nat /\
    (forall e, r_hostname rule = Some e -> h = e) /\
    (forall e, r_domain_suffix rule = Some e -> exists ls, labels h = ls ++ labels e).
Proof.
  intros H Hset. unfold rule_matches in H.
  do 3 (case_match; [done|]). case_match eqn:Hh; [done|]. clear H.
  apply negb_false_iff in Hh.
  replace (is_set (r_hostname rule) || is_set (r_domain_suffix rule)) with true in Hh
    by (destruct (r_hostname rule), (r_domain_suffix rule); naive_solver).
  destruct (event_hostname event) as [[h c]|]; [|done]. exists h, c. split; [done|].
  destruct (confidence_ltb _ _) eqn:Hc; [done|]. unfold confidence_ltb in Hc. to_prop.
  split; [done|]. destruct (unset_or (r_hostname rule) _) eqn:Hn; [|done]. cbn [negb] in Hh. split.
  - intros e He. rewrite He in Hn. cbn in Hn. by to_prop.
  - intros e He. rewrite He in Hh. by apply matches_domain_suffix_labels.
Qed.

Lemma hostname_rule_needs_evidence_witness :
  let rule := with_domain_suffix (policy_rule_new (lit "r") RuleEffect.Allow)
                (mkHostname (lit "example.com")) in
  let event := NetworkEvent.HttpsConnect (mkSandboxId (lit "alpha")) Frontend.HttpProxy
                 (mkHostname (lit "www.example.com")) 443 in
  exists h c, event_hostname event = Some (h, c) /\
    (confidence_rank (r_min_attribution rule) <= confidence_rank c)%nat /\
    (forall e, r_hostname rule = Some e -> h = e) /\
    (forall e, r_domain_suffix rule = Some e -> exists ls, labels h = ls ++ labels e).
Proof.
  intros rule event. apply hostname_rule_needs_evidence; [vm_compute; reflexivity|].
  right. vm_compute. discriminate.
Defined.

(** [Cidr::contains] is network membership: for a valid network and address,
    the mask arithmetic of both widths (including the prefix-0 special case) holds
    exactly when the first [prefix] bits agree; families never mix. *)
Theorem cidr_contains_in_network (c : Cidr) (ip : IpAddr) :
  cidr_wf c -> ip_wf ip -> (cidr_contains c ip = true <-> in_network c ip).
Proof.
  destruct c as [n p|n p], ip as [a|a]; cbn -[Z.land Z.pow]; try done; intros [Hn Hp] Ha.
  - apply (masked_eq 32); unfold u32_max in *; lia.
  - apply (masked_eq 128); unfold u128_max in *; lia.
Qed.

Lemma cidr_contains_in_network_witness :
  cidr_contains (Cidr.V4 (ipv4_new 192 0 2 0) 24) (V4 (ipv4_new 192 0 2 55)) = true <->
  in_network (Cidr.V4 (ipv4_new 192 0 2 0) 24) (V4 (ipv4_new 192 0 2 55)).
Proof. apply cidr_contains_in_network; vm_compute; intuition discriminate. Defined.
