(* ===== verification/Flow.v ===== *)
(** * UDP pseudo-flows ([crates/foxprox-core/src/flow.rs])

    Flow keys, timeout classes, flow records and the [UdpFlowTable].  A
    [SystemTime] and a [Duration] are numbers of nanoseconds. *)

From S2P Require Import Prelude Text NetAddr Event.

(** ** Time *)

Abbreviation SystemTime := Z.
Abbreviation Duration := Z.

Definition from_secs (s : Z) : Duration := s * 1000000000.
Definition from_millis (ms : Z) : Duration := ms * 1000000.

(** [now.duration_since(earlier).ok()]. *)
Definition duration_since (now earlier : SystemTime) : option Duration :=
  if earlier <=? now then Some (now - earlier) else None.

(** [t.checked_add(d)]: the seconds of a [SystemTime] are an [i64]. *)
Definition checked_add (t : SystemTime) (d : Duration) : option SystemTime :=
  if (t + d) / 1000000000 <=? 9223372036854775807 then Some (t + d) else None.

(** ** Keys and classes *)

Module FlowProtocol.
Inductive FlowProtocol : Type := Tcp | Udp.
End FlowProtocol.
Abbreviation FlowProtocol := FlowProtocol.FlowProtocol.

Record FlowKey : Type := mkFlowKey {
  fk_source_ip : IpAddr;
  fk_source_port : Z;
  fk_destination_ip : IpAddr;
  fk_destination_port : Z;
  fk_protocol : FlowProtocol
}.

Definition flow_key_tcp (source_ip : IpAddr) (source_port : Z) (destination_ip : IpAddr)
  (destination_port : Z) : FlowKey :=
  mkFlowKey source_ip source_port destination_ip destination_port FlowProtocol.Tcp.

Definition flow_key_udp (source_ip : IpAddr) (source_port : Z) (destination_ip : IpAddr)
  (destination_port : Z) : FlowKey :=
  mkFlowKey source_ip source_port destination_ip destination_port FlowProtocol.Udp.

Module FlowTimeoutClass.
Inductive FlowTimeoutClass : Type := Dns | GenericUdp | Quic | OneShot.
End FlowTimeoutClass.
Abbreviation FlowTimeoutClass := FlowTimeoutClass.FlowTimeoutClass.

Definition default_duration (self : FlowTimeoutClass) : Duration :=
  match self with
  | FlowTimeoutClass.Dns => from_secs 10
  | FlowTimeoutClass.GenericUdp => from_secs 60
  | FlowTimeoutClass.Quic => from_secs 180
  | FlowTimeoutClass.OneShot => from_secs 5
  end.

(** ** Records *)

Record UdpFlowRecord : Type := mkUdpFlowRecord {
  uf_key : FlowKey;
  uf_timeout_class : FlowTimeoutClass;
  uf_attribution : Attribution;
  uf_created_at : SystemTime;
  uf_last_activity : SystemTime;
  uf_bytes_from_sandbox : Z;
  uf_bytes_to_sandbox : Z
}.

Definition udp_flow_record_new (key : FlowKey) (timeout_class : FlowTimeoutClass)
  (attribution : Attribution) (now : SystemTime) : UdpFlowRecord :=
  mkUdpFlowRecord key timeout_class attribution now now 0 0.

Definition record_sandbox_bytes (self : UdpFlowRecord) (bytes : Z) (now : SystemTime) : UdpFlowRecord :=
  mkUdpFlowRecord (uf_key self) (uf_timeout_class self) (uf_attribution self)
    (uf_created_at self) now
    (u64_saturating_add (uf_bytes_from_sandbox self) bytes) (uf_bytes_to_sandbox self).

Definition record_host_bytes (self : UdpFlowRecord) (bytes : Z) (now : SystemTime) : UdpFlowRecord :=
  mkUdpFlowRecord (uf_key self) (uf_timeout_class self) (uf_attribution self)
    (uf_created_at self) now
    (uf_bytes_from_sandbox self) (u64_saturating_add (uf_bytes_to_sandbox self) bytes).

Definition flow_is_expired (self : UdpFlowRecord) (now : SystemTime) : bool :=
  match duration_since now (uf_last_activity self) with
  | Some elapsed => default_duration (uf_timeout_class self) <=? elapsed
  | None => false
  end.

#[export] Instance FlowProtocol_eq_dec : EqDecision FlowProtocol.
Proof. solve_decision. Defined.
#[export] Instance FlowKey_eq_dec : EqDecision FlowKey.
Proof. solve_decision. Defined.
#[export] Instance FlowTimeoutClass_eq_dec : EqDecision FlowTimeoutClass.
Proof. solve_decision. Defined.
#[export] Instance UdpFlowRecord_eq_dec : EqDecision UdpFlowRecord.
Proof. solve_decision. Defined.

#[export] Instance FlowKey_countable : Countable FlowKey.
Proof.
  refine (inj_countable'
    (fun k => (fk_source_ip k, fk_source_port k, fk_destination_ip k, fk_destination_port k,
               match fk_protocol k with FlowProtocol.Tcp => true | FlowProtocol.Udp => false end))
    (fun '(a, b, c, d, p) =>
       mkFlowKey a b c d (if (p : bool) then FlowProtocol.Tcp else FlowProtocol.Udp)) _).
  by intros [? ? ? ? []].
Defined.

(** ** The table *)

Abbreviation UdpFlowTable := (gmap FlowKey UdpFlowRecord).

(** [entry(key).or_insert_with(new)] and the update of that entry. *)
Definition record_sandbox_datagram (self : UdpFlowTable) (key : FlowKey)
  (timeout_class : FlowTimeoutClass) (attribution : Attribution) (bytes : Z) (now : SystemTime)
  : UdpFlowTable :=
  let record := default (udp_flow_record_new key timeout_class attribution now) (self !! key) in
  let record := mkUdpFlowRecord (uf_key record) timeout_class attribution (uf_created_at record)
                  (uf_last_activity record) (uf_bytes_from_sandbox record)
                  (uf_bytes_to_sandbox record) in
  <[key := record_sandbox_bytes record bytes now]> self.

Definition record_host_datagram (self : UdpFlowTable) (key : FlowKey) (bytes : Z) (now : SystemTime)
  : UdpFlowTable * option UdpFlowRecord :=
  match self !! key with
  | None => (self, None)
  | Some record =>
      let record := record_host_bytes record bytes now in
      (<[key := record]> self, Some record)
  end.

Definition flow_get (self : UdpFlowTable) (key : FlowKey) : option UdpFlowRecord := self !! key.

Definition flow_remove (self : UdpFlowTable) (key : FlowKey) : UdpFlowTable * option UdpFlowRecord :=
  (delete key self, self !! key).

Definition flow_len (self : UdpFlowTable) : nat := size self.
Definition flow_is_empty (self : UdpFlowTable) : bool := (size self =? 0)%nat.

Section expiry.
Context `{!IterOrder FlowKey UdpFlowRecord}.

Definition flow_expired (self : UdpFlowTable) (now : SystemTime) : list UdpFlowRecord :=
  List.filter (fun record => flow_is_expired record now) (values self).

Definition flow_expire (self : UdpFlowTable) (now : SystemTime) : UdpFlowTable * list UdpFlowRecord :=
  let expired := flow_expired self now in
  (fold_left (fun flows record => delete (uf_key record) flows) expired self, expired).

End expiry.

(** ** Operation sequences and the abstract ledger *)

Module FlowOp.
Inductive FlowOp : Type :=
| Sandbox (key : FlowKey) (timeout_class : FlowTimeoutClass) (attribution : Attribution)
    (bytes : Z) (now : SystemTime)
| Host (key : FlowKey) (bytes : Z) (now : SystemTime)
| Remove (key : FlowKey)
| Expire (now : SystemTime).
End FlowOp.
Abbreviation FlowOp := FlowOp.FlowOp.

(** What the table should know of one key: unbounded byte counts, the class and
    the time of the last datagram. *)
Record Ledger : Type := mkLedger {
  lg_from : Z; lg_to : Z; lg_class : FlowTimeoutClass; lg_last : SystemTime
}.

Definition ledger_step (k : FlowKey) (l : option Ledger) (op : FlowOp) : option Ledger :=
  match op with
  | FlowOp.Sandbox key cls _ bytes now =>
      if bool_decide (key = k) then
        match l with
        | Some l => Some (mkLedger (lg_from l + bytes) (lg_to l) cls now)
        | None => Some (mkLedger bytes 0 cls now)
        end
      else l
  | FlowOp.Host key bytes now =>
      if bool_decide (key = k) then
        (fun l => mkLedger (lg_from l) (lg_to l + bytes) (lg_class l) now) <$> l
      else l
  | FlowOp.Remove key => if bool_decide (key = k) then None else l
  | FlowOp.Expire now =>
      match l with
      | Some l => if lg_last l + default_duration (lg_class l) <=? now then None else Some l
      | None => None
      end
  end.

Definition ledger_of (r : UdpFlowRecord) : Ledger :=
  mkLedger (uf_bytes_from_sandbox r) (uf_bytes_to_sandbox r) (uf_timeout_class r) (uf_last_activity r).

(** A ledger as 64-bit counters show it. *)
Definition saturated (l : Ledger) : Ledger :=
  mkLedger (Z.min (lg_from l) u64_max) (Z.min (lg_to l) u64_max) (lg_class l) (lg_last l).

Definition op_bytes (op : FlowOp) : Z :=
  match op with
  | FlowOp.Sandbox _ _ _ bytes _ | FlowOp.Host _ bytes _ => bytes
  | _ => 0
  end.

Section runs.
Context `{!IterOrder FlowKey UdpFlowRecord}.

Definition flow_step (t : UdpFlowTable) (op : FlowOp) : UdpFlowTable :=
  match op with
  | FlowOp.Sandbox key cls at_ bytes now => record_sandbox_datagram t key cls at_ bytes now
  | FlowOp.Host key bytes now => fst (record_host_datagram t key bytes now)
  | FlowOp.Remove key => fst (flow_remove t key)
  | FlowOp.Expire now => fst (flow_expire t now)
  end.

(** Every record is stored under its own key. *)
Definition flow_table_wf (t : UdpFlowTable) : Prop :=
  forall k r, t !! k = Some r -> uf_key r = k.

Lemma flow_is_expired_spec (r : UdpFlowRecord) (now : SystemTime) :
  flow_is_expired r now = (uf_last_activity r + default_duration (uf_timeout_class r) <=? now).
Proof.
  unfold flow_is_expired, duration_since.
  assert (0 < default_duration (uf_timeout_class r)) by (destruct (uf_timeout_class r); done).
  destruct (Z.leb_spec (uf_last_activity r) now);
    destruct (Z.leb_spec (uf_last_activity r + default_duration (uf_timeout_class r)) now);
    try (apply Z.leb_le; lia); try (apply Z.leb_gt; lia); try done; lia.
Qed.

Lemma lookup_delete_keys (rs : list UdpFlowRecord) (t : UdpFlowTable) (k : FlowKey) :
  fold_left (fun flows record => delete (uf_key record) flows) rs t !! k =
  if bool_decide (k ∈ uf_key <$> rs) then None else t !! k.
Proof.
  revert t. induction rs as [|r rs IH]; intros t; cbn [fold_left fmap list_fmap].
  - rewrite bool_decide_eq_false_2; [done|]. apply not_elem_of_nil.
  - rewrite IH. repeat case_bool_decide; try set_solver.
    + destruct (decide (uf_key r = k)) as [->|]; [by rewrite lookup_delete_eq|].
      rewrite lookup_delete_ne by done. set_solver.
    + rewrite lookup_delete_ne; set_solver.
Qed.

Lemma flow_expire_lookup (t : UdpFlowTable) (now : SystemTime) (k : FlowKey) :
  flow_table_wf t ->
  fst (flow_expire t now) !! k =
  match t !! k with
  | Some r => if flow_is_expired r now then None else Some r
  | None => None
  end.
Proof.
  intros Hwf. cbn [flow_expire fst]. rewrite lookup_delete_keys.
  assert (forall r, r ∈ flow_expired t now <-> t !! uf_key r = Some r /\ flow_is_expired r now = true) as Hin.
  { intros r. unfold flow_expired. rewrite list_elem_of_In, filter_In, <- list_elem_of_In, elem_of_values.
    split; [|naive_solver]. intros [(k' & Hk') ?]. by rewrite (Hwf k' r Hk'). }
  case_bool_decide as Hk.
  - apply list_elem_of_fmap in Hk as (r & -> & Hr). apply Hin in Hr as [-> ->]. done.
  - destruct (t !! k) as [r|] eqn:E; [|done]. destruct (flow_is_expired r now) eqn:Ex; [|done].
    exfalso. apply Hk, list_elem_of_fmap. pose proof (Hwf k r E) as <-. exists r. split; [done|]. by apply Hin.
Qed.

Lemma flow_step_wf (t : UdpFlowTable) (op : FlowOp) : flow_table_wf t -> flow_table_wf (flow_step t op).
Proof.
  intros Hwf k r. destruct op as [key cls a bytes now|key bytes now|key|now]; cbn -[flow_expire].
  - unfold record_sandbox_datagram. intros [[<- <-]|[? Hk]]%lookup_insert_Some; [|by apply Hwf].
    cbn. destruct (t !! key) eqn:E; [by eapply Hwf|done].
  - unfold record_host_datagram. destruct (t !! key) eqn:E; cbn; [|by apply Hwf].
    intros [[<- <-]|[? Hk]]%lookup_insert_Some; [|by apply Hwf]. cbn. by apply (Hwf key).
  - intros [_ Hk]%lookup_delete_Some. by apply Hwf.
  - rewrite (flow_expire_lookup t now k Hwf). intros H.
    destruct (t !! k) eqn:E; [|done]. destruct (flow_is_expired _ _); [done|]. simplify_eq. by apply Hwf.
Qed.

Lemma flow_run_wf (ops : list FlowOp) (t : UdpFlowTable) :
  flow_table_wf t -> flow_table_wf (fold_left flow_step ops t).
Proof. revert t. induction ops; cbn; [done|]. intros t H. by apply IHops, flow_step_wf. Qed.

(** One operation on the table is one step of the ledger of every key. *)
Lemma flow_step_ledger (t : UdpFlowTable) (op : FlowOp) (k : FlowKey) (l : option Ledger) :
  flow_table_wf t -> 0 <= op_bytes op ->
  ledger_of <$> (t !! k) = saturated <$> l ->
  ledger_of <$> (flow_step t op !! k) = saturated <$> ledger_step k l op.
Proof.
  intros Hwf Hb Hl. destruct op as [key cls a bytes now|key bytes now|key|now]; cbn -[flow_expire] in *.
  - unfold record_sandbox_datagram. case_bool_decide as Hk; [subst|by rewrite lookup_insert_ne].
    rewrite lookup_insert_eq. cbn. destruct (t !! k) as [r|], l as [l|]; cbn in *; simplify_eq/=.
    + unfold saturated, ledger_of in *. simplify_eq/=.
      do 2 f_equal; unfold u64_saturating_add; try done; lia.
    + unfold saturated, ledger_of, u64_saturating_add, u64_max. cbn. done.
  - unfold record_host_datagram. case_bool_decide as Hk.
    + subst. destruct (t !! k) as [r|] eqn:E, l as [l|]; cbn in *; simplify_eq/=; rewrite ?E; try done.
      rewrite lookup_insert_eq. cbn. unfold saturated, ledger_of in *. simplify_eq/=.
      do 2 f_equal; unfold u64_saturating_add; try done; lia.
    + destruct (t !! key); cbn; [by rewrite lookup_insert_ne|done].
  - case_bool_decide; [subst; by rewrite lookup_delete_eq|by rewrite lookup_delete_ne].
  - rewrite (flow_expire_lookup t now k Hwf).
    destruct (t !! k) as [r|], l as [l|]; cbn in *; simplify_eq/=; try done.
    destruct r as [rk rc ra rcr rl rf rt], l as [lf lt lc ll].
    unfold saturated, ledger_of in *. cbn in *. simplify_eq.
    rewrite flow_is_expired_spec. cbn. by destruct (_ <=? _).
Qed.

Lemma flow_run_ledger (ops : list FlowOp) (t : UdpFlowTable) (k : FlowKey) (l : option Ledger) :
  flow_table_wf t -> Forall (fun op => 0 <= op_bytes op) ops ->
  ledger_of <$> (t !! k) = saturated <$> l ->
  ledger_of <$> (fold_left flow_step ops t !! k) = saturated <$> fold_left (ledger_step k) ops l.
Proof.
  revert t l. induction ops as [|op ops IH]; intros t l Hwf Hb Hl; cbn; [done|].
  apply Forall_cons in Hb as [? ?]. apply IH; [by apply flow_step_wf|done|]. by apply flow_step_ledger.
Qed.

End runs.

(** ** Properties *)

(** [C24] The flow table refines an unbounded per-key ledger: after any sequence of
    sandbox datagrams, host datagrams, removals and expiries, whatever the hash map's
    iteration order, the record of a key exists exactly when the ledger has an entry,
    its two [u64] counters are the true byte totals saturated at [u64::MAX], and its
    class and last activity are those of the last datagram. *)
Theorem flow_table_refines_ledger (order : IterOrder FlowKey UdpFlowRecord)
  (ops : list FlowOp) (k : FlowKey) :
  Forall (fun op => 0 <= op_bytes op) ops ->
  ledger_of <$> (fold_left flow_step ops ∅ !! k) =
  saturated <$> fold_left (ledger_step k) ops None.
Proof. intros Hb. apply flow_run_ledger; [|done|done]. intros ? ?. by rewrite lookup_empty. Qed.

Lemma flow_table_refines_ledger_witness :
  let k := flow_key_udp (V4 (ipv4_new 10 0 0 2)) 40000 (V4 (ipv4_new 93 184 216 34)) 9000 in
  let order := canonical_order FlowKey UdpFlowRecord in
  ledger_of <$> (fold_left flow_step
    [FlowOp.Sandbox k FlowTimeoutClass.GenericUdp attribution_ip_only 5 0;
     FlowOp.Host k u64_max 3; FlowOp.Host k 1 4; FlowOp.Expire 5] ∅ !! k) =
  Some (mkLedger 5 u64_max FlowTimeoutClass.GenericUdp 4).
Proof.
  intros k order. rewrite (flow_table_refines_ledger order _ k).
  - vm_compute. reflexivity.
  - repeat constructor; vm_compute; discriminate.
Defined.

(** Expiry partitions a reachable table: the returned records are exactly the
    stored flows idle for at least their class's timeout (none of whose activity is in
    the future), the table keeps exactly the others unchanged, and expiring again at
    the same time returns nothing. *)
Theorem flow_expire_partitions (order : IterOrder FlowKey UdpFlowRecord)
  (ops : list FlowOp) (now : SystemTime) :
  let t := fold_left flow_step ops ∅ in
  let '(t', expired) := flow_expire t now in
  (forall r, r ∈ expired <->
     t !! uf_key r = Some r /\ uf_last_activity r + default_duration (uf_timeout_class r) <= now) /\
  (forall k r, t' !! k = Some r <->
     t !! k = Some r /\ now < uf_last_activity r + default_duration (uf_timeout_class r)) /\
  flow_expired t' now = [].
Proof.
  intros t. assert (flow_table_wf t) as Hwf by (apply flow_run_wf; intros ? ?; by rewrite lookup_empty).
  destruct (flow_expire t now) as [t' expired] eqn:E.
  assert (forall k r, t' !! k = Some r <->
     t !! k = Some r /\ now < uf_last_activity r + default_duration (uf_timeout_class r)) as Hkeep.
  { intros k r. pose proof (flow_expire_lookup t now k Hwf) as H. rewrite E in H. cbn [fst] in H. rewrite H.
    destruct (t !! k) as [r'|]; [|naive_solver]. rewrite flow_is_expired_spec.
    destruct (Z.leb_spec (uf_last_activity r' + default_duration (uf_timeout_class r')) now);
      split; intros; destruct_and?; simplify_eq; try done; lia. }
  split; [|split; [done|]].
  - intros r. unfold flow_expire in E. injection E as _ <-. unfold flow_expired.
    rewrite list_elem_of_In, filter_In, <- list_elem_of_In, elem_of_values, flow_is_expired_spec, Z.leb_le.
    split; [|naive_solver]. intros [(k & Hk) ?]. by rewrite (Hwf k r Hk).
  - destruct (flow_expired t' now) as [|r rs] eqn:Ex; [done|]. exfalso.
    assert (r ∈ flow_expired t' now) as Hr by (rewrite Ex; left).
    unfold flow_expired in Hr. rewrite list_elem_of_In, filter_In, <- list_elem_of_In, elem_of_values,
      flow_is_expired_spec, Z.leb_le in Hr. destruct Hr as [(k & Hk%Hkeep) ?]. lia.
Qed.

Lemma flow_expire_partitions_witness :
  let order := canonical_order FlowKey UdpFlowRecord in
  let k := flow_key_udp (V4 (ipv4_new 10 0 0 2)) 40000 (V4 (ipv4_new 93 184 216 34)) 123 in
  let t := fold_left flow_step
             [FlowOp.Sandbox k FlowTimeoutClass.OneShot attribution_ip_only 48 0] ∅ in
  flow_expired (fst (flow_expire t (from_secs 5))) (from_secs 5) = [].
Proof.
  intros order k t.
  pose proof (flow_expire_partitions order
    [FlowOp.Sandbox k FlowTimeoutClass.OneShot attribution_ip_only 48 0] (from_secs 5)) as H.
  cbv zeta in H. fold t in H. destruct (flow_expire t (from_secs 5)) as [t' expired].
  exact (proj2 (proj2 H)).
Defined.
