(* ===== verification/Dns.v ===== *)
(** * DNS wire parsing and the attribution cache ([crates/foxprox-core/src/dns.rs])

    Packets are byte lists and [usize] offsets are [nat] (they never exceed the
    packet length by more than a constant, so no [usize] addition overflows). *)

From S2P Require Import Prelude Text NetAddr Event Flow.

Definition DNS_HEADER_LEN : nat := 12.
Definition DNS_CLASS_IN : Z := 1.
Definition DNS_TYPE_A : Z := 1.
Definition DNS_TYPE_AAAA : Z := 28.
Definition MAX_DNS_POINTER_JUMPS : nat := 16.

(** ** Data *)

Module DnsQueryType.
Inductive DnsQueryType : Type := A | Aaaa | Other (code : Z).
End DnsQueryType.
Abbreviation DnsQueryType := DnsQueryType.DnsQueryType.

Definition query_type_parse (value : str) : option DnsQueryType :=
  let normalized := to_ascii_uppercase (trim value) in
  if bool_decide (normalized = []) then None
  else if bool_decide (normalized = lit "A") then Some DnsQueryType.A
  else if bool_decide (normalized = lit "AAAA") then Some DnsQueryType.Aaaa
  else DnsQueryType.Other <$> result_ok (parse_uint u16_max normalized).

Definition query_type_from_code (code : Z) : DnsQueryType :=
  if code =? DNS_TYPE_A then DnsQueryType.A
  else if code =? DNS_TYPE_AAAA then DnsQueryType.Aaaa
  else DnsQueryType.Other code.

Definition query_type_code (self : DnsQueryType) : Z :=
  match self with
  | DnsQueryType.A => DNS_TYPE_A
  | DnsQueryType.Aaaa => DNS_TYPE_AAAA
  | DnsQueryType.Other code => code
  end.

Definition query_type_str (self : DnsQueryType) : str :=
  match self with
  | DnsQueryType.A => lit "A"
  | DnsQueryType.Aaaa => lit "AAAA"
  | DnsQueryType.Other _ => lit "OTHER"
  end.

Record DnsQuestion : Type := mkDnsQuestion {
  q_transaction_id : Z;
  q_hostname : Hostname;
  q_query_type : DnsQueryType;
  q_query_class : Z;
  q_recursion_desired : bool
}.

Record DnsAddressRecord : Type := mkDnsAddressRecord {
  ar_hostname : Hostname;
  ar_address : IpAddr;
  ar_ttl : Duration
}.

Record DnsResponseObservation : Type := mkDnsResponseObservation {
  ro_transaction_id : Z;
  ro_hostname : option Hostname;
  ro_query_type : option DnsQueryType;
  ro_rcode : Z;
  ro_truncated : bool;
  ro_answers : list DnsAddressRecord
}.

Module DnsParseError.
Inductive DnsParseError : Type :=
| Truncated
| MalformedName
| BadCompressionPointer
| Unsupported (detail : str).
End DnsParseError.
Abbreviation DnsParseError := DnsParseError.DnsParseError.

#[export] Instance DnsQueryType_eq_dec : EqDecision DnsQueryType.
Proof. solve_decision. Defined.
#[export] Instance DnsQuestion_eq_dec : EqDecision DnsQuestion.
Proof. solve_decision. Defined.
#[export] Instance DnsAddressRecord_eq_dec : EqDecision DnsAddressRecord.
Proof. solve_decision. Defined.
#[export] Instance DnsParseError_eq_dec : EqDecision DnsParseError.
Proof. solve_decision. Defined.

(** ** Wire reading *)

Definition dns_read_u16 (packet : list byte) (offset : nat) : Result Z DnsParseError :=
  let? bytes := ok_or (slice packet offset (offset + 2)) DnsParseError.Truncated in
  Ok (be_val bytes).

Definition dns_read_u32 (packet : list byte) (offset : nat) : Result Z DnsParseError :=
  let? bytes := ok_or (slice packet offset (offset + 4)) DnsParseError.Truncated in
  Ok (be_val bytes).

(** The loop of [parse_name]; it returns the labels and the offset behind the
    name.  [consumed] is where a compressed name continues. *)
Fixpoint parse_name_loop (fuel : nat) (packet : list byte) (offset : nat) (labels : list str)
  (consumed : option nat) (jumps name_len : nat) : Result (list str * nat) DnsParseError :=
  match fuel with
  | O => OutOfFuel
  | S fuel =>
      let? length_ := ok_or (packet !! offset) DnsParseError.Truncated in
      let length_ := u8_val length_ in
      if Z.land length_ 0xc0 =? 0xc0 then
        let? next := ok_or (packet !! (offset + 1)%nat) DnsParseError.Truncated in
        let pointer := Z.to_nat (Z.lor (Z.shiftl (Z.land length_ 0x3f) 8) (u8_val next)) in
        if (length packet <=? pointer)%nat || (MAX_DNS_POINTER_JUMPS <=? jumps)%nat then
          Err DnsParseError.BadCompressionPointer
        else
          parse_name_loop fuel packet pointer labels
            (Some (default (offset + 2)%nat consumed)) (S jumps) name_len
      else if negb (Z.land length_ 0xc0 =? 0) then Err DnsParseError.MalformedName
      else
        let offset := S offset in
        if length_ =? 0 then Ok (labels, default offset consumed)
        else if 63 <? length_ then Err DnsParseError.MalformedName
        else
          let end_ := (offset + Z.to_nat length_)%nat in
          let? label := ok_or (slice packet offset end_) DnsParseError.Truncated in
          let? label_str := ok_or (from_utf8 label) DnsParseError.MalformedName in
          let name_len := (name_len + length label_str
                           + (if bool_decide (labels = []) then 0 else 1))%nat in
          if (253 <? name_len)%nat then Err DnsParseError.MalformedName
          else parse_name_loop fuel packet end_ (labels ++ [label_str]) consumed jumps name_len
  end.

(** At most 127 labels fit in 253 bytes, 16 jumps are followed and one more turn
    ends the loop. *)
Definition PARSE_NAME_FUEL : nat := 145.

Definition parse_name (packet : list byte) (offset : nat) : Result (Hostname * nat) DnsParseError :=
  let? (labels, next) := parse_name_loop PARSE_NAME_FUEL packet offset [] None 0 0 in
  if bool_decide (labels = []) then Err DnsParseError.MalformedName
  else
    let? hostname := map_err (fun _ => DnsParseError.MalformedName)
                       (hostname_parse (join (lit ".") labels)) in
    Ok (hostname, next).

Definition parse_dns_query (packet : list byte) : Result DnsQuestion DnsParseError :=
  if (length packet <? DNS_HEADER_LEN)%nat then Err DnsParseError.Truncated
  else
    let? flags := dns_read_u16 packet 2 in
    if negb (Z.land flags 0x8000 =? 0) then
      Err (DnsParseError.Unsupported (lit "expected DNS query"))
    else
      let? qdcount := dns_read_u16 packet 4 in
      if negb (qdcount =? 1) then
        Err (DnsParseError.Unsupported (lit "expected exactly one DNS question"))
      else
        let? (hostname, offset) := parse_name packet DNS_HEADER_LEN in
        let? query_type := dns_read_u16 packet offset in
        let? query_class := dns_read_u16 packet (offset + 2)%nat in
        let? transaction_id := dns_read_u16 packet 0 in
        Ok (mkDnsQuestion transaction_id hostname (query_type_from_code query_type) query_class
              (negb (Z.land flags 0x0100 =? 0))).

(** The question loop: [question] is filled by the first question when the
    caller expects none. *)
Fixpoint parse_questions (count : nat) (first : bool) (packet : list byte) (flags : Z)
  (offset : nat) (question : option DnsQuestion)
  : Result (nat * option DnsQuestion) DnsParseError :=
  match count with
  | O => Ok (offset, question)
  | S count =>
      let? (hostname, next) := parse_name packet offset in
      let? query_type := dns_read_u16 packet next in
      let? query_class := dns_read_u16 packet (next + 2)%nat in
      let offset := (next + 4)%nat in
      match first, question with
      | true, None =>
          let? transaction_id := dns_read_u16 packet 0 in
          parse_questions count false packet flags offset
            (Some (mkDnsQuestion transaction_id hostname (query_type_from_code query_type)
                     query_class (negb (Z.land flags 0x0100 =? 0))))
      | _, _ => parse_questions count false packet flags offset question
      end
  end.

(** The answer loop. *)
Fixpoint parse_answers (count : nat) (packet : list byte) (offset : nat)
  (answers : list DnsAddressRecord) : Result (list DnsAddressRecord) DnsParseError :=
  match count with
  | O => Ok answers
  | S count =>
      let? (hostname, next) := parse_name packet offset in
      let? rr_type := dns_read_u16 packet next in
      let? rr_class := dns_read_u16 packet (next + 2)%nat in
      let? ttl_secs := dns_read_u32 packet (next + 4)%nat in
      let? rdlen := dns_read_u16 packet (next + 8)%nat in
      let data_offset := (next + 10)%nat in
      let data_end := (data_offset + Z.to_nat rdlen)%nat in
      if (length packet <? data_end)%nat then Err DnsParseError.Truncated
      else if (rr_class =? DNS_CLASS_IN) && (rr_type =? DNS_TYPE_A) && (rdlen =? 4) then
        let? a := or_panic (packet !! data_offset) in
        let? b := or_panic (packet !! (data_offset + 1)%nat) in
        let? c := or_panic (packet !! (data_offset + 2)%nat) in
        let? d := or_panic (packet !! (data_offset + 3)%nat) in
        parse_answers count packet data_end
          (answers ++ [mkDnsAddressRecord hostname
             (V4 (ipv4_new (u8_val a) (u8_val b) (u8_val c) (u8_val d))) (from_secs ttl_secs)])
      else if (rr_class =? DNS_CLASS_IN) && (rr_type =? DNS_TYPE_AAAA) && (rdlen =? 16) then
        let? octets := or_panic (slice packet data_offset data_end) in
        parse_answers count packet data_end
          (answers ++ [mkDnsAddressRecord hostname (V6 (be_val octets)) (from_secs ttl_secs)])
      else parse_answers count packet data_end answers
  end.

Definition parse_dns_response (packet : list byte) (expected_question : option DnsQuestion)
  : Result DnsResponseObservation DnsParseError :=
  if (length packet <? DNS_HEADER_LEN)%nat then Err DnsParseError.Truncated
  else
    let? flags := dns_read_u16 packet 2 in
    if Z.land flags 0x8000 =? 0 then
      Err (DnsParseError.Unsupported (lit "expected DNS response"))
    else
      let? qdcount := dns_read_u16 packet 4 in
      let? ancount := dns_read_u16 packet 6 in
      let? (offset, question) :=
        parse_questions (Z.to_nat qdcount) true packet flags DNS_HEADER_LEN expected_question in
      let? answers := parse_answers (Z.to_nat ancount) packet offset [] in
      let? transaction_id := dns_read_u16 packet 0 in
      Ok (mkDnsResponseObservation transaction_id (q_hostname <$> question)
            (q_query_type <$> question) (Z.land flags 0x000f)
            (negb (Z.land flags 0x0200 =? 0)) answers).

(** ** Observations and the cache *)

Record DnsObservation : Type := mkDnsObservation {
  ob_sandbox_id : SandboxId;
  ob_hostname : Hostname;
  ob_query_type : DnsQueryType;
  ob_observed_at : SystemTime;
  ob_broker_controlled : bool
}.

Record DnsCacheEntry : Type := mkDnsCacheEntry {
  ce_sandbox_id : SandboxId;
  ce_hostname : Hostname;
  ce_addresses : list IpAddr;
  ce_query_type : DnsQueryType;
  ce_observed_at : SystemTime;
  ce_expires_at : SystemTime;
  ce_broker_controlled : bool
}.

#[export] Instance DnsCacheEntry_eq_dec : EqDecision DnsCacheEntry.
Proof. solve_decision. Defined.

Definition cache_entry_new (observation : DnsObservation) (addresses : list IpAddr) (ttl : Duration)
  : option DnsCacheEntry :=
  if bool_decide (addresses = []) then None
  else
    match checked_add (ob_observed_at observation) ttl with
    | None => None
    | Some expires_at =>
        Some (mkDnsCacheEntry (ob_sandbox_id observation) (ob_hostname observation) addresses
                (ob_query_type observation) (ob_observed_at observation) expires_at
                (ob_broker_controlled observation))
    end.

(** One turn of the answer loop of [from_response]. *)
Definition collect_answer (acc : list IpAddr * option Duration) (answer : DnsAddressRecord)
  : list IpAddr * option Duration :=
  (fst acc ++ [ar_address answer],
   Some (match snd acc with
         | None => ar_ttl answer
         | Some current => Z.min current (ar_ttl answer)
         end)).

Definition cache_entry_from_response (sandbox_id : SandboxId) (response : DnsResponseObservation)
  (observed_at : SystemTime) (broker_controlled : bool) : list DnsCacheEntry :=
  match ro_hostname response, ro_query_type response with
  | Some hostname, Some query_type =>
      let '(addresses, min_ttl) := fold_left collect_answer (ro_answers response) ([], None) in
      match min_ttl with
      | None => []
      | Some ttl =>
          match cache_entry_new
                  (mkDnsObservation sandbox_id hostname query_type observed_at broker_controlled)
                  addresses ttl with
          | Some entry => [entry]
          | None => []
          end
      end
  | _, _ => []
  end.

Definition cache_entry_is_expired (self : DnsCacheEntry) (now : SystemTime) : bool :=
  ce_expires_at self <=? now.

Definition cache_entry_attribution (self : DnsCacheEntry) : Attribution :=
  mkAttribution (Some (ce_hostname self)) AttributionSource.DnsCache AttributionConfidence.Medium.

Abbreviation DnsCache := (gmap (SandboxId * Hostname) DnsCacheEntry).

Definition cache_insert (self : DnsCache) (entry : DnsCacheEntry) : DnsCache :=
  <[(ce_sandbox_id entry, ce_hostname entry) := entry]> self.

Definition lookup_hostname (self : DnsCache) (sandbox_id : SandboxId) (hostname : Hostname)
  (now : SystemTime) : option DnsCacheEntry :=
  match self !! (sandbox_id, hostname) with
  | Some entry => if negb (cache_entry_is_expired entry now) then Some entry else None
  | None => None
  end.

(** [max_by_key]: the last of several maximal elements wins. *)
Fixpoint max_by_observed_at (best : option DnsCacheEntry) (entries : list DnsCacheEntry)
  : option DnsCacheEntry :=
  match entries with
  | [] => best
  | entry :: entries =>
      let keep := match best with
                  | Some b => ce_observed_at entry <? ce_observed_at b
                  | None => false
                  end in
      max_by_observed_at (if keep then best else Some entry) entries
  end.

Definition cache_expire (self : DnsCache) (now : SystemTime) : DnsCache * nat :=
  let kept := filter (fun kv : (SandboxId * Hostname) * DnsCacheEntry =>
                        cache_entry_is_expired (snd kv) now = false) self in
  (kept, (size self - size kept)%nat).

Definition cache_len (self : DnsCache) : nat := size self.
Definition cache_is_empty (self : DnsCache) : bool := (size self =? 0)%nat.

Section address_lookup.
Context `{!IterOrder (SandboxId * Hostname) DnsCacheEntry}.

Definition lookup_address (self : DnsCache) (sandbox_id : SandboxId) (address : IpAddr)
  (now : SystemTime) : option DnsCacheEntry :=
  max_by_observed_at None
    (List.filter (fun entry =>
       bool_decide (ce_sandbox_id entry = sandbox_id)
       && negb (cache_entry_is_expired entry now)
       && bool_decide (address ∈ ce_addresses entry)) (values self)).

End address_lookup.

(** ** Specification: a wire encoder *)

(** A label is its length and its bytes; a name ends with the empty label. *)
Definition encode_label (l : str) : list byte := u8_of (Z.of_nat (length l)) :: l.
Definition encode_labels (ls : list str) : list byte := flat_map encode_label ls.
Definition encode_name (h : Hostname) : list byte := encode_labels (labels h) ++ [x00].

Definition query_flags (rd : bool) : Z := if rd then 0x0100 else 0.

Definition encode_question (h : Hostname) (ty cls : Z) : list byte :=
  encode_name h ++ be_bytes 2 ty ++ be_bytes 2 cls.

Definition encode_header (id flags qd an : Z) : list byte :=
  be_bytes 2 id ++ be_bytes 2 flags ++ be_bytes 2 qd ++ be_bytes 2 an ++ be_bytes 4 0.

Definition encode_query (q : DnsQuestion) : list byte :=
  encode_header (q_transaction_id q) (query_flags (q_recursion_desired q)) 1 0
  ++ encode_question (q_hostname q) (query_type_code (q_query_type q)) (q_query_class q).

Definition address_rdata (ip : IpAddr) : list byte :=
  match ip with
  | V4 a => ipv4_octets a
  | V6 a => ipv6_octets a
  end.

Definition address_type (ip : IpAddr) : Z :=
  match ip with
  | V4 _ => DNS_TYPE_A
  | V6 _ => DNS_TYPE_AAAA
  end.

Definition encode_rr (name : list byte) (ty ttl : Z) (rdata : list byte) : list byte :=
  name ++ be_bytes 2 ty ++ be_bytes 2 DNS_CLASS_IN ++ be_bytes 4 ttl
  ++ be_bytes 2 (Z.of_nat (length rdata)) ++ rdata.

(** An answer whose owner is a pointer to the question's name at offset 12. *)
Definition question_pointer : list byte := [xc0; x0c].

Definition encode_answer (a : IpAddr * Z) : list byte :=
  encode_rr question_pointer (address_type (fst a)) (snd a) (address_rdata (fst a)).

Definition encode_response (q : DnsQuestion) (rcode : Z) (answers : list (IpAddr * Z)) : list byte :=
  encode_header (q_transaction_id q) (0x8000 + query_flags (q_recursion_desired q) + rcode) 1
    (Z.of_nat (length answers))
  ++ encode_question (q_hostname q) (query_type_code (q_query_type q)) (q_query_class q)
  ++ flat_map encode_answer answers.

Definition question_wf (q : DnsQuestion) : Prop :=
  hostname_wf (q_hostname q) /\ 0 <= q_transaction_id q <= u16_max /\
  0 <= q_query_class q <= u16_max /\ 0 <= query_type_code (q_query_type q) <= u16_max /\
  q_query_type q = query_type_from_code (query_type_code (q_query_type q)).

(** ** Lemmas: reading *)

Lemma dns_read_u16_at (p r : list byte) (i : nat) (v : Z) :
  drop i p = be_bytes 2 v ++ r -> 0 <= v <= u16_max ->
  dns_read_u16 p i = Ok v /\ drop (i + 2) p = r.
Proof.
  intros H Hv. split; [|by apply drop_next in H].
  unfold dns_read_u16. pose proof (slice_drop p (be_bytes 2 v) r i H ltac:(by destruct v)) as Hs.
  rewrite length_be_bytes in Hs. rewrite Hs. cbn [ok_or result_bind].
  f_equal. apply be_val_bytes_small. unfold u16_max in Hv. cbn. lia.
Qed.

Lemma dns_read_u32_at (p r : list byte) (i : nat) (v : Z) :
  drop i p = be_bytes 4 v ++ r -> 0 <= v <= u32_max ->
  dns_read_u32 p i = Ok v /\ drop (i + 4) p = r.
Proof.
  intros H Hv. split; [|by apply drop_next in H].
  unfold dns_read_u32. pose proof (slice_drop p (be_bytes 4 v) r i H ltac:(by destruct v)) as Hs.
  rewrite length_be_bytes in Hs. rewrite Hs. cbn [ok_or result_bind].
  f_equal. apply be_val_bytes_small. unfold u32_max in Hv. cbn. lia.
Qed.

Lemma dns_read_u16_returns (p : list byte) (i : nat) : returns (dns_read_u16 p i).
Proof. unfold dns_read_u16. by destruct (slice _ _ _). Qed.

Lemma dns_read_u32_returns (p : list byte) (i : nat) : returns (dns_read_u32 p i).
Proof. unfold dns_read_u32. by destruct (slice _ _ _). Qed.

#[local] Hint Resolve dns_read_u16_returns dns_read_u32_returns : foxprox.

(** ** Lemmas: names *)

Lemma length_join_snoc (c : byte) (ls : list str) (l : str) :
  length (join [c] (ls ++ [l])) =
  (length (join [c] ls) + length l + (if bool_decide (ls = []) then 0 else 1))%nat.
Proof.
  case_bool_decide as H; [subst; cbn; lia|].
  rewrite join_app by done. rewrite length_app. cbn. lia.
Qed.

Lemma parse_name_loop_returns (p : list byte) (fuel : nat) :
  forall offset labels consumed jumps name_len,
  (jumps <= 16)%nat -> (name_len <= 253)%nat -> (2 * length labels <= name_len + 1)%nat ->
  (127 - length labels + (16 - jumps) < fuel)%nat ->
  returns (parse_name_loop fuel p offset labels consumed jumps name_len).
Proof.
  induction fuel as [|fuel IH]; intros offset ls consumed jumps nl Hj Hn Hl Hf; [lia|].
  cbn [parse_name_loop]. apply result_bind_returns; [auto with foxprox|]. intros b _.
  case_match.
  - apply result_bind_returns; [auto with foxprox|]. intros next _.
    case_match eqn:Hjump; [done|]. unfold MAX_DNS_POINTER_JUMPS in Hjump. to_prop. apply IH; lia.
  - case_match; [done|]. case_match; [done|]. case_match; [done|]. to_prop.
    apply result_bind_returns; [auto with foxprox|]. intros label Hlab.
    apply result_bind_returns; [auto with foxprox|]. intros s Hs.
    assert (length s = Z.to_nat (u8_val b)) as Hlen.
    { unfold ok_or in *. destruct (slice _ _ _) as [l|] eqn:E; [|done]. simplify_eq.
      apply length_slice in E. unfold from_utf8 in Hs. destruct (utf8_valid label); simplify_eq. lia. }
    pose proof (u8_val_range b).
    case_match; [done|]. to_prop. apply IH; rewrite ?length_app; cbn [length]; try lia;
      case_bool_decide; subst; cbn [length] in *; lia.
Qed.

Lemma parse_name_returns (p : list byte) (offset : nat) : returns (parse_name p offset).
Proof.
  unfold parse_name. apply result_bind_returns.
  - apply parse_name_loop_returns; cbn; unfold PARSE_NAME_FUEL; lia.
  - intros [ls next] _. case_match; [done|]. apply result_bind_returns; [|done].
    auto with foxprox.
Qed.

#[local] Hint Resolve parse_name_returns : foxprox.

Lemma length_byte_bits (b : byte) :
  u8_val b <= 63 -> Z.land (u8_val b) 0xc0 = 0.
Proof. destruct b; vm_compute; done. Qed.

Lemma label_length_byte (l : str) :
  (length l <= 63)%nat -> u8_val (u8_of (Z.of_nat (length l))) = Z.of_nat (length l).
Proof. intros H. rewrite u8_val_of. apply Z.mod_small. lia. Qed.

(** The loop reads an uncompressed run of labels. *)
Lemma parse_name_loop_labels (p r : list byte) (ls : list str) :
  forall fuel offset acc consumed jumps,
  Forall (fun l => (1 <= length l <= 63)%nat /\ utf8_valid l = true) ls ->
  (length (join [x2e] (acc ++ ls)) <= 253)%nat ->
  drop offset p = encode_labels ls ++ x00 :: r ->
  (length ls < fuel)%nat ->
  parse_name_loop fuel p offset acc consumed jumps (length (join [x2e] acc)) =
  Ok (acc ++ ls, default (offset + S (length (encode_labels ls)))%nat consumed).
Proof.
  induction ls as [|l ls IH]; intros fuel offset acc consumed jumps Hls Hlen Hp Hf;
    (destruct fuel as [|fuel]; [lia|]); cbn [parse_name_loop].
  - rewrite (lookup_drop_head p r x00) by done. cbn -[join]. rewrite app_nil_r.
    do 3 f_equal. lia.
  - apply Forall_cons in Hls as [[Hl Hu] Hls].
    cbn [encode_labels flat_map encode_label app] in Hp. rewrite <- app_assoc in Hp.
    rewrite (lookup_drop_head _ _ _ _ Hp). cbn [ok_or result_bind].
    pose proof (label_length_byte l ltac:(lia)) as Hb.
    rewrite (length_byte_bits _ ltac:(rewrite Hb; lia)). cbn [Z.eqb negb].
    rewrite Hb, (proj2 (Z.eqb_neq _ _)), (proj2 (Z.ltb_ge _ _)) by lia.
    apply (drop_next p [_]) in Hp. cbn [length] in Hp. rewrite Nat.add_1_r in Hp.
    rewrite Nat2Z.id, (slice_drop p l _ _ Hp) by (destruct l; cbn in *; [lia|done]).
    cbn [ok_or result_bind]. unfold from_utf8. rewrite Hu. cbn [ok_or result_bind].
    rewrite <- length_join_snoc.
    rewrite (proj2 (Nat.ltb_ge _ _)).
    2:{ revert Hlen. change (l :: ls) with ([l] ++ ls). rewrite app_assoc.
        destruct ls as [|l' ls']; [rewrite app_nil_r; done|].
        rewrite (join_app x2e (acc ++ [l])) by (try done; by destruct acc).
        rewrite length_app. lia. }
    rewrite IH.
    + rewrite <- app_assoc. cbn [app]. do 3 f_equal.
      change (encode_labels (l :: ls)) with (encode_label l ++ encode_labels ls).
      rewrite length_app. cbn [encode_label length]. lia.
    + done.
    + rewrite <- app_assoc. done.
    + apply drop_next in Hp. exact Hp.
    + cbn in Hf. lia.
Qed.

Lemma labels_join (h : Hostname) : join [x2e] (labels h) = hostname_str h.
Proof. apply join_split_byte. Qed.

Lemma labels_encodable (h : Hostname) :
  hostname_wf h -> Forall (fun l => (1 <= length l <= 63)%nat /\ utf8_valid l = true) (labels h).
Proof.
  intros [_ H]. eapply Forall_impl; [exact H|]. intros l (Hl & Hb & _). split; [done|].
  apply utf8_valid_graphic. eapply Forall_impl; [exact Hb|]. apply canonical_byte_graphic.
Qed.

(** At most 127 labels fit in a name. *)
Lemma labels_count (h : Hostname) : hostname_wf h -> (length (labels h) <= 127)%nat.
Proof.
  intros [Hlen H]. rewrite <- labels_join in Hlen.
  assert (2 * length (labels h) <= length (join [x2e] (labels h)) + 1)%nat; [|lia].
  clear Hlen. induction (labels h) as [|l ls IH] using rev_ind; [cbn; lia|].
  apply Forall_app in H as [H Hl]. apply Forall_cons in Hl as [[Hl _] _].
  change (lit ".") with [x2e] in *. rewrite length_join_snoc, length_app. cbn [length].
  specialize (IH H). case_bool_decide; subst; cbn [length] in *; lia.
Qed.

Lemma parse_name_finish (h : Hostname) (p : list byte) (offset next : nat) :
  hostname_wf h ->
  parse_name_loop PARSE_NAME_FUEL p offset [] None 0 0 = Ok (labels h, next) ->
  parse_name p offset = Ok (h, next).
Proof.
  intros Hwf H. unfold parse_name. rewrite H. cbn [result_bind].
  rewrite bool_decide_eq_false_2 by apply split_byte_nonempty.
  by rewrite labels_join, hostname_parse_of_wf.
Qed.

Lemma parse_name_at (h : Hostname) (p r : list byte) (offset : nat) :
  hostname_wf h -> drop offset p = encode_name h ++ r ->
  parse_name p offset = Ok (h, offset + length (encode_name h))%nat /\
  drop (offset + length (encode_name h)) p = r.
Proof.
  intros Hwf Hp. split; [|by apply drop_next in Hp]. apply parse_name_finish; [done|].
  unfold encode_name in *. rewrite <- app_assoc in Hp. cbn [app] in Hp.
  pose proof (labels_count h Hwf).
  etransitivity; [apply (parse_name_loop_labels p r (labels h) PARSE_NAME_FUEL offset [] None 0)|].
  - by apply labels_encodable.
  - cbn [app]. rewrite labels_join. apply Hwf.
  - done.
  - unfold PARSE_NAME_FUEL. lia.
  - rewrite length_app. cbn [default app length]. do 3 f_equal. lia.
Qed.

(** A compression pointer to offset [ptr]. *)
Definition encode_pointer (ptr : Z) : list byte := [u8_of (0xc0 + ptr / 256); u8_of ptr].

Lemma pointer_byte (k : Z) :
  0 <= k < 64 -> Z.land (0xc0 + k) 0xc0 = 0xc0 /\ Z.land (0xc0 + k) 0x3f = k.
Proof.
  intros H. assert (forall b : byte, let v := u8_val b in
    v < 64 -> (Z.land (0xc0 + v) 0xc0 =? 0xc0) && (Z.land (0xc0 + v) 0x3f =? v) = true) as Hall
    by (intros b; destruct b; vm_compute; congruence).
  specialize (Hall (u8_of k)). cbv zeta in Hall. rewrite u8_val_of, Z.mod_small in Hall by lia.
  specialize (Hall ltac:(lia)). by to_prop.
Qed.

Lemma parse_pointer_at (h : Hostname) (p r r' : list byte) (offset : nat) (ptr : Z) :
  hostname_wf h -> 0 <= ptr < 2 ^ 14 ->
  drop offset p = encode_pointer ptr ++ r ->
  drop (Z.to_nat ptr) p = encode_name h ++ r' ->
  parse_name p offset = Ok (h, offset + 2)%nat /\ drop (offset + 2) p = r.
Proof.
  intros Hwf Hptr Hp Hn. split; [|by apply drop_next in Hp]. apply parse_name_finish; [done|].
  pose proof (labels_count h Hwf).
  assert (exists f, PARSE_NAME_FUEL = S f /\ (127 < f)%nat) as (f & -> & Hf)
    by (exists 144%nat; split; [done|lia]).
  cbn [parse_name_loop].
  rewrite (lookup_drop_head _ _ _ _ Hp). cbn [ok_or result_bind].
  assert (0 <= ptr / 256 < 64) as Hhi.
  { split; [apply Z.div_pos; lia|apply Z.div_lt_upper_bound; lia]. }
  rewrite u8_val_of, Z.mod_small by lia. destruct (pointer_byte _ Hhi) as [-> ->].
  cbn [Z.eqb Pos.eqb].
  pose proof (drop_next p [_] _ _ Hp) as Hp'. cbn [length] in Hp'. rewrite (lookup_drop_head _ _ _ _ Hp').
  cbn [ok_or result_bind]. rewrite u8_val_of, lor_shiftl_add by (pose proof (Z.mod_pos_bound ptr 256); lia).
  replace (ptr / 256 * 2 ^ 8 + ptr mod 256) with ptr by (rewrite (Z.div_mod ptr 256) at 1; lia).
  replace (length p <=? Z.to_nat ptr)%nat with false.
  2:{ symmetry. apply Nat.leb_gt. apply (f_equal length) in Hn.
      rewrite length_drop, length_app in Hn. unfold encode_name in Hn. rewrite length_app in Hn.
      cbn [length] in Hn. lia. }
  cbn [orb Nat.leb MAX_DNS_POINTER_JUMPS default].
  unfold encode_name in Hn. rewrite <- app_assoc in Hn. cbn [app] in Hn.
  etransitivity; [apply (parse_name_loop_labels p r' (labels h) f (Z.to_nat ptr) [] _ 1)|].
  - by apply labels_encodable.
  - cbn [app]. rewrite labels_join. apply Hwf.
  - done.
  - lia.
  - cbn [default]. done.
Qed.

(** ** Lemmas: messages *)

Lemma length_encode_header id flags qd an : length (encode_header id flags qd an) = 12%nat.
Proof. unfold encode_header. rewrite !length_app, !length_be_bytes. done. Qed.

Lemma read_header (p r : list byte) (id flags qd an : Z) :
  p = encode_header id flags qd an ++ r ->
  0 <= id <= u16_max -> 0 <= flags <= u16_max -> 0 <= qd <= u16_max -> 0 <= an <= u16_max ->
  (length p <? DNS_HEADER_LEN)%nat = false /\
  dns_read_u16 p 0 = Ok id /\ dns_read_u16 p 2 = Ok flags /\
  dns_read_u16 p 4 = Ok qd /\ dns_read_u16 p 6 = Ok an /\ drop DNS_HEADER_LEN p = r.
Proof.
  intros Hp Hid Hfl Hqd Han.
  split. { apply Nat.ltb_ge. rewrite Hp, length_app, length_encode_header. unfold DNS_HEADER_LEN. lia. }
  assert (drop 0 p = encode_header id flags qd an ++ r) as H0 by done.
  unfold encode_header in H0. rewrite <- !app_assoc in H0.
  destruct (dns_read_u16_at _ _ _ _ H0 Hid) as [H0r H2].
  destruct (dns_read_u16_at _ _ _ _ H2 Hfl) as [H2r H4].
  destruct (dns_read_u16_at _ _ _ _ H4 Hqd) as [H4r H6].
  destruct (dns_read_u16_at _ _ _ _ H6 Han) as [H6r H8].
  apply (drop_next p (be_bytes 4 0)) in H8. done.
Qed.

Lemma read_question (h : Hostname) (ty cls : Z) (p r : list byte) (offset : nat) :
  hostname_wf h -> 0 <= ty <= u16_max -> 0 <= cls <= u16_max ->
  drop offset p = encode_question h ty cls ++ r ->
  let next := (offset + length (encode_name h))%nat in
  parse_name p offset = Ok (h, next) /\ dns_read_u16 p next = Ok ty /\
  dns_read_u16 p (next + 2)%nat = Ok cls /\ drop (next + 4) p = r.
Proof.
  intros Hwf Hty Hcls Hp next. unfold encode_question in Hp. rewrite <- !app_assoc in Hp.
  destruct (parse_name_at h p _ offset Hwf Hp) as [Hn Hp1].
  destruct (dns_read_u16_at _ _ _ _ Hp1 Hty) as [Ht Hp2].
  destruct (dns_read_u16_at _ _ _ _ Hp2 Hcls) as [Hc Hp3].
  rewrite <- Nat.add_assoc in Hp3. done.
Qed.

Lemma parse_questions_returns (p : list byte) (count : nat) :
  forall first flags offset q, returns (parse_questions count first p flags offset q).
Proof.
  induction count as [|count IH]; intros first flags offset q; cbn [parse_questions]; [done|].
  apply result_bind_returns; [auto with foxprox|]. intros [h next] _.
  apply result_bind_returns; [auto with foxprox|]. intros ty _.
  apply result_bind_returns; [auto with foxprox|]. intros cls _.
  case_match; [|done]. case_match; [done|].
  apply result_bind_returns; [auto with foxprox|]. done.
Qed.

Lemma or_panic_lookup_bind {B E} (p : list byte) (i : nat) (k : byte -> Result B E) :
  (i < length p)%nat -> (forall b, returns (k b)) -> returns (result_bind (or_panic (p !! i)) k).
Proof.
  intros Hi Hk. destruct (lookup_lt_is_Some_2 p i Hi) as [b ->]. apply Hk.
Qed.

Lemma parse_answers_returns (p : list byte) (count : nat) :
  forall offset answers, returns (parse_answers count p offset answers).
Proof.
  induction count as [|count IH]; intros offset answers; cbn [parse_answers]; [done|].
  apply result_bind_returns; [auto with foxprox|]. intros [h next] _.
  apply result_bind_returns; [auto with foxprox|]. intros ty _.
  apply result_bind_returns; [auto with foxprox|]. intros cls _.
  apply result_bind_returns; [auto with foxprox|]. intros ttl _.
  apply result_bind_returns; [auto with foxprox|]. intros rdlen _.
  case_match eqn:Hend; [done|]. to_prop. case_match eqn:Ha; [to_prop; subst|case_match eqn:Hb].
  - change (Z.to_nat 4) with 4%nat in *. do 4 (apply or_panic_lookup_bind; [lia|intros ?]). apply IH.
  - to_prop; subst. change (Z.to_nat 16) with 16%nat in *.
    rewrite (proj2 (slice_Some _ _ _ _)) by (split; [lia|done]). apply IH.
  - apply IH.
Qed.

(** Four bytes left at an offset are the octets the A branch reads. *)
Lemma read_ipv4_at (p r : list byte) (i : nat) (a : Z) :
  drop i p = ipv4_octets a ++ r -> 0 <= a <= u32_max ->
  exists b0 b1 b2 b3, p !! i = Some b0 /\ p !! (i + 1)%nat = Some b1 /\
    p !! (i + 2)%nat = Some b2 /\ p !! (i + 3)%nat = Some b3 /\
    ipv4_new (u8_val b0) (u8_val b1) (u8_val b2) (u8_val b3) = a.
Proof.
  intros H Ha. unfold ipv4_octets in H.
  assert (be_val (be_bytes 4 a) = a) as Hv.
  { apply be_val_bytes_small. unfold u32_max in Ha. cbn. lia. }
  pose proof (length_be_bytes 4 a) as Hl.
  destruct (be_bytes 4 a) as [|b0 [|b1 [|b2 [|b3 [|]]]]]; try done.
  exists b0, b1, b2, b3. rewrite be_val_ipv4_new in Hv.
  rewrite <- !lookup_drop, <- (Nat.add_0_r i) at 1. rewrite <- lookup_drop, H. done.
Qed.

Definition answer_wf (a : IpAddr * Z) : Prop := ip_wf (fst a) /\ 0 <= snd a <= u32_max.

Definition answer_record (h : Hostname) (a : IpAddr * Z) : DnsAddressRecord :=
  mkDnsAddressRecord h (fst a) (from_secs (snd a)).

Lemma parse_answers_encoded (h : Hostname) (p r r' : list byte) (answers : list (IpAddr * Z)) :
  hostname_wf h -> drop 12 p = encode_name h ++ r' -> Forall answer_wf answers ->
  forall offset acc,
  drop offset p = flat_map encode_answer answers ++ r ->
  parse_answers (length answers) p offset acc = Ok (acc ++ map (answer_record h) answers).
Proof.
  intros Hwf Hname Hall. induction Hall as [|[ip ttl] answers [Hip Httl] _ IH]; intros offset acc Hp;
    cbn [length parse_answers map]; [by rewrite app_nil_r|].
  cbn [flat_map encode_answer fst snd] in *. unfold encode_answer, encode_rr in Hp. cbn [fst snd] in *.
  rewrite <- !app_assoc in Hp.
  destruct (parse_pointer_at h p _ r' offset 12 Hwf ltac:(lia) Hp Hname) as [-> Hp1].
  cbn [result_bind].
  assert (0 <= address_type ip <= u16_max) as Hty by (destruct ip; vm_compute; split; discriminate).
  destruct (dns_read_u16_at _ _ _ _ Hp1 Hty) as [-> Hp2]. cbn [result_bind].
  destruct (dns_read_u16_at _ _ _ _ Hp2 ltac:(unfold DNS_CLASS_IN, u16_max; lia)) as [-> Hp3]. cbn [result_bind].
  rewrite <- Nat.add_assoc in Hp3. cbn [Nat.add] in Hp3. destruct (dns_read_u32_at _ _ _ _ Hp3 Httl) as [-> Hp4]. cbn [result_bind].
  rewrite <- Nat.add_assoc in Hp4. cbn [Nat.add] in Hp4.
  assert (length (address_rdata ip) = match ip with V4 _ => 4 | V6 _ => 16 end)%nat as Hlen
    by (destruct ip; apply length_be_bytes).
  assert (0 <= Z.of_nat (length (address_rdata ip)) <= u16_max) as Hrd
    by (rewrite Hlen; destruct ip; vm_compute; split; discriminate).
  destruct (dns_read_u16_at _ _ _ _ Hp4 Hrd) as [-> Hp5].
  cbn [result_bind]. rewrite <- Nat.add_assoc in Hp5. cbn [Nat.add] in Hp5.
  rewrite Nat2Z.id.
  pose proof (drop_next _ _ _ _ Hp5) as Hp6.
  assert (offset + 2 + 10 + length (address_rdata ip) <= length p)%nat as Hle.
  { apply (f_equal length) in Hp5. rewrite length_drop, length_app in Hp5.
    rewrite Hlen in *. destruct ip; lia. }
  rewrite (proj2 (Nat.ltb_ge _ _)) by lia. rewrite Hlen in *.
  destruct ip as [a|a]; cbn [address_type address_rdata] in *.
  - destruct (read_ipv4_at _ _ _ _ Hp5 Hip) as (b0 & b1 & b2 & b3 & -> & -> & -> & -> & Ha).
    cbn -[parse_answers ipv4_new]. rewrite Ha. rewrite (IH _ _ Hp6), <- app_assoc. done.
  - pose proof (slice_drop _ _ _ _ Hp5 ltac:(unfold ipv6_octets; intros E; apply (f_equal length) in E;
      rewrite length_be_bytes in E; done)) as Hs. rewrite Hlen in Hs. rewrite Hs.
    cbn -[parse_answers be_val ipv6_octets Nat.add].
    unfold ipv6_octets. rewrite be_val_bytes_small by (unfold ip_wf, u128_max in Hip; lia).
    rewrite (IH _ _ Hp6), <- app_assoc. done.
Qed.

(** ** Lemmas: the cache *)

Module CacheOp.
Inductive CacheOp : Type :=
| Insert (entry : DnsCacheEntry)
| Expire (now : SystemTime).
End CacheOp.
Abbreviation CacheOp := CacheOp.CacheOp.

Definition cache_step (c : DnsCache) (op : CacheOp) : DnsCache :=
  match op with
  | CacheOp.Insert entry => cache_insert c entry
  | CacheOp.Expire now => fst (cache_expire c now)
  end.

Definition entry_key (e : DnsCacheEntry) : SandboxId * Hostname := (ce_sandbox_id e, ce_hostname e).

(** The last entry inserted under a key. *)
Fixpoint last_inserted (key : SandboxId * Hostname) (best : option DnsCacheEntry) (ops : list CacheOp)
  : option DnsCacheEntry :=
  match ops with
  | [] => best
  | CacheOp.Insert e :: ops =>
      last_inserted key (if bool_decide (entry_key e = key) then Some e else best) ops
  | CacheOp.Expire _ :: ops => last_inserted key best ops
  end.

Definition expires_by (now : SystemTime) (op : CacheOp) : Prop :=
  match op with
  | CacheOp.Insert _ => True
  | CacheOp.Expire t => t <= now
  end.

Definition live (now : SystemTime) (o : option DnsCacheEntry) : option DnsCacheEntry :=
  match o with
  | Some e => if ce_expires_at e <=? now then None else Some e
  | None => None
  end.

Lemma live_idemp (now : SystemTime) (o : option DnsCacheEntry) : live now (live now o) = live now o.
Proof. destruct o as [e|]; cbn; [|done]. destruct (_ <=? _) eqn:E; cbn; by rewrite ?E. Qed.

(** Dropping entries that have expired by [now] changes no lookup at [now]. *)
Lemma cache_step_live (c : DnsCache) (op : CacheOp) (now : SystemTime) key best :
  expires_by now op -> live now (c !! key) = live now best ->
  live now (cache_step c op !! key) = live now (last_inserted key best [op]).
Proof.
  intros Hop H. destruct op as [e|t]; cbn [cache_step last_inserted expires_by] in *.
  - unfold cache_insert. fold (entry_key e). case_bool_decide as Hk.
    + subst. by rewrite lookup_insert_eq.
    + by rewrite lookup_insert_ne.
  - cbn. rewrite <- H. rewrite map_lookup_filter. destruct (c !! key) as [e|]; cbn; [|done].
    unfold cache_entry_is_expired. destruct (Z.leb_spec (ce_expires_at e) t).
    + rewrite option_guard_False by done. rewrite (proj2 (Z.leb_le _ _)) by lia. done.
    + by rewrite option_guard_True.
Qed.

Lemma cache_run_live (ops : list CacheOp) (now : SystemTime) key :
  forall c best, Forall (expires_by now) ops -> live now (c !! key) = live now best ->
  live now (fold_left cache_step ops c !! key) = live now (last_inserted key best ops).
Proof.
  induction ops as [|op ops IH]; intros c best Hops H; [done|].
  apply Forall_cons in Hops as [Hop Hops]. cbn [fold_left].
  rewrite (IH _ (last_inserted key best [op])); [by destruct op|done|].
  by apply cache_step_live.
Qed.

Definition cache_wf (c : DnsCache) : Prop := forall key e, c !! key = Some e -> entry_key e = key.

Lemma cache_run_wf (ops : list CacheOp) (c : DnsCache) :
  cache_wf c -> cache_wf (fold_left cache_step ops c).
Proof.
  revert c. induction ops as [|op ops IH]; intros c H; [done|]. apply IH.
  intros key e. destruct op as [e'|t]; cbn; unfold cache_insert.
  - intros [[<- <-]|[_ ?]]%lookup_insert_Some; [done|by apply H].
  - intros [? _]%map_lookup_filter_Some. by apply H.
Qed.

Lemma max_by_observed_at_spec (entries : list DnsCacheEntry) : forall best,
  match max_by_observed_at best entries with
  | Some m => (Some m = best \/ m ∈ entries) /\
      (forall b, best = Some b -> ce_observed_at b <= ce_observed_at m) /\
      Forall (fun e => ce_observed_at e <= ce_observed_at m) entries
  | None => best = None /\ entries = []
  end.
Proof.
  induction entries as [|e entries IH]; intros best; cbn [max_by_observed_at].
  - destruct best; [|done]. split; [by left|]. split; [intros; simplify_eq; lia|done].
  - specialize (IH (if match best with Some b => ce_observed_at e <? ce_observed_at b | None => false end
                    then best else Some e)).
    destruct (max_by_observed_at _ entries) as [m|]; [|destruct best; [case_match|]; naive_solver].
    destruct IH as (H1 & H2 & H3). destruct best as [b|]; [destruct (Z.ltb_spec (ce_observed_at e) (ce_observed_at b))|].
    + split; [destruct H1; [by left|right; by right]|]. split; [done|]. constructor; [|done].
      specialize (H2 b eq_refl). lia.
    + specialize (H2 e eq_refl). split; [right; destruct H1; simplify_eq; [left|by right]|].
      split; [intros; simplify_eq; lia|by constructor].
    + specialize (H2 e eq_refl). split; [right; destruct H1; simplify_eq; [left|by right]|].
      split; [done|by constructor].
Qed.

Lemma collect_answers_spec (answers : list DnsAddressRecord) : forall addrs ttl,
  fold_left collect_answer answers (addrs, ttl) =
  (addrs ++ map ar_address answers,
   fold_left (fun o a => Some (match o with None => ar_ttl a | Some c => Z.min c (ar_ttl a) end)) answers ttl).
Proof.
  induction answers as [|a answers IH]; intros addrs ttl;
    [cbn; by rewrite app_nil_r|].
  cbn [fold_left map]. unfold collect_answer at 2. cbn [fst snd]. rewrite IH, <- app_assoc. done.
Qed.

Lemma min_ttl_spec (answers : list DnsAddressRecord) : forall o,
  match fold_left (fun o a => Some (match o with None => ar_ttl a | Some c => Z.min c (ar_ttl a) end))
          answers o with
  | Some m => (Some m = o \/ exists a, a ∈ answers /\ m = ar_ttl a) /\
      (forall c, o = Some c -> m <= c) /\ Forall (fun a => m <= ar_ttl a) answers
  | None => o = None /\ answers = []
  end.
Proof.
  induction answers as [|a answers IH]; intros o; cbn [fold_left].
  - destruct o; [|done]. split; [by left|]. split; [intros; simplify_eq; lia|done].
  - specialize (IH (Some (match o with None => ar_ttl a | Some c => Z.min c (ar_ttl a) end))).
    destruct (fold_left _ answers _) as [m|]; [|naive_solver]. destruct IH as (H1 & H2 & H3).
    specialize (H2 _ eq_refl).
    split; [|split; [intros; simplify_eq; lia|constructor; [destruct o; lia|done]]].
    destruct H1 as [H1|(a' & ? & ->)]; [simplify_eq|right; exists a'; split; [by right|done]].
    destruct o as [c|]; [|right; exists a; split; [left|done]].
    destruct (Z.min_spec c (ar_ttl a)) as [[_ ->]|[_ ->]]; [by left|right; exists a; split; [left|done]].
Qed.

Lemma parse_dns_query_returns (packet : list byte) : returns (parse_dns_query packet).
Proof.
  unfold parse_dns_query. case_match; [done|].
  apply result_bind_returns; [auto with foxprox|]. intros flags _. case_match; [done|].
  apply result_bind_returns; [auto with foxprox|]. intros qd _. case_match; [done|].
  apply result_bind_returns; [auto with foxprox|]. intros [h next] _.
  repeat (apply result_bind_returns; [auto with foxprox|]; intros ? _). done.
Qed.

Lemma parse_dns_response_returns (packet : list byte) (expected : option DnsQuestion) :
  returns (parse_dns_response packet expected).
Proof.
  unfold parse_dns_response. case_match; [done|].
  apply result_bind_returns; [auto with foxprox|]. intros flags _. case_match; [done|].
  do 2 (apply result_bind_returns; [auto with foxprox|]; intros ? _).
  apply result_bind_returns; [apply parse_questions_returns|]. intros [off q] _.
  apply result_bind_returns; [apply parse_answers_returns|]. intros answers _.
  apply result_bind_returns; [auto with foxprox|]. done.
Qed.

(** ** Properties *)

(** Every well-formed question survives the wire: parsing the RFC 1035 encoding
    of a query with a canonical hostname (any id, type and class, recursion flag, and
    any trailing bytes) returns exactly that question. *)
Theorem dns_query_roundtrip (q : DnsQuestion) (trailing : list byte) :
  question_wf q -> parse_dns_query (encode_query q ++ trailing) = Ok q.
Proof.
  intros (Hwf & Hid & Hcls & Hty & Hq). set (p := encode_query q ++ trailing).
  set (rd := q_recursion_desired q). assert (0 <= query_flags rd <= u16_max) as Hfl by (by destruct rd).
  destruct (read_header p _ (q_transaction_id q) (query_flags rd) 1 0
              ltac:(unfold p, encode_query; rewrite <- !app_assoc; reflexivity) Hid Hfl ltac:(done) ltac:(done))
    as (Hlen & H0 & H2 & H4 & _ & Hdrop).
  rewrite app_assoc in Hdrop || idtac.
  destruct (read_question (q_hostname q) _ _ p _ DNS_HEADER_LEN Hwf Hty Hcls Hdrop) as (Hn & Ht & Hc & _).
  unfold parse_dns_query. rewrite Hlen, H2. cbn [result_bind].
  replace (negb (Z.land (query_flags rd) 0x8000 =? 0)) with false by (by destruct rd).
  rewrite H4. cbn [result_bind]. rewrite Hn. cbn [result_bind negb Z.eqb Pos.eqb].
  rewrite Ht, Hc, H0. cbn [result_bind]. rewrite <- Hq.
  replace (negb (Z.land (query_flags rd) 0x0100 =? 0)) with rd by (by destruct rd). by destruct q.
Qed.

Lemma dns_query_roundtrip_witness :
  let q := mkDnsQuestion 4660 (mkHostname (lit "www.example.com")) DnsQueryType.Aaaa 1 true in
  parse_dns_query (encode_query q ++ []) = Ok q.
Proof.
  intros q. apply dns_query_roundtrip. repeat split; try (vm_compute; congruence).
  - vm_compute. lia.
  - apply (hostname_parse_Ok_wf (lit "www.example.com")). vm_compute. reflexivity.
Defined.

(** [C35] Address answers survive the wire: parsing a response with one question and
    any list of A and AAAA answers whose owners are compression pointers to it returns
    the id, code and every address with its TTL, in order.  The hostname and type are
    those of the question the caller expects, whatever name the packet carries. *)
Theorem dns_response_roundtrip (q : DnsQuestion) (rcode : Z) (answers : list (IpAddr * Z))
  (expected : option DnsQuestion) :
  question_wf q -> 0 <= rcode <= 15 -> Forall answer_wf answers ->
  Z.of_nat (length answers) <= u16_max ->
  parse_dns_response (encode_response q rcode answers) expected =
  Ok (mkDnsResponseObservation (q_transaction_id q) (Some (q_hostname (default q expected)))
        (Some (q_query_type (default q expected))) rcode false
        (map (answer_record (q_hostname q)) answers)).
Proof.
  intros (Hwf & Hid & Hcls & Hty & Hq) Hrc Hans Hlen. set (p := encode_response q rcode answers).
  set (rd := q_recursion_desired q).
  set (flags := 0x8000 + query_flags rd + rcode).
  assert (Z.land flags 0x8000 = 0x8000 /\ Z.land flags 0x0100 = query_flags rd /\
          Z.land flags 0x000f = rcode /\ Z.land flags 0x0200 = 0 /\ 0 <= flags <= u16_max) as Hflags.
  { subst flags rd. assert (rcode ∈ map Z.of_nat (seq 0 16)) as Hin.
    { apply list_elem_of_fmap. exists (Z.to_nat rcode). split; [lia|]. apply elem_of_seq. lia. }
    cbn in Hin. repeat (apply elem_of_cons in Hin as [->|Hin];
      [clear; destruct (q_recursion_desired q); vm_compute; (repeat split; discriminate)|]). by apply not_elem_of_nil in Hin. }
  destruct Hflags as (F1 & F2 & F3 & F4 & Hfl).
  destruct (read_header p _ (q_transaction_id q) flags 1 (Z.of_nat (length answers))
              eq_refl Hid Hfl ltac:(done) ltac:(lia)) as (Hl & H0 & H2 & H4 & H6 & Hdrop).
  destruct (read_question (q_hostname q) _ _ p _ DNS_HEADER_LEN Hwf Hty Hcls Hdrop) as (Hn & Ht & Hc & Hrest).
  assert (parse_questions 1 true p flags DNS_HEADER_LEN expected =
          Ok ((DNS_HEADER_LEN + length (encode_name (q_hostname q)) + 4)%nat, Some (default q expected))) as Hpq.
  { cbn [parse_questions]. rewrite Hn. cbn [result_bind]. rewrite Ht, Hc. cbn [result_bind].
    destruct expected; [done|]. rewrite H0. cbn [result_bind default]. rewrite <- Hq, F2.
    replace (negb (query_flags rd =? 0)) with rd by (by destruct rd). by destruct q. }
  unfold encode_question, encode_name in Hdrop. rewrite <- app_assoc in Hdrop.
  unfold parse_dns_response. rewrite Hl, H2. cbn [result_bind]. rewrite F1. cbn [Z.eqb].
  rewrite H4. cbn [result_bind]. rewrite H6. cbn [result_bind]. change (Z.to_nat 1) with 1%nat.
  rewrite Hpq. cbn [result_bind]. rewrite Nat2Z.id.
  rewrite (parse_answers_encoded (q_hostname q) p [] _ answers Hwf Hdrop Hans) by (by rewrite app_nil_r).
  cbn [result_bind app]. rewrite H0. cbn [result_bind]. by rewrite F3, F4.
Qed.

Lemma dns_response_roundtrip_witness :
  let q := mkDnsQuestion 7 (mkHostname (lit "example.com")) DnsQueryType.A 1 true in
  ro_answers <$> result_ok (parse_dns_response
    (encode_response q 0 [(V4 (ipv4_new 93 184 216 34), 300); (V6 1, 60)]) None) =
  Some [mkDnsAddressRecord (mkHostname (lit "example.com")) (V4 (ipv4_new 93 184 216 34)) (from_secs 300);
        mkDnsAddressRecord (mkHostname (lit "example.com")) (V6 1) (from_secs 60)].
Proof.
  intros q. rewrite (dns_response_roundtrip q 0 _ None).
  - vm_compute. reflexivity.
  - repeat split; try (vm_compute; congruence).
    + vm_compute. lia.
    + apply (hostname_parse_Ok_wf (lit "example.com")). vm_compute. reflexivity.
  - lia.
  - repeat constructor; vm_compute; discriminate.
  - vm_compute. discriminate.
Defined.

(** A response becomes at most one cache entry: it lists every answered address
    in order and expires when the shortest answer TTL ends, so no address is attributed
    longer than its own record allows; a response without answers yields no entry. *)
Theorem cache_entry_expires_with_shortest_ttl (sandbox_id : SandboxId) (response : DnsResponseObservation)
  (observed_at : SystemTime) (broker : bool) (e : DnsCacheEntry) :
  e ∈ cache_entry_from_response sandbox_id response observed_at broker ->
  cache_entry_from_response sandbox_id response observed_at broker = [e] /\
  ce_sandbox_id e = sandbox_id /\ ro_hostname response = Some (ce_hostname e) /\
  ce_addresses e = map ar_address (ro_answers response) /\ ce_addresses e <> [] /\
  (exists a, a ∈ ro_answers response /\ ce_expires_at e = observed_at + ar_ttl a) /\
  Forall (fun a => ce_expires_at e <= observed_at + ar_ttl a) (ro_answers response).
Proof.
  unfold cache_entry_from_response.
  destruct (ro_hostname response) as [h|]; [|set_solver].
  destruct (ro_query_type response) as [ty|]; [|set_solver].
  rewrite collect_answers_spec. pose proof (min_ttl_spec (ro_answers response) None) as Hmin.
  destruct (fold_left _ (ro_answers response) None) as [ttl|]; [|set_solver].
  destruct Hmin as (H1 & _ & H3). destruct H1 as [?|(a & Ha & ->)]; [done|].
  unfold cache_entry_new. cbn [app]. case_bool_decide as Hne; [set_solver|].
  unfold checked_add. cbn [ob_observed_at]. destruct (_ <=? _); [|set_solver].
  intros ->%list_elem_of_singleton. cbn. split_and!; try done; [by exists a|].
  eapply Forall_impl; [exact H3|]. intros a' ?. cbn in *. lia.
Qed.

Lemma cache_entry_expires_with_shortest_ttl_witness :
  let h := mkHostname (lit "example.com") in
  let response := mkDnsResponseObservation 7 (Some h) (Some DnsQueryType.A) 0 false
    [mkDnsAddressRecord h (V4 1) (from_secs 300); mkDnsAddressRecord h (V4 2) (from_secs 60)] in
  let e := mkDnsCacheEntry (mkSandboxId (lit "alpha")) h [V4 1; V4 2] DnsQueryType.A 0 (from_secs 60) true in
  Forall (fun a => ce_expires_at e <= 0 + ar_ttl a) (ro_answers response).
Proof.
  intros h response e.
  apply (cache_entry_expires_with_shortest_ttl (mkSandboxId (lit "alpha")) response 0 true e).
  vm_compute. left.
Defined.

(** [C29] The DNS cache means "the last answer per sandbox and hostname, while it
    lives": after any sequence of insertions and expiry sweeps (none in the future),
    [lookup_hostname] is the last inserted entry if unexpired, and [lookup_address]
    returns an unexpired entry of the asking sandbox listing the address, no older than
    any other such entry, or [None] only when there is none. *)
Theorem cache_lookup_spec (order : IterOrder (SandboxId * Hostname) DnsCacheEntry)
  (ops : list CacheOp) (s : SandboxId) (now : SystemTime) :
  Forall (expires_by now) ops ->
  let c := fold_left cache_step ops ∅ in
  let candidate address e := live now (last_inserted (s, ce_hostname e) None ops) = Some e /\
                             ce_sandbox_id e = s /\ address ∈ ce_addresses e in
  (forall h, lookup_hostname c s h now = live now (last_inserted (s, h) None ops)) /\
  (forall address,
     match lookup_address c s address now with
     | Some e => candidate address e /\
         forall e', candidate address e' -> ce_observed_at e' <= ce_observed_at e
     | None => forall e', ~ candidate address e'
     end).
Proof.
  intros Hops c candidate.
  assert (forall key, live now (c !! key) = live now (last_inserted key None ops)) as Hl.
  { intros key. by apply cache_run_live. }
  assert (cache_wf c) as Hwf by (apply cache_run_wf; intros ? ?; by rewrite lookup_empty).
  split.
  { intros h. rewrite <- Hl. unfold lookup_hostname, cache_entry_is_expired.
    destruct (c !! _); cbn; [by destruct (_ <=? _)|done]. }
  intros address.
  assert (forall e, e ∈ List.filter (fun entry => bool_decide (ce_sandbox_id entry = s)
       && negb (cache_entry_is_expired entry now) && bool_decide (address ∈ ce_addresses entry)) (values c)
     <-> candidate address e) as Hin.
  { intros e. rewrite list_elem_of_In, filter_In, <- list_elem_of_In, elem_of_values.
    unfold candidate. rewrite <- Hl. unfold cache_entry_is_expired. split.
    - intros [(key & Hk) H]. to_prop. pose proof (Hwf _ _ Hk) as <-. unfold entry_key in Hk.
      subst s. rewrite Hk. cbn. by rewrite (proj2 (Z.leb_gt _ _)).
    - intros (H & Hs & Ha). destruct (c !! _) as [e'|] eqn:Hk; cbn in H; [|done].
      destruct (_ <=? _) eqn:He; [done|]. simplify_eq. split; [by eexists|].
      rewrite He, !bool_decide_eq_true_2 by done. done. }
  unfold lookup_address. match goal with |- context [max_by_observed_at None ?l] =>
    pose proof (max_by_observed_at_spec l None) as Hm; set (es := l) in * end.
  destruct (max_by_observed_at None es) as [m|].
  - destruct Hm as ([?|Hm] & _ & Hall); [done|]. split; [by apply Hin|].
    intros e' He'%Hin. rewrite Forall_forall in Hall. by apply Hall.
  - destruct Hm as [_ Hes]. intros e' He'%Hin. rewrite Hes in He'. by apply elem_of_nil in He'.
Qed.

Lemma cache_lookup_spec_witness :
  let order := canonical_order (SandboxId * Hostname) DnsCacheEntry in
  let s := mkSandboxId (lit "alpha") in let h := mkHostname (lit "example.com") in
  let e := mkDnsCacheEntry s h [V4 1] DnsQueryType.A 0 (from_secs 60) true in
  lookup_hostname (fold_left cache_step [CacheOp.Insert e; CacheOp.Expire 5] ∅) s h 5 = Some e.
Proof.
  intros order s h e.
  destruct (cache_lookup_spec order [CacheOp.Insert e; CacheOp.Expire 5] s 5) as [H _].
  - repeat constructor. vm_compute. discriminate.
  - rewrite H. vm_compute. reflexivity.
Defined.
