(* ===== verification/Inspection.v ===== *)
(** * Transparent inspection ([crates/foxprox-core/src/inspection.rs])

    The plaintext HTTP/1 request-head parser and the TLS ClientHello parser
    that give a TCP flow its hostname attribution.  Offsets are [nat]. *)

From S2P Require Import Prelude Text NetAddr Event.

Definition TLS_HANDSHAKE_RECORD : Z := 22.
Definition TLS_CLIENT_HELLO : Z := 1.
Definition TLS_EXT_SERVER_NAME : Z := 0.
Definition TLS_EXT_ECH : Z := 0xfe0d.

(** ** Results *)

Record HttpInspection : Type := mkHttpInspection {
  hi_method : HttpMethod;
  hi_origin : Origin;
  hi_path_and_query : str;
  hi_attribution : Attribution
}.

Record TlsClientHelloInspection : Type := mkTlsInspection {
  ti_sni : option Hostname;
  ti_ech_present : bool
}.

Definition hidden_sni (self : TlsClientHelloInspection) : bool :=
  match ti_sni self with
  | None => true
  | Some _ => ti_ech_present self
  end.

Definition tls_attribution (self : TlsClientHelloInspection) : Attribution :=
  match ti_sni self with
  | Some hostname =>
      mkAttribution (Some hostname) AttributionSource.TlsSni AttributionConfidence.High
  | None => attribution_ip_only
  end.

Definition mismatches_dns (self : TlsClientHelloInspection) (dns_hostname : option Hostname) : bool :=
  match ti_sni self, dns_hostname with
  | Some sni, Some dns => negb (bool_decide (sni = dns))
  | _, _ => false
  end.

Module InspectionError.
Inductive InspectionError : Type :=
| Truncated
| Malformed (detail : str)
| Unsupported (detail : str).
End InspectionError.
Abbreviation InspectionError := InspectionError.InspectionError.

#[export] Instance HttpInspection_eq_dec : EqDecision HttpInspection.
Proof. solve_decision. Defined.
#[export] Instance TlsClientHelloInspection_eq_dec : EqDecision TlsClientHelloInspection.
Proof. solve_decision. Defined.
#[export] Instance InspectionError_eq_dec : EqDecision InspectionError.
Proof. solve_decision. Defined.

(** ** HTTP *)

Definition parse_host_port (value : str) (default_port : Z) : Result (Hostname * Z) InspectionError :=
  let value := trim value in
  if starts_with (lit "[") value then
    Err (InspectionError.Unsupported (lit "IPv6 literal Host is not hostname attribution"))
  else
    let? (host, port) :=
      match rsplit_once x3a value with
      | Some (host, port) =>
          if negb (bool_decide (port = [])) && forallb is_ascii_digit port then
            let? parsed_port := map_err (fun _ => InspectionError.Malformed (lit "invalid Host port"))
                                  (parse_uint u16_max port) in
            Ok (host, parsed_port)
          else Ok (value, default_port)
      | None => Ok (value, default_port)
      end in
    let? host := map_err (fun error => InspectionError.Malformed (hostname_error_display error))
                   (hostname_parse host) in
    Ok (host, port).

Definition http_path_and_query (target : str) : str :=
  match strip_prefix (lit "http://") target with
  | Some after_scheme =>
      match find (lit "/") after_scheme with
      | Some index => drop index after_scheme
      | None => lit "/"
      end
  | None => if bool_decide (target = []) then lit "/" else target
  end.

(** The header loop: the first [Host] header decides. *)
Fixpoint find_host_header (lines : list str) : option str :=
  match lines with
  | [] => None
  | line :: lines =>
      match split_once x3a line with
      | None => find_host_header lines
      | Some (name, value) =>
          if eq_ignore_ascii_case name (lit "host") then Some (trim value)
          else find_host_header lines
      end
  end.

Definition parse_http_request_head (input : list byte) (default_port : Z)
  : Result HttpInspection InspectionError :=
  let malformed detail := InspectionError.Malformed detail in
  let? text := ok_or (from_utf8 input) (malformed (lit "HTTP head is not UTF-8")) in
  let? head_end := ok_or (find [x0d; x0a; x0d; x0a] text) InspectionError.Truncated in
  let lines := split_crlf (take head_end text) in
  let? request_line := ok_or (head lines) (malformed (lit "missing request line")) in
  let parts := split_whitespace request_line in
  let? method := map_err (fun error => malformed (http_method_error_display error))
                   (http_method_parse (default [] (parts !! 0%nat))) in
  let? target := ok_or (parts !! 1%nat) (malformed (lit "missing request target")) in
  let? version := ok_or (parts !! 2%nat) (malformed (lit "missing HTTP version")) in
  if negb (starts_with (lit "HTTP/") version) || bool_decide (is_Some (parts !! 3%nat)) then
    Err (malformed (lit "invalid request line"))
  else
    let? host_header := ok_or (find_host_header (tail lines)) (malformed (lit "missing Host header")) in
    let? (host, port) := parse_host_port host_header default_port in
    Ok (mkHttpInspection method (mkOrigin (lit "http") host port) (http_path_and_query target)
          (mkAttribution (Some host) AttributionSource.HttpHostHeader AttributionConfidence.High)).

(** ** TLS *)

Definition tls_read_u16 (input : list byte) (offset : nat) : Result Z InspectionError :=
  let? bytes := ok_or (slice input offset (offset + 2)) InspectionError.Truncated in
  Ok (be_val bytes).

Definition tls_read_u24 (input : list byte) (offset : nat) : Result Z InspectionError :=
  let? bytes := ok_or (slice input offset (offset + 3)) InspectionError.Truncated in
  let? b0 := or_panic (bytes !! 0%nat) in
  let? b1 := or_panic (bytes !! 1%nat) in
  let? b2 := or_panic (bytes !! 2%nat) in
  Ok (Z.lor (Z.lor (Z.shiftl (u8_val b0) 16) (Z.shiftl (u8_val b1) 8)) (u8_val b2)).

(** The server-name list; every turn consumes at least three bytes. *)
Fixpoint parse_sni_list (fuel : nat) (input : list byte) (offset end_ : nat)
  : Result (option Hostname) InspectionError :=
  match fuel with
  | O => OutOfFuel
  | S fuel =>
      if (offset + 3 <=? end_)%nat then
        let? name_type := or_panic (input !! offset) in
        let? name_len := tls_read_u16 input (offset + 1) in
        let offset := (offset + 3)%nat in
        let name_end := (offset + Z.to_nat name_len)%nat in
        if (end_ <? name_end)%nat then Err InspectionError.Truncated
        else if u8_val name_type =? 0 then
          let? bytes := or_panic (slice input offset name_end) in
          let? host := ok_or (from_utf8 bytes) (InspectionError.Malformed (lit "SNI is not UTF-8")) in
          map_err (fun error => InspectionError.Malformed (hostname_error_display error))
            (result_map Some (hostname_parse host))
        else parse_sni_list fuel input name_end end_
      else Ok None
  end.

Definition parse_sni_extension (input : list byte) : Result (option Hostname) InspectionError :=
  if (length input <? 2)%nat then Err InspectionError.Truncated
  else
    let? list_len := tls_read_u16 input 0 in
    let end_ := (2 + Z.to_nat list_len)%nat in
    if (length input <? end_)%nat then Err InspectionError.Truncated
    else parse_sni_list (length input) input 2 end_.

(** The extension loop; every turn consumes at least four bytes. *)
Fixpoint parse_extensions (fuel : nat) (input : list byte) (offset extensions_end : nat)
  (sni : option Hostname) (ech_present : bool) : Result TlsClientHelloInspection InspectionError :=
  match fuel with
  | O => OutOfFuel
  | S fuel =>
      if (offset + 4 <=? extensions_end)%nat then
        let? ext_type := tls_read_u16 input offset in
        let? ext_len := tls_read_u16 input (offset + 2) in
        let offset := (offset + 4)%nat in
        let ext_end := (offset + Z.to_nat ext_len)%nat in
        if (extensions_end <? ext_end)%nat then Err InspectionError.Truncated
        else if ext_type =? TLS_EXT_SERVER_NAME then
          let? body := or_panic (slice input offset ext_end) in
          let? sni := parse_sni_extension body in
          parse_extensions fuel input ext_end extensions_end sni ech_present
        else if ext_type =? TLS_EXT_ECH then
          parse_extensions fuel input ext_end extensions_end sni true
        else parse_extensions fuel input ext_end extensions_end sni ech_present
      else Ok (mkTlsInspection sni ech_present)
  end.

Definition parse_tls_client_hello (input : list byte)
  : Result TlsClientHelloInspection InspectionError :=
  if (length input <? 9)%nat then Err InspectionError.Truncated
  else
    let? content_type := or_panic (input !! 0%nat) in
    if negb (u8_val content_type =? TLS_HANDSHAKE_RECORD) then
      Err (InspectionError.Unsupported (lit "not a TLS handshake record"))
    else
      let? record_len := tls_read_u16 input 3 in
      let record_len := Z.to_nat record_len in
      if (length input <? 5 + record_len)%nat then Err InspectionError.Truncated
      else
        let? handshake_type := or_panic (input !! 5%nat) in
        if negb (u8_val handshake_type =? TLS_CLIENT_HELLO) then
          Err (InspectionError.Unsupported (lit "not a TLS ClientHello"))
        else
          let? handshake_len := tls_read_u24 input 6 in
          if (length input <? Z.to_nat handshake_len + 9)%nat then Err InspectionError.Truncated
          else
            let offset := (9 + 2 + 32)%nat in
            let? session_len := ok_or (input !! offset) InspectionError.Truncated in
            let offset := (offset + (1 + Z.to_nat (u8_val session_len)))%nat in
            let? cipher_len := tls_read_u16 input offset in
            let offset := (offset + (2 + Z.to_nat cipher_len))%nat in
            let? compression_len := ok_or (input !! offset) InspectionError.Truncated in
            let offset := (offset + (1 + Z.to_nat (u8_val compression_len)))%nat in
            if (offset =? 5 + record_len)%nat then Ok (mkTlsInspection None false)
            else
              let? extensions_len := tls_read_u16 input offset in
              let offset := (offset + 2)%nat in
              let extensions_end := (offset + Z.to_nat extensions_len)%nat in
              if (length input <? extensions_end)%nat then Err InspectionError.Truncated
              else parse_extensions (length input) input offset extensions_end None false.

Definition classify_udp_candidate (destination_port : Z) : Protocol :=
  if destination_port =? 443 then Protocol.Quic else Protocol.Udp.

(** ** Specification: a ClientHello encoder *)

Module TlsExt.
Inductive TlsExt : Type :=
| ServerName (host : Hostname)
| EncryptedHello (body : list byte)
| Other (ty : Z) (body : list byte).
End TlsExt.
Abbreviation TlsExt := TlsExt.TlsExt.

Definition encode_sni (h : Hostname) : list byte :=
  let name := hostname_str h in
  be_bytes 2 (Z.of_nat (3 + length name)) ++ [x00] ++ be_bytes 2 (Z.of_nat (length name)) ++ name.

Definition ext_type (e : TlsExt) : Z :=
  match e with
  | TlsExt.ServerName _ => TLS_EXT_SERVER_NAME
  | TlsExt.EncryptedHello _ => TLS_EXT_ECH
  | TlsExt.Other ty _ => ty
  end.

Definition ext_body (e : TlsExt) : list byte :=
  match e with
  | TlsExt.ServerName h => encode_sni h
  | TlsExt.EncryptedHello body | TlsExt.Other _ body => body
  end.

Definition encode_ext (e : TlsExt) : list byte :=
  be_bytes 2 (ext_type e) ++ be_bytes 2 (Z.of_nat (length (ext_body e))) ++ ext_body e.

Definition ext_wf (e : TlsExt) : Prop :=
  match e with
  | TlsExt.ServerName h => hostname_wf h
  | TlsExt.EncryptedHello body => Z.of_nat (length body) <= u16_max
  | TlsExt.Other ty body =>
      0 <= ty <= u16_max /\ ty <> TLS_EXT_SERVER_NAME /\ ty <> TLS_EXT_ECH /\ Z.of_nat (length body) <= u16_max
  end.

(** What a ClientHello shows: the last server name and whether ECH is offered. *)
Definition see_ext (t : TlsClientHelloInspection) (e : TlsExt) : TlsClientHelloInspection :=
  match e with
  | TlsExt.ServerName h => mkTlsInspection (Some h) (ti_ech_present t)
  | TlsExt.EncryptedHello _ => mkTlsInspection (ti_sni t) true
  | TlsExt.Other _ _ => t
  end.

Record ClientHello : Type := mkClientHello {
  ch_version : list byte;
  ch_random : list byte;
  ch_session : list byte;
  ch_ciphers : list byte;
  ch_compression : list byte;
  ch_extensions : list TlsExt
}.

Definition encode_extensions (es : list TlsExt) : list byte := flat_map encode_ext es.

Definition encode_hello_body (c : ClientHello) : list byte :=
  ch_version c ++ ch_random c
  ++ [u8_of (Z.of_nat (length (ch_session c)))] ++ ch_session c
  ++ be_bytes 2 (Z.of_nat (length (ch_ciphers c))) ++ ch_ciphers c
  ++ [u8_of (Z.of_nat (length (ch_compression c)))] ++ ch_compression c
  ++ be_bytes 2 (Z.of_nat (length (encode_extensions (ch_extensions c))))
  ++ encode_extensions (ch_extensions c).

Definition encode_client_hello (c : ClientHello) : list byte :=
  let body := encode_hello_body c in
  [x16; x03; x01] ++ be_bytes 2 (Z.of_nat (4 + length body))
  ++ [x01] ++ be_bytes 3 (Z.of_nat (length body)) ++ body.

Definition client_hello_wf (c : ClientHello) : Prop :=
  length (ch_version c) = 2%nat /\ length (ch_random c) = 32%nat /\
  (length (ch_session c) <= 255)%nat /\ (length (ch_compression c) <= 255)%nat /\
  Forall ext_wf (ch_extensions c) /\ Z.of_nat (4 + length (encode_hello_body c)) <= u16_max.

(** ** Lemmas: TLS *)

Lemma tls_read_u16_at (p r : list byte) (i : nat) (v : Z) :
  drop i p = be_bytes 2 v ++ r -> 0 <= v <= u16_max ->
  tls_read_u16 p i = Ok v /\ drop (i + 2) p = r.
Proof.
  intros H Hv. split; [|by apply drop_next in H].
  unfold tls_read_u16. pose proof (slice_drop p (be_bytes 2 v) r i H ltac:(by destruct v)) as Hs.
  rewrite length_be_bytes in Hs. rewrite Hs. cbn [ok_or result_bind].
  f_equal. apply be_val_bytes_small. unfold u16_max in Hv. cbn. lia.
Qed.

Lemma tls_read_u16_returns (p : list byte) (i : nat) : returns (tls_read_u16 p i).
Proof. unfold tls_read_u16. by destruct (slice _ _ _). Qed.

Lemma tls_read_u24_at (p r : list byte) (i : nat) (v : Z) :
  drop i p = be_bytes 3 v ++ r -> 0 <= v < 2 ^ 24 ->
  tls_read_u24 p i = Ok v /\ drop (i + 3) p = r.
Proof.
  intros H Hv. split; [|by apply drop_next in H].
  unfold tls_read_u24. pose proof (slice_drop p (be_bytes 3 v) r i H ltac:(by destruct v)) as Hs.
  rewrite length_be_bytes in Hs. rewrite Hs.
  assert (be_val (be_bytes 3 v) = v) as Hval by (apply be_val_bytes_small; cbn; lia).
  pose proof (length_be_bytes 3 v) as Hl. destruct (be_bytes 3 v) as [|b0 [|b1 [|b2 [|]]]]; try done.
  cbn. f_equal. rewrite <- Hval. cbn.
  pose proof (u8_val_range b0). pose proof (u8_val_range b1). pose proof (u8_val_range b2).
  rewrite !Z.shiftl_mul_pow2 by lia.
  replace (u8_val b0 * 2 ^ 16) with (Z.shiftl (u8_val b0) 16) by (rewrite Z.shiftl_mul_pow2; lia).
  rewrite lor_shiftl_add by lia.
  replace (u8_val b0 * 2 ^ 16 + u8_val b1 * 2 ^ 8) with (Z.shiftl (u8_val b0 * 2 ^ 8 + u8_val b1) 8)
    by (rewrite Z.shiftl_mul_pow2; lia).
  rewrite lor_shiftl_add by lia. lia.
Qed.

Lemma tls_read_u24_returns (p : list byte) (i : nat) : returns (tls_read_u24 p i).
Proof.
  unfold tls_read_u24. destruct (slice p i (i + 3)) as [l|] eqn:E; [|done].
  apply length_slice in E. destruct l as [|? [|? [|]]]; cbn in *; first [lia|done].
Qed.

#[local] Hint Resolve tls_read_u16_returns tls_read_u24_returns : foxprox.

Lemma parse_sni_list_returns (p : list byte) (end_ fuel : nat) : forall offset,
  (end_ <= length p)%nat -> (offset <= end_)%nat -> (end_ - offset < fuel)%nat ->
  returns (parse_sni_list fuel p offset end_).
Proof.
  induction fuel as [|fuel IH]; intros offset He Ho Hf; [lia|]. cbn [parse_sni_list].
  case_match eqn:Hle; [|done]. to_prop.
  destruct (lookup_lt_is_Some_2 p offset ltac:(lia)) as [b ->]. cbn [or_panic result_bind].
  apply result_bind_returns; [auto with foxprox|]. intros n _. case_match eqn:Hn; [done|]. to_prop.
  case_match.
  - destruct (slice p (offset + 3) _) as [l|] eqn:Hs; [|apply slice_None in Hs; lia].
    cbn [or_panic result_bind].
    apply result_bind_returns; [auto with foxprox|]. intros s _. auto with foxprox.
  - apply IH; lia.
Qed.

Lemma parse_sni_extension_returns (p : list byte) : returns (parse_sni_extension p).
Proof.
  unfold parse_sni_extension. case_match; [done|]. apply result_bind_returns; [auto with foxprox|].
  intros n _. case_match; [done|]. to_prop. apply parse_sni_list_returns; lia.
Qed.

Lemma parse_extensions_returns (p : list byte) (end_ fuel : nat) : forall offset sni ech,
  (end_ <= length p)%nat -> (end_ - offset < fuel)%nat ->
  returns (parse_extensions fuel p offset end_ sni ech).
Proof.
  induction fuel as [|fuel IH]; intros offset sni ech He Hf; [lia|]. cbn [parse_extensions].
  case_match eqn:Hle; [|done]. to_prop.
  apply result_bind_returns; [auto with foxprox|]. intros ty _.
  apply result_bind_returns; [auto with foxprox|]. intros n _. case_match eqn:Hn; [done|]. to_prop.
  case_match; [|case_match; apply IH; lia].
  destruct (slice p (offset + 4) _) as [l|] eqn:Hs; [|apply slice_None in Hs; lia].
  cbn [or_panic result_bind].
  apply result_bind_returns; [apply parse_sni_extension_returns|]. intros s _. apply IH; lia.
Qed.

Lemma parse_sni_encoded (h : Hostname) :
  hostname_wf h -> parse_sni_extension (encode_sni h) = Ok (Some h).
Proof.
  intros Hwf. pose proof (proj1 Hwf) as Hlen. set (p := encode_sni h).
  assert (hostname_str h <> []) as Hne.
  { destruct (hostname_wf_last h Hwf) as (m & z & -> & _). by destruct m. }
  assert (length p = 5 + length (hostname_str h))%nat as Hp
    by (unfold p, encode_sni; rewrite !length_app, !length_be_bytes; cbn; lia).
  assert (drop 0 p = be_bytes 2 (Z.of_nat (3 + length (hostname_str h))) ++ [x00]
            ++ be_bytes 2 (Z.of_nat (length (hostname_str h))) ++ hostname_str h ++ []) as H0
    by (rewrite app_nil_r; done).
  destruct (tls_read_u16_at _ _ _ _ H0 ltac:(unfold u16_max; lia)) as [Hr H2].
  pose proof (drop_next _ _ _ _ H2) as H3. cbn [length Nat.add] in H2, H3.
  destruct (tls_read_u16_at _ _ _ _ H3 ltac:(unfold u16_max; lia)) as [Hr3 H5]. cbn [Nat.add] in H5.
  unfold parse_sni_extension. rewrite (proj2 (Nat.ltb_ge _ _)) by lia.
  rewrite Hr. cbn [result_bind]. rewrite Nat2Z.id, (proj2 (Nat.ltb_ge _ _)) by lia.
  rewrite Hp at 1. cbn [Nat.add parse_sni_list].
  rewrite (lookup_drop_head _ _ _ _ H2). rewrite (proj2 (Nat.leb_le _ _)) by lia.
  cbn [or_panic result_bind Nat.add]. rewrite Hr3. cbn [result_bind]. rewrite Nat2Z.id.
  rewrite (proj2 (Nat.ltb_ge _ _)) by lia. cbn [u8_val Byte.to_N Z.of_N Z.eqb].
  change 5%nat with (5 + 0)%nat in H5. rewrite Nat.add_0_r in H5.
  pose proof (slice_drop _ _ _ _ H5 Hne) as Hs. cbn [Nat.add] in Hs. rewrite Hs.
  cbn [or_panic result_bind].
  unfold from_utf8. rewrite utf8_valid_graphic by (by apply hostname_wf_graphic).
  cbn [ok_or result_bind]. by rewrite hostname_parse_of_wf.
Qed.

Lemma length_ext_body (e : TlsExt) : ext_wf e -> Z.of_nat (length (ext_body e)) <= u16_max.
Proof.
  destruct e as [h|body|ty body]; cbn; [|done|naive_solver]. intros [H _].
  unfold u16_max. lia.
Qed.

Lemma parse_extensions_encoded (p r : list byte) (es : list TlsExt) : Forall ext_wf es ->
  forall fuel offset t,
  drop offset p = encode_extensions es ++ r -> (length es < fuel)%nat ->
  parse_extensions fuel p offset (offset + length (encode_extensions es)) (ti_sni t) (ti_ech_present t)
  = Ok (fold_left see_ext es t).
Proof.
  intros Hes. induction Hes as [|e es He _ IH]; intros fuel offset t Hp Hf;
    (destruct fuel as [|fuel]; [cbn in Hf; lia|]); cbn [parse_extensions fold_left].
  - cbn [encode_extensions flat_map length]. rewrite (proj2 (Nat.leb_gt _ _)) by lia. by destruct t.
  - pose proof (length_ext_body e He) as Hb.
    assert (0 <= ext_type e <= u16_max) as Hty by (destruct e; cbn; unfold TLS_EXT_SERVER_NAME, TLS_EXT_ECH, u16_max; naive_solver lia).
    change (encode_extensions (e :: es)) with (encode_ext e ++ encode_extensions es) in *.
    rewrite <- app_assoc in Hp. pose proof (drop_next _ _ _ _ Hp) as Hnext.
    assert (length (encode_ext e) = 4 + length (ext_body e))%nat as Hel
      by (unfold encode_ext; rewrite !length_app, !length_be_bytes; lia).
    rewrite Hel in Hnext.
    unfold encode_ext in Hp. rewrite <- !app_assoc in Hp.
    destruct (tls_read_u16_at _ _ _ _ Hp Hty) as [Hrt Hp2].
    destruct (tls_read_u16_at _ _ _ _ Hp2 ltac:(lia)) as [Hrl Hp4].
    rewrite <- Nat.add_assoc in Hp4. cbn [Nat.add] in Hp4.
    rewrite length_app, Hel, (proj2 (Nat.leb_le _ _)) by lia.
    rewrite Hrt, Hrl. cbn [result_bind]. rewrite Nat2Z.id, (proj2 (Nat.ltb_ge _ _)) by lia.
    replace (offset + (4 + length (ext_body e) + length (encode_extensions es)))%nat with
      (offset + 4 + length (ext_body e) + length (encode_extensions es))%nat by lia.
    replace (offset + (4 + length (ext_body e)))%nat with (offset + 4 + length (ext_body e))%nat in Hnext by lia.
    cbn [length] in Hf. specialize (IH fuel _ (see_ext t e) Hnext ltac:(lia)). rewrite <- IH.
    destruct e as [h|body|ty body]; cbn [ext_type see_ext ti_sni ti_ech_present] in *.
    + cbn [TLS_EXT_SERVER_NAME Z.eqb].
      assert (ext_body (TlsExt.ServerName h) <> []) as Hne
        by discriminate.
      rewrite (slice_drop _ _ _ _ Hp4 Hne). cbn [or_panic result_bind].
      change (ext_body (TlsExt.ServerName h)) with (encode_sni h) at 1.
      rewrite parse_sni_encoded by done. cbn [result_bind]. by destruct fuel.
    + cbn -[Nat.add parse_extensions]. by destruct t.
    + destruct He as (_ & H1 & H2 & _). rewrite (proj2 (Z.eqb_neq _ _)), (proj2 (Z.eqb_neq _ _)) by done. by destruct t.
Qed.

Lemma length_encode_extensions (es : list TlsExt) :
  (length es <= length (encode_extensions es))%nat.
Proof.
  induction es as [|e es IH]; cbn [encode_extensions flat_map length]; [lia|].
  rewrite length_app. unfold encode_ext at 1. rewrite !length_app, !length_be_bytes.
  unfold encode_extensions in IH. lia.
Qed.

(** The hello body, read from behind the handshake header. *)
Lemma read_hello_body (c : ClientHello) (p r : list byte) :
  client_hello_wf c -> drop 9 p = encode_hello_body c ++ r ->
  let s := length (ch_session c) in let ci := length (ch_ciphers c) in
  let co := length (ch_compression c) in
  p !! 43%nat = Some (u8_of (Z.of_nat s)) /\ tls_read_u16 p (44 + s) = Ok (Z.of_nat ci) /\
  p !! (46 + s + ci)%nat = Some (u8_of (Z.of_nat co)) /\
  tls_read_u16 p (47 + s + ci + co) = Ok (Z.of_nat (length (encode_extensions (ch_extensions c)))) /\
  drop (49 + s + ci + co) p = encode_extensions (ch_extensions c) ++ r /\
  length (encode_hello_body c) = (40 + s + ci + co + length (encode_extensions (ch_extensions c)))%nat.
Proof.
  intros (Hv & Hr & _ & _ & _ & Hlen) Hp s ci co.
  assert (length (encode_hello_body c) = 40 + s + ci + co + length (encode_extensions (ch_extensions c)))%nat as Hl.
  { unfold encode_hello_body. rewrite !length_app, !length_be_bytes, Hv, Hr. cbn [length]. lia. }
  rewrite Hl in Hlen. unfold u16_max in Hlen.
  unfold encode_hello_body in Hp. rewrite <- !app_assoc in Hp.
  apply drop_next in Hp. rewrite Hv in Hp. apply drop_next in Hp. rewrite Hr in Hp.
  change (9 + 2 + 32)%nat with 43%nat in Hp. pose proof (lookup_drop_head _ _ _ _ Hp) as H43.
  apply (drop_next p [_]) in Hp. cbn [length Nat.add] in Hp. apply drop_next in Hp. fold s in Hp.
  destruct (tls_read_u16_at _ _ _ _ Hp ltac:(unfold u16_max; lia)) as [H44 Hp2].
  apply drop_next in Hp2. fold ci in Hp2, H44.
  replace (44 + s + 2 + ci)%nat with (46 + s + ci)%nat in Hp2 by lia.
  pose proof (lookup_drop_head _ _ _ _ Hp2) as H46.
  apply (drop_next p [_]) in Hp2. cbn [length] in Hp2. apply drop_next in Hp2. fold co in Hp2, H46.
  replace (46 + s + ci + 1 + co)%nat with (47 + s + ci + co)%nat in Hp2 by lia.
  destruct (tls_read_u16_at _ _ _ _ Hp2 ltac:(unfold u16_max; lia)) as [H47 Hp3].
  replace (47 + s + ci + co + 2)%nat with (49 + s + ci + co)%nat in Hp3 by lia. done.
Qed.

Lemma parse_http_request_head_returns (input : list byte) (default_port : Z) :
  returns (parse_http_request_head input default_port).
Proof.
  unfold parse_http_request_head.
  do 3 (apply result_bind_returns; [auto with foxprox|]; intros ? _).
  do 3 (apply result_bind_returns; [auto with foxprox|]; intros ? _).
  case_match; [done|]. apply result_bind_returns; [auto with foxprox|]. intros host _.
  apply result_bind_returns; [|by intros []]. unfold parse_host_port. case_match; [done|].
  apply result_bind_returns; [|intros [h p] _; apply result_bind_returns; [auto with foxprox|done]].
  destruct (rsplit_once _ _) as [[h p]|]; [|done]. case_match; [|done].
  apply result_bind_returns; [apply map_err_returns, parse_uint_returns|done].
Qed.

Lemma parse_tls_client_hello_returns (input : list byte) : returns (parse_tls_client_hello input).
Proof.
  unfold parse_tls_client_hello. case_match eqn:Hlen; [done|]. to_prop.
  destruct (lookup_lt_is_Some_2 input 0 ltac:(lia)) as [b0 ->]. cbn [or_panic result_bind].
  case_match; [done|]. apply result_bind_returns; [auto with foxprox|]. intros rl _.
  case_match; [done|]. destruct (lookup_lt_is_Some_2 input 5 ltac:(lia)) as [b5 ->]. cbn [or_panic result_bind].
  case_match; [done|]. apply result_bind_returns; [auto with foxprox|]. intros hl _.
  case_match; [done|]. do 3 (apply result_bind_returns; [auto with foxprox|]; intros ? _).
  case_match; [done|]. apply result_bind_returns; [auto with foxprox|]. intros el _.
  case_match eqn:He; [done|]. to_prop. apply parse_extensions_returns; lia.
Qed.

(** ** Properties: TLS *)

(** [C34] SNI extraction is complete: parsing any well-formed ClientHello record (any
    version, random, session id, cipher list and compression list, any extensions, and
    any bytes after the record) shows exactly the last [server_name] host and whether
    an Encrypted ClientHello extension is present. *)
Theorem tls_client_hello_roundtrip (c : ClientHello) (trailing : list byte) :
  client_hello_wf c ->
  parse_tls_client_hello (encode_client_hello c ++ trailing) =
  Ok (fold_left see_ext (ch_extensions c) (mkTlsInspection None false)).
Proof.
  intros Hwf. destruct (Hwf) as (_ & _ & Hs & Hco & Hes & Hlen).
  set (p := encode_client_hello c ++ trailing).
  assert (drop 0 p = [x16; x03; x01] ++ be_bytes 2 (Z.of_nat (4 + length (encode_hello_body c)))
    ++ [x01] ++ be_bytes 3 (Z.of_nat (length (encode_hello_body c))) ++ encode_hello_body c ++ trailing) as H0.
  { cbn [drop]. unfold p, encode_client_hello. rewrite <- !app_assoc. done. }
  assert (length p = 9 + length (encode_hello_body c) + length trailing)%nat as Hp.
  { change p with (drop 0 p). rewrite H0, !length_app, !length_be_bytes. cbn [length]. lia. }
  pose proof (drop_next _ _ _ _ H0) as H3. cbn [length Nat.add] in H3.
  destruct (tls_read_u16_at _ _ _ _ H3 ltac:(lia)) as [Hr3 H5].
  pose proof (drop_next _ _ _ _ H5) as H6. cbn [length Nat.add] in H5, H6.
  destruct (tls_read_u24_at _ _ _ _ H6 ltac:(unfold u16_max in Hlen; lia)) as [Hr6 H9]. cbn [Nat.add] in H9.
  destruct (read_hello_body c p _ Hwf H9) as (H43 & H44 & H46 & H47 & H49 & Hbl).
  unfold parse_tls_client_hello. rewrite (proj2 (Nat.ltb_ge _ _)) by lia.
  rewrite (lookup_drop_head p _ x16 0 H0). cbn [or_panic result_bind u8_val Byte.to_N Z.of_N Z.eqb Pos.eqb negb TLS_HANDSHAKE_RECORD].
  rewrite Hr3. cbn [result_bind]. rewrite Nat2Z.id, (proj2 (Nat.ltb_ge _ _)) by lia.
  rewrite (lookup_drop_head p _ x01 5 H5). cbn [or_panic result_bind u8_val Byte.to_N Z.of_N Z.eqb Pos.eqb negb TLS_CLIENT_HELLO].
  rewrite Hr6. cbn [result_bind]. rewrite Nat2Z.id, (proj2 (Nat.ltb_ge _ _)) by lia.
  change (9 + 2 + 32)%nat with 43%nat. rewrite H43. cbn [ok_or result_bind].
  rewrite u8_val_of, Z.mod_small, Nat2Z.id by lia.
  change (43 + (1 + length (ch_session c)))%nat with (44 + length (ch_session c))%nat.
  rewrite H44. cbn [result_bind]. rewrite Nat2Z.id.
  replace (44 + length (ch_session c) + (2 + length (ch_ciphers c)))%nat with
    (46 + length (ch_session c) + length (ch_ciphers c))%nat by lia.
  rewrite H46. cbn [ok_or result_bind]. rewrite u8_val_of, Z.mod_small, Nat2Z.id by lia.
  replace (46 + length (ch_session c) + length (ch_ciphers c) + (1 + length (ch_compression c)))%nat with
    (47 + length (ch_session c) + length (ch_ciphers c) + length (ch_compression c))%nat by lia.
  rewrite (proj2 (Nat.eqb_neq _ _)) by lia. rewrite H47. cbn [result_bind]. rewrite Nat2Z.id.
  replace (47 + length (ch_session c) + length (ch_ciphers c) + length (ch_compression c) + 2)%nat with
    (49 + length (ch_session c) + length (ch_ciphers c) + length (ch_compression c))%nat by lia.
  rewrite (proj2 (Nat.ltb_ge _ _)) by lia.
  apply (parse_extensions_encoded p trailing _ Hes _ _ (mkTlsInspection None false)); [done|].
  pose proof (length_encode_extensions (ch_extensions c)). lia.
Qed.

Lemma tls_client_hello_roundtrip_witness :
  let c := mkClientHello [x03; x03] (repeat x00 32) [] [x13; x01] [x00]
    [TlsExt.Other 10 [x00]; TlsExt.ServerName (mkHostname (lit "www.example.com"));
     TlsExt.EncryptedHello [x01; x02]] in
  parse_tls_client_hello (encode_client_hello c ++ [x17]) =
  Ok (mkTlsInspection (Some (mkHostname (lit "www.example.com"))) true).
Proof.
  intros c. rewrite (tls_client_hello_roundtrip c [x17]).
  - vm_compute. reflexivity.
  - split_and!; try reflexivity; try (vm_compute; lia); try (vm_compute; congruence).
    repeat (apply Forall_cons; split); try apply Forall_nil_2; cbn -[Z.of_nat hostname_wf u16_max].
    + split_and!; vm_compute; congruence.
    + apply (hostname_parse_Ok_wf (lit "www.example.com")). vm_compute. reflexivity.
    + vm_compute. congruence.
Defined.

(** ** Specification and lemmas: HTTP request heads *)

Definition is_host_header (line : str) : bool :=
  match split_once x3a line with
  | Some (name, _) => eq_ignore_ascii_case name (lit "host")
  | None => false
  end.

Definition authority (h : Hostname) (port : option Z) : str :=
  hostname_str h ++ match port with Some p => x3a :: dec p | None => [] end.

Definition host_line (name : str) (h : Hostname) (port : option Z) : str :=
  name ++ x3a :: x20 :: authority h port.

(** A request head: request line, headers, blank line. *)
Definition request_head (m : HttpMethod) (target version : str) (headers : list str) : str :=
  join crlf (join [x20] [method_str m; target; version] :: headers) ++ crlf ++ crlf.

Lemma find_host_header_first (before after : list str) (name : str) (value : str) :
  Forall (fun l => is_host_header l = false) before ->
  eq_ignore_ascii_case name (lit "host") = true -> x3a ∉ name ->
  find_host_header (before ++ (name ++ x3a :: value) :: after) = Some (trim value).
Proof.
  intros H Hn Hc. induction H as [|l before Hl _ IH]; cbn [app find_host_header].
  - rewrite (proj2 (split_once_Some x3a _ name value)) by done. by rewrite Hn.
  - unfold is_host_header in Hl. destruct (split_once x3a l) as [[n v]|]; [by rewrite Hl|done].
Qed.

Lemma graphic_app (a b : str) : graphic a -> graphic b -> graphic (a ++ b).
Proof. apply Forall_app_2. Qed.

Lemma authority_graphic (h : Hostname) (port : option Z) :
  hostname_wf h -> (forall p, port = Some p -> 0 <= p <= u16_max) -> graphic (authority h port).
Proof.
  intros Hwf Hp. apply graphic_app; [by apply hostname_wf_graphic|]. destruct port as [p|]; [|constructor].
  constructor; [done|]. eapply Forall_impl; [apply dec_digits|]. apply digit_graphic.
Qed.

Lemma digits_no_colon (s : str) : Forall (fun b => is_ascii_digit b = true) s -> x3a ∉ s.
Proof. intros H Hin. rewrite Forall_forall in H. by specialize (H _ Hin). Qed.

Lemma hostname_no_colon (h : Hostname) : hostname_wf h -> x3a ∉ hostname_str h.
Proof.
  intros Hwf Hin. pose proof (hostname_wf_bytes h Hwf) as H. rewrite Forall_forall in H.
  specialize (H _ Hin). by destruct H.
Qed.

Lemma parse_host_port_authority (h : Hostname) (port : option Z) (default_port : Z) :
  hostname_wf h -> (forall p, port = Some p -> 0 <= p <= u16_max) ->
  parse_host_port (authority h port) default_port = Ok (h, default default_port port).
Proof.
  intros Hwf Hp. pose proof (authority_graphic h port Hwf Hp) as Hg.
  assert (starts_with (lit "[") (authority h port) = false) as Hbr.
  { destruct (starts_with _ _) eqn:E; [|done]. apply starts_with_true in E as [r Hr].
    destruct (hostname_wf_last h Hwf) as (m & z & Hm & _).
    pose proof (hostname_wf_bytes h Hwf) as Hb. unfold authority in Hr.
    destruct (hostname_str h) as [|b s]; [by destruct m|].
    change (lit "[") with [x5b] in Hr. cbn [app] in Hr. apply (f_equal list.head) in Hr.
    cbn [list.head] in Hr. injection Hr as ->.
    apply Forall_cons in Hb as [Hb _]. by destruct Hb. }
  unfold parse_host_port. rewrite (trim_all_graphic _ Hg), Hbr. unfold authority.
  destruct port as [p|]; cbn [default].
  - pose proof (Hp p eq_refl) as Hr. pose proof (dec_digits p) as Hd.
    rewrite (proj2 (rsplit_once_Some x3a _ (hostname_str h) (dec p))) by (split; [done|by apply digits_no_colon]).
    rewrite bool_decide_eq_false_2 by apply dec_nonempty.
    replace (forallb is_ascii_digit (dec p)) with true
      by (symmetry; apply forallb_forall; intros b Hb; rewrite Forall_forall in Hd; by apply Hd, list_elem_of_In).
    cbn [negb andb]. rewrite parse_uint_dec by (unfold u16_max in *; lia). cbn [map_err result_bind].
    by rewrite hostname_parse_of_wf.
  - rewrite app_nil_r. destruct (rsplit_once x3a (hostname_str h)) as [[a b]|] eqn:E.
    + apply rsplit_once_Some in E as [E _]. exfalso. apply (hostname_no_colon h Hwf). rewrite E. set_solver.
    + cbn [result_bind]. by rewrite hostname_parse_of_wf.
Qed.

Definition request_words_wf (m : HttpMethod) (target version : str) : Prop :=
  method_wf m /\ target <> [] /\ graphic target /\ graphic version /\
  starts_with (lit "HTTP/") version = true.

Lemma method_graphic (m : HttpMethod) : method_wf m -> method_str m <> [] /\ graphic (method_str m).
Proof.
  intros [Hne H]. split; [done|]. eapply Forall_impl; [exact H|]. intros b [? _]. by apply token_graphic.
Qed.

Lemma graphic_no_cr (s : str) : graphic s -> x0d ∉ s.
Proof. intros H Hin. unfold graphic in H. rewrite Forall_forall in H. by specialize (H _ Hin). Qed.

Lemma request_words (m : HttpMethod) (target version : str) :
  request_words_wf m target version ->
  split_whitespace (join [x20] [method_str m; target; version]) = [method_str m; target; version] /\
  line_wf (join [x20] [method_str m; target; version]).
Proof.
  intros (Hm & Htne & Htg & Hvg & Hv). destruct (method_graphic m Hm) as [Hmne Hmg].
  assert (version <> []) by (intros ->; done). split.
  - apply split_whitespace_words; [|done|lia]. repeat (apply Forall_cons; split); try done.
  - split; [cbn; by destruct (method_str m)|].
    pose proof (graphic_no_cr _ Hmg). pose proof (graphic_no_cr _ Htg). pose proof (graphic_no_cr _ Hvg).
    cbn. set_solver.
Qed.

(** Transparent HTTP inspection recovers the request: for any token method, any
    printable target, any [HTTP/...] version, any headers and any [Host: name[:port]]
    header that is the first of its kind, parsing the head (with any body behind it)
    returns the method, that host with its port or the flow's default, the target's path
    and high-confidence [Host]-header attribution. *)
Theorem http_request_head_roundtrip (m : HttpMethod) (target version name : str)
  (before after : list str) (h : Hostname) (port : option Z) (default_port : Z) (body : str) :
  let head := request_head m target version (before ++ host_line name h port :: after) in
  request_words_wf m target version -> hostname_wf h ->
  (forall p, port = Some p -> 0 <= p <= u16_max) ->
  eq_ignore_ascii_case name (lit "host") = true -> x3a ∉ name -> x0d ∉ name ->
  Forall (fun l => is_host_header l = false) before ->
  Forall line_wf before -> Forall line_wf after -> utf8_valid (head ++ body) = true ->
  parse_http_request_head (head ++ body) default_port =
  Ok (mkHttpInspection m (mkOrigin (lit "http") h (default default_port port))
        (http_path_and_query target)
        (mkAttribution (Some h) AttributionSource.HttpHostHeader AttributionConfidence.High)).
Proof.
  intros head Hw Hwf Hp Hn Hc Hcr Hbefore Hbl Hal Hu.
  destruct (request_words m target version Hw) as [Hwords Hline].
  pose proof (authority_graphic h port Hwf Hp) as Hg.
  assert (line_wf (host_line name h port)) as Hhl.
  { split; [unfold host_line; by destruct name|]. pose proof (graphic_no_cr _ Hg). unfold host_line. set_solver. }
  set (lines := join [x20] [method_str m; target; version] :: before ++ host_line name h port :: after).
  assert (Forall line_wf lines) as Hlines.
  { constructor; [done|]. apply Forall_app_2; [done|]. by constructor. }
  unfold parse_http_request_head, from_utf8. rewrite Hu. cbn [ok_or result_bind].
  replace (find [x0d; x0a; x0d; x0a] (head ++ body)) with (Some (length (join crlf lines))).
  2:{ symmetry. unfold head, request_head. rewrite <- !app_assoc.
      change [x0d; x0a; x0d; x0a] with (crlf ++ crlf). by apply find_head_end. }
  cbn [ok_or result_bind]. unfold head, request_head. rewrite <- !app_assoc.
  assert (Forall (fun l => x0d ∉ l) lines) as Hcrs
    by (eapply Forall_impl; [exact Hlines|]; intros l [_ ?]; done).
  rewrite take_app_length, split_crlf_join by done.
  subst lines. cbn [list.head ok_or result_bind tail]. rewrite Hwords.
  change ([method_str m; target; version] !! 0%nat) with (Some (method_str m)).
  change ([method_str m; target; version] !! 1%nat) with (Some target).
  change ([method_str m; target; version] !! 2%nat) with (Some version).
  change ([method_str m; target; version] !! 3%nat) with (@None str). cbn [default ok_or result_bind].
  destruct Hw as (Hm & _ & _ & _ & Hv). unfold id. rewrite http_method_parse_of_wf by done. cbn [map_err ok_or result_bind].
  rewrite Hv. rewrite bool_decide_eq_false_2 by (intros [? ?]; done). cbn [negb orb].
  unfold host_line. rewrite find_host_header_first by done. cbn [ok_or result_bind].
  rewrite trim_leading_space by done. rewrite parse_host_port_authority by done. done.
Qed.

Lemma http_request_head_roundtrip_witness :
  let h := mkHostname (lit "example.com") in
  let head := request_head (mkHttpMethod (lit "GET")) (lit "/a?b=c") (lit "HTTP/1.1")
    ([lit "Accept: */*"] ++ host_line (lit "HOST") h (Some 8080) :: [lit "X: y"]) in
  parse_http_request_head (head ++ [x41]) 80 =
  Ok (mkHttpInspection (mkHttpMethod (lit "GET")) (mkOrigin (lit "http") h 8080) (lit "/a?b=c")
        (mkAttribution (Some h) AttributionSource.HttpHostHeader AttributionConfidence.High)).
Proof.
  intros h head.
  apply (http_request_head_roundtrip (mkHttpMethod (lit "GET")) (lit "/a?b=c") (lit "HTTP/1.1") (lit "HOST")
    [lit "Accept: */*"] [lit "X: y"] h (Some 8080) 80 [x41]).
  - split_and!; try reflexivity; try discriminate;
      try (apply (http_method_parse_wf (lit "GET")); vm_compute; reflexivity);
      repeat constructor.
  - apply (hostname_parse_Ok_wf (lit "example.com")). vm_compute. reflexivity.
  - intros p [= <-]. vm_compute. split; discriminate.
  - vm_compute. reflexivity.
  - vm_compute. set_solver.
  - vm_compute. set_solver.
  - repeat constructor.
  - repeat constructor; try discriminate; vm_compute; set_solver.
  - repeat constructor; try discriminate; vm_compute; set_solver.
  - vm_compute. reflexivity.
Defined.
