(* ===== verification/AuditLog.v ===== *)
(** * Audit events, buffer and JSON lines ([crates/foxprox-core/src/audit.rs])

    The audit schema, the derived [Debug] printers it uses, the dependency-free
    JSON encoder, the bounded [AuditBuffer] and its drain to a writer.  The
    clock is an argument of [audit_event_new]; a writer is any type with a
    [write_all]. *)

From S2P Require Import Prelude Text NetAddr Event Policy Flow.

(** ** Schema *)

Module AuditEventKind.
Inductive AuditEventKind : Type :=
  SessionStarted | BrokerStarted | TunConfigured | ProxyListenerConfigured | HttpRequest
| HttpsConnect | TransparentHttpRequest | TlsClientHello | SniDnsMismatchDenied
| HiddenSniDenied | SocksConnect | DnsQuery | TcpConnect | TcpFlowClosed | UdpFlowCreated
| UdpPacketDenied | UdpFlowExpired | QuicCandidateFlowCreated | IcmpMessage
| UnsupportedDenied | PolicyReload | BrokerError | SessionExited.
End AuditEventKind.
Abbreviation AuditEventKind := AuditEventKind.AuditEventKind.

Record AuditEvent : Type := mkAuditEvent {
  ae_timestamp : SystemTime;
  ae_sandbox_id : option SandboxId;
  ae_frontend : Frontend;
  ae_kind : AuditEventKind;
  ae_protocol : option Protocol;
  ae_source : option TransportEndpoint;
  ae_destination : option TransportEndpoint;
  ae_destination_port : option Z;
  ae_hostname : option Hostname;
  ae_attribution : option Attribution;
  ae_origin : option Origin;
  ae_http_method : option HttpMethod;
  ae_path_and_query : option str;
  ae_decision : option Decision;
  ae_dns_query_type : option str;
  ae_dns_rcode : option Z;
  ae_dns_answers : list IpAddr;
  ae_bytes_from_sandbox : Z;
  ae_bytes_to_sandbox : Z;
  ae_flow_duration : option Duration;
  ae_detail : option str
}.

#[export] Instance AuditEventKind_eq_dec : EqDecision AuditEventKind.
Proof. solve_decision. Defined.
#[export] Instance AuditEvent_eq_dec : EqDecision AuditEvent.
Proof. solve_decision. Defined.

Definition audit_event_new (now : SystemTime) (frontend : Frontend) (kind : AuditEventKind) : AuditEvent :=
  {| ae_timestamp := now; ae_sandbox_id := None; ae_frontend := frontend; ae_kind := kind;
     ae_protocol := None; ae_source := None; ae_destination := None; ae_destination_port := None;
     ae_hostname := None; ae_attribution := None; ae_origin := None; ae_http_method := None;
     ae_path_and_query := None; ae_decision := None; ae_dns_query_type := None;
     ae_dns_rcode := None; ae_dns_answers := []; ae_bytes_from_sandbox := 0;
     ae_bytes_to_sandbox := 0; ae_flow_duration := None; ae_detail := None |}.

(** Field assignments ([event.f = v]). *)
Definition set_ae_sandbox_id (v : option SandboxId) (e : AuditEvent) : AuditEvent :=
  let '(mkAuditEvent a _ c d f g h i j k l m n o p q r s t u w) := e in
  mkAuditEvent a v c d f g h i j k l m n o p q r s t u w.
Definition set_ae_protocol (v : option Protocol) (e : AuditEvent) : AuditEvent :=
  let '(mkAuditEvent a b c d _ g h i j k l m n o p q r s t u w) := e in
  mkAuditEvent a b c d v g h i j k l m n o p q r s t u w.
Definition set_ae_source (v : option TransportEndpoint) (e : AuditEvent) : AuditEvent :=
  let '(mkAuditEvent a b c d f _ h i j k l m n o p q r s t u w) := e in
  mkAuditEvent a b c d f v h i j k l m n o p q r s t u w.
Definition set_ae_destination (v : option TransportEndpoint) (e : AuditEvent) : AuditEvent :=
  let '(mkAuditEvent a b c d f g _ i j k l m n o p q r s t u w) := e in
  mkAuditEvent a b c d f g v i j k l m n o p q r s t u w.
Definition set_ae_destination_port (v : option Z) (e : AuditEvent) : AuditEvent :=
  let '(mkAuditEvent a b c d f g h _ j k l m n o p q r s t u w) := e in
  mkAuditEvent a b c d f g h v j k l m n o p q r s t u w.
Definition set_ae_hostname (v : option Hostname) (e : AuditEvent) : AuditEvent :=
  let '(mkAuditEvent a b c d f g h i _ k l m n o p q r s t u w) := e in
  mkAuditEvent a b c d f g h i v k l m n o p q r s t u w.
Definition set_ae_attribution (v : option Attribution) (e : AuditEvent) : AuditEvent :=
  let '(mkAuditEvent a b c d f g h i j _ l m n o p q r s t u w) := e in
  mkAuditEvent a b c d f g h i j v l m n o p q r s t u w.
Definition set_ae_http (o : option Origin) (me : option HttpMethod) (path : option str)
  (e : AuditEvent) : AuditEvent :=
  let '(mkAuditEvent a b c d f g h i j k _ _ _ x p q r s t u w) := e in
  mkAuditEvent a b c d f g h i j k o me path x p q r s t u w.
Definition set_ae_decision (v : option Decision) (e : AuditEvent) : AuditEvent :=
  let '(mkAuditEvent a b c d f g h i j k l m n _ p q r s t u w) := e in
  mkAuditEvent a b c d f g h i j k l m n v p q r s t u w.
Definition set_ae_dns (ty : option str) (rcode : option Z) (answers : list IpAddr)
  (e : AuditEvent) : AuditEvent :=
  let '(mkAuditEvent a b c d f g h i j k l m n o _ _ _ s t u w) := e in
  mkAuditEvent a b c d f g h i j k l m n o ty rcode answers s t u w.
Definition set_ae_bytes (from to : Z) (e : AuditEvent) : AuditEvent :=
  let '(mkAuditEvent a b c d f g h i j k l m n o p q r _ _ u w) := e in
  mkAuditEvent a b c d f g h i j k l m n o p q r from to u w.
Definition set_ae_flow_duration (v : option Duration) (e : AuditEvent) : AuditEvent :=
  let '(mkAuditEvent a b c d f g h i j k l m n o p q r s t _ w) := e in
  mkAuditEvent a b c d f g h i j k l m n o p q r s t v w.
Definition set_ae_detail (v : option str) (e : AuditEvent) : AuditEvent :=
  let '(mkAuditEvent a b c d f g h i j k l m n o p q r s t u _) := e in
  mkAuditEvent a b c d f g h i j k l m n o p q r s t u v.

Definition with_sandbox_id (self : AuditEvent) (sandbox_id : SandboxId) : AuditEvent :=
  set_ae_sandbox_id (Some sandbox_id) self.
Definition with_decision (self : AuditEvent) (decision : Decision) : AuditEvent :=
  set_ae_decision (Some decision) self.
Definition with_dns_metadata (self : AuditEvent) (query_type : str) (rcode : option Z)
  (answers : list IpAddr) : AuditEvent :=
  set_ae_dns (Some query_type) rcode answers self.
Definition with_http_metadata (self : AuditEvent) (origin : Origin) (method : HttpMethod)
  (path_and_query : str) : AuditEvent :=
  set_ae_http (Some origin) (Some method) (Some path_and_query) self.
Definition with_endpoints (self : AuditEvent) (source destination : option TransportEndpoint) : AuditEvent :=
  set_ae_destination_port (ep_port <$> destination)
    (set_ae_destination destination (set_ae_source source self)).

(** ** Derived [Debug] *)

Definition debug_frontend (f : Frontend) : str :=
  match f with
  | Frontend.Tun => lit "Tun" | Frontend.HttpProxy => lit "HttpProxy"
  | Frontend.Socks5 => lit "Socks5" | Frontend.Dns => lit "Dns" | Frontend.Setup => lit "Setup"
  end.

Definition debug_protocol (p : Protocol) : str :=
  match p with
  | Protocol.Tcp => lit "Tcp" | Protocol.Udp => lit "Udp" | Protocol.Dns => lit "Dns"
  | Protocol.Icmp => lit "Icmp" | Protocol.Http => lit "Http"
  | Protocol.HttpsConnect => lit "HttpsConnect" | Protocol.Tls => lit "Tls"
  | Protocol.Socks => lit "Socks" | Protocol.Quic => lit "Quic"
  | Protocol.Unsupported => lit "Unsupported"
  end.

Definition debug_kind (k : AuditEventKind) : str :=
  match k with
  | AuditEventKind.SessionStarted => lit "SessionStarted"
  | AuditEventKind.BrokerStarted => lit "BrokerStarted"
  | AuditEventKind.TunConfigured => lit "TunConfigured"
  | AuditEventKind.ProxyListenerConfigured => lit "ProxyListenerConfigured"
  | AuditEventKind.HttpRequest => lit "HttpRequest"
  | AuditEventKind.HttpsConnect => lit "HttpsConnect"
  | AuditEventKind.TransparentHttpRequest => lit "TransparentHttpRequest"
  | AuditEventKind.TlsClientHello => lit "TlsClientHello"
  | AuditEventKind.SniDnsMismatchDenied => lit "SniDnsMismatchDenied"
  | AuditEventKind.HiddenSniDenied => lit "HiddenSniDenied"
  | AuditEventKind.SocksConnect => lit "SocksConnect"
  | AuditEventKind.DnsQuery => lit "DnsQuery"
  | AuditEventKind.TcpConnect => lit "TcpConnect"
  | AuditEventKind.TcpFlowClosed => lit "TcpFlowClosed"
  | AuditEventKind.UdpFlowCreated => lit "UdpFlowCreated"
  | AuditEventKind.UdpPacketDenied => lit "UdpPacketDenied"
  | AuditEventKind.UdpFlowExpired => lit "UdpFlowExpired"
  | AuditEventKind.QuicCandidateFlowCreated => lit "QuicCandidateFlowCreated"
  | AuditEventKind.IcmpMessage => lit "IcmpMessage"
  | AuditEventKind.UnsupportedDenied => lit "UnsupportedDenied"
  | AuditEventKind.PolicyReload => lit "PolicyReload"
  | AuditEventKind.BrokerError => lit "BrokerError"
  | AuditEventKind.SessionExited => lit "SessionExited"
  end.

Definition debug_hostname (h : Hostname) : str := lit "Hostname(" ++ debug_str (hostname_str h) ++ lit ")".

Definition debug_attribution_source (s : AttributionSource) : str :=
  match s with
  | AttributionSource.ExplicitProxy => lit "ExplicitProxy"
  | AttributionSource.HttpHostHeader => lit "HttpHostHeader"
  | AttributionSource.TlsSni => lit "TlsSni" | AttributionSource.DnsCache => lit "DnsCache"
  | AttributionSource.IpOnly => lit "IpOnly" | AttributionSource.QuicMetadata => lit "QuicMetadata"
  end.

Definition debug_confidence (c : AttributionConfidence) : str :=
  match c with
  | AttributionConfidence.Low => lit "Low" | AttributionConfidence.Medium => lit "Medium"
  | AttributionConfidence.High => lit "High"
  end.

Definition debug_attribution (a : Attribution) : str :=
  lit "Attribution { hostname: " ++ debug_option debug_hostname (at_hostname a)
  ++ lit ", source: " ++ debug_attribution_source (at_source a)
  ++ lit ", confidence: " ++ debug_confidence (at_confidence a) ++ lit " }".

Definition debug_origin (o : Origin) : str :=
  lit "Origin { scheme: " ++ debug_str (or_scheme o) ++ lit ", host: " ++ debug_hostname (or_host o)
  ++ lit ", port: " ++ dec (or_port o) ++ lit " }".

Definition debug_action (a : DecisionAction) : str :=
  match a with
  | DecisionAction.Allow => lit "Allow" | DecisionAction.DenyDrop => lit "DenyDrop"
  | DecisionAction.DenyReset => lit "DenyReset"
  | DecisionAction.DenyIcmpUnreachable => lit "DenyIcmpUnreachable"
  | DecisionAction.FailClosed => lit "FailClosed"
  | DecisionAction.RequireBrokerDns => lit "RequireBrokerDns"
  end.

Definition debug_denial_reason (r : DenialReason) : str :=
  match r with
  | DenialReason.DefaultDeny => lit "DefaultDeny"
  | DenialReason.RuleDenied s => lit "RuleDenied(" ++ debug_str s ++ lit ")"
  | DenialReason.Unsupported s => lit "Unsupported(" ++ debug_str s ++ lit ")"
  | DenialReason.DirectDnsBypass => lit "DirectDnsBypass"
  | DenialReason.MissingRequiredAttribution => lit "MissingRequiredAttribution"
  | DenialReason.MulticastOrBroadcast => lit "MulticastOrBroadcast"
  | DenialReason.SniDnsMismatch => lit "SniDnsMismatch"
  | DenialReason.HiddenSni => lit "HiddenSni"
  | DenialReason.ResourceLimit s => lit "ResourceLimit(" ++ debug_str s ++ lit ")"
  end.

Definition debug_decision (d : Decision) : str :=
  lit "Decision { action: " ++ debug_action (d_action d)
  ++ lit ", rule_id: " ++ debug_option debug_str (d_rule_id d)
  ++ lit ", reason: " ++ debug_option debug_denial_reason (d_reason d) ++ lit " }".

(** ** JSON *)

(** [\u{:04x}]. *)
Definition unicode_escape (code : Z) : str :=
  [x5c; x75] ++ repeat x30 (4 - length (hex code)) ++ hex code.

(** The characters of [json_string]; the control characters U+0080 to U+009F
    are the byte pairs [c2 80] to [c2 9f]. *)
Fixpoint json_chars (value : str) : str :=
  match value with
  | [] => []
  | b :: rest =>
      let v := u8_val b in
      if v =? 34 then [x5c; x22] ++ json_chars rest
      else if v =? 92 then [x5c; x5c] ++ json_chars rest
      else if v =? 10 then [x5c; x6e] ++ json_chars rest
      else if v =? 13 then [x5c; x72] ++ json_chars rest
      else if v =? 9 then [x5c; x74] ++ json_chars rest
      else if (v <? 32) || (v =? 127) then unicode_escape v ++ json_chars rest
      else if v =? 194 then
        match rest with
        | c :: rest' =>
            if in_range 128 159 c then unicode_escape (u8_val c) ++ json_chars rest'
            else b :: json_chars rest
        | [] => [b]
        end
      else b :: json_chars rest
  end.

Definition json_string (value : str) : str := [x22] ++ json_chars value ++ [x22].
Definition json_field (name value : str) : str := [x22] ++ name ++ [x22; x3a] ++ value.
Definition json_string_field (name value : str) : str := json_field name (json_string value).

Definition display_endpoint (e : TransportEndpoint) : str :=
  ip_display (ep_ip e) ++ lit ":" ++ dec (ep_port e).

Definition opt_field {A} (f : A -> str) (o : option A) : list str :=
  match o with
  | Some a => [f a]
  | None => []
  end.

Definition audit_event_json_line (event : AuditEvent) : str :=
  let timestamp := Z.max 0 (ae_timestamp event) in
  let fields :=
    [json_field (lit "timestamp_secs") (dec (timestamp / 1000000000));
     json_field (lit "timestamp_nanos") (dec (timestamp mod 1000000000));
     json_string_field (lit "frontend") (debug_frontend (ae_frontend event));
     json_string_field (lit "kind") (debug_kind (ae_kind event))]
    ++ opt_field (fun s => json_string_field (lit "sandbox_id") (sandbox_str s)) (ae_sandbox_id event)
    ++ opt_field (fun p => json_string_field (lit "protocol") (debug_protocol p)) (ae_protocol event)
    ++ opt_field (fun s => json_string_field (lit "source") (display_endpoint s)) (ae_source event)
    ++ opt_field (fun d => json_string_field (lit "destination") (display_endpoint d))
         (ae_destination event)
    ++ opt_field (fun p => json_field (lit "destination_port") (dec p)) (ae_destination_port event)
    ++ opt_field (fun h => json_string_field (lit "hostname") (hostname_str h)) (ae_hostname event)
    ++ opt_field (fun a => json_string_field (lit "attribution") (debug_attribution a))
         (ae_attribution event)
    ++ opt_field (fun o => json_string_field (lit "origin") (debug_origin o)) (ae_origin event)
    ++ opt_field (fun m => json_string_field (lit "http_method") (method_str m)) (ae_http_method event)
    ++ opt_field (fun p => json_string_field (lit "path_and_query") p) (ae_path_and_query event)
    ++ opt_field (fun d => json_string_field (lit "decision") (debug_decision d)) (ae_decision event)
    ++ opt_field (fun q => json_string_field (lit "dns_query_type") q) (ae_dns_query_type event)
    ++ opt_field (fun r => json_field (lit "dns_rcode") (dec r)) (ae_dns_rcode event)
    ++ (if bool_decide (ae_dns_answers event = []) then []
        else [json_field (lit "dns_answers")
                (lit "[" ++ join (lit ",") (map (fun a => json_string (ip_display a)) (ae_dns_answers event))
                 ++ lit "]")])
    ++ (if ae_bytes_from_sandbox event =? 0 then []
        else [json_field (lit "bytes_from_sandbox") (dec (ae_bytes_from_sandbox event))])
    ++ (if ae_bytes_to_sandbox event =? 0 then []
        else [json_field (lit "bytes_to_sandbox") (dec (ae_bytes_to_sandbox event))])
    ++ opt_field (fun d => json_field (lit "flow_duration_ms") (dec (d / 1000000)))
         (ae_flow_duration event)
    ++ opt_field (fun d => json_string_field (lit "detail") d) (ae_detail event) in
  lit "{" ++ join (lit ",") fields ++ lit "}".

(** ** The buffer *)

Module AuditBackpressure.
Inductive AuditBackpressure : Type :=
| DisabledCapacity
| Full (capacity : Z).
End AuditBackpressure.
Abbreviation AuditBackpressure := AuditBackpressure.AuditBackpressure.

Module AuditSinkConfig.
Inductive AuditSinkConfig : Type :=
| StdoutJson
| StderrJson
| FileJsonLines (path : str)
| Disabled.
End AuditSinkConfig.
Abbreviation AuditSinkConfig := AuditSinkConfig.AuditSinkConfig.

Definition audit_sink_config_default : AuditSinkConfig := AuditSinkConfig.StdoutJson.

Record AuditBuffer : Type := mkAuditBuffer {
  ab_capacity : Z;
  ab_queue : list AuditEvent;
  ab_dropped_events : Z
}.

Definition audit_buffer_new (capacity : Z) : AuditBuffer := mkAuditBuffer capacity [] 0.

(** [dropped_events += 1] on a [u64]. *)
Definition count_drop (self : AuditBuffer) : AuditBuffer :=
  mkAuditBuffer (ab_capacity self) (ab_queue self) ((ab_dropped_events self + 1) mod 2 ^ 64).

Definition try_push (self : AuditBuffer) (event : AuditEvent)
  : AuditBuffer * Result unit AuditBackpressure :=
  if ab_capacity self =? 0 then (count_drop self, Err AuditBackpressure.DisabledCapacity)
  else if ab_capacity self <=? Z.of_nat (length (ab_queue self)) then
    (count_drop self, Err (AuditBackpressure.Full (ab_capacity self)))
  else (mkAuditBuffer (ab_capacity self) (ab_queue self ++ [event]) (ab_dropped_events self), Ok tt).

Definition pop_front (self : AuditBuffer) : AuditBuffer * option AuditEvent :=
  match ab_queue self with
  | [] => (self, None)
  | event :: queue => (mkAuditBuffer (ab_capacity self) queue (ab_dropped_events self), Some event)
  end.

Definition audit_len (self : AuditBuffer) : nat := length (ab_queue self).
Definition audit_is_empty (self : AuditBuffer) : bool := bool_decide (ab_queue self = []).

(** [std::io::Write]: only [write_all] is used. *)
Class Write (W IoError : Type) : Type := {
  write_all : W -> list byte -> W * Result unit IoError
}.

Section drain.
Context {W IoError : Type} `{!Write W IoError}.

(** [writeln!(writer, "{}", line)] writes the line and then the newline. *)
Definition writeln (writer : W) (line : str) : W * Result unit IoError :=
  match write_all writer line with
  | (writer, Ok _) => write_all writer [x0a]
  | (writer, r) => (writer, r)
  end.

Fixpoint drain_queue (queue : list AuditEvent) (writer : W) (drained : Z)
  : list AuditEvent * W * Result Z IoError :=
  match queue with
  | [] => ([], writer, Ok drained)
  | event :: rest =>
      match writeln writer (audit_event_json_line event) with
      | (writer, Ok _) => drain_queue rest writer (drained + 1)
      | (writer, Err e) => (queue, writer, Err e)
      | (writer, Panic) => (queue, writer, Panic)
      | (writer, OutOfFuel) => (queue, writer, OutOfFuel)
      end
  end.

Definition drain_audit_buffer_to_json_lines (buffer : AuditBuffer) (writer : W)
  : AuditBuffer * W * Result Z IoError :=
  let '(queue, writer, r) := drain_queue (ab_queue buffer) writer 0 in
  (mkAuditBuffer (ab_capacity buffer) queue (ab_dropped_events buffer), writer, r).

End drain.

(** ** Specification: reading a JSON string *)

Definition hex_digit (b : byte) : option Z := to_digit 16 b.

(** The UTF-8 bytes of a code point below U+0800. *)
Definition utf8_small (code : Z) : list byte :=
  if code <? 128 then [u8_of code] else [u8_of (192 + code / 64); u8_of (128 + code mod 64)].

Definition push_bytes (bs : list byte) (o : option (str * str)) : option (str * str) :=
  (fun '(v, rest) => (bs ++ v, rest)) <$> o.

(** Reads characters up to the closing quote: the value and what follows. *)
Fixpoint json_read (s : str) : option (str * str) :=
  match s with
  | [] => None
  | x22 :: rest => Some ([], rest)
  | x5c :: x75 :: h3 :: h2 :: h1 :: h0 :: rest =>
      match hex_digit h3, hex_digit h2, hex_digit h1, hex_digit h0 with
      | Some d3, Some d2, Some d1, Some d0 =>
          push_bytes (utf8_small (((d3 * 16 + d2) * 16 + d1) * 16 + d0)) (json_read rest)
      | _, _, _, _ => None
      end
  | x5c :: x6e :: rest => push_bytes [x0a] (json_read rest)
  | x5c :: x72 :: rest => push_bytes [x0d] (json_read rest)
  | x5c :: x74 :: rest => push_bytes [x09] (json_read rest)
  | x5c :: c :: rest => push_bytes [c] (json_read rest)
  | b :: rest => push_bytes [b] (json_read rest)
  end.

Definition json_parse_string (s : str) : option (str * str) :=
  match s with
  | x22 :: s => json_read s
  | _ => None
  end.

(** ** Specification: reading an audit line

    A line is a JSON object of strings, unsigned numbers (kept as their digits) and
    arrays of strings. *)

Module JsonValue.
Inductive JsonValue : Type :=
| String (v : str)
| Number (digits : str)
| Strings (vs : list str).
End JsonValue.
Abbreviation JsonValue := JsonValue.JsonValue.

Abbreviation JsonFields := (list (str * JsonValue)).

(** The digits in front. *)
Fixpoint read_digit_run (s : str) : str * str :=
  match s with
  | b :: rest =>
      if is_ascii_digit b then let (ds, rest) := read_digit_run rest in (b :: ds, rest) else ([], s)
  | [] => ([], [])
  end.

(** Strings up to the closing bracket. *)
Fixpoint read_strings (fuel : nat) (s : str) : option (list str * str) :=
  match fuel with
  | O => None
  | S fuel =>
      match json_parse_string s with
      | Some (v, x2c :: rest) => (fun '(vs, rest) => (v :: vs, rest)) <$> read_strings fuel rest
      | Some (v, x5d :: rest) => Some ([v], rest)
      | _ => None
      end
  end.

Definition read_value (s : str) : option (JsonValue * str) :=
  match s with
  | x22 :: _ => (fun '(v, rest) => (JsonValue.String v, rest)) <$> json_parse_string s
  | x5b :: rest => (fun '(vs, rest) => (JsonValue.Strings vs, rest)) <$> read_strings (length rest) rest
  | _ =>
      match read_digit_run s with
      | ([], _) => None
      | (ds, rest) => Some (JsonValue.Number ds, rest)
      end
  end.

Definition read_field (s : str) : option (str * JsonValue * str) :=
  match json_parse_string s with
  | Some (name, x3a :: rest) => (fun '(v, rest) => (name, v, rest)) <$> read_value rest
  | _ => None
  end.

(** Fields up to the closing brace. *)
Fixpoint read_fields (fuel : nat) (s : str) : option (JsonFields * str) :=
  match fuel with
  | O => None
  | S fuel =>
      match read_field s with
      | Some (field, x2c :: rest) => (fun '(fs, rest) => (field :: fs, rest)) <$> read_fields fuel rest
      | Some (field, x7d :: rest) => Some ([field], rest)
      | _ => None
      end
  end.

(** One object, and nothing else. *)
Definition read_line (s : str) : option JsonFields :=
  match s with
  | x7b :: rest =>
      match read_fields (length rest) rest with
      | Some (fields, []) => Some fields
      | _ => None
      end
  | _ => None
  end.

Definition string_value (name : string) {A} (f : A -> str) (o : option A) : JsonFields :=
  option_list ((fun a => (lit name, JsonValue.String (f a))) <$> o).

Definition number_value (name : string) (o : option Z) : JsonFields :=
  option_list ((fun n => (lit name, JsonValue.Number (dec n))) <$> o).

(** The fields of an event's line, with their values. *)
Definition audit_fields (event : AuditEvent) : JsonFields :=
  let timestamp := Z.max 0 (ae_timestamp event) in
  number_value "timestamp_secs" (Some (timestamp / 1000000000))
  ++ number_value "timestamp_nanos" (Some (timestamp mod 1000000000))
  ++ string_value "frontend" debug_frontend (Some (ae_frontend event))
  ++ string_value "kind" debug_kind (Some (ae_kind event))
  ++ string_value "sandbox_id" sandbox_str (ae_sandbox_id event)
  ++ string_value "protocol" debug_protocol (ae_protocol event)
  ++ string_value "source" display_endpoint (ae_source event)
  ++ string_value "destination" display_endpoint (ae_destination event)
  ++ number_value "destination_port" (ae_destination_port event)
  ++ string_value "hostname" hostname_str (ae_hostname event)
  ++ string_value "attribution" debug_attribution (ae_attribution event)
  ++ string_value "origin" debug_origin (ae_origin event)
  ++ string_value "http_method" method_str (ae_http_method event)
  ++ string_value "path_and_query" id (ae_path_and_query event)
  ++ string_value "decision" debug_decision (ae_decision event)
  ++ string_value "dns_query_type" id (ae_dns_query_type event)
  ++ number_value "dns_rcode" (ae_dns_rcode event)
  ++ (if bool_decide (ae_dns_answers event = []) then []
      else [(lit "dns_answers", JsonValue.Strings (map ip_display (ae_dns_answers event)))])
  ++ number_value "bytes_from_sandbox"
       (if ae_bytes_from_sandbox event =? 0 then None else Some (ae_bytes_from_sandbox event))
  ++ number_value "bytes_to_sandbox"
       (if ae_bytes_to_sandbox event =? 0 then None else Some (ae_bytes_to_sandbox event))
  ++ number_value "flow_duration_ms" ((fun d => d / 1000000) <$> ae_flow_duration event)
  ++ string_value "detail" id (ae_detail event).

(** No C1 control character: U+0080 to U+009F are encoded [c2 80] to [c2 9f]. *)
Fixpoint c1_free (s : str) : bool :=
  match s with
  | b :: rest =>
      match rest with
      | c :: _ => negb ((u8_val b =? 194) && in_range 128 159 c)
      | [] => true
      end && c1_free rest
  | [] => true
  end.

(** ** Lemmas: JSON *)

(** A byte that can stand in a one-line log: no control character. *)
Definition is_clean (b : byte) : bool := (32 <=? u8_val b) && negb (u8_val b =? 127).

Definition clean (s : str) : Prop := Forall (fun b => is_clean b = true) s.

Lemma clean_app (a b : str) : clean a -> clean b -> clean (a ++ b).
Proof. apply Forall_app_2. Qed.

Lemma clean_cons (b : byte) (s : str) : is_clean b = true -> clean s -> clean (b :: s).
Proof. by constructor. Qed.

Lemma clean_dec (n : Z) : clean (dec n).
Proof.
  eapply Forall_impl; [apply dec_digits|]. intros b. destruct b; vm_compute; done.
Qed.

Lemma clean_join (sep : byte) (ls : list str) : is_clean sep = true -> Forall clean ls -> clean (join [sep] ls).
Proof. intros H1 H2; by apply (Forall_join (fun b => is_clean b = true)). Qed.

Lemma unicode_escape_clean (b : byte) : clean (unicode_escape (u8_val b)).
Proof. destruct b; vm_compute; repeat constructor. Qed.

Lemma control_escape (b : byte) (s : str) :
  (u8_val b <? 32) || (u8_val b =? 127) = true ->
  json_read (unicode_escape (u8_val b) ++ s) = push_bytes [b] (json_read s).
Proof. destruct b; intros H; try (vm_compute in H; discriminate H); reflexivity. Qed.

Lemma control_escape_c1 (c : byte) (s : str) :
  in_range 128 159 c = true ->
  json_read (unicode_escape (u8_val c) ++ s) = push_bytes [xc2; c] (json_read s).
Proof. destruct c; intros H; try (vm_compute in H; discriminate H); reflexivity. Qed.

Lemma plain_read (b : byte) (s : str) :
  (u8_val b =? 34) = false -> (u8_val b =? 92) = false ->
  json_read (b :: s) = push_bytes [b] (json_read s).
Proof. destruct b; intros H1 H2; try (vm_compute in H1; discriminate H1); try (vm_compute in H2; discriminate H2); reflexivity. Qed.

(** Induction on a byte string two bytes at a time. *)
Lemma str_ind2 (P : str -> Prop) :
  P [] -> (forall b, P [b]) -> (forall b c s, P s -> P (c :: s) -> P (b :: c :: s)) -> forall s, P s.
Proof.
  intros H0 H1 H2. enough (forall s, P s /\ forall b, P (b :: s)) as H by (intros s; apply H).
  induction s as [|c s [IH1 IH2]]; split; auto.
Qed.

(** One step of [json_chars]: an encoding of the first one or two bytes. *)
Lemma json_chars_cons (b : byte) (s : str) :
  json_chars (b :: s) =
  (let v := u8_val b in
   if v =? 34 then [x5c; x22] ++ json_chars s
   else if v =? 92 then [x5c; x5c] ++ json_chars s
   else if v =? 10 then [x5c; x6e] ++ json_chars s
   else if v =? 13 then [x5c; x72] ++ json_chars s
   else if v =? 9 then [x5c; x74] ++ json_chars s
   else if (v <? 32) || (v =? 127) then unicode_escape v ++ json_chars s
   else if v =? 194 then
     match s with
     | c :: s' => if in_range 128 159 c then unicode_escape (u8_val c) ++ json_chars s' else b :: json_chars s
     | [] => [b]
     end
   else b :: json_chars s).
Proof. reflexivity. Qed.

Lemma val_byte (b c : byte) : (u8_val b =? u8_val c) = true -> b = c.
Proof. intros H. to_prop. by apply u8_val_inj. Qed.

Lemma json_chars_read (v rest : str) : json_read (json_chars v ++ x22 :: rest) = Some (v, rest).
Proof.
  assert (forall b s, json_read (json_chars s ++ x22 :: rest) = Some (s, rest) ->
    (u8_val b =? 194) = false ->
    json_read (json_chars (b :: s) ++ x22 :: rest) = Some (b :: s, rest)) as Hplain.
  { intros b s IH H194. rewrite json_chars_cons. cbv zeta.
    repeat match goal with
    | |- context [if u8_val b =? 34 then _ else _] => destruct (u8_val b =? 34) eqn:?
    | |- context [if u8_val b =? 92 then _ else _] => destruct (u8_val b =? 92) eqn:?
    | |- context [if u8_val b =? 10 then _ else _] => destruct (u8_val b =? 10) eqn:?
    | |- context [if u8_val b =? 13 then _ else _] => destruct (u8_val b =? 13) eqn:?
    | |- context [if u8_val b =? 9 then _ else _] => destruct (u8_val b =? 9) eqn:?
    | |- context [if _ || _ then _ else _] => destruct (_ || _) eqn:?
    end; rewrite ?H194.
    - rewrite (val_byte b x22) by done. cbn [app json_read] in *. by rewrite IH.
    - rewrite (val_byte b x5c) by done. cbn [app json_read] in *. by rewrite IH.
    - rewrite (val_byte b x0a) by done. cbn [app json_read] in *. by rewrite IH.
    - rewrite (val_byte b x0d) by done. cbn [app json_read] in *. by rewrite IH.
    - rewrite (val_byte b x09) by done. cbn [app json_read] in *. by rewrite IH.
    - rewrite <- app_assoc, control_escape by done. by rewrite IH.
    - cbn [app]. rewrite plain_read by done. by rewrite IH. }
  induction v as [|b|b c s IHs IHc] using str_ind2; [done| |].
  - destruct (u8_val b =? 194) eqn:E; [|by apply Hplain]. by rewrite (val_byte b xc2) by done.
  - destruct (u8_val b =? 194) eqn:E; [|by apply Hplain].
    rewrite (val_byte b xc2) by done. rewrite json_chars_cons.
    cbn [u8_val Byte.to_N Z.of_N Z.eqb Pos.eqb Z.ltb Z.compare Pos.compare Pos.compare_cont orb].
    destruct (in_range 128 159 c) eqn:Ec.
    + rewrite <- app_assoc, control_escape_c1 by done. by rewrite IHs.
    + cbn [app]. rewrite plain_read by done. by rewrite IHc.
Qed.

Lemma json_chars_clean (v : str) : clean (json_chars v).
Proof.
  assert (forall b s, clean (json_chars s) -> (forall c r, s = c :: r -> clean (json_chars r)) ->
    clean (json_chars (b :: s))) as Hstep.
  { intros b s H H2. rewrite json_chars_cons. cbv zeta.
    repeat (case_match; [by repeat (apply clean_cons; [done|])|]).
    case_match eqn:Hc; [apply clean_app; [apply unicode_escape_clean|done]|].
    assert (is_clean b = true) as Hb.
    { apply orb_false_elim in Hc as [Hc1 Hc2]. unfold is_clean. rewrite Hc2. to_prop.
      rewrite (proj2 (Z.leb_le _ _)) by lia. done. }
    case_match; [|by apply clean_cons]. destruct s as [|c r]; [by apply clean_cons; [|constructor]|].
    case_match; [|by apply clean_cons]. apply clean_app; [apply unicode_escape_clean|]. by eapply H2. }
  induction v as [|b|b c s IHs IHc] using str_ind2; [constructor| |].
  - apply Hstep; [constructor|done].
  - apply Hstep; [done|]. by intros ? ? [= <- <-].
Qed.

Lemma clean_json_string (v : str) : clean (json_string v).
Proof.
  unfold json_string. apply clean_cons; [done|]. apply clean_app; [apply json_chars_clean|].
  apply clean_cons; [done|constructor].
Qed.

(** ** Lemmas: audit lines *)

Definition write_value (v : JsonValue) : str :=
  match v with
  | JsonValue.String v => json_string v
  | JsonValue.Number ds => ds
  | JsonValue.Strings vs => lit "[" ++ join (lit ",") (map json_string vs) ++ lit "]"
  end.

Definition write_field (field : str * JsonValue) : str := json_field (fst field) (write_value (snd field)).

Definition write_line (fields : JsonFields) : str := lit "{" ++ join (lit ",") (map write_field fields) ++ lit "}".

(** Names need no escapes, numbers have digits, arrays elements. *)
Definition plain_byte (b : byte) : bool := is_ascii_graphic b && negb (u8_val b =? 34) && negb (u8_val b =? 92).

Definition value_wf (v : JsonValue) : Prop :=
  match v with
  | JsonValue.String _ => True
  | JsonValue.Number ds => ds <> [] /\ Forall (fun b => is_ascii_digit b = true) ds
  | JsonValue.Strings vs => vs <> []
  end.

Definition field_wf (field : str * JsonValue) : Prop := forallb plain_byte (fst field) = true /\ value_wf (snd field).

Lemma audit_event_json_line_eq (event : AuditEvent) : audit_event_json_line event = write_line (audit_fields event).
Proof.
  unfold audit_event_json_line, write_line, audit_fields. cbv zeta. rewrite !map_app.
  apply (f_equal2 app); [reflexivity|]. apply (f_equal2 app); [|reflexivity]. apply (f_equal (join (lit ","))).
  cbn [app]. do 4 (refine (f_equal2 cons eq_refl _)).
  repeat (apply (f_equal2 app); [match goal with
    | |- opt_field _ ?o = _ => by destruct o
    | |- (if ?b then _ else _) = _ => destruct b; [reflexivity|]; unfold write_field; cbn; by rewrite ?map_map
    end|]).
  by destruct (ae_detail event).
Qed.

(** *** Reading back *)

Lemma json_read_plain (name rest : str) :
  forallb plain_byte name = true -> json_read (name ++ x22 :: rest) = Some (name, rest).
Proof.
  induction name as [|b name IH]; [done|]. cbn [forallb app]. intros [Hb H]%andb_true_iff.
  apply andb_true_iff in Hb as [Hb H92%negb_true_iff]. apply andb_true_iff in Hb as [_ H34%negb_true_iff].
  rewrite plain_read by done. by rewrite IH.
Qed.

Lemma json_string_read (v rest : str) : json_parse_string (json_string v ++ rest) = Some (v, rest).
Proof. unfold json_string. cbn [app json_parse_string]. rewrite <- app_assoc. apply json_chars_read. Qed.

(** What may follow a value: not a digit. *)
Definition no_digit_next (rest : str) : Prop := match rest with b :: _ => is_ascii_digit b = false | [] => True end.

Lemma read_digit_run_app (ds rest : str) :
  Forall (fun b => is_ascii_digit b = true) ds -> no_digit_next rest -> read_digit_run (ds ++ rest) = (ds, rest).
Proof.
  intros Hd Hr. induction Hd as [|b ds Hb _ IH]; cbn [app read_digit_run].
  - destruct rest as [|b rest]; [done|]. cbn. cbn in Hr. by rewrite Hr.
  - by rewrite Hb, IH.
Qed.

Lemma length_json_string (v : str) : (1 <= length (json_string v))%nat.
Proof. unfold json_string. cbn. lia. Qed.

Lemma read_strings_join (vs : list str) (rest : str) : forall fuel,
  vs <> [] -> (length vs <= fuel)%nat ->
  read_strings fuel (join (lit ",") (map json_string vs) ++ x5d :: rest) = Some (vs, rest).
Proof.
  induction vs as [|v vs IH]; intros fuel Hne Hf; [done|]. destruct fuel as [|fuel]; [cbn in Hf; lia|].
  destruct vs as [|w vs]; cbn [map join read_strings]; [by rewrite json_string_read|].
  change (map json_string (w :: vs)) with (json_string w :: map json_string vs) in IH.
  rewrite <- !app_assoc, json_string_read. cbn [lit app]. 
  change (lit ",") with [x2c] in *. cbn [app]. rewrite IH; [done|done|cbn in *; lia].
Qed.

Lemma length_join_ge (sep : str) (ls : list str) :
  Forall (fun l => (1 <= length l)%nat) ls -> (length ls <= length (join sep ls))%nat.
Proof.
  induction 1 as [|l ls Hl _ IH]; [done|]. destruct ls as [|m ls]; [cbn in *; lia|].
  change (join sep (l :: m :: ls)) with (l ++ sep ++ join sep (m :: ls)). rewrite !length_app. cbn [length] in *. lia.
Qed.

Lemma read_value_write (v : JsonValue) (rest : str) :
  value_wf v -> no_digit_next rest -> read_value (write_value v ++ rest) = Some (v, rest).
Proof.
  destruct v as [v|ds|vs]; cbn [value_wf write_value]; intros Hv Hr.
  - pose proof (json_string_read v rest) as H. unfold read_value, json_string in *. cbn [app] in *. by rewrite H.
  - destruct Hv as [Hne Hd]. destruct ds as [|b ds]; [done|].
    pose proof (read_digit_run_app _ _ Hd Hr) as H. apply Forall_cons in Hd as [Hb _].
    unfold read_value. cbn [app] in *. rewrite H.
    destruct b; try (vm_compute in Hb; discriminate Hb); done.
  - change (lit "[") with [x5b]. change (lit "]") with [x5d]. unfold read_value. cbn [app].
    rewrite <- app_assoc. cbn [app]. rewrite read_strings_join; [done|done|].
    rewrite length_app. transitivity (length (join (lit ",") (map json_string vs))); [|lia].
    rewrite <- (length_map json_string vs) at 1. apply length_join_ge, Forall_map, Forall_forall.
    intros; apply length_json_string.
Qed.

Lemma read_field_write (field : str * JsonValue) (rest : str) :
  field_wf field -> no_digit_next rest -> read_field (write_field field ++ rest) = Some (field, rest).
Proof.
  destruct field as [name v]. intros [Hn Hv] Hr. unfold write_field, json_field, read_field. cbn [fst snd app] in *.
  cbn [json_parse_string]. rewrite <- app_assoc. cbn [app]. rewrite json_read_plain by done.
  by rewrite read_value_write.
Qed.

Lemma read_fields_join (fields : JsonFields) (rest : str) : forall fuel,
  Forall field_wf fields -> fields <> [] -> (length fields <= fuel)%nat ->
  read_fields fuel (join (lit ",") (map write_field fields) ++ x7d :: rest) = Some (fields, rest).
Proof.
  change (lit ",") with [x2c].
  induction fields as [|f fields IH]; intros fuel Hwf Hne Hf; [done|]. destruct fuel as [|fuel]; [cbn in Hf; lia|].
  apply Forall_cons in Hwf as [Hw Hwf]. destruct fields as [|g fields]; cbn [map join read_fields].
  - by rewrite read_field_write.
  - rewrite <- !app_assoc. cbn [app]. rewrite read_field_write by done.
    change (write_field g :: map write_field fields) with (map write_field (g :: fields)).
    rewrite IH; [done|done|done|cbn in *; lia].
Qed.

Lemma read_line_write (fields : JsonFields) :
  Forall field_wf fields -> fields <> [] -> read_line (write_line fields) = Some fields.
Proof.
  intros Hwf Hne. unfold write_line, read_line. change (lit "{") with [x7b]. change (lit "}") with [x7d]. cbn [app].
  rewrite read_fields_join; [done|done|done|]. rewrite length_app.
  transitivity (length (join (lit ",") (map write_field fields))); [|lia].
  rewrite <- (length_map write_field fields) at 1. apply length_join_ge, Forall_map, Forall_forall.
  intros f _. unfold write_field, json_field. cbn. lia.
Qed.

Lemma string_value_wf {A} name (f : A -> str) o :
  forallb plain_byte (lit name) = true -> Forall field_wf (string_value name f o).
Proof. intros H. destruct o; [|constructor]. by repeat constructor. Qed.

Lemma number_value_wf name o : forallb plain_byte (lit name) = true -> Forall field_wf (number_value name o).
Proof.
  intros H. destruct o as [n|]; [|constructor]. repeat constructor; [done|apply dec_nonempty|apply dec_digits].
Qed.

Lemma audit_fields_wf (event : AuditEvent) : Forall field_wf (audit_fields event).
Proof.
  unfold audit_fields. cbv zeta. repeat (apply Forall_app_2; [|]);
    try (by apply string_value_wf); try (by apply number_value_wf).
  destruct (bool_decide _) eqn:E; [constructor|]. repeat constructor. cbn.
  intros H%map_eq_nil. by to_prop.
Qed.

(** *** No control characters *)

Lemma clean_field (field : str * JsonValue) : field_wf field -> clean (write_field field).
Proof.
  destruct field as [name v]. intros [Hn Hv]. unfold write_field, json_field. cbn [fst snd] in *.
  apply clean_cons; [done|]. apply clean_app.
  { rewrite forallb_forall in Hn. apply Forall_forall. intros b Hb%list_elem_of_In. apply Hn in Hb. by destruct b. }
  do 2 (apply clean_cons; [done|]). destruct v as [v|ds|vs]; cbn [write_value] in *.
  - apply clean_json_string.
  - eapply Forall_impl; [apply Hv|]. intros b Hb. by destruct b.
  - apply clean_cons; [done|]. apply clean_app; [|by constructor].
    apply clean_join; [done|]. apply Forall_map, Forall_forall. intros a _. apply clean_json_string.
Qed.

Lemma clean_line (fields : JsonFields) : Forall field_wf fields -> clean (write_line fields).
Proof.
  intros H. apply clean_cons; [done|]. apply clean_app; [|by constructor]. apply clean_join; [done|].
  apply Forall_map. eapply Forall_impl; [exact H|]. intros f. apply clean_field.
Qed.

(** What may follow any text: nothing, or an ASCII character. *)
Definition ascii_next (s : str) : Prop := match s with b :: _ => (u8_val b <? 128) = true | [] => True end.

Lemma c1_free_app (a b : str) : c1_free a = true -> c1_free b = true -> ascii_next b -> c1_free (a ++ b) = true.
Proof.
  intros Ha Hb Hn. induction a as [|x a IH]; [done|]. cbn [app c1_free] in *. apply andb_true_iff in Ha as [Hx Ha].
  rewrite (IH Ha), andb_true_r. destruct a as [|y a]; [|exact Hx]. cbn [app]. destruct b as [|y b]; [done|].
  cbn in Hn. to_prop. apply negb_true_iff, andb_false_intro2. unfold in_range.
  apply andb_false_intro1, Z.leb_gt. lia.
Qed.

Lemma c1_free_cons (b : byte) (s : str) : (u8_val b =? 194) = false -> c1_free (b :: s) = c1_free s.
Proof. intros H. cbn [c1_free]. rewrite H. by destruct s. Qed.

Lemma c1_free_ascii (a b : str) :
  Forall (fun b => (u8_val b =? 194) = false) a -> c1_free (a ++ b) = c1_free b.
Proof. induction 1 as [|x a Hx _ IH]; [done|]. cbn [app]. by rewrite c1_free_cons. Qed.

Lemma unicode_escape_ascii (b : byte) : Forall (fun b => (u8_val b =? 194) = false) (unicode_escape (u8_val b)).
Proof. destruct b; vm_compute; repeat constructor. Qed.

(** The encoding starts with an escape or as the text does. *)
Lemma json_chars_head (c : byte) (s : str) : exists r, json_chars (c :: s) = x5c :: r \/ json_chars (c :: s) = c :: r.
Proof.
  rewrite json_chars_cons. cbv zeta. repeat case_match; cbn [app]; eexists; try (by left); by right.
Qed.

Lemma json_chars_c1_free (v : str) : c1_free (json_chars v) = true.
Proof.
  assert (forall b s, c1_free (json_chars s) = true -> (forall c r, s = c :: r -> c1_free (json_chars r) = true) ->
    c1_free (json_chars (b :: s)) = true) as Hstep.
  { intros b s H H2. rewrite json_chars_cons. cbv zeta.
    repeat (case_match; [by rewrite c1_free_ascii by repeat constructor|]).
    case_match; [by rewrite c1_free_ascii by apply unicode_escape_ascii|].
    case_match eqn:E; [|by rewrite c1_free_cons]. destruct s as [|c r]; [done|]. case_match eqn:Ec.
    - rewrite c1_free_ascii by apply unicode_escape_ascii. by eapply H2.
    - destruct (json_chars_head c r) as [r' [Er|Er]]; rewrite Er in *; cbn [c1_free] in *; rewrite H;
        [by rewrite andb_false_r|by rewrite Ec, andb_false_r]. }
  induction v as [|b|b c s IHs IHc] using str_ind2; [done| |].
  - apply Hstep; [done|done].
  - apply Hstep; [done|]. by intros ? ? [= <- <-].
Qed.

Lemma c1_free_json_string (v rest : str) :
  c1_free rest = true -> c1_free (json_string v ++ rest) = true.
Proof.
  intros H. unfold json_string. cbn [app]. rewrite c1_free_cons by done. rewrite <- app_assoc.
  apply c1_free_app; [apply json_chars_c1_free| |done]. cbn [app]. by rewrite c1_free_cons.
Qed.

(** Texts separated by commas. *)
Lemma c1_free_join (ls : list str) (rest : str) :
  Forall (fun l => forall rest, c1_free rest = true -> c1_free (l ++ rest) = true) ls ->
  c1_free rest = true -> c1_free (join (lit ",") ls ++ rest) = true.
Proof.
  change (lit ",") with [x2c]. intros H Hr. induction H as [|l ls Hl _ IH]; [done|].
  destruct ls as [|m ls]; [by apply Hl|]. cbn [join]. rewrite <- !app_assoc. apply Hl. cbn [app]. by rewrite c1_free_cons.
Qed.

Lemma c1_free_field (field : str * JsonValue) (rest : str) :
  field_wf field -> c1_free rest = true -> c1_free (write_field field ++ rest) = true.
Proof.
  destruct field as [name v]. intros [Hn Hv] Hr. unfold write_field, json_field. cbn [fst snd app] in *.
  rewrite c1_free_cons by done. rewrite <- app_assoc. rewrite c1_free_ascii.
  2:{ rewrite forallb_forall in Hn. apply Forall_forall. intros b Hb%list_elem_of_In. apply Hn in Hb. by destruct b. }
  cbn [app]. rewrite !c1_free_cons by done. destruct v as [v|ds|vs]; cbn [write_value value_wf] in *.
  - by apply c1_free_json_string.
  - rewrite c1_free_ascii; [done|]. eapply Forall_impl; [apply Hv|]. intros b Hb. by destruct b.
  - change (lit "[") with [x5b]. change (lit "]") with [x5d]. cbn [app]. rewrite c1_free_cons by done.
    rewrite <- app_assoc. apply c1_free_join; [|cbn [app]; by rewrite c1_free_cons].
    apply Forall_map, Forall_forall. intros a _ rest'. apply c1_free_json_string.
Qed.

Lemma c1_free_line (fields : JsonFields) : Forall field_wf fields -> c1_free (write_line fields) = true.
Proof.
  intros H. unfold write_line. change (lit "{") with [x7b]. cbn [app]. rewrite c1_free_cons by done.
  apply c1_free_join; [|done]. apply Forall_map. eapply Forall_impl; [exact H|]. intros f Hf rest. by apply c1_free_field.
Qed.

(** ** Lemmas: the buffer *)

Module BufOp.
Inductive BufOp : Type :=
| Push (event : AuditEvent)
| Pop.
End BufOp.
Abbreviation BufOp := BufOp.BufOp.

(** A run of the buffer with its history: what was accepted, what was popped
    and how many pushes were refused. *)
Record BufRun : Type := mkBufRun {
  br_buffer : AuditBuffer;
  br_accepted : list AuditEvent;
  br_popped : list AuditEvent;
  br_refused : nat
}.

Definition buf_step (r : BufRun) (op : BufOp) : BufRun :=
  match op with
  | BufOp.Push event =>
      match try_push (br_buffer r) event with
      | (b, Ok _) => mkBufRun b (br_accepted r ++ [event]) (br_popped r) (br_refused r)
      | (b, _) => mkBufRun b (br_accepted r) (br_popped r) (S (br_refused r))
      end
  | BufOp.Pop =>
      match pop_front (br_buffer r) with
      | (b, Some event) => mkBufRun b (br_accepted r) (br_popped r ++ [event]) (br_refused r)
      | (b, None) => mkBufRun b (br_accepted r) (br_popped r) (br_refused r)
      end
  end.

Definition buf_inv (cap : Z) (r : BufRun) : Prop :=
  ab_capacity (br_buffer r) = cap /\
  br_popped r ++ ab_queue (br_buffer r) = br_accepted r /\
  Z.of_nat (length (ab_queue (br_buffer r))) <= cap /\
  ab_dropped_events (br_buffer r) = Z.of_nat (br_refused r) mod 2 ^ 64.

Lemma buf_step_inv (cap : Z) (r : BufRun) (op : BufOp) : buf_inv cap r -> buf_inv cap (buf_step r op).
Proof.
  destruct r as [[c q d] acc pop ref]. intros (Hc & Hq & Hl & Hd). cbn in *. subst c d.
  assert ((Z.of_nat ref mod 2 ^ 64 + 1) mod 2 ^ 64 = Z.of_nat (S ref) mod 2 ^ 64) as Hmod.
  { rewrite Zplus_mod_idemp_l. f_equal. lia. }
  destruct op as [event|]; cbn [buf_step br_buffer].
  - unfold try_push, count_drop. cbn [ab_capacity ab_queue ab_dropped_events].
    destruct (cap =? 0); [by rewrite Hmod|].
    destruct (Z.leb_spec cap (Z.of_nat (length q))); [by rewrite Hmod|].
    unfold buf_inv. cbn. rewrite app_assoc, Hq, length_app. cbn. split_and!; try done; lia.
  - unfold pop_front. cbn [ab_queue]. destruct q as [|e q]; [done|].
    unfold buf_inv. cbn in *. rewrite <- app_assoc. cbn. split_and!; try done; lia.
Qed.

Lemma buf_run_inv (cap : Z) (ops : list BufOp) (r : BufRun) :
  buf_inv cap r -> buf_inv cap (fold_left buf_step ops r).
Proof. revert r. induction ops as [|op ops IH]; cbn; [done|]. intros r H. by apply IH, buf_step_inv. Qed.

(** The writer after all the lines were written. *)
Inductive writes {W E} `{!Write W E} : W -> list str -> W -> Prop :=
| writes_nil w : writes w [] w
| writes_cons w line w1 lines w2 :
    writeln w line = (w1, Ok tt) -> writes w1 lines w2 -> writes w (line :: lines) w2.

(** ** Properties *)

(** [C38] The log cannot be forged through its contents: whatever an event contains
    (hostnames, paths, rule ids, error details chosen by the sandbox), a JSON reader gets
    from its line exactly the fields of the event, each with its own value, and nothing
    else: no value ends its quotes early, adds a field or passes for another.  And the line
    is one line: it holds no control character, C0, DEL or C1, so no line feed and no
    terminal escape either. *)
Theorem audit_line_cannot_be_forged (event : AuditEvent) :
  read_line (audit_event_json_line event) = Some (audit_fields event) /\
  clean (audit_event_json_line event) /\ c1_free (audit_event_json_line event) = true.
Proof.
  rewrite audit_event_json_line_eq. pose proof (audit_fields_wf event) as Hwf. split_and!.
  - by apply read_line_write.
  - by apply clean_line.
  - by apply c1_free_line.
Qed.

(** The audit buffer is a bounded FIFO that loses nothing silently: over any run
    of pushes and pops, the popped events followed by the queued ones are the accepted
    ones in order, the queue never exceeds its capacity, every refused push is counted
    (modulo 2^64), and a push is accepted exactly when there is room. *)
Theorem audit_buffer_bounded_fifo (cap : Z) (ops : list BufOp) :
  0 <= cap ->
  let r := fold_left buf_step ops (mkBufRun (audit_buffer_new cap) [] [] 0) in
  let b := br_buffer r in
  br_popped r ++ ab_queue b = br_accepted r /\ Z.of_nat (audit_len b) <= cap /\
  ab_dropped_events b = Z.of_nat (br_refused r) mod 2 ^ 64 /\
  forall e, snd (try_push b e) = Ok tt <-> Z.of_nat (audit_len b) < cap.
Proof.
  intros Hcap r b.
  assert (buf_inv cap r) as (Hc & Hq & Hl & Hd) by (apply buf_run_inv; split_and!; cbn; try done; lia).
  split_and!; try done. intros e. unfold try_push, audit_len in *. fold b in Hc, Hl. rewrite Hc.
  destruct (Z.eqb_spec cap 0); [cbn; split; [done|lia]|].
  destruct (Z.leb_spec cap (Z.of_nat (length (ab_queue b)))); cbn; split; (done || lia).
Qed.

Lemma audit_buffer_bounded_fifo_witness :
  let e := audit_event_new 0 Frontend.Tun AuditEventKind.TcpConnect in
  let r := fold_left buf_step [BufOp.Push e; BufOp.Push e; BufOp.Pop]
             (mkBufRun (audit_buffer_new 1) [] [] 0) in
  br_popped r ++ ab_queue (br_buffer r) = br_accepted r.
Proof. intros e r. apply (audit_buffer_bounded_fifo 1 [BufOp.Push e; BufOp.Push e; BufOp.Pop]). lia. Defined.

(** [C39] Draining never loses an unwritten event: whatever the sink does, the events
    taken off the queue are exactly those whose line was written, in order; on success
    the queue is empty and the count is right; on a failed write the event being written
    is still at the front. *)
Theorem audit_drain_keeps_unwritten {W E} `{!Write W E} (b : AuditBuffer) (w : W) :
  let '(b', w', r) := drain_audit_buffer_to_json_lines b w in
  exists written w1,
    ab_queue b = written ++ ab_queue b' /\ writes w (map audit_event_json_line written) w1 /\
    ab_capacity b' = ab_capacity b /\ ab_dropped_events b' = ab_dropped_events b /\
    match r with
    | Ok n => ab_queue b' = [] /\ n = Z.of_nat (length written) /\ w' = w1
    | _ => exists event rest r', ab_queue b' = event :: rest /\
             writeln w1 (audit_event_json_line event) = (w', r') /\ is_ok r' = false
    end.
Proof.
  assert (forall queue w drained,
    let '(queue', w', r) := drain_queue queue w drained in
    exists written w1, queue = written ++ queue' /\ writes w (map audit_event_json_line written) w1 /\
      match r with
      | Ok n => queue' = [] /\ n = drained + Z.of_nat (length written) /\ w' = w1
      | _ => exists event rest r', queue' = event :: rest /\
               writeln w1 (audit_event_json_line event) = (w', r') /\ is_ok r' = false
      end) as Hq.
  { induction queue as [|event queue IH]; intros w0 drained; cbn [drain_queue].
    - exists [], w0. split_and!; try done; [constructor|cbn; lia].
    - destruct (writeln w0 (audit_event_json_line event)) as [w1 [[]| | |]] eqn:Hw;
        try (exists [], w0; split_and!; [done|constructor|]; eexists _, _, _; done).
      specialize (IH w1 (drained + 1)). destruct (drain_queue queue w1 (drained + 1)) as [[q' w'] r].
      destruct IH as (written & w2 & -> & Hws & Hr). exists (event :: written), w2.
      split_and!; [done|by econstructor|]. destruct r; try done. destruct Hr as (? & -> & ?).
      split_and!; try done. cbn [length]. lia. }
  specialize (Hq (ab_queue b) w 0). unfold drain_audit_buffer_to_json_lines.
  destruct (drain_queue (ab_queue b) w 0) as [[q' w'] r]. destruct Hq as (written & w1 & ? & ? & ?).
  exists written, w1. done.
Qed.
