(* ===== verification/Config.v ===== *)
(** * Broker configuration and the egress boundary
      ([crates/foxprox-core/src/config.rs], [egress.rs])

    Configuration records with their defaults and validation, the directed
    broadcast address, the proxy environment, and the request and error types
    that cross from the core to a host egress adapter. *)

From S2P Require Import Prelude Text NetAddr Event Policy Flow AuditLog.

(** ** TUN, DNS and proxy settings *)

Record TunConfig : Type := mkTunConfig {
  tun_sandbox_ip : IpAddr;
  tun_broker_ip : IpAddr;
  tun_prefix_len : Z;
  tun_mtu : Z
}.

(** [!mask] on a [u32]. *)
Definition u32_not (a : Z) : Z := u32_max - a.

Definition directed_broadcast (self : TunConfig) : option IpAddr :=
  match tun_sandbox_ip self with
  | V6 _ => None
  | V4 ip =>
      if 32 <? tun_prefix_len self then None
      else
        let mask := if tun_prefix_len self =? 0 then 0
                    else Z.land (Z.shiftl u32_max (32 - tun_prefix_len self)) u32_max in
        Some (V4 (Z.lor ip (u32_not mask)))
  end.

Definition tun_config_default : TunConfig :=
  mkTunConfig (V4 (ipv4_new 10 255 0 2)) (V4 (ipv4_new 10 255 0 1)) 24 1500.

Record DnsConfig : Type := mkDnsConfig {
  dc_broker_resolver : SocketAddr;
  dc_upstream_resolver : SocketAddr;
  dc_deny_direct_external_dns : bool
}.

Definition dns_config_default : DnsConfig :=
  mkDnsConfig (mkSocketAddr (V4 (ipv4_new 10 255 0 1)) 53)
    (mkSocketAddr (V4 (ipv4_new 1 1 1 1)) 53) true.

Record ProxyConfig : Type := mkProxyConfig {
  pc_http_proxy : option SocketAddr;
  pc_https_proxy : option SocketAddr;
  pc_socks5_proxy : option SocketAddr;
  pc_no_proxy : list str
}.

Record ProxyEnvironment : Type := mkProxyEnvironment {
  pe_http_proxy : option str;
  pe_https_proxy : option str;
  pe_all_proxy : option str;
  pe_no_proxy : option str
}.

Definition proxy_environment (self : ProxyConfig) : ProxyEnvironment :=
  mkProxyEnvironment
    ((fun addr => lit "http://" ++ socket_addr_display addr) <$> pc_http_proxy self)
    ((fun addr => lit "http://" ++ socket_addr_display addr) <$> pc_https_proxy self)
    ((fun addr => lit "socks5://" ++ socket_addr_display addr) <$> pc_socks5_proxy self)
    (if bool_decide (pc_no_proxy self = []) then None else Some (join (lit ",") (pc_no_proxy self))).

Definition proxy_config_default : ProxyConfig :=
  mkProxyConfig (Some (mkSocketAddr (V4 (ipv4_new 10 255 0 1)) 8080))
    (Some (mkSocketAddr (V4 (ipv4_new 10 255 0 1)) 8080))
    (Some (mkSocketAddr (V4 (ipv4_new 10 255 0 1)) 1080)) [].

(** ** Limits and timeouts *)

Record ResourceLimitConfig : Type := mkResourceLimitConfig {
  max_tcp_flows : Z;
  max_udp_flows : Z;
  max_proxy_connections : Z;
  max_buffered_bytes_per_flow : Z;
  audit_queue_capacity : Z
}.

Inductive ResourceLimitError : Type := ZeroLimit (name : str).

Definition validate (self : ResourceLimitConfig) : Result unit ResourceLimitError :=
  if max_tcp_flows self =? 0 then Err (ZeroLimit (lit "max_tcp_flows"))
  else if max_udp_flows self =? 0 then Err (ZeroLimit (lit "max_udp_flows"))
  else if max_proxy_connections self =? 0 then Err (ZeroLimit (lit "max_proxy_connections"))
  else if max_buffered_bytes_per_flow self =? 0 then
    Err (ZeroLimit (lit "max_buffered_bytes_per_flow"))
  else if audit_queue_capacity self =? 0 then Err (ZeroLimit (lit "audit_queue_capacity"))
  else Ok tt.

Definition resource_limit_config_default : ResourceLimitConfig :=
  mkResourceLimitConfig 1024 4096 1024 (256 * 1024) 8192.

Record UdpTimeoutConfig : Type := mkUdpTimeoutConfig {
  ut_dns : Duration;
  ut_generic : Duration;
  ut_quic : Duration;
  ut_one_shot : Duration
}.

Definition for_class (self : UdpTimeoutConfig) (class : FlowTimeoutClass) : Duration :=
  match class with
  | FlowTimeoutClass.Dns => ut_dns self
  | FlowTimeoutClass.GenericUdp => ut_generic self
  | FlowTimeoutClass.Quic => ut_quic self
  | FlowTimeoutClass.OneShot => ut_one_shot self
  end.

Definition udp_timeout_config_default : UdpTimeoutConfig :=
  mkUdpTimeoutConfig (default_duration FlowTimeoutClass.Dns)
    (default_duration FlowTimeoutClass.GenericUdp) (default_duration FlowTimeoutClass.Quic)
    (default_duration FlowTimeoutClass.OneShot).

Record BrokerConfig : Type := mkBrokerConfig {
  bc_sandbox_id : SandboxId;
  bc_tun : TunConfig;
  bc_dns : DnsConfig;
  bc_proxy : ProxyConfig;
  bc_udp_timeouts : UdpTimeoutConfig;
  bc_policy : PolicyRuleSet;
  bc_audit : AuditSinkConfig;
  bc_resource_limits : ResourceLimitConfig
}.

(** [policy.broadcast_addresses.push(a)]. *)
Definition push_broadcast (rs : PolicyRuleSet) (a : IpAddr) : PolicyRuleSet :=
  mkPolicyRuleSet (rs_rules rs) (rs_default_action rs) (rs_deny_direct_dns rs)
    (rs_deny_multicast_broadcast rs) (rs_broadcast_addresses rs ++ [a])
    (rs_deny_sni_dns_mismatch rs) (rs_deny_hidden_sni rs).

Definition broker_config_new (sandbox_id : SandboxId) : BrokerConfig :=
  let tun := tun_config_default in
  let policy := policy_rule_set_default in
  let policy := match directed_broadcast tun with
                | Some broadcast => push_broadcast policy broadcast
                | None => policy
                end in
  mkBrokerConfig sandbox_id tun dns_config_default proxy_config_default udp_timeout_config_default
    policy audit_sink_config_default resource_limit_config_default.

(** ** The egress boundary ([egress.rs]) *)

Record EgressContext : Type := mkEgressContext {
  ec_sandbox_id : SandboxId;
  ec_frontend : Frontend;
  ec_decision : Decision;
  ec_attribution : Attribution
}.

Definition egress_is_allowed (self : EgressContext) : bool := is_allowed (ec_decision self).

Record TcpEgressRequest : Type := mkTcpEgressRequest {
  te_context : EgressContext;
  te_source : option TransportEndpoint;
  te_destination : TransportEndpoint;
  te_connect_timeout : option Duration
}.

Record UdpEgressRequest : Type := mkUdpEgressRequest {
  ue_context : EgressContext;
  ue_source : TransportEndpoint;
  ue_destination : TransportEndpoint;
  ue_timeout_class : FlowTimeoutClass
}.

Record DnsEgressRequest : Type := mkDnsEgressRequest {
  de_context : EgressContext;
  de_hostname : Hostname;
  de_query_type : str;
  de_upstream : TransportEndpoint
}.

Record EgressOutcome : Type := mkEgressOutcome {
  eo_protocol : Protocol;
  eo_destination : TransportEndpoint;
  eo_rule_id : option str
}.

Module EgressErrorKind.
Inductive EgressErrorKind : Type :=
  PolicyDenied | ConnectFailed | ReadFailed | WriteFailed | Timeout | ResourceLimit | Unsupported.
End EgressErrorKind.
Abbreviation EgressErrorKind := EgressErrorKind.EgressErrorKind.

Record EgressError : Type := mkEgressError { ee_kind : EgressErrorKind; ee_detail : str }.

#[export] Instance EgressErrorKind_eq_dec : EqDecision EgressErrorKind.
Proof. solve_decision. Defined.
#[export] Instance EgressError_eq_dec : EqDecision EgressError.
Proof. solve_decision. Defined.

Definition debug_egress_error_kind (k : EgressErrorKind) : str :=
  match k with
  | EgressErrorKind.PolicyDenied => lit "PolicyDenied"
  | EgressErrorKind.ConnectFailed => lit "ConnectFailed"
  | EgressErrorKind.ReadFailed => lit "ReadFailed"
  | EgressErrorKind.WriteFailed => lit "WriteFailed"
  | EgressErrorKind.Timeout => lit "Timeout"
  | EgressErrorKind.ResourceLimit => lit "ResourceLimit"
  | EgressErrorKind.Unsupported => lit "Unsupported"
  end.

Definition egress_error_display (e : EgressError) : str :=
  debug_egress_error_kind (ee_kind e) ++ lit ": " ++ ee_detail e.

(** ** Lemmas and properties *)

(** The broadcast address of a network: its prefix followed by ones. *)
Lemma lor_host_ones (ip p : Z) :
  0 <= ip <= u32_max -> 0 <= p <= 32 ->
  Z.lor ip (Z.ones (32 - p)) = ip / 2 ^ (32 - p) * 2 ^ (32 - p) + (2 ^ (32 - p) - 1).
Proof.
  intros Hip Hp. rewrite Z.ones_equiv, <- Z.sub_1_r.
  rewrite <- lor_shiftl_add by (pose proof (Z.pow_pos_nonneg 2 (32 - p)); lia).
  apply Z.bits_inj'. intros i Hi. rewrite !Z.lor_spec, Z.shiftl_spec by lia.
  replace (2 ^ (32 - p) - 1) with (Z.ones (32 - p)) by (rewrite Z.ones_equiv; lia).
  destruct (Z.ltb_spec i (32 - p)).
  - rewrite Z.ones_spec_low by lia. by rewrite !orb_true_r.
  - rewrite Z.ones_spec_high, !orb_false_r by lia.
    rewrite <- Z.shiftr_div_pow2, Z.shiftr_spec by lia. f_equal. lia.
Qed.

Lemma not_mask_ones (p : Z) : 0 <= p <= 32 ->
  u32_not (if p =? 0 then 0 else Z.land (Z.shiftl u32_max (32 - p)) u32_max) = Z.ones (32 - p).
Proof.
  intros Hp. destruct (Z.eqb_spec p 0) as [->|H0]; [done|].
  rewrite Z.land_comm.
  change u32_max with (Z.ones 32).
  rewrite (land_prefix_mask_all 32 p) by lia. unfold u32_not, u32_max. rewrite Z.ones_equiv.
  assert (2 ^ p * 2 ^ (32 - p) = 2 ^ 32) as E by (rewrite <- Z.pow_add_r by lia; f_equal; lia).
  change (2 ^ 32) with 4294967296 in E. lia.
Qed.

(** [TunConfig::directed_broadcast] is the greatest address of the TUN network:
    for every IPv4 address and prefix length it lies in the network and no address of
    the network is above it; other families and prefixes have none. *)
Theorem directed_broadcast_is_last_address (t : TunConfig) :
  ip_wf (tun_sandbox_ip t) -> 0 <= tun_prefix_len t ->
  match tun_sandbox_ip t with
  | V4 ip =>
      if tun_prefix_len t <=? 32 then
        exists b, directed_broadcast t = Some (V4 b) /\ 0 <= b <= u32_max /\
          in_network (Cidr.V4 ip (tun_prefix_len t)) (V4 b) /\
          forall a, ip_wf (V4 a) -> in_network (Cidr.V4 ip (tun_prefix_len t)) (V4 a) -> a <= b
      else directed_broadcast t = None
  | V6 _ => directed_broadcast t = None
  end.
Proof.
  destruct t as [[ip|ip] bip p mtu]; cbn [tun_sandbox_ip tun_prefix_len]; [|done].
  intros Hip Hp. unfold directed_broadcast. cbn [tun_sandbox_ip tun_prefix_len].
  destruct (Z.leb_spec p 32) as [H|H]; [|by rewrite (proj2 (Z.ltb_lt _ _))].
  rewrite (proj2 (Z.ltb_ge _ _)) by lia. rewrite not_mask_ones by lia.
  cbn [ip_wf] in Hip. rewrite lor_host_ones by lia.
  assert (0 < 2 ^ (32 - p)) as Hpow by (apply Z.pow_pos_nonneg; lia).
  pose proof (Z.div_mod ip (2 ^ (32 - p)) ltac:(lia)) as Hdm.
  pose proof (Z.mod_pos_bound ip (2 ^ (32 - p)) Hpow) as Hmb.
  set (q := ip / 2 ^ (32 - p)) in *. set (k := 2 ^ (32 - p)) in *.
  assert (2 ^ p * k = u32_max + 1) as Hk
    by (subst k; rewrite <- Z.pow_add_r by lia; replace (p + (32 - p)) with 32 by lia; done).
  assert (0 <= q) as Hq0 by (apply Z.div_pos; lia).
  assert (q < 2 ^ p) as Hq by (apply Z.div_lt_upper_bound; lia).
  eexists. split; [done|]. split; [split; nia|]. split.
  - cbn. fold k. fold q. rewrite Z.div_add_l, Z.div_small by lia. lia.
  - cbn. fold k. fold q. intros a Ha Hn. pose proof (Z.div_mod a k ltac:(lia)).
    pose proof (Z.mod_pos_bound a k Hpow). rewrite <- Hn in *. nia.
Qed.

Lemma directed_broadcast_is_last_address_witness :
  directed_broadcast tun_config_default = Some (V4 (ipv4_new 10 255 0 255)) /\
  forall a, ip_wf (V4 a) -> in_network (Cidr.V4 (ipv4_new 10 255 0 2) 24) (V4 a) ->
    a <= ipv4_new 10 255 0 255.
Proof.
  split; [vm_compute; reflexivity|].
  destruct (directed_broadcast_is_last_address tun_config_default) as (b & Hb & _ & _ & Hmax).
  - vm_compute. split; discriminate.
  - vm_compute. discriminate.
  - assert (b = ipv4_new 10 255 0 255) as -> by (vm_compute in Hb; by injection Hb as <-). exact Hmax.
Defined.

(** A fresh broker fails closed: the default configuration allows no event at all,
    its limits validate, and whatever rules are added later, TCP and UDP to port 53 or to
    the TUN network's own broadcast address stay denied. *)
Theorem default_broker_fails_closed (s : SandboxId) (event : NetworkEvent) (rules : list PolicyRule)
  src dst a f cls :
  let policy := bc_policy (broker_config_new s) in
  is_allowed (evaluate policy event) = false /\
  validate (bc_resource_limits (broker_config_new s)) = Ok tt /\
  (ep_port dst = 53 \/ Some (ep_ip dst) = directed_broadcast (bc_tun (broker_config_new s)) ->
   is_allowed (evaluate (set_rules policy rules) (NetworkEvent.TcpConnectAttempt s f (Some src) dst a)) = false /\
   is_allowed (evaluate (set_rules policy rules) (NetworkEvent.UdpFlowAttempt s f src dst a cls)) = false).
Proof.
  intros policy. split_and!.
  - unfold evaluate. destruct (fail_closed_precheck event policy) as [d|] eqn:E; [|done].
    by destruct (precheck_denies _ _ _ E).
  - reflexivity.
  - intros Hdst.
    assert ((rs_deny_direct_dns policy = true /\ ep_port dst = 53) \/
            (rs_deny_multicast_broadcast policy = true /\ group_address policy (ep_ip dst))) as Hg.
    { destruct Hdst as [H|H]; [by left|right]. split; [done|]. left.
      replace (directed_broadcast _) with (Some (V4 (ipv4_new 10 255 0 255))) in H by (vm_compute; reflexivity).
      injection H as ->. vm_compute. right. left. }
    split.
    + destruct (guarded_precheck policy (NetworkEvent.TcpConnectAttempt s f (Some src) dst a) Hg) as [d Hd].
      unfold evaluate. rewrite Hd. by destruct (precheck_denies _ _ _ (Hd rules)).
    + destruct (guarded_precheck policy (NetworkEvent.UdpFlowAttempt s f src dst a cls) Hg) as [d Hd].
      unfold evaluate. rewrite Hd. by destruct (precheck_denies _ _ _ (Hd rules)).
Qed.
