(* ===== verification/Device.v ===== *)
(** * The ICMP packet path ([crates/foxprox-device/src/lib.rs])

    IPv4 and ICMPv4 metadata parsing, the internet checksum and the echo-reply
    synthesizer.  Indexing and slicing that the code does unchecked can
    [Panic]. *)

From S2P Require Import Prelude Text NetAddr Event.

Definition IPPROTO_ICMP : Z := 1.
Definition ICMPV4_ECHO_REQUEST : Z := 8.
Definition ICMPV4_ECHO_REPLY : Z := 0.

Record Ipv4PacketMetadata : Type := mkIpv4Metadata {
  im_total_len : nat;
  im_header_len : nat;
  im_source : Z;
  im_destination : Z;
  im_protocol : Z;
  im_ttl : Z
}.

Record Icmpv4Metadata : Type := mkIcmpv4Metadata {
  ic_ty : Z;
  ic_code : Z;
  ic_identifier : option Z;
  ic_sequence : option Z
}.

Module PacketDropReason.
Inductive PacketDropReason : Type :=
| Malformed (detail : str)
| UnsupportedIpVersion (version : Z)
| UnsupportedIpv4Options
| UnsupportedFragmentation
| InvalidIpv4Checksum
| InvalidIcmpv4Checksum
| UnsupportedIpProtocol (protocol : Z)
| UnsupportedIcmp (ty code : Z)
| NotForLocalAddress (destination local : Z).
End PacketDropReason.
Abbreviation PacketDropReason := PacketDropReason.PacketDropReason.

(** ** The checksum *)

(** [read_u16]: indexes 0 and 1 of its argument. *)
Definition device_read_u16 {E} (bytes : list byte) : Result Z E :=
  let? b0 := or_panic (bytes !! 0%nat) in
  let? b1 := or_panic (bytes !! 1%nat) in
  Ok (be_val [b0; b1]).

(** [u32] addition. *)
Definition u32_add (a b : Z) : Z := (a + b) mod 2 ^ 32.

(** The sum over [chunks_exact(2)] and the remainder byte. *)
Fixpoint sum16 (sum : Z) (bytes : list byte) : Z :=
  match bytes with
  | b0 :: b1 :: bytes => sum16 (u32_add sum (be_val [b0; b1])) bytes
  | [b] => u32_add sum (Z.shiftl (u8_val b) 8)
  | [] => sum
  end.

(** The carry loop: two turns always suffice for a [u32]. *)
Fixpoint fold_carries {E} (fuel : nat) (sum : Z) : Result Z E :=
  match fuel with
  | O => OutOfFuel
  | S fuel =>
      if Z.shiftr sum 16 =? 0 then Ok sum
      else fold_carries fuel (u32_add (Z.land sum 0xffff) (Z.shiftr sum 16))
  end.

Definition checksum16 {E} (bytes : list byte) : Result Z E :=
  let? sum := fold_carries 3 (sum16 0 bytes) in
  Ok (u16_max - sum mod 2 ^ 16).

(** ** Parsing *)

Definition parse_ipv4_metadata (packet : list byte) : Result Ipv4PacketMetadata PacketDropReason :=
  if (length packet <? 20)%nat then
    Err (PacketDropReason.Malformed (lit "IPv4 packet shorter than base header"))
  else
    let? b0 := or_panic (packet !! 0%nat) in
    let version := Z.shiftr (u8_val b0) 4 in
    if negb (version =? 4) then Err (PacketDropReason.UnsupportedIpVersion version)
    else
      let ihl_words := Z.land (u8_val b0) 0x0f in
      if ihl_words <? 5 then
        Err (PacketDropReason.Malformed (lit "IPv4 IHL shorter than base header"))
      else if negb (ihl_words =? 5) then Err PacketDropReason.UnsupportedIpv4Options
      else
        let header_len := (Z.to_nat ihl_words * 4)%nat in
        if (length packet <? header_len)%nat then
          Err (PacketDropReason.Malformed (lit "buffer shorter than IPv4 header length"))
        else
          let? len_bytes := or_panic (slice packet 2 4) in
          let? total_len := device_read_u16 len_bytes in
          let total_len := Z.to_nat total_len in
          if (total_len <? header_len)%nat then
            Err (PacketDropReason.Malformed (lit "IPv4 total length shorter than header"))
          else if (length packet <? total_len)%nat then
            Err (PacketDropReason.Malformed (lit "buffer shorter than IPv4 total length"))
          else
            let? frag_bytes := or_panic (slice packet 6 8) in
            let? flags_fragment := device_read_u16 frag_bytes in
            let more_fragments := negb (Z.land flags_fragment 0x2000 =? 0) in
            let fragment_offset := Z.land flags_fragment 0x1fff in
            if more_fragments || negb (fragment_offset =? 0) then
              Err PacketDropReason.UnsupportedFragmentation
            else
              let? header := or_panic (slice packet 0 header_len) in
              let? checksum := checksum16 header in
              if negb (checksum =? 0) then Err PacketDropReason.InvalidIpv4Checksum
              else
                let? source := or_panic (slice packet 12 16) in
                let? destination := or_panic (slice packet 16 20) in
                let? protocol := or_panic (packet !! 9%nat) in
                let? ttl := or_panic (packet !! 8%nat) in
                Ok (mkIpv4Metadata total_len header_len (be_val source) (be_val destination)
                      (u8_val protocol) (u8_val ttl)).

Definition parse_icmpv4_metadata (packet : list byte) (ipv4 : Ipv4PacketMetadata)
  : Result Icmpv4Metadata PacketDropReason :=
  if negb (im_protocol ipv4 =? IPPROTO_ICMP) then
    Err (PacketDropReason.UnsupportedIpProtocol (im_protocol ipv4))
  else
    let? icmp := or_panic (slice packet (im_header_len ipv4) (im_total_len ipv4)) in
    if (length icmp <? 8)%nat then
      Err (PacketDropReason.Malformed (lit "ICMPv4 message shorter than base header"))
    else
      let? ty := or_panic (icmp !! 0%nat) in
      let? code := or_panic (icmp !! 1%nat) in
      let? id_bytes := or_panic (slice icmp 4 6) in
      let? identifier := device_read_u16 id_bytes in
      let? seq_bytes := or_panic (slice icmp 6 8) in
      let? sequence := device_read_u16 seq_bytes in
      Ok (mkIcmpv4Metadata (u8_val ty) (u8_val code) (Some identifier) (Some sequence)).

(** ** The echo reply *)

(** [buf[i] = b] and [buf[i..i+n].copy_from_slice(bs)]. *)
Definition set_byte {E} (buf : list byte) (i : nat) (b : byte) : Result (list byte) E :=
  if (i <? length buf)%nat then Ok (<[i := b]> buf) else Panic.

Definition copy_from_slice {E} (buf : list byte) (i : nat) (bs : list byte) : Result (list byte) E :=
  if (i + length bs <=? length buf)%nat then Ok (list_inserts i bs buf) else Panic.

Definition synthesize_icmpv4_echo_reply (request : list byte) (local_ip : Z)
  : Result (list byte) PacketDropReason :=
  let? ipv4 := parse_ipv4_metadata request in
  if negb (im_protocol ipv4 =? IPPROTO_ICMP) then
    Err (PacketDropReason.UnsupportedIpProtocol (im_protocol ipv4))
  else if negb (im_destination ipv4 =? local_ip) then
    Err (PacketDropReason.NotForLocalAddress (im_destination ipv4) local_ip)
  else
    let icmp_offset := im_header_len ipv4 in
    let icmp_len := (im_total_len ipv4 - icmp_offset)%nat in
    if (icmp_len <? 8)%nat then
      Err (PacketDropReason.Malformed (lit "ICMPv4 message shorter than base header"))
    else
      let? icmp := or_panic (slice request icmp_offset (im_total_len ipv4)) in
      let? checksum := checksum16 icmp in
      if negb (checksum =? 0) then Err PacketDropReason.InvalidIcmpv4Checksum
      else
        let? ty := or_panic (request !! icmp_offset) in
        let? code := or_panic (request !! (icmp_offset + 1)%nat) in
        if negb (u8_val ty =? ICMPV4_ECHO_REQUEST) || negb (u8_val code =? 0) then
          Err (PacketDropReason.UnsupportedIcmp (u8_val ty) (u8_val code))
        else
          let? reply := or_panic (slice request 0 (im_total_len ipv4)) in
          let? reply := set_byte reply 8 (u8_of 64) in
          let? reply := set_byte reply 10 x00 in
          let? reply := set_byte reply 11 x00 in
          let? reply := copy_from_slice reply 12 (ipv4_octets (im_destination ipv4)) in
          let? reply := copy_from_slice reply 16 (ipv4_octets (im_source ipv4)) in
          let? header := or_panic (slice reply 0 (im_header_len ipv4)) in
          let? ip_checksum := checksum16 header in
          let? reply := copy_from_slice reply 10 (be_bytes 2 ip_checksum) in
          let? reply := set_byte reply icmp_offset (u8_of ICMPV4_ECHO_REPLY) in
          let? reply := set_byte reply (icmp_offset + 1) x00 in
          let? reply := set_byte reply (icmp_offset + 2) x00 in
          let? reply := set_byte reply (icmp_offset + 3) x00 in
          let? icmp := or_panic (slice reply icmp_offset (im_total_len ipv4)) in
          let? icmp_checksum := checksum16 icmp in
          copy_from_slice reply (icmp_offset + 2) (be_bytes 2 icmp_checksum).

(** ** Events *)

Definition icmp_event (sandbox_id : SandboxId) (ipv4 : Ipv4PacketMetadata) (icmp : Icmpv4Metadata)
  : NetworkEvent :=
  NetworkEvent.IcmpMessage sandbox_id (V4 (im_source ipv4)) (V4 (im_destination ipv4))
    (ic_ty icmp) (ic_code icmp).

Definition transport_endpoints_for_ip_packet (ipv4 : Ipv4PacketMetadata)
  : TransportEndpoint * TransportEndpoint :=
  (mkEndpoint (V4 (im_source ipv4)) 0, mkEndpoint (V4 (im_destination ipv4)) 0).

Definition unsupported_event_for_drop (sandbox_id : option SandboxId) (reason : PacketDropReason)
  : NetworkEvent :=
  let reason :=
    match reason with
    | PacketDropReason.Malformed reason => UnsupportedReason.Malformed reason
    | PacketDropReason.UnsupportedIpVersion version =>
        UnsupportedReason.Malformed (lit "unsupported IP version " ++ dec version)
    | PacketDropReason.UnsupportedIpv4Options =>
        UnsupportedReason.Malformed (lit "IPv4 options are unsupported")
    | PacketDropReason.UnsupportedFragmentation => UnsupportedReason.UnsupportedFragmentation
    | PacketDropReason.InvalidIpv4Checksum => UnsupportedReason.Malformed (lit "invalid IPv4 checksum")
    | PacketDropReason.InvalidIcmpv4Checksum =>
        UnsupportedReason.Malformed (lit "invalid ICMPv4 checksum")
    | PacketDropReason.UnsupportedIpProtocol protocol =>
        UnsupportedReason.UnsupportedIpProtocol protocol
    | PacketDropReason.UnsupportedIcmp ty code => UnsupportedReason.UnsupportedIcmp ty code
    | PacketDropReason.NotForLocalAddress destination local =>
        UnsupportedReason.Malformed (lit "ICMP echo request destination " ++ ipv4_display destination
                                     ++ lit " did not match local " ++ ipv4_display local)
    end in
  NetworkEvent.Unsupported sandbox_id Frontend.Tun reason.

(** ** Specification *)

(** The sum of the 16-bit words of a byte string, a last odd byte padded. *)
Fixpoint word_sum (bytes : list byte) : Z :=
  match bytes with
  | b0 :: b1 :: bytes => be_val [b0; b1] + word_sum bytes
  | [b] => u8_val b * 256
  | [] => 0
  end.

(** Folding carries: the residue modulo 65535, 65535 standing for a positive
    multiple of it. *)
Definition ones_complement (s : Z) : Z := if s =? 0 then 0 else (s - 1) mod 65535 + 1.

(** RFC 1071. *)
Definition internet_checksum (bytes : list byte) : Z := 65535 - ones_complement (word_sum bytes).

(** ** Lemmas: the checksum *)

Lemma list_ind2 {A} (P : list A -> Prop) :
  P [] -> (forall a, P [a]) -> (forall a b l, P l -> P (a :: b :: l)) -> forall l, P l.
Proof.
  intros H0 H1 H2. enough (forall l, P l /\ forall a, P (a :: l)) as H by (intros l; apply H).
  induction l as [|b l [IH1 IH2]]; split; auto.
Qed.

Lemma pair_val (a b : byte) : be_val [a; b] = u8_val a * 256 + u8_val b /\ 0 <= be_val [a; b] <= 65535.
Proof.
  assert (be_val [a; b] = u8_val a * 256 + u8_val b) as E by (cbn; lia).
  pose proof (u8_val_range a). pose proof (u8_val_range b). rewrite E. lia.
Qed.

Lemma word_sum_range (bytes : list byte) :
  0 <= word_sum bytes <= 32768 * Z.of_nat (length bytes) + 32768.
Proof.
  induction bytes as [|a|a b l IH] using list_ind2; cbn [word_sum length]; rewrite ?Nat2Z.inj_succ.
  - lia.
  - pose proof (u8_val_range a). lia.
  - destruct (pair_val a b) as [_ H]. lia.
Qed.

(** No [u32] overflow up to 128 KiB, twice the largest IPv4 packet. *)
Lemma sum16_word_sum (bytes : list byte) : forall sum,
  0 <= sum -> sum + word_sum bytes < 2 ^ 32 -> sum16 sum bytes = sum + word_sum bytes.
Proof.
  induction bytes as [|a|a b l IH] using list_ind2; intros sum Hs Hb; cbn [sum16 word_sum] in *.
  - lia.
  - unfold u32_add. rewrite Z.shiftl_mul_pow2 by lia. apply Z.mod_small.
    pose proof (u8_val_range a). lia.
  - destruct (pair_val a b) as [_ H]. pose proof (word_sum_range l).
    unfold u32_add. rewrite Z.mod_small by lia. rewrite IH by lia. lia.
Qed.

Lemma ones_complement_small (s : Z) : 0 <= s <= 65535 -> ones_complement s = s.
Proof. unfold ones_complement. intros H. destruct (Z.eqb_spec s 0); [done|]. rewrite Z.mod_small; lia. Qed.

Lemma ones_complement_shift (s k : Z) : 0 < s -> 0 <= k -> ones_complement (s + 65535 * k) = ones_complement s.
Proof.
  unfold ones_complement. intros Hs Hk. rewrite !(proj2 (Z.eqb_neq _ _)) by lia.
  replace (s + 65535 * k - 1) with (s - 1 + k * 65535) by lia. by rewrite Z.mod_add.
Qed.

Lemma carry_step (s : Z) : 0 <= s ->
  Z.land s 0xffff + Z.shiftr s 16 = s mod 65536 + s / 65536 /\
  (0 < s -> 0 < s mod 65536 + s / 65536) /\
  ones_complement (s mod 65536 + s / 65536) = ones_complement s.
Proof.
  intros Hs. change 0xffff with (Z.ones 16). rewrite Z.land_ones, Z.shiftr_div_pow2 by lia.
  change (2 ^ 16) with 65536. split; [done|].
  pose proof (Z.div_mod s 65536 ltac:(lia)). pose proof (Z.mod_pos_bound s 65536 ltac:(lia)).
  assert (0 <= s / 65536) by (apply Z.div_pos; lia).
  assert (0 < s -> 0 < s mod 65536 + s / 65536) as Hpos by lia. split; [done|].
  destruct (Z.eqb_spec s 0) as [->|]; [done|].
  rewrite <- (ones_complement_shift (s mod 65536 + s / 65536) (s / 65536)) by lia. f_equal. lia.
Qed.

Lemma fold_carries_spec {E} (s : Z) : 0 <= s < 2 ^ 32 ->
  exists r, @fold_carries E 3 s = Ok r /\ 0 <= r <= 65535 /\ r = ones_complement s.
Proof.
  intros Hs.
  assert (forall s, 0 <= s < 2 ^ 32 -> Z.shiftr s 16 =? 0 = true -> 0 <= s <= 65535) as Hdone.
  { intros t Ht H. to_prop. rewrite Z.shiftr_div_pow2 in H by lia. apply Z.div_small_iff in H; lia. }
  assert (forall s, 0 <= s < 2 ^ 32 -> u32_add (Z.land s 65535) (Z.shiftr s 16) = s mod 65536 + s / 65536 /\
    s mod 65536 + s / 65536 <= 65535 + s / 65536) as Hstep.
  { intros t Ht. unfold u32_add.
    destruct (carry_step t ltac:(lia)) as (E1 & _ & _). rewrite E1.
    pose proof (Z.mod_pos_bound t 65536 ltac:(lia)).
    assert (0 <= t / 65536) by (apply Z.div_pos; lia).
    assert (t / 65536 < 65536) by (apply Z.div_lt_upper_bound; lia).
    rewrite Z.mod_small by lia. lia. }
  cbn [fold_carries]. destruct (Z.shiftr s 16 =? 0) eqn:E0.
  { exists s. specialize (Hdone s Hs E0). rewrite ones_complement_small by lia. done. }
  destruct (Hstep s Hs) as [-> Hb]. destruct (carry_step s ltac:(lia)) as (_ & _ & H1).
  set (s1 := s mod 65536 + s / 65536) in *.
  assert (s / 65536 < 65536) by (apply Z.div_lt_upper_bound; lia).
  assert (0 <= s / 65536) by (apply Z.div_pos; lia).
  pose proof (Z.mod_pos_bound s 65536 ltac:(lia)).
  assert (0 <= s1 <= 131070) as Hs1 by (subst s1; lia).
  destruct (Z.shiftr s1 16 =? 0) eqn:E1.
  { exists s1. specialize (Hdone s1 ltac:(lia) E1). rewrite <- H1, ones_complement_small by lia. done. }
  destruct (Hstep s1 ltac:(lia)) as [-> Hb1]. destruct (carry_step s1 ltac:(lia)) as (_ & _ & Hc2).
  pose proof (Z.div_mod s1 65536 ltac:(lia)). pose proof (Z.mod_pos_bound s1 65536 ltac:(lia)).
  assert (s1 / 65536 <= 1) by (apply Z.lt_succ_r, Z.div_lt_upper_bound; lia).
  assert (0 <= s1 / 65536) by (apply Z.div_pos; lia).
  set (s2 := s1 mod 65536 + s1 / 65536) in *.
  assert (0 <= s2 <= 65535) as Hs2 by (subst s2; lia).
  replace (Z.shiftr s2 16 =? 0) with true.
  2:{ symmetry. apply Z.eqb_eq. rewrite Z.shiftr_div_pow2 by lia. apply Z.div_small. lia. }
  exists s2. rewrite <- H1, <- Hc2, ones_complement_small by lia. done.
Qed.

Lemma checksum16_spec {E} (bytes : list byte) :
  Z.of_nat (length bytes) <= 131070 ->
  @checksum16 E bytes = Ok (internet_checksum bytes).
Proof.
  intros Hl.
  pose proof (word_sum_range bytes). unfold checksum16, internet_checksum.
  rewrite sum16_word_sum by lia.
  destruct (@fold_carries_spec E (0 + word_sum bytes) ltac:(lia)) as (r & -> & Hr & ->). cbn [result_bind].
  rewrite Z.add_0_l in *. change (2 ^ 16) with 65536. rewrite Z.mod_small by lia. done.
Qed.

Lemma ones_complement_range (s : Z) : 0 <= s -> 0 <= ones_complement s <= 65535.
Proof.
  intros H. unfold ones_complement. destruct (Z.eqb_spec s 0); [lia|].
  pose proof (Z.mod_pos_bound (s - 1) 65535). lia.
Qed.

Lemma word_sum_nonneg (bytes : list byte) : 0 <= word_sum bytes.
Proof. apply word_sum_range. Qed.

Lemma internet_checksum_range (bytes : list byte) : 0 <= internet_checksum bytes <= 65535.
Proof.
  unfold internet_checksum. pose proof (ones_complement_range _ (word_sum_nonneg bytes)). lia.
Qed.

(** Adding the checksum of the rest makes the whole sum to all ones. *)
Lemma checksum_completes (s : Z) : 0 <= s ->
  65535 - ones_complement (s + (65535 - ones_complement s)) = 0.
Proof.
  intros Hs. unfold ones_complement. destruct (Z.eqb_spec s 0) as [->|Hs0]; [reflexivity|].
  pose proof (Z.mod_pos_bound (s - 1) 65535 ltac:(lia)). pose proof (Z.div_mod (s - 1) 65535 ltac:(lia)).
  set (r := (s - 1) mod 65535) in *. set (q := (s - 1) / 65535) in *.
  assert (0 <= q) by (apply Z.div_pos; lia).
  replace (s + (65535 - (r + 1))) with (65534 + q * 65535 + 1) by lia.
  rewrite (proj2 (Z.eqb_neq _ _)) by lia.
  replace (65534 + q * 65535 + 1 - 1) with (65534 + q * 65535) by lia. rewrite Z.mod_add by lia. reflexivity.
Qed.

Lemma word_sum_pair (a b : byte) (l : list byte) : word_sum (a :: b :: l) = be_val [a; b] + word_sum l.
Proof. reflexivity. Qed.

Lemma be_val_pair_bytes (c : Z) (k0 k1 : byte) :
  be_bytes 2 c = [k0; k1] -> 0 <= c <= 65535 -> be_val [k0; k1] = c.
Proof. intros <- Hc. apply be_val_bytes_small. cbn. lia. Qed.

Lemma be_bytes_2 (c : Z) : exists k0 k1, be_bytes 2 c = [k0; k1].
Proof. by eexists _, _. Qed.

(** ** Lemmas: packets with an explicit header *)

Lemma split_20 (p : list byte) : (20 <= length p)%nat ->
  exists b0 b1 b2 b3 b4 b5 b6 b7 b8 b9 b10 b11 b12 b13 b14 b15 b16 b17 b18 b19 r,
  p = [b0; b1; b2; b3; b4; b5; b6; b7; b8; b9; b10; b11; b12; b13; b14; b15; b16; b17; b18; b19] ++ r.
Proof.
  intros H. do 20 (destruct p as [|? p]; [cbn in H; lia|]).
  do 20 eexists. exists p. reflexivity.
Qed.

Section packets.
Variables b0 b1 b2 b3 b4 b5 b6 b7 b8 b9 b10 b11 b12 b13 b14 b15 b16 b17 b18 b19 : byte.

Let header : list byte :=
  [b0; b1; b2; b3; b4; b5; b6; b7; b8; b9; b10; b11; b12; b13; b14; b15; b16; b17; b18; b19].

(** Parsing succeeds exactly on an option-free, unfragmented IPv4 header with a
    valid checksum and a total length inside the buffer. *)
Definition header_ok (r : list byte) : Prop :=
  Z.shiftr (u8_val b0) 4 = 4 /\ Z.land (u8_val b0) 0x0f = 5 /\
  20 <= be_val [b2; b3] <= 20 + Z.of_nat (length r) /\
  Z.land (be_val [b6; b7]) 0x2000 = 0 /\ Z.land (be_val [b6; b7]) 0x1fff = 0 /\
  internet_checksum header = 0.

Lemma parse_ipv4_explicit (r : list byte) (m : Ipv4PacketMetadata) :
  parse_ipv4_metadata (header ++ r) = Ok m <->
  header_ok r /\
  m = mkIpv4Metadata (Z.to_nat (be_val [b2; b3])) 20 (be_val [b12; b13; b14; b15])
        (be_val [b16; b17; b18; b19]) (u8_val b9) (u8_val b8).
Proof.
  unfold parse_ipv4_metadata, header_ok. destruct (pair_val b2 b3) as [_ Hlen].
  rewrite (proj2 (Nat.ltb_ge (length (header ++ r)) 20)) by (cbn; lia).
  change ((header ++ r) !! 0%nat) with (Some b0). cbn [or_panic result_bind].
  destruct (Z.eqb_spec (Z.shiftr (u8_val b0) 4) 4) as [Hv|]; [|cbn; split; [done|naive_solver]].
  cbn [negb]. destruct (Z.eqb_spec (Z.land (u8_val b0) 15) 5) as [Hi|Hi];
    [|destruct (_ <? 5); cbn; split; try done; naive_solver].
  rewrite Hi. cbn [Z.ltb Z.compare Pos.compare Pos.compare_cont negb].
  change (Z.to_nat 5 * 4)%nat with 20%nat.
  rewrite (proj2 (Nat.ltb_ge (length (header ++ r)) 20)) by (cbn; lia).
  change (slice (header ++ r) 2 4) with (Some [b2; b3]). cbn [or_panic result_bind].
  change (device_read_u16 [b2; b3]) with (@Ok Z PacketDropReason (be_val [b2; b3])). cbn [result_bind].
  assert (length (header ++ r) = 20 + length r)%nat as Hl by reflexivity.
  destruct (Nat.ltb_spec (Z.to_nat (be_val [b2; b3])) 20); [split; [done|lia]|].
  destruct (Nat.ltb_spec (length (header ++ r)) (Z.to_nat (be_val [b2; b3]))); [split; [done|lia]|].
  change (slice (header ++ r) 6 8) with (Some [b6; b7]). cbn [or_panic result_bind].
  change (device_read_u16 [b6; b7]) with (@Ok Z PacketDropReason (be_val [b6; b7])). cbn [result_bind].
  destruct (Z.eqb_spec (Z.land (be_val [b6; b7]) 8192) 0); [|cbn; split; [done|naive_solver]].
  destruct (Z.eqb_spec (Z.land (be_val [b6; b7]) 8191) 0); [|cbn; split; [done|naive_solver]].
  cbn [negb orb]. change (slice (header ++ r) 0 20) with (Some header). cbn [or_panic result_bind].
  rewrite checksum16_spec by (cbn; lia). cbn [result_bind].
  destruct (Z.eqb_spec (internet_checksum header) 0); [|cbn; split; [done|naive_solver]].
  cbn [negb]. change (slice (header ++ r) 12 16) with (Some [b12; b13; b14; b15]).
  change (slice (header ++ r) 16 20) with (Some [b16; b17; b18; b19]).
  change ((header ++ r) !! 9%nat) with (Some b9). change ((header ++ r) !! 8%nat) with (Some b8).
  cbn [or_panic result_bind]. split; [intros [= <-]|intros [_ ->]; done].
  split_and!; try done; lia.
Qed.

End packets.

(** ** Lemmas: the reply *)

(** A header with its source and destination swapped and TTL 64. *)
Definition swap_header (h : list byte) (k : list byte) : list byte :=
  take 8 h ++ [u8_of 64] ++ take 1 (drop 9 h) ++ k ++ take 4 (drop 16 h) ++ take 4 (drop 12 h).

(** The ICMP part of the request and of the reply. *)
Definition icmp_part (m : Ipv4PacketMetadata) (packet : list byte) : list byte :=
  drop 20 (take (im_total_len m) packet).

Definition reply_icmp (k icmp : list byte) : list byte := [x00; x00] ++ k ++ drop 4 icmp.

(** An echo request for [local] that the path must answer. *)
Definition answerable (m : Ipv4PacketMetadata) (packet : list byte) (local : Z) : Prop :=
  im_protocol m = IPPROTO_ICMP /\ im_destination m = local /\ (28 <= im_total_len m)%nat /\
  internet_checksum (icmp_part m packet) = 0 /\
  u8_val <$> (icmp_part m packet !! 0%nat) = Some ICMPV4_ECHO_REQUEST /\
  u8_val <$> (icmp_part m packet !! 1%nat) = Some 0.

Lemma parse_ipv4_Ok_inv (p : list byte) (m : Ipv4PacketMetadata) :
  parse_ipv4_metadata p = Ok m ->
  exists b0 b1 b2 b3 b4 b5 b6 b7 b8 b9 b10 b11 b12 b13 b14 b15 b16 b17 b18 b19 icmp trailing,
  p = [b0; b1; b2; b3; b4; b5; b6; b7; b8; b9; b10; b11; b12; b13; b14; b15; b16; b17; b18; b19]
      ++ icmp ++ trailing /\
  header_ok b0 b1 b2 b3 b4 b5 b6 b7 b8 b9 b10 b11 b12 b13 b14 b15 b16 b17 b18 b19 (icmp ++ trailing) /\
  be_val [b2; b3] = Z.of_nat (20 + length icmp) /\
  m = mkIpv4Metadata (20 + length icmp) 20 (be_val [b12; b13; b14; b15])
        (be_val [b16; b17; b18; b19]) (u8_val b9) (u8_val b8).
Proof.
  intros H. assert (20 <= length p)%nat as Hl.
  { destruct (Nat.ltb_spec (length p) 20) as [Hs|]; [|lia]. exfalso. unfold parse_ipv4_metadata in H.
    by rewrite (proj2 (Nat.ltb_lt _ _)) in H. }
  destruct (split_20 p Hl) as (b0 & b1 & b2 & b3 & b4 & b5 & b6 & b7 & b8 & b9 & b10 & b11 & b12 & b13
    & b14 & b15 & b16 & b17 & b18 & b19 & r & ->).
  apply parse_ipv4_explicit in H as [Hok ->]. pose proof Hok as (_ & _ & Hlen & _).
  exists b0, b1, b2, b3, b4, b5, b6, b7, b8, b9, b10, b11, b12, b13, b14, b15, b16, b17, b18, b19.
  exists (take (Z.to_nat (be_val [b2; b3]) - 20) r), (drop (Z.to_nat (be_val [b2; b3]) - 20) r).
  rewrite take_drop, length_take.
  replace (20 + (Z.to_nat (be_val [b2; b3]) - 20) `min` length r)%nat with (Z.to_nat (be_val [b2; b3])) by lia.
  split_and!; try done. lia.
Qed.

Lemma length_28 (l : list byte) : (8 <= length l)%nat ->
  exists t0 t1 t2 t3 d, l = t0 :: t1 :: t2 :: t3 :: d.
Proof. intros H. do 4 (destruct l as [|? l]; [cbn in H; lia|]). by do 5 eexists. Qed.

Lemma be_bytes_pair (c : Z) : exists k0 k1, be_bytes 2 c = [k0; k1] /\
  (0 <= c <= 65535 -> be_val [k0; k1] = c).
Proof.
  destruct (be_bytes_2 c) as (k0 & k1 & E). exists k0, k1. split; [done|]. by apply be_val_pair_bytes.
Qed.

Lemma synthesize_explicit b0 b1 b2 b3 b4 b5 b6 b7 b8 b9 b10 b11 b12 b13 b14 b15 b16 b17 b18 b19
  (icmp trailing : list byte) (local : Z) :
  let header := [b0; b1; b2; b3; b4; b5; b6; b7; b8; b9; b10; b11; b12; b13; b14; b15; b16; b17; b18; b19] in
  let request := header ++ icmp ++ trailing in
  let m := mkIpv4Metadata (20 + length icmp) 20 (be_val [b12; b13; b14; b15])
             (be_val [b16; b17; b18; b19]) (u8_val b9) (u8_val b8) in
  parse_ipv4_metadata request = Ok m -> answerable m request local ->
  synthesize_icmpv4_echo_reply request local =
  Ok (swap_header header (be_bytes 2 (internet_checksum (swap_header header [x00; x00])))
      ++ reply_icmp (be_bytes 2 (internet_checksum (reply_icmp [x00; x00] icmp))) icmp).
Proof.
  intros header request m Hm (Hp & Hd & Hlen & Hck & Hty & Hcode).
  destruct (be_bytes_pair (internet_checksum (swap_header header [x00; x00]))) as (k0 & k1 & Hk & _).
  destruct (be_bytes_pair (internet_checksum (reply_icmp [x00; x00] icmp))) as (m0 & m1 & Hm01 & _).
  rewrite Hk, Hm01.
  assert (length request = 20 + length icmp + length trailing)%nat as Hreq
    by (unfold request; rewrite !length_app; cbn; lia).
  assert (slice request 20 (20 + length icmp) = Some icmp) as Hicmp by (by apply slice_app_mid).
  assert (icmp_part m request = icmp) as Hpart.
  { unfold icmp_part, request, m. cbn [im_total_len]. rewrite app_assoc, take_app_length'
      by (rewrite length_app; reflexivity). reflexivity. }
  rewrite Hpart in *. cbn [m im_total_len im_protocol im_destination] in *.
  unfold synthesize_icmpv4_echo_reply. rewrite Hm. cbn [result_bind m im_protocol im_destination im_header_len im_total_len im_source].
  rewrite Hp, Hd. rewrite !Z.eqb_refl. cbn [negb].
  rewrite (proj2 (Nat.ltb_ge _ _)) by lia. rewrite Hicmp. cbn [or_panic result_bind].
  assert (0 <= be_val [b2; b3] <= 65535 /\ be_val [b2; b3] = Z.of_nat (20 + length icmp)) as [Hb23 Hb23'].
  { destruct (pair_val b2 b3) as [_ ?]. split; [done|].
    unfold request, header in Hm. apply parse_ipv4_explicit in Hm as [Hok E]. injection E as E.
    destruct Hok as (_ & _ & ? & _). lia. }
  rewrite checksum16_spec by lia. cbn [result_bind]. rewrite Hck. cbn [Z.eqb negb].
  destruct (length_28 icmp ltac:(lia)) as (t0 & t1 & t2 & t3 & d & ->).
  cbn [lookup list_lookup fmap option_fmap option_map] in Hty, Hcode.
  injection Hty as Hty. injection Hcode as Hcode.
  change (request !! 20%nat) with (Some t0). change (request !! (20 + 1)%nat) with (Some t1).
  cbn [or_panic result_bind]. rewrite Hty, Hcode. cbn [Z.eqb Pos.eqb negb orb ICMPV4_ECHO_REQUEST].
  set (icmp := t0 :: t1 :: t2 :: t3 :: d) in *.
  assert (slice request 0 (20 + length icmp) = Some (header ++ icmp)) as ->.
  { apply slice_Some. split; [lia|]. rewrite Nat.sub_0_r.
    transitivity (take (20 + length icmp) ((header ++ icmp) ++ trailing));
      [by rewrite take_app_length' by reflexivity|by rewrite <- app_assoc]. }
  cbn [or_panic result_bind]. unfold header, icmp. cbn [app].
  unfold ipv4_octets. rewrite <- Hd.
  pose proof (be_bytes_val [b16; b17; b18; b19]) as Ed. pose proof (be_bytes_val [b12; b13; b14; b15]) as Es.
  cbn [length] in Ed, Es. rewrite Ed, Es.
  cbn -[checksum16 be_bytes slice u8_of].
  change (slice (b0 :: b1 :: b2 :: b3 :: b4 :: b5 :: b6 :: b7 :: u8_of 64 :: b9 :: x00 :: x00 :: b16 :: b17
    :: b18 :: b19 :: b12 :: b13 :: b14 :: b15 :: t0 :: t1 :: t2 :: t3 :: d) 0 20)
    with (Some (swap_header header [x00; x00])).
  cbn [or_panic result_bind]. rewrite checksum16_spec by (cbn; lia). cbn [result_bind].
  rewrite Hk. cbn -[checksum16 be_bytes slice u8_of internet_checksum].
  match goal with |- context [slice ?l 20 ?n] =>
    replace (slice l 20 n) with (Some (reply_icmp [x00; x00] icmp)) end.
  2:{ symmetry. apply slice_Some. cbn [length]. split; [lia|]. cbn.
      by rewrite firstn_all. }
  cbn [or_panic result_bind].
  rewrite checksum16_spec by (change (length (reply_icmp [x00; x00] icmp)) with (length icmp); lia).
  cbn [result_bind].
  rewrite Hm01. cbn -[u8_of]. reflexivity.
Qed.

Lemma checksum_field (l l0 : list byte) (k0 k1 : byte) :
  be_val [k0; k1] = internet_checksum l0 -> word_sum l = word_sum l0 + be_val [k0; k1] ->
  internet_checksum l = 0.
Proof.
  intros Hk Hl. unfold internet_checksum. rewrite Hl, Hk. apply checksum_completes, word_sum_nonneg.
Qed.

(** A parsed packet is answerable or dropped with a reason. *)
Lemma synthesize_cases (request : list byte) (local : Z) (m : Ipv4PacketMetadata) :
  parse_ipv4_metadata request = Ok m ->
  answerable m request local \/ exists e, synthesize_icmpv4_echo_reply request local = Err e.
Proof.
  intros Hm. unfold synthesize_icmpv4_echo_reply. rewrite Hm. cbn [result_bind].
  apply parse_ipv4_Ok_inv in Hm as (b0 & b1 & b2 & b3 & b4 & b5 & b6 & b7 & b8 & b9 & b10 & b11 & b12
    & b13 & b14 & b15 & b16 & b17 & b18 & b19 & icmp & trailing & -> & Hok & Hlen & ->).
  cbn [im_protocol im_destination im_total_len im_header_len].
  destruct (Z.eqb_spec (u8_val b9) IPPROTO_ICMP); [|right; by eexists]. cbn [negb].
  destruct (Z.eqb_spec (be_val [b16; b17; b18; b19]) local); [|right; by eexists]. cbn [negb].
  destruct (Nat.ltb_spec (20 + length icmp - 20) 8); [right; by eexists|].
  rewrite slice_app_mid by done. cbn [or_panic result_bind].
  destruct (pair_val b2 b3) as [_ Hb23].
  rewrite checksum16_spec by lia. cbn [result_bind].
  destruct (Z.eqb_spec (internet_checksum icmp) 0); [|right; by eexists]. cbn [negb].
  destruct (length_28 icmp ltac:(lia)) as (t0 & t1 & t2 & t3 & d & ->).
  match goal with |- context [?l !! 20%nat] => change (l !! 20%nat) with (Some t0) end.
  match goal with |- context [?l !! (20 + 1)%nat] => change (l !! (20 + 1)%nat) with (Some t1) end.
  cbn [or_panic result_bind].
  destruct (Z.eqb_spec (u8_val t0) ICMPV4_ECHO_REQUEST) as [Ht0|]; [|right; by eexists].
  destruct (Z.eqb_spec (u8_val t1) 0) as [Ht1|]; [|right; by eexists]. left.
  unfold answerable, icmp_part. cbn [im_protocol im_destination im_total_len].
  match goal with |- context [take ?n (?a ++ ?b ++ ?c)] =>
    replace (take n (a ++ b ++ c)) with (a ++ b) by (by rewrite app_assoc, take_app_length') end.
  cbn [drop app]. split_and!; try done; [lia|cbn; by rewrite Ht0|cbn; by rewrite Ht1].
Qed.

Lemma synthesize_answerable (request : list byte) (local : Z) (m : Ipv4PacketMetadata) :
  parse_ipv4_metadata request = Ok m -> answerable m request local ->
  is_ok (synthesize_icmpv4_echo_reply request local) = true.
Proof.
  intros Hm Ha. pose proof Hm as Hinv.
  apply parse_ipv4_Ok_inv in Hinv as (b0 & b1 & b2 & b3 & b4 & b5 & b6 & b7 & b8 & b9 & b10 & b11 & b12
    & b13 & b14 & b15 & b16 & b17 & b18 & b19 & icmp & trailing & -> & Hok & Hlen & ->).
  by rewrite synthesize_explicit.
Qed.

Lemma synthesize_Ok_inv (request reply : list byte) (local : Z) :
  synthesize_icmpv4_echo_reply request local = Ok reply ->
  exists m, parse_ipv4_metadata request = Ok m /\ answerable m request local.
Proof.
  intros H. pose proof H as H'. unfold synthesize_icmpv4_echo_reply in H'.
  apply result_bind_Ok in H' as (m & Hm & _). exists m. split; [done|].
  destruct (synthesize_cases request local m Hm) as [?|[e He]]; [done|congruence].
Qed.

Lemma parse_ipv4_returns (p : list byte) : returns (parse_ipv4_metadata p).
Proof.
  unfold parse_ipv4_metadata. destruct (Nat.ltb_spec (length p) 20); [done|].
  destruct (split_20 p ltac:(lia)) as (b0 & b1 & b2 & b3 & b4 & b5 & b6 & b7 & b8 & b9 & b10 & b11 & b12
    & b13 & b14 & b15 & b16 & b17 & b18 & b19 & r & ->).
  match goal with |- context [?h ++ r] => set (header := h) end.
  change ((header ++ r) !! 0%nat) with (Some b0). cbn [or_panic result_bind].
  destruct (negb (Z.shiftr (u8_val b0) 4 =? 4)); [done|]. destruct (_ <? 5); [done|].
  destruct (Z.eqb_spec (Z.land (u8_val b0) 15) 5) as [->|]; [|done]. cbn [negb].
  change (Z.to_nat 5 * 4)%nat with 20%nat. destruct (_ <? 20)%nat; [done|].
  change (slice (header ++ r) 2 4) with (Some [b2; b3]). cbn [or_panic result_bind].
  change (device_read_u16 [b2; b3]) with (@Ok Z PacketDropReason (be_val [b2; b3])). cbn [result_bind].
  destruct (_ <? 20)%nat; [done|]. destruct (_ <? _)%nat; [done|].
  change (slice (header ++ r) 6 8) with (Some [b6; b7]). cbn [or_panic result_bind].
  change (device_read_u16 [b6; b7]) with (@Ok Z PacketDropReason (be_val [b6; b7])). cbn [result_bind].
  destruct (_ || _); [done|].
  change (slice (header ++ r) 0 20) with (Some header). cbn [or_panic result_bind].
  rewrite checksum16_spec by (cbn; lia). cbn [result_bind]. destruct (negb _); [done|].
  change (slice (header ++ r) 12 16) with (Some [b12; b13; b14; b15]).
  change (slice (header ++ r) 16 20) with (Some [b16; b17; b18; b19]).
  change ((header ++ r) !! 9%nat) with (Some b9). change ((header ++ r) !! 8%nat) with (Some b8). done.
Qed.

Lemma parse_icmpv4_returns (p : list byte) (m : Ipv4PacketMetadata) :
  parse_ipv4_metadata p = Ok m -> returns (parse_icmpv4_metadata p m).
Proof.
  intros Hm. apply parse_ipv4_Ok_inv in Hm as (b0 & b1 & b2 & b3 & b4 & b5 & b6 & b7 & b8 & b9 & b10 & b11
    & b12 & b13 & b14 & b15 & b16 & b17 & b18 & b19 & icmp & trailing & -> & _ & _ & ->).
  unfold parse_icmpv4_metadata. cbn [im_protocol im_header_len im_total_len]. case_match; [done|].
  rewrite slice_app_mid by done. cbn [or_panic result_bind].
  destruct (Nat.ltb_spec (length icmp) 8); [done|].
  do 8 (destruct icmp as [|? icmp]; [cbn in *; lia|]). done.
Qed.

(** A packet that is answered is an echo request for the ICMP parser too. *)
Lemma answerable_icmp (p : list byte) (m : Ipv4PacketMetadata) (local : Z) :
  parse_ipv4_metadata p = Ok m -> answerable m p local ->
  exists icmp, parse_icmpv4_metadata p m = Ok icmp /\ ic_ty icmp = ICMPV4_ECHO_REQUEST /\ ic_code icmp = 0.
Proof.
  intros Hm (Hp & _ & Hl & _ & Hty & Hcode). unfold icmp_part in Hty, Hcode.
  apply parse_ipv4_Ok_inv in Hm as (b0 & b1 & b2 & b3 & b4 & b5 & b6 & b7 & b8 & b9 & b10 & b11
    & b12 & b13 & b14 & b15 & b16 & b17 & b18 & b19 & icmp & trailing & -> & _ & _ & ->).
  cbn [im_protocol im_total_len] in *. rewrite app_assoc, take_app_length' in Hty, Hcode by (rewrite length_app; done).
  unfold parse_icmpv4_metadata. cbn [im_protocol im_header_len im_total_len]. rewrite Hp, Z.eqb_refl.
  cbn [negb]. rewrite slice_app_mid by done. cbn [or_panic result_bind].
  rewrite (proj2 (Nat.ltb_ge _ _)) by lia.
  do 8 (destruct icmp as [|? icmp]; [cbn in *; lia|]). eexists. split; [reflexivity|]. cbn in *. by simplify_eq.
Qed.

Lemma synthesize_returns (packet : list byte) (local : Z) : returns (synthesize_icmpv4_echo_reply packet local).
Proof.
  pose proof (parse_ipv4_returns packet) as Hr.
  destruct (parse_ipv4_metadata packet) as [m|e| |] eqn:Hm; try done.
  - destruct (synthesize_cases packet local m Hm) as [Ha|[e ->]]; [|done].
    pose proof (synthesize_answerable packet local m Hm Ha). by destruct (synthesize_icmpv4_echo_reply _ _).
  - unfold synthesize_icmpv4_echo_reply. by rewrite Hm.
Qed.

(** ** Properties *)

(** [C33] The checksum loop computes the RFC 1071 internet checksum for every buffer up
    to 131070 bytes: the [u32] accumulator cannot overflow and folding ends after at
    most two carries. *)
Theorem checksum16_is_internet_checksum (bytes : list byte) :
  Z.of_nat (length bytes) <= 131070 ->
  @checksum16 PacketDropReason bytes = Ok (internet_checksum bytes) /\
  0 <= internet_checksum bytes <= u16_max /\ sum16 0 bytes = word_sum bytes /\ word_sum bytes < 2 ^ 32.
Proof.
  intros H. split; [by apply checksum16_spec|]. split; [apply internet_checksum_range|].
  pose proof (word_sum_range bytes). rewrite sum16_word_sum by lia. lia.
Qed.

Lemma checksum16_is_internet_checksum_witness :
  @checksum16 PacketDropReason [x00; x01; xf2; x03; xf4; xf5; xf6; xf7] =
  Ok (internet_checksum [x00; x01; xf2; x03; xf4; xf5; xf6; xf7]).
Proof. apply checksum16_is_internet_checksum. vm_compute. discriminate. Defined.

(** [C32] The broker answers a ping exactly when it should and answers it correctly: a
    reply is produced iff the packet is a valid IPv4 ICMP echo request (valid checksums,
    no options, no fragment) for the local address; the reply is a valid IPv4 packet of
    the same length from the local address to the requester with TTL 64, its ICMP part
    has type and code 0, a valid checksum, and the request's identifier, sequence number
    and payload. *)
Theorem echo_reply_correct (request : list byte) (local : Z) :
  (forall reply, synthesize_icmpv4_echo_reply request local = Ok reply ->
   exists m, parse_ipv4_metadata request = Ok m /\ answerable m request local /\
     length reply = im_total_len m /\
     parse_ipv4_metadata reply =
       Ok (mkIpv4Metadata (im_total_len m) 20 local (im_source m) IPPROTO_ICMP 64) /\
     internet_checksum (drop 20 reply) = 0 /\
     take 2 (drop 20 reply) = [x00; x00] /\ drop 24 reply = drop 4 (icmp_part m request)) /\
  (forall m, parse_ipv4_metadata request = Ok m -> answerable m request local ->
   is_ok (synthesize_icmpv4_echo_reply request local) = true).
Proof.
  assert (forall m, parse_ipv4_metadata request = Ok m -> answerable m request local ->
    exists reply, synthesize_icmpv4_echo_reply request local = Ok reply /\
      length reply = im_total_len m /\
      parse_ipv4_metadata reply =
        Ok (mkIpv4Metadata (im_total_len m) 20 local (im_source m) IPPROTO_ICMP 64) /\
      internet_checksum (drop 20 reply) = 0 /\
      take 2 (drop 20 reply) = [x00; x00] /\ drop 24 reply = drop 4 (icmp_part m request)) as Hmain.
  { intros m Hm Ha. pose proof Hm as Hinv.
    apply parse_ipv4_Ok_inv in Hinv as (b0 & b1 & b2 & b3 & b4 & b5 & b6 & b7 & b8 & b9 & b10 & b11 & b12
      & b13 & b14 & b15 & b16 & b17 & b18 & b19 & icmp & trailing & -> & Hok & Hlen & ->).
    eexists. split; [by apply synthesize_explicit|].
    destruct Ha as (Hp & Hd & Hl & _). cbn [im_total_len im_protocol im_destination im_source] in *.
    set (header := [b0; b1; b2; b3; b4; b5; b6; b7; b8; b9; b10; b11; b12; b13; b14; b15; b16; b17; b18; b19]).
    destruct (be_bytes_pair (internet_checksum (swap_header header [x00; x00]))) as (k0 & k1 & -> & Hk).
    destruct (be_bytes_pair (internet_checksum (reply_icmp [x00; x00] icmp))) as (m0 & m1 & -> & Hm01).
    specialize (Hk (internet_checksum_range _)). specialize (Hm01 (internet_checksum_range _)).
    destruct (length_28 icmp ltac:(lia)) as (t0 & t1 & t2 & t3 & d & ->).
    assert (length (reply_icmp [m0; m1] (t0 :: t1 :: t2 :: t3 :: d)) = length (t0 :: t1 :: t2 :: t3 :: d)) as Hrl
      by reflexivity.
    split; [rewrite length_app, Hrl; reflexivity|]. split; [|split; [|split]].
    - unfold header, swap_header. cbn [take drop app]. apply parse_ipv4_explicit. split.
      + destruct Hok as (H1 & H2 & H3 & H4 & H5 & _). unfold header_ok. split_and!; try done; try lia.
        apply (checksum_field _ (swap_header header [x00; x00]) k0 k1 Hk).
        unfold header, swap_header. cbn [take drop app]. rewrite !word_sum_pair.
        replace (be_val [x00; x00]) with 0 by reflexivity. cbn [word_sum]. lia.
      + rewrite <- Hd, Hp, Hlen, Nat2Z.id. reflexivity.
    - unfold header, swap_header. cbn [take drop app].
      apply (checksum_field _ (reply_icmp [x00; x00] (t0 :: t1 :: t2 :: t3 :: d)) m0 m1 Hm01).
      unfold reply_icmp. cbn [drop app]. rewrite !word_sum_pair.
      replace (be_val [x00; x00]) with 0 by reflexivity. lia.
    - reflexivity.
    - unfold icmp_part. cbn [im_total_len].
      match goal with |- context [take ?n (?a ++ ?b ++ ?c)] =>
        replace (take n (a ++ b ++ c)) with (a ++ b) by (by rewrite app_assoc, take_app_length') end.
      reflexivity. }
  split.
  - intros reply Hr. destruct (synthesize_Ok_inv _ _ _ Hr) as (m & Hm & Ha).
    exists m. destruct (Hmain m Hm Ha) as (reply' & Hr' & H). rewrite Hr in Hr'. injection Hr' as <-. done.
  - intros m Hm Ha. by apply (synthesize_answerable request local m).
Qed.
