(* ===== verification/Effects.v ===== *)
(** * Programs that talk to the host

    Code that calls the operating system is a [Prog]: a tree of host
    operations, each followed by a continuation on the host's answer.  [run]
    executes a program against an environment, an arbitrary function from the
    history to what the next call comes to, so a theorem about every environment
    covers every host behaviour, timing and failure.  A call that panics where the
    standard library does ([eprintln!] on a stderr that fails, [thread::spawn] where
    no thread can be made) ends the run of its thread there.  [wp] is the weakest
    precondition of a program over all valid answers; [wp_run] says what it means for
    the runs. *)

From S2P Require Import Prelude Text NetAddr Event Policy Flow Dns AuditLog Config.

(** ** Programs over an interface *)

Record Interface : Type := mkInterface {
  op : Type;
  answer : op -> Type;
  (** What the documentation of the operation promises of its answers. *)
  valid : forall o, answer o -> Prop;
  (** The operations that may panic instead of answering. *)
  may_panic : op -> bool
}.

Section programs.
Context {I : Interface}.

Inductive Prog (A : Type) : Type :=
| Ret (a : A)
| Do (o : op I) (k : answer I o -> Prog A).

#[global] Arguments Ret {A} a.
#[global] Arguments Do {A} o k.

Fixpoint prog_bind {A B} (p : Prog A) (f : A -> Prog B) : Prog B :=
  match p with
  | Ret a => f a
  | Do o k => Do o (fun r => prog_bind (k r) f)
  end.

Definition perform (o : op I) : Prog (answer I o) := Do o Ret.

(** The [?] operator inside a program. *)
Definition prog_try {A B E} (p : Prog (Result A E)) (f : A -> Prog (Result B E)) : Prog (Result B E) :=
  prog_bind p (fun r =>
    match r with
    | Ok a => f a
    | Err e => Ret (Err e)
    | Panic => Ret Panic
    | OutOfFuel => Ret OutOfFuel
    end).

(** An operation with its answer. *)
Definition Action : Type := { o : op I & answer I o }.

(** What the next call comes to: its answer, or a panic of the call itself. *)
Definition Env : Type := list Action -> forall o, option (answer I o).

Definition env_ok (env : Env) : Prop :=
  forall h o, match env h o with Some r => valid I o r | None => may_panic I o = true end.

(** How the run of a thread ends: with the result of its program, or in the call that
    panicked.  (The destructors that run while a thread unwinds are not part of the
    run.) *)
Inductive Ending (A : Type) : Type :=
| Finished (a : A)
| PanickedIn (o : op I).

#[global] Arguments Finished {A} a.
#[global] Arguments PanickedIn {A} o.

Fixpoint run {A} (env : Env) (h : list Action) (p : Prog A) : Ending A * list Action :=
  match p with
  | Ret a => (Finished a, h)
  | Do o k =>
      match env h o with
      | Some r => run env (h ++ [existT o r]) (k r)
      | None => (PanickedIn o, h)
      end
  end.

(** An environment in which every call answers; [replay] is its runs. *)
Definition Answers : Type := list Action -> forall o, answer I o.

Definition answering (answers : Answers) : Env := fun h o => Some (answers h o).

Definition answers_ok (answers : Answers) : Prop := forall h o, valid I o (answers h o).

Fixpoint replay {A} (answers : Answers) (h : list Action) (p : Prog A) : A * list Action :=
  match p with
  | Ret a => (a, h)
  | Do o k => replay answers (h ++ [existT o (answers h o)]) (k (answers h o))
  end.

Lemma answering_ok answers : answers_ok answers -> env_ok (answering answers).
Proof. intros H h o. apply H. Qed.

Lemma run_answering {A} answers (p : Prog A) : forall h,
  run (answering answers) h p = (Finished (fst (replay answers h p)), snd (replay answers h p)).
Proof. induction p as [a|o k IH]; intros h; [done|]. apply IH. Qed.

Lemma replay_bind {A B} answers (p : Prog A) (f : A -> Prog B) : forall h,
  replay answers h (prog_bind p f) = let (a, h') := replay answers h p in replay answers h' (f a).
Proof. induction p as [a|o k IH]; intros h; cbn; [done|apply IH]. Qed.

Lemma run_bind {A B} (env : Env) (p : Prog A) (f : A -> Prog B) : forall h,
  run env h (prog_bind p f) =
  match run env h p with
  | (Finished a, h') => run env h' (f a)
  | (PanickedIn o, h') => (PanickedIn o, h')
  end.
Proof. induction p as [a|o k IH]; intros h; cbn; [done|]. by destruct (env h o). Qed.

(** [step h o]: the operation [o] may happen after the history [h]. *)
Fixpoint wp {A} (step : list Action -> op I -> Prop) (Q : list Action -> A -> Prop)
  (h : list Action) (p : Prog A) : Prop :=
  match p with
  | Ret a => Q h a
  | Do o k => step h o /\ forall r, valid I o r -> wp step Q (h ++ [existT o r]) (k r)
  end.

(** Every operation of [t], run after [h], is a permitted step. *)
Definition steps_ok (step : list Action -> op I -> Prop) (h t : list Action) : Prop :=
  forall t1 e t2, t = t1 ++ e :: t2 -> step (h ++ t1) (projT1 e).

Lemma wp_bind {A B} step (Q : list Action -> B -> Prop) (p : Prog A) (f : A -> Prog B) : forall h,
  wp step (fun h a => wp step Q h (f a)) h p -> wp step Q h (prog_bind p f).
Proof.
  induction p as [a|o k IH]; intros h; cbn; [done|]. intros [Hs H]. split; [done|]. auto.
Qed.

Lemma wp_mono {A} (step step' : list Action -> op I -> Prop) (Q Q' : list Action -> A -> Prop) (p : Prog A) :
  forall h, (forall h o, step h o -> step' h o) -> (forall h a, Q h a -> Q' h a) ->
  wp step Q h p -> wp step' Q' h p.
Proof.
  induction p as [a|o k IH]; intros h Hs HQ; cbn; [auto|]. intros [H1 H2]. split; [auto|].
  intros r Hr. apply IH; auto.
Qed.

Lemma wp_try {A B E} step (Q : list Action -> Result B E -> Prop) (p : Prog (Result A E))
  (f : A -> Prog (Result B E)) h :
  wp step (fun h r => match r with
                      | Ok a => wp step Q h (f a)
                      | Err e => Q h (Err e)
                      | Panic => Q h Panic
                      | OutOfFuel => Q h OutOfFuel
                      end) h p ->
  wp step Q h (prog_try p f).
Proof.
  intros H. apply wp_bind. eapply wp_mono; [done| |exact H]. intros h' [a|e| |]; auto.
Qed.

Lemma wp_perform (o : op I) step (Q : list Action -> answer I o -> Prop) h :
  step h o -> (forall r, valid I o r -> Q (h ++ [existT o r]) r) -> wp step Q h (perform o).
Proof. intros H1 H2. cbn. auto. Qed.

Lemma steps_ok_cons step h e t :
  step h (projT1 e) -> steps_ok step (h ++ [e]) t -> steps_ok step h (e :: t).
Proof.
  intros He Ht t1 e' t2 H. destruct t1 as [|x t1]; cbn in H; simplify_eq.
  - by rewrite app_nil_r.
  - change (h ++ x :: t1) with (h ++ ([x] ++ t1)). rewrite app_assoc. eapply Ht. done.
Qed.

(** A run after [h] that takes permitted steps only and ends in [Q], or with the panic
    of a permitted call that may panic. *)
Definition executes {A} (step : list Action -> op I -> Prop) (Q : list Action -> A -> Prop)
  (h : list Action) (e : Ending A * list Action) : Prop :=
  (exists t, snd e = h ++ t /\ steps_ok step h t) /\
  match fst e with
  | Finished a => Q (snd e) a
  | PanickedIn o => may_panic I o = true /\ step (snd e) o
  end.

(** A weakest precondition describes every run. *)
Lemma wp_run {A} step (Q : list Action -> A -> Prop) (env : Env) (p : Prog A) : forall h,
  env_ok env -> wp step Q h p -> executes step Q h (run env h p).
Proof.
  induction p as [a|o k IH]; intros h Henv; cbn.
  - intros HQ. split; [|done]. exists []. rewrite app_nil_r. split; [done|]. by intros [|].
  - intros [Hs H]. pose proof (Henv h o) as Ho. destruct (env h o) as [r|].
    + destruct (IH r (h ++ [existT o r]) Henv (H r Ho)) as [(t & E & Ht) HQ]. split; [|done].
      exists (existT o r :: t). rewrite E, <- app_assoc. split; [done|]. by apply steps_ok_cons.
    + split; [|done]. exists []. rewrite app_nil_r. split; [done|]. by intros [|].
Qed.

(** A run in which every call answers finishes. *)
Lemma executes_finished {A} step (Q : list Action -> A -> Prop) answers (p : Prog A) h :
  executes step Q h (run (answering answers) h p) ->
  let '(a, h') := replay answers h p in Q h' a /\ exists t, h' = h ++ t /\ steps_ok step h t.
Proof.
  rewrite run_answering. destruct (replay answers h p) as [a h']. by intros [Ht HQ].
Qed.

(** ** Components that share a history

    A component that runs in turns with others sees its own actions only: its
    specification over its own history describes what it adds to the common one. *)

Lemma steps_ok_snoc step h t e : steps_ok step h t -> step (h ++ t) (projT1 e) -> steps_ok step h (t ++ [e]).
Proof.
  intros Ht He t1 e' t2 H. destruct t2 as [|x t2 _] using rev_ind.
  - apply app_inj_tail in H as [-> ->]. done.
  - rewrite app_comm_cons, app_assoc in H. apply app_inj_tail in H as [-> _]. by eapply Ht.
Qed.

Lemma wp_local {A} step (Q : list Action -> A -> Prop) (p : Prog A) : forall own all,
  steps_ok step [] own -> wp step Q own p ->
  wp (fun all' o => exists t, all' = all ++ t /\ steps_ok step [] (own ++ t) /\ step (own ++ t) o)
    (fun all' a => exists t, all' = all ++ t /\ steps_ok step [] (own ++ t) /\ Q (own ++ t) a) all p.
Proof.
  induction p as [a|o k IH]; intros own all Hown; cbn.
  - intros HQ. exists []. by rewrite !app_nil_r.
  - intros [Hs Hk]. split; [exists []; by rewrite !app_nil_r|]. intros r Hr.
    specialize (IH r (own ++ [existT o r]) (all ++ [existT o r])).
    eapply wp_mono; [| |apply IH; [by apply steps_ok_snoc|by apply Hk]].
    + intros all' o' (t & -> & Ht). exists (existT o r :: t). by rewrite <- !app_assoc in *.
    + intros all' b (t & -> & Ht & HQ). exists (existT o r :: t). by rewrite <- !app_assoc in *.
Qed.

(** [all] is an interleaving of the histories [owns]: every action belongs to
    exactly one of them, in order. *)
Inductive Interleaves : list (list Action) -> list Action -> Prop :=
| interleaves_nil owns : Forall (fun own => own = []) owns -> Interleaves owns []
| interleaves_snoc owns all i own e :
    Interleaves owns all -> owns !! i = Some own ->
    Interleaves (<[i := own ++ [e]]> owns) (all ++ [e]).

Lemma interleaves_turn i t : forall owns all own,
  Interleaves owns all -> owns !! i = Some own -> Interleaves (<[i := own ++ t]> owns) (all ++ t).
Proof.
  induction t as [|e t IH]; intros owns all own Ho Hi.
  - rewrite !app_nil_r, list_insert_id by done. done.
  - rewrite (cons_middle e own t), (cons_middle e all t), !app_assoc.
    replace (<[i := (own ++ [e]) ++ t]> owns) with (<[i := (own ++ [e]) ++ t]> (<[i := own ++ [e]]> owns))
      by apply list_insert_insert_eq.
    apply IH; [by apply interleaves_snoc|]. apply list_lookup_insert_eq. by eapply lookup_lt_Some.
Qed.

(** What one component did is part of the whole, in its order. *)
Lemma interleaves_sublist owns all i own : Interleaves owns all -> owns !! i = Some own -> own `sublist_of` all.
Proof.
  intros H. revert i own. induction H as [owns Hn|owns all j own' e' H IH Hj]; intros i own Hi.
  - rewrite Forall_lookup in Hn. by rewrite (Hn i own Hi).
  - destruct (decide (i = j)) as [->|Hne].
    + rewrite list_lookup_insert_eq in Hi by (by eapply lookup_lt_Some). injection Hi as <-.
      apply sublist_app; [by eapply IH|done].
    + rewrite list_lookup_insert_ne in Hi by done. apply sublist_inserts_r. by eapply IH.
Qed.

Lemma sublist_In {A} (l k : list A) x : l `sublist_of` k -> List.In x l -> List.In x k.
Proof. intros H. rewrite <- !list_elem_of_In. by apply sublist_subseteq. Qed.

(** A program adds to the history. *)
Lemma wp_grows {A} step (Q : list Action -> A -> Prop) (p : Prog A) : forall h,
  wp step Q h p -> wp step (fun h' a => (exists t, h' = h ++ t) /\ Q h' a) h p.
Proof.
  induction p as [a|o k IH]; intros h H; cbn in *; [split; [exists []; by rewrite app_nil_r|done]|].
  destruct H as [Hs H]. split; [done|]. intros r Hr. eapply wp_mono; [done| |apply IH, H, Hr].
  intros h' a [[t ->] HQ]. split; [|done]. exists (existT o r :: t). by rewrite <- app_assoc.
Qed.

End programs.

Arguments Prog I A : clear implicits.
Arguments Action I : clear implicits.
Arguments Env I : clear implicits.
Arguments Answers I : clear implicits.

Notation "'let!' p := m 'in' k" := (prog_try m (fun p => k))
  (at level 10, p strict pattern, m at level 200, k at level 200,
   format "'[v' 'let!'  p  :=  m  'in' '/' k ']'") : rust_scope.
Notation "'let*' p := m 'in' k" := (prog_bind m (fun p => k))
  (at level 10, p strict pattern, m at level 200, k at level 200,
   format "'[v' 'let*'  p  :=  m  'in' '/' k ']'") : rust_scope.

(** ** [std::io] errors *)

Module IoErrorKind.
Inductive IoErrorKind : Type :=
| InvalidInput | InvalidData | PermissionDenied | ConnectionRefused | ConnectionReset
| ConnectionAborted | NotConnected | UnexpectedEof | BrokenPipe | TimedOut | WouldBlock
| Interrupted | Unsupported | AddrNotAvailable | NotFound | AlreadyExists | Other
| Unlisted (code : Z).
End IoErrorKind.
Abbreviation IoErrorKind := IoErrorKind.IoErrorKind.

Record IoError : Type := mkIoError { io_kind : IoErrorKind; io_message : str }.

#[export] Instance IoErrorKind_eq_dec : EqDecision IoErrorKind.
Proof. solve_decision. Defined.
#[export] Instance IoError_eq_dec : EqDecision IoError.
Proof. solve_decision. Defined.

(** ** The host interface

    The standard-library calls the broker makes, with socket handles as
    numbers.  [AuditLock] answers the shared audit buffer as it is when the
    mutex is taken, or the poisoned error; [AuditUnlock] releases it.
    [TcpSpawnCopy] starts a thread that copies one stream to another and then
    shuts the target's write side; [TcpJoinCopy] waits for it.  [Eprintln] is a
    diagnostic line, whose text is not modelled.  [TryAcquire] is a call of the
    connection limiter (see [Limiter]) and [SpawnHandler] hands a connection to
    a new handler thread.  [InstantNow] is the monotonic clock.  [SpawnConnect]
    starts a worker thread that connects through the egress adapter and sends
    the result to a channel, which [TryRecvConnect] polls.  The [Sock]
    operations are the calls made of a [smoltcp] TCP socket, a third-party
    stack: its answers are arbitrary, within the documented bounds of
    [recv_slice] and [send_slice]; the [UdpSock] operations are those made of a
    UDP socket, whose [recv] answers a payload of any length.  [SpawnWorker]
    starts the worker thread of a datagram, with what its closure captures, and
    [TryRecvWorker] polls the channel of the workers' results.  [IfacePoll] runs
    the stack, [Sleep] pauses the loop. *)

Inductive Shutdown : Type := ShutdownRead | ShutdownWrite | ShutdownBoth.

(** A [smoltcp::wire::IpEndpoint]: the stack is built for IPv4 only. *)
Record SmolEndpoint : Type := mkSmolEndpoint { se_addr : Z; se_port : Z }.

(** [mpsc::TryRecvError]. *)
Inductive TryRecvError : Type := TryRecvEmpty | TryRecvDisconnected.

(** [udp::UdpMetadata]: the sandbox side and the address it sent to. *)
Record UdpMetadata : Type := mkUdpMetadata {
  um_endpoint : SmolEndpoint;
  um_local_address : option Z
}.

(** What the closures of the worker threads capture. *)
Module UdpWorkerJob.
Inductive UdpWorkerJob : Type :=
| Dns (request : DnsEgressRequest) (payload : list byte) (timeout : Duration) (question : DnsQuestion)
    (sandbox_id : SandboxId) (metadata : UdpMetadata) (source : TransportEndpoint)
| Forward (request : UdpEgressRequest) (payload : list byte) (timeout : Duration) (handle : Z)
    (metadata : UdpMetadata) (source destination : TransportEndpoint) (key : FlowKey).
End UdpWorkerJob.
Abbreviation UdpWorkerJob := UdpWorkerJob.UdpWorkerJob.

(** What the workers send back. *)
Module UdpWorkerResult.
Inductive UdpWorkerResult : Type :=
| Dns (metadata : UdpMetadata) (source : TransportEndpoint) (response : Result (list byte) IoError)
    (response_observation : option DnsResponseObservation) (cache_entries : list DnsCacheEntry)
| Forward (handle : Z) (metadata : UdpMetadata) (source destination : TransportEndpoint) (key : FlowKey)
    (response : Result (option (list byte)) IoError).
End UdpWorkerResult.
Abbreviation UdpWorkerResult := UdpWorkerResult.UdpWorkerResult.

(** The [io::Result] a worker sends is a value or an error. *)
Definition worker_returned (r : UdpWorkerResult) : Prop :=
  match r with
  | UdpWorkerResult.Dns _ _ response _ _ => returns response
  | UdpWorkerResult.Forward _ _ _ _ _ response => returns response
  end.

Module HostOp.
Inductive HostOp : Type :=
| Now
| InstantNow
| TcpConnect (addr : SocketAddr) (timeout : option Duration)
| TcpSetNonblocking (stream : Z)
| TcpSetReadTimeout (stream : Z) (timeout : option Duration)
| TcpRead (stream : Z) (max : nat)
| TcpReadExact (stream : Z) (len : nat)
| TcpWrite (stream : Z) (bytes : list byte)
| TcpWriteAll (stream : Z) (bytes : list byte)
| TcpShutdown (stream : Z) (how : Shutdown)
| TcpTryClone (stream : Z)
| TcpSpawnCopy (from to : Z)
| TcpCopy (from to : Z)
| TcpJoinCopy (from to : Z)
| TcpListen (addr : SocketAddr)
| TcpLocalAddr (listener : Z)
| TcpAccept (listener : Z)
| UdpBind (addr : SocketAddr)
| UdpSetReadTimeout (socket : Z) (timeout : Duration)
| UdpSetWriteTimeout (socket : Z) (timeout : Duration)
| UdpSendTo (socket : Z) (bytes : list byte) (addr : SocketAddr)
| UdpRecv (socket : Z) (max : nat)
| ResolveHost (host : str) (port : Z)
| StderrWriteAll (bytes : list byte)
| Eprintln
| AuditLock
| AuditUnlock (buffer : AuditBuffer)
| TryAcquire
| SpawnHandler (stream : Z)
| SpawnConnect (request : TcpEgressRequest)
| TryRecvConnect (receiver : Z)
| SockNew
| SockIsOpen (socket : Z)
| SockIsActive (socket : Z)
| SockMayRecv (socket : Z)
| SockCanRecv (socket : Z)
| SockCanSend (socket : Z)
| SockLocalEndpoint (socket : Z)
| SockRemoteEndpoint (socket : Z)
| SockListen (socket : Z) (port : Z)
| SockRecvSlice (socket : Z) (max : nat)
| SockSendSlice (socket : Z) (bytes : list byte)
| SockClose (socket : Z)
| SockAbort (socket : Z)
| UdpSockNew
| UdpSockBind (socket port : Z)
| UdpSockCanRecv (socket : Z)
| UdpSockRecv (socket : Z)
| UdpSockSendSlice (socket : Z) (bytes : list byte) (metadata : UdpMetadata)
| SpawnWorker (job : UdpWorkerJob)
| TryRecvWorker
| IfacePoll
| Sleep (duration : Duration).
End HostOp.
Abbreviation HostOp := HostOp.HostOp.

Definition host_answer (o : HostOp) : Type :=
  match o with
  | HostOp.Now => SystemTime
  | HostOp.InstantNow => Z
  | HostOp.SpawnConnect _ => Z
  | HostOp.TryRecvConnect _ => Result (Result Z IoError) TryRecvError
  | HostOp.SockIsOpen _ | HostOp.SockIsActive _ | HostOp.SockMayRecv _ | HostOp.SockCanRecv _
  | HostOp.SockCanSend _ => bool
  | HostOp.SockLocalEndpoint _ | HostOp.SockRemoteEndpoint _ => option SmolEndpoint
  | HostOp.SockListen _ _ => Result unit str
  | HostOp.SockRecvSlice _ _ => Result (list byte) str
  | HostOp.SockSendSlice _ _ => Result nat str
  | HostOp.SockClose _ | HostOp.SockAbort _ => unit
  | HostOp.UdpSockNew | HostOp.SockNew => Z
  | HostOp.UdpSockBind _ _ | HostOp.UdpSockSendSlice _ _ _ => Result unit str
  | HostOp.UdpSockCanRecv _ => bool
  | HostOp.UdpSockRecv _ => Result (list byte * UdpMetadata) str
  | HostOp.TryRecvWorker => Result UdpWorkerResult TryRecvError
  | HostOp.SpawnWorker _ | HostOp.IfacePoll | HostOp.Sleep _ => unit
  | HostOp.TcpConnect _ _ | HostOp.TcpTryClone _ | HostOp.UdpBind _ | HostOp.TcpListen _
  | HostOp.TcpAccept _ => Result Z IoError
  | HostOp.TcpLocalAddr _ => Result SocketAddr IoError
  | HostOp.TcpRead _ _ | HostOp.TcpReadExact _ _ | HostOp.UdpRecv _ _ => Result (list byte) IoError
  | HostOp.TcpWrite _ _ | HostOp.UdpSendTo _ _ _ => Result nat IoError
  | HostOp.ResolveHost _ _ => Result (list SocketAddr) IoError
  | HostOp.AuditLock => Result AuditBuffer unit
  | HostOp.AuditUnlock _ | HostOp.Eprintln | HostOp.TcpSpawnCopy _ _ | HostOp.TcpJoinCopy _ _
  | HostOp.SpawnHandler _ => unit
  | HostOp.TryAcquire => bool
  | HostOp.TcpSetNonblocking _ | HostOp.TcpSetReadTimeout _ _ | HostOp.TcpWriteAll _ _
  | HostOp.TcpShutdown _ _ | HostOp.TcpCopy _ _ | HostOp.UdpSetReadTimeout _ _
  | HostOp.UdpSetWriteTimeout _ _ | HostOp.StderrWriteAll _ => Result unit IoError
  end.

(** Results of host calls are values or errors; reads respect the buffer. *)
Definition host_valid (o : HostOp) : host_answer o -> Prop :=
  match o return host_answer o -> Prop with
  | HostOp.Now | HostOp.InstantNow | HostOp.SpawnConnect _ => fun _ => True
  | HostOp.TryRecvConnect _ => fun r => returns r /\ forall x, r = Ok x -> returns x
  | HostOp.SockIsOpen _ | HostOp.SockIsActive _ | HostOp.SockMayRecv _ | HostOp.SockCanRecv _
  | HostOp.SockCanSend _ | HostOp.SockLocalEndpoint _ | HostOp.SockRemoteEndpoint _
  | HostOp.SockClose _ | HostOp.SockAbort _ => fun _ => True
  | HostOp.SockListen _ _ => fun r => returns r
  | HostOp.UdpSockNew | HostOp.SockNew => fun _ => True
  | HostOp.UdpSockBind _ _ | HostOp.UdpSockSendSlice _ _ _ => fun r => returns r
  | HostOp.UdpSockCanRecv _ => fun _ => True
  | HostOp.UdpSockRecv _ => fun r => returns r
  | HostOp.TryRecvWorker => fun r => returns r /\ forall w, r = Ok w -> worker_returned w
  | HostOp.SpawnWorker _ | HostOp.IfacePoll | HostOp.Sleep _ => fun _ => True
  | HostOp.SockRecvSlice _ max => fun r => returns r /\ forall bs, r = Ok bs -> (length bs <= max)%nat
  | HostOp.SockSendSlice _ bytes => fun r => returns r /\ forall n, r = Ok n -> (n <= length bytes)%nat
  | HostOp.TcpConnect _ _ | HostOp.TcpTryClone _ | HostOp.UdpBind _ | HostOp.TcpListen _
  | HostOp.TcpAccept _ => fun r => returns r
  | HostOp.TcpLocalAddr _ => fun r => returns r
  | HostOp.TcpRead _ max | HostOp.UdpRecv _ max =>
      fun r => returns r /\ forall bs, r = Ok bs -> (length bs <= max)%nat
  | HostOp.TcpReadExact _ len => fun r => returns r /\ forall bs, r = Ok bs -> length bs = len
  | HostOp.TcpWrite _ bytes | HostOp.UdpSendTo _ bytes _ =>
      fun r => returns r /\ forall n, r = Ok n -> (n <= length bytes)%nat
  | HostOp.ResolveHost _ _ => fun r => returns r
  | HostOp.AuditLock => fun r => returns r
  | HostOp.AuditUnlock _ | HostOp.Eprintln | HostOp.TcpSpawnCopy _ _ | HostOp.TcpJoinCopy _ _
  | HostOp.SpawnHandler _ => fun _ => True
  | HostOp.TryAcquire => fun _ => True
  | HostOp.TcpSetNonblocking _ | HostOp.TcpSetReadTimeout _ _ | HostOp.TcpWriteAll _ _
  | HostOp.TcpShutdown _ _ | HostOp.TcpCopy _ _ | HostOp.UdpSetReadTimeout _ _
  | HostOp.UdpSetWriteTimeout _ _ | HostOp.StderrWriteAll _ => fun r => returns r
  end.

(** [eprintln!] panics when stderr cannot be written, [thread::spawn] when the system
    makes no thread. *)
Definition host_may_panic (o : HostOp) : bool :=
  match o with
  | HostOp.Eprintln | HostOp.SpawnConnect _ | HostOp.SpawnWorker _ | HostOp.SpawnHandler _
  | HostOp.TcpSpawnCopy _ _ => true
  | _ => false
  end.

Definition Host : Interface := mkInterface HostOp host_answer host_valid host_may_panic.

Abbreviation IO A := (Prog Host (Result A IoError)).

(** The operations, at their types. *)
Definition now : Prog Host SystemTime := @perform Host HostOp.Now.
Definition instant_now : Prog Host Z := @perform Host HostOp.InstantNow.
Definition spawn_connect (request : TcpEgressRequest) : Prog Host Z := @perform Host (HostOp.SpawnConnect request).
Definition try_recv_connect (receiver : Z) : Prog Host (Result (Result Z IoError) TryRecvError) :=
  @perform Host (HostOp.TryRecvConnect receiver).
Definition sock_new : Prog Host Z := @perform Host HostOp.SockNew.
Definition sock_is_open (s : Z) : Prog Host bool := @perform Host (HostOp.SockIsOpen s).
Definition sock_is_active (s : Z) : Prog Host bool := @perform Host (HostOp.SockIsActive s).
Definition sock_may_recv (s : Z) : Prog Host bool := @perform Host (HostOp.SockMayRecv s).
Definition sock_can_recv (s : Z) : Prog Host bool := @perform Host (HostOp.SockCanRecv s).
Definition sock_can_send (s : Z) : Prog Host bool := @perform Host (HostOp.SockCanSend s).
Definition sock_local_endpoint (s : Z) : Prog Host (option SmolEndpoint) :=
  @perform Host (HostOp.SockLocalEndpoint s).
Definition sock_remote_endpoint (s : Z) : Prog Host (option SmolEndpoint) :=
  @perform Host (HostOp.SockRemoteEndpoint s).
Definition sock_listen (s port : Z) : Prog Host (Result unit str) := @perform Host (HostOp.SockListen s port).
Definition sock_recv_slice (s : Z) (max : nat) : Prog Host (Result (list byte) str) :=
  @perform Host (HostOp.SockRecvSlice s max).
Definition sock_send_slice (s : Z) (bytes : list byte) : Prog Host (Result nat str) :=
  @perform Host (HostOp.SockSendSlice s bytes).
Definition sock_close (s : Z) : Prog Host unit := @perform Host (HostOp.SockClose s).
Definition sock_abort (s : Z) : Prog Host unit := @perform Host (HostOp.SockAbort s).
Definition udp_sock_new : Prog Host Z := @perform Host HostOp.UdpSockNew.
Definition udp_sock_bind (s port : Z) : Prog Host (Result unit str) := @perform Host (HostOp.UdpSockBind s port).
Definition udp_sock_can_recv (s : Z) : Prog Host bool := @perform Host (HostOp.UdpSockCanRecv s).
Definition udp_sock_recv (s : Z) : Prog Host (Result (list byte * UdpMetadata) str) :=
  @perform Host (HostOp.UdpSockRecv s).
Definition udp_sock_send_slice (s : Z) (bytes : list byte) (metadata : UdpMetadata) : Prog Host (Result unit str) :=
  @perform Host (HostOp.UdpSockSendSlice s bytes metadata).
Definition spawn_worker (job : UdpWorkerJob) : Prog Host unit := @perform Host (HostOp.SpawnWorker job).
Definition try_recv_worker : Prog Host (Result UdpWorkerResult TryRecvError) := @perform Host HostOp.TryRecvWorker.
Definition iface_poll : Prog Host unit := @perform Host HostOp.IfacePoll.
Definition sleep (duration : Duration) : Prog Host unit := @perform Host (HostOp.Sleep duration).
Definition tcp_connect (addr : SocketAddr) (timeout : option Duration) : IO Z :=
  @perform Host (HostOp.TcpConnect addr timeout).
Definition tcp_set_nonblocking (s : Z) : IO unit := @perform Host (HostOp.TcpSetNonblocking s).
Definition tcp_set_read_timeout (s : Z) (t : option Duration) : IO unit :=
  @perform Host (HostOp.TcpSetReadTimeout s t).
Definition tcp_read (s : Z) (max : nat) : IO (list byte) := @perform Host (HostOp.TcpRead s max).
Definition tcp_read_exact (s : Z) (len : nat) : IO (list byte) :=
  @perform Host (HostOp.TcpReadExact s len).
Definition tcp_write (s : Z) (bytes : list byte) : IO nat := @perform Host (HostOp.TcpWrite s bytes).
Definition tcp_write_all (s : Z) (bytes : list byte) : IO unit :=
  @perform Host (HostOp.TcpWriteAll s bytes).
Definition tcp_shutdown (s : Z) (how : Shutdown) : IO unit := @perform Host (HostOp.TcpShutdown s how).
Definition tcp_try_clone (s : Z) : IO Z := @perform Host (HostOp.TcpTryClone s).
Definition tcp_spawn_copy (from to : Z) : Prog Host unit := @perform Host (HostOp.TcpSpawnCopy from to).
Definition tcp_copy (from to : Z) : IO unit := @perform Host (HostOp.TcpCopy from to).
Definition tcp_join_copy (from to : Z) : Prog Host unit := @perform Host (HostOp.TcpJoinCopy from to).
Definition tcp_listen (addr : SocketAddr) : IO Z := @perform Host (HostOp.TcpListen addr).
Definition tcp_local_addr (listener : Z) : IO SocketAddr := @perform Host (HostOp.TcpLocalAddr listener).
Definition tcp_accept (listener : Z) : IO Z := @perform Host (HostOp.TcpAccept listener).
Definition udp_bind (addr : SocketAddr) : IO Z := @perform Host (HostOp.UdpBind addr).
Definition udp_set_read_timeout (s : Z) (t : Duration) : IO unit :=
  @perform Host (HostOp.UdpSetReadTimeout s t).
Definition udp_set_write_timeout (s : Z) (t : Duration) : IO unit :=
  @perform Host (HostOp.UdpSetWriteTimeout s t).
Definition udp_send_to (s : Z) (bytes : list byte) (addr : SocketAddr) : IO nat :=
  @perform Host (HostOp.UdpSendTo s bytes addr).
Definition udp_recv (s : Z) (max : nat) : IO (list byte) := @perform Host (HostOp.UdpRecv s max).
Definition resolve_host (host : str) (port : Z) : IO (list SocketAddr) :=
  @perform Host (HostOp.ResolveHost host port).
Definition stderr_write_all (bytes : list byte) : IO unit := @perform Host (HostOp.StderrWriteAll bytes).
Definition eprintln : Prog Host unit := @perform Host HostOp.Eprintln.
Definition try_acquire_permit : Prog Host bool := @perform Host HostOp.TryAcquire.
Definition spawn_handler (stream : Z) : Prog Host unit := @perform Host (HostOp.SpawnHandler stream).
Definition audit_lock : Prog Host (Result AuditBuffer unit) := @perform Host HostOp.AuditLock.
Definition audit_unlock (b : AuditBuffer) : Prog Host unit := @perform Host (HostOp.AuditUnlock b).

Definition prog_map_err {A E F} (f : E -> F) (p : Prog Host (Result A E)) : Prog Host (Result A F) :=
  let* r := p in Ret (map_err f r).

(** [match p { Ok(a) => k(a), Err(e) => handler(e) }]. *)
Definition prog_match {A B E F} (p : Prog Host (Result A E)) (handler : E -> Prog Host (Result B F))
  (k : A -> Prog Host (Result B F)) : Prog Host (Result B F) :=
  let* r := p in
  match r with
  | Ok a => k a
  | Err e => handler e
  | Panic => Ret Panic
  | OutOfFuel => Ret OutOfFuel
  end.

(** [let _ = p;] *)
Definition ignore {A} (p : Prog Host A) : Prog Host unit := let* _ := p in Ret tt.

(** The operations of a history. *)
Definition ops (h : list (Action Host)) : list HostOp := map (fun e => projT1 e) h.

(** ** An example environment

    A host on which every call succeeds, the clocks stand still and nothing
    arrives: the environment of the concrete runs. *)
Definition obliging_host : Answers Host := fun _ o =>
  match o return host_answer o with
  | HostOp.Now => 0
  | HostOp.InstantNow => 0
  | HostOp.SpawnConnect _ => 0
  | HostOp.TryRecvConnect _ => Err TryRecvEmpty
  | HostOp.SockIsOpen _ | HostOp.SockIsActive _ | HostOp.SockMayRecv _ | HostOp.SockCanRecv _
  | HostOp.SockCanSend _ => false
  | HostOp.SockLocalEndpoint _ | HostOp.SockRemoteEndpoint _ => None
  | HostOp.SockListen _ _ => Ok tt
  | HostOp.SockRecvSlice _ _ => Ok []
  | HostOp.SockSendSlice _ bytes => Ok (length bytes)
  | HostOp.SockClose _ | HostOp.SockAbort _ => tt
  | HostOp.UdpSockNew | HostOp.SockNew => 0
  | HostOp.UdpSockBind _ _ | HostOp.UdpSockSendSlice _ _ _ => Ok tt
  | HostOp.UdpSockCanRecv _ => false
  | HostOp.UdpSockRecv _ => Err []
  | HostOp.TryRecvWorker => Err TryRecvEmpty
  | HostOp.SpawnWorker _ | HostOp.IfacePoll | HostOp.Sleep _ => tt
  | HostOp.TcpConnect _ _ | HostOp.TcpTryClone _ | HostOp.UdpBind _ | HostOp.TcpListen _
  | HostOp.TcpAccept _ => Ok 0
  | HostOp.TcpLocalAddr _ => Ok (mkSocketAddr (V4 0) 0)
  | HostOp.TcpRead _ _ | HostOp.UdpRecv _ _ => Ok []
  | HostOp.TcpReadExact _ len => Ok (replicate len x00)
  | HostOp.TcpWrite _ bytes | HostOp.UdpSendTo _ bytes _ => Ok (length bytes)
  | HostOp.ResolveHost _ _ => Ok []
  | HostOp.AuditLock => Ok (audit_buffer_new 1)
  | HostOp.AuditUnlock _ | HostOp.Eprintln | HostOp.TcpSpawnCopy _ _ | HostOp.TcpJoinCopy _ _
  | HostOp.SpawnHandler _ => tt
  | HostOp.TryAcquire => true
  | HostOp.TcpSetNonblocking _ | HostOp.TcpSetReadTimeout _ _ | HostOp.TcpWriteAll _ _
  | HostOp.TcpShutdown _ _ | HostOp.TcpCopy _ _ | HostOp.UdpSetReadTimeout _ _
  | HostOp.UdpSetWriteTimeout _ _ | HostOp.StderrWriteAll _ => Ok tt
  end.

Lemma obliging_host_ok : answers_ok obliging_host.
Proof.
  intros h o. destruct o; cbn; try done; (split; [done|]); intros ? [= <-]; cbn; try lia.
  by rewrite length_replicate.
Qed.
