(* ===== verification/AuditIo.v ===== *)
(** * Audit recording on stderr ([foxprox-proxy/src/lib.rs] 327-363, [foxprox-net/src/lib.rs] 147-299)

    The proxy and the packet runtimes record an event in the same way: drain
    what is queued to stderr, queue the event, drain again, and fail closed on a
    full queue or a failed write.  This file holds that program, the notions of
    histories its specifications use, and its weakest preconditions. *)

From S2P Require Import Prelude Text NetAddr Event Policy Flow AuditLog Config Effects.

(** [writeln!] on stderr: the line, then the newline. *)
Definition stderr_writeln (line : str) : IO unit :=
  let! _ := stderr_write_all line in
  stderr_write_all [x0a].

(** [drain_audit_buffer_to_json_lines] with stderr as the writer. *)
Fixpoint drain_queue_to_stderr (queue : list AuditEvent) : Prog Host (list AuditEvent * Result unit IoError) :=
  match queue with
  | [] => Ret ([], Ok tt)
  | event :: rest =>
      let* r := stderr_writeln (audit_event_json_line event) in
      match r with
      | Ok _ => drain_queue_to_stderr rest
      | Err e => Ret (queue, Err e)
      | Panic => Ret (queue, Panic)
      | OutOfFuel => Ret (queue, OutOfFuel)
      end
  end.

Definition drain_audit_to_stderr (audit : AuditBuffer) : Prog Host (AuditBuffer * Result unit IoError) :=
  let* (queue, r) := drain_queue_to_stderr (ab_queue audit) in
  Ret (mkAuditBuffer (ab_capacity audit) queue (ab_dropped_events audit),
       map_err (fun error => mkIoError IoErrorKind.Other (lit "audit sink write failed: " ++ io_message error)) r).

Definition debug_audit_backpressure (error : AuditBackpressure) : str :=
  match error with
  | AuditBackpressure.DisabledCapacity => lit "DisabledCapacity"
  | AuditBackpressure.Full capacity => lit "Full { capacity: " ++ dec capacity ++ lit " }"
  end.

Definition audit_backpressure_error (error : AuditBackpressure) : IoError :=
  mkIoError IoErrorKind.WouldBlock (lit "audit queue backpressure: " ++ debug_audit_backpressure error).

(** Drain what is queued, queue the event, drain again. *)
Definition record_event (event : AuditEvent) (buffer : AuditBuffer)
  : Prog Host (AuditBuffer * Result unit IoError) :=
  let* (buffer, r) := drain_audit_to_stderr buffer in
  match r with
  | Ok _ =>
      let (buffer, pushed) := try_push buffer event in
      match map_err audit_backpressure_error pushed with
      | Ok _ =>
          let* (buffer, r) := drain_audit_to_stderr buffer in
          match r with
          | Ok _ => let* _ := eprintln in Ret (buffer, Ok tt)
          | r => Ret (buffer, r)
          end
      | r => Ret (buffer, r)
      end
  | r => Ret (buffer, r)
  end.

(** ** Programs that thread the audit buffer *)

(** Results that carry the audit buffer along. *)
Abbreviation AuditIO A := (Prog Host (AuditBuffer * Result A IoError)).

(** [p?] with the audit buffer threaded through. *)
Definition audit_try {A B} (p : AuditIO A) (k : AuditBuffer -> A -> AuditIO B) : AuditIO B :=
  let* (audit, r) := p in
  match r with
  | Ok a => k audit a
  | Err e => Ret (audit, Err e)
  | Panic => Ret (audit, Panic)
  | OutOfFuel => Ret (audit, OutOfFuel)
  end.

(** A program that leaves the audit buffer alone. *)
Definition keep_audit {A} (audit : AuditBuffer) (p : IO A) : AuditIO A :=
  let* r := p in Ret (audit, r).

Definition net_audit_buffer (capacity : Z) : Result AuditBuffer IoError :=
  if capacity =? 0 then
    Err (mkIoError IoErrorKind.InvalidInput (lit "audit queue capacity must be non-zero"))
  else Ok (audit_buffer_new capacity).

(** ** What a history shows *)

#[local] Arguments audit_event_json_line : simpl never.

Definition happened (o : HostOp) (r : host_answer o) (h : list (Action Host)) : Prop :=
  List.In (existT o r : Action Host) h.

(** The operations of audit recording. *)
Definition audit_op (o : HostOp) : bool :=
  match o with
  | HostOp.Now | HostOp.StderrWriteAll _ | HostOp.Eprintln | HostOp.AuditLock | HostOp.AuditUnlock _ => true
  | _ => false
  end.

(** [h'] continues [h] with operations that satisfy [ok] only. *)
Definition quiet (ok : HostOp -> bool) (h h' : list (Action Host)) : Prop :=
  exists t, h' = h ++ t /\ Forall (fun e : Action Host => ok (projT1 e) = true) t.

Lemma quiet_refl ok h : quiet ok h h.
Proof. exists []. by rewrite app_nil_r. Qed.

Lemma quiet_trans ok h1 h2 h3 : quiet ok h1 h2 -> quiet ok h2 h3 -> quiet ok h1 h3.
Proof.
  intros (t1 & -> & H1) (t2 & -> & H2). exists (t1 ++ t2).
  split; [by rewrite app_assoc|by apply Forall_app_2].
Qed.

Lemma quiet_step ok h1 h2 (o : HostOp) (r : host_answer o) :
  ok o = true -> quiet ok h1 h2 -> quiet ok h1 (h2 ++ [existT o r : Action Host]).
Proof.
  intros Ho H. eapply quiet_trans; [exact H|]. eexists. split; [done|]. by repeat constructor.
Qed.

(** Any operation, seen from a weaker predicate. *)
Lemma quiet_weaken (ok ok' : HostOp -> bool) h h' :
  (forall o, ok o = true -> ok' o = true) -> quiet ok h h' -> quiet ok' h h'.
Proof.
  intros Hok (t & -> & H). exists t. split; [done|]. eapply Forall_impl; [exact H|]. intros e. apply Hok.
Qed.

Lemma happened_app (o : HostOp) (r : host_answer o) h t : happened o r h -> happened o r (h ++ t).
Proof. intros H. apply in_or_app. by left. Qed.

Lemma happened_mono (o : HostOp) (r : host_answer o) ok h h' :
  quiet ok h h' -> happened o r h -> happened o r h'.
Proof. intros (t & -> & _) H. apply in_or_app. by left. Qed.

Lemma happened_last (o : HostOp) (r : host_answer o) h : happened o r (h ++ [existT o r : Action Host]).
Proof. apply in_or_app. right. by left. Qed.

#[export] Hint Resolve quiet_refl quiet_step quiet_trans : foxprox.

(** ** Weakest preconditions *)

Section rules.
Context (ok : HostOp -> bool) (step : list (Action Host) -> HostOp -> Prop).
Context (Hok : forall o, audit_op o = true -> ok o = true).
Context (Haudit : forall h o, audit_op o = true -> step h o).

#[local] Hint Extern 1 (ok _ = true) => (apply Hok; reflexivity) : foxprox.

Lemma wp_match {A B E F} (Q : list (Action Host) -> Result B F -> Prop) (p : Prog Host (Result A E))
  (handler : E -> Prog Host (Result B F)) (k : A -> Prog Host (Result B F)) h :
  wp step (fun h r => match r with
                      | Ok a => wp step Q h (k a)
                      | Err e => wp step Q h (handler e)
                      | Panic => Q h Panic
                      | OutOfFuel => Q h OutOfFuel
                      end) h p ->
  wp step Q h (prog_match p handler k).
Proof.
  intros H. apply wp_bind. eapply wp_mono; [done| |exact H]. intros h' [a|e| |]; auto.
Qed.

Lemma wp_post {A} (Q Q' : list (Action Host) -> A -> Prop) (p : Prog Host A) h :
  wp step Q h p -> (forall h' a, Q h' a -> Q' h' a) -> wp step Q' h p.
Proof. intros H HQ. by eapply wp_mono; [done|exact HQ|]. Qed.

(** One operation. *)
Lemma wp_op (o : HostOp) (Q : list (Action Host) -> host_answer o -> Prop) h :
  step h o -> (forall r, host_valid o r -> Q (h ++ [existT o r : Action Host]) r) ->
  wp step Q h (@perform Host o).
Proof. intros H1 H2. by apply (wp_perform (I := Host)). Qed.

(** The postcondition of a part that returns and reads nothing. *)
Definition part {A E} (h : list (Action Host)) (P : list (Action Host) -> A -> Prop)
  (h' : list (Action Host)) (r : Result A E) : Prop :=
  returns r /\ quiet ok h h' /\ forall a, r = Ok a -> P h' a.

Lemma part_ok {A E} h P h' (a : A) : quiet ok h h' -> P h' a -> @part A E h P h' (Ok a).
Proof. intros Hq HP. split_and!; [done|done|]. by intros a' [= <-]. Qed.

Lemma part_err {A E} h P h' (e : E) : quiet ok h h' -> @part A E h P h' (Err e).
Proof. intros Hq. by split_and!. Qed.

(** Composition of parts. *)
Lemma part_try {A B E} h0 h (P : list (Action Host) -> A -> Prop) (P' : list (Action Host) -> B -> Prop)
  (p : Prog Host (Result A E)) (f : A -> Prog Host (Result B E)) :
  quiet ok h0 h -> wp step (part h P) h p ->
  (forall h' a, quiet ok h0 h' -> P h' a -> wp step (part h0 P') h' (f a)) ->
  wp step (part h0 P') h (prog_try p f).
Proof.
  intros Hq Hp Hf. apply wp_try. eapply wp_post; [exact Hp|].
  intros h' [a|e| |] (Hr & Hq' & HP); try done.
  - apply Hf; [by eapply quiet_trans|by apply HP].
  - apply part_err. by eapply quiet_trans.
Qed.

Lemma stderr_writeln_wp (line : str) h :
  wp step (part h (fun h' _ => happened (HostOp.StderrWriteAll line) (Ok tt) h')) h (stderr_writeln line).
Proof.
  unfold stderr_writeln. eapply (part_try _ _ (fun h' _ => happened (HostOp.StderrWriteAll line) (Ok tt) h'));
    [auto with foxprox| |].
  - apply wp_op; [by apply Haudit|]. intros [[]|e| |] Hr; try done;
      [apply part_ok|apply part_err]; auto using happened_last with foxprox.
  - intros h1 [] Hq Hw. apply wp_op; [by apply Haudit|]. intros [[]|e| |] Hr; try done;
      [apply part_ok|apply part_err]; auto with foxprox.
    eapply (happened_mono _ _ ok); [|exact Hw]. auto with foxprox.
Qed.

Definition lines_written (queue : list AuditEvent) (h : list (Action Host)) : Prop :=
  forall event, event ∈ queue -> happened (HostOp.StderrWriteAll (audit_event_json_line event)) (Ok tt) h.

Lemma drain_queue_to_stderr_wp (queue : list AuditEvent) : forall h,
  wp step (fun h' '(queue', r) =>
      part h (fun h' _ => queue' = [] /\ lines_written queue h') h' r) h (drain_queue_to_stderr queue).
Proof.
  induction queue as [|event queue IH]; intros h; cbn [drain_queue_to_stderr].
  - cbn. apply part_ok; [auto with foxprox|]. split; [done|]. intros e He. set_solver.
  - apply wp_bind. eapply wp_post; [apply stderr_writeln_wp|].
    intros h1 [[]|e| |] (Hr & Hq & Hw); cbn; try done.
    eapply wp_post; [apply IH|]. intros h2 [queue' r] (Hr2 & Hq2 & H2).
    split_and!; [done|by eapply quiet_trans|]. intros u Hu. destruct (H2 u Hu) as [He Hl]. split; [done|].
    intros e [->|He']%elem_of_cons; [|by apply Hl]. eapply happened_mono; [exact Hq2|by apply (Hw tt)].
Qed.

Lemma drain_audit_to_stderr_wp (audit : AuditBuffer) h :
  wp step (fun h' '(audit', r) =>
      part h (fun h' _ => ab_capacity audit' = ab_capacity audit /\ ab_queue audit' = [] /\
                          lines_written (ab_queue audit) h') h' r) h (drain_audit_to_stderr audit).
Proof.
  unfold drain_audit_to_stderr. apply wp_bind. eapply wp_post; [apply drain_queue_to_stderr_wp|].
  intros h' [queue r] (Hr & Hq & H). cbn. split_and!; [by destruct r|done|].
  intros [] Ha. destruct r as [[]|e| |]; try done. by destruct (H tt eq_refl).
Qed.

Lemma record_event_wp (event : AuditEvent) (buffer : AuditBuffer) h :
  wp step (fun h' '(_, r) =>
      part h (fun h' _ => happened (HostOp.StderrWriteAll (audit_event_json_line event)) (Ok tt) h') h' r)
    h (record_event event buffer).
Proof.
  unfold record_event. apply wp_bind. eapply wp_post; [apply drain_audit_to_stderr_wp|].
  intros h1 [b1 r1] (Hr1 & Hq1 & H1). destruct r1 as [[]|e| |]; try done.
  unfold try_push. destruct (_ =? 0); [by apply part_err|]. destruct (_ <=? _); [by apply part_err|].
  cbn match beta. apply wp_bind. eapply wp_post; [apply drain_audit_to_stderr_wp|].
  intros h2 [b2 r2] (Hr2 & Hq2 & H2). cbn [ab_queue] in H2.
  destruct r2 as [[]|e| |]; try done; [|apply part_err; by eapply quiet_trans].
  destruct (H2 tt eq_refl) as (_ & _ & Hl).
  apply wp_bind, wp_op; [by apply Haudit|]. intros [] _. cbn.
  assert (quiet ok h h2) by by eapply quiet_trans.
  apply part_ok; [auto with foxprox|]. eapply (happened_mono _ _ ok); [apply quiet_step; [by apply Hok|apply quiet_refl]|].
  apply Hl. set_solver.
Qed.

End rules.

(** ** Results of clients

    A client's specification is a relation on histories and results; [yields]
    lifts it to fallible programs. *)

Section results.
Context {step : list (Action Host) -> HostOp -> Prop}.

(** A program whose result satisfies [P]. *)
Definition yields {A} (P : list (Action Host) -> A -> Prop) (h : list (Action Host)) (r : Result A IoError) : Prop :=
  returns r /\ forall a, r = Ok a -> P h a.

Lemma yields_ok {A} P h (a : A) : P h a -> yields P h (Ok a).
Proof. intros H. split; [done|]. by intros a' [= <-]. Qed.

Lemma yields_err {A} (P : list (Action Host) -> A -> Prop) h e : yields P h (Err e).
Proof. by split. Qed.

Lemma yields_try {A B} (P : list (Action Host) -> A -> Prop) (P' : list (Action Host) -> B -> Prop)
  (p : IO A) (f : A -> IO B) h :
  wp step (yields P) h p -> (forall h' a, P h' a -> wp step (yields P') h' (f a)) ->
  wp step (yields P') h (prog_try p f).
Proof.
  intros Hp Hf. apply wp_try. eapply wp_post; [exact Hp|].
  intros h' [a|e| |] (Hr & H); try done. by apply Hf, H.
Qed.

(** [yields], with an audit buffer beside the result. *)
Definition yields_audit {A} (P : list (Action Host) -> A -> Prop) (h : list (Action Host))
  (s : AuditBuffer * Result A IoError) : Prop := yields P h (snd s).

Lemma audit_try_wp {A B} (P : list (Action Host) -> A -> Prop) (P' : list (Action Host) -> B -> Prop)
  (p : AuditIO A) (k : AuditBuffer -> A -> AuditIO B) h :
  wp step (yields_audit P) h p ->
  (forall h' audit a, P h' a -> wp step (yields_audit P') h' (k audit a)) ->
  wp step (yields_audit P') h (audit_try p k).
Proof.
  intros Hp Hk. apply wp_bind. eapply wp_post; [exact Hp|].
  intros h' [audit [a|e| |]] [Hr H]; try done. by apply Hk, H.
Qed.

Lemma keep_audit_wp {A} (P : list (Action Host) -> A -> Prop) (audit : AuditBuffer) (p : IO A) h :
  wp step (yields P) h p -> wp step (yields_audit P) h (keep_audit audit p).
Proof. intros H. apply wp_bind. eapply wp_post; [exact H|]. by intros h' r Hr. Qed.

End results.

(** ** The drain is the core's drain

    With stderr of an environment as the writer of [AuditLog], running
    [drain_audit_to_stderr] is [drain_audit_buffer_to_json_lines]. *)

Section stderr_writer.
Context (answers : Answers Host).

#[local] Instance stderr_writer : Write (list (Action Host)) IoError := {|
  write_all := fun h bytes =>
    let r : host_answer (HostOp.StderrWriteAll bytes) := answers h (HostOp.StderrWriteAll bytes) in
    (h ++ [existT (HostOp.StderrWriteAll bytes) r : Action Host], r)
|}.

Lemma replay_stderr_writeln (line : str) h :
  replay answers h (stderr_writeln line) = let (h', r) := writeln h line in (r, h').
Proof.
  unfold writeln, stderr_writeln. cbn.
  by destruct (answers h (HostOp.StderrWriteAll line)) as [[]|e| |].
Qed.

Lemma replay_drain_queue (queue : list AuditEvent) : forall h n,
  let '(queue', h', r) := drain_queue queue h n in
  replay answers h (drain_queue_to_stderr queue) = ((queue', result_map (fun _ => tt) r), h').
Proof.
  induction queue as [|event queue IH]; intros h n; cbn [drain_queue drain_queue_to_stderr]; [done|].
  rewrite replay_bind, replay_stderr_writeln.
  destruct (writeln h (audit_event_json_line event)) as [h1 [[]|e| |]]; try done. apply IH.
Qed.

Lemma replay_drain_audit (audit : AuditBuffer) h :
  replay answers h (drain_audit_to_stderr audit) =
  let '(audit', h', r) := drain_audit_buffer_to_json_lines audit h in
  ((audit', map_err (fun error => mkIoError IoErrorKind.Other
      (lit "audit sink write failed: " ++ io_message error)) (result_map (fun _ => tt) r)), h').
Proof.
  unfold drain_audit_to_stderr, drain_audit_buffer_to_json_lines. rewrite replay_bind.
  pose proof (replay_drain_queue (ab_queue audit) h 0) as H.
  destruct (drain_queue (ab_queue audit) h 0) as [[queue' h'] r]. by rewrite H.
Qed.

End stderr_writer.

(** ** With a working stderr, recording succeeds *)

(** Every write to stderr succeeds, so that no [eprintln!] panics. *)
Definition stderr_works (env : Env Host) : Prop :=
  (forall h bytes, env h (HostOp.StderrWriteAll bytes) = Some (Ok tt : host_answer (HostOp.StderrWriteAll bytes))) /\
  (forall h, env h HostOp.Eprintln = Some (tt : host_answer HostOp.Eprintln)).

Section working_stderr.
Context (env : Env Host) (Henv : stderr_works env).

Lemma run_writeln_works (line : str) h : exists h', run env h (stderr_writeln line) = (Finished (Ok tt), h').
Proof. destruct Henv as [Hw _]. unfold stderr_writeln. cbn. rewrite Hw. cbn. rewrite Hw. by eexists. Qed.

Lemma run_drain_queue_works (queue : list AuditEvent) : forall h,
  exists h', run env h (drain_queue_to_stderr queue) = (Finished ([], Ok tt), h').
Proof.
  induction queue as [|event queue IH]; intros h; cbn [drain_queue_to_stderr]; [by exists h|].
  rewrite run_bind. destruct (run_writeln_works (audit_event_json_line event) h) as [h1 ->]. apply IH.
Qed.

Lemma run_drain_works (audit : AuditBuffer) h :
  exists h', run env h (drain_audit_to_stderr audit) =
    (Finished (mkAuditBuffer (ab_capacity audit) [] (ab_dropped_events audit), Ok tt), h').
Proof.
  unfold drain_audit_to_stderr. rewrite run_bind.
  destruct (run_drain_queue_works (ab_queue audit) h) as [h1 ->]. by exists h1.
Qed.

(** Every event is recorded at once, and the queue is left empty. *)
Lemma run_record_event_works (event : AuditEvent) (audit : AuditBuffer) h :
  0 < ab_capacity audit ->
  exists h', run env h (record_event event audit) =
    (Finished (mkAuditBuffer (ab_capacity audit) [] (ab_dropped_events audit), Ok tt), h').
Proof.
  intros Hcap. unfold record_event. rewrite run_bind. destruct (run_drain_works audit h) as [h1 ->].
  unfold try_push. cbn [ab_capacity ab_queue ab_dropped_events length].
  rewrite (proj2 (Z.eqb_neq _ _)) by lia. rewrite (proj2 (Z.leb_gt _ _)) by (cbn; lia).
  cbn [map_err app]. rewrite run_bind.
  match goal with |- context [run env h1 (drain_audit_to_stderr ?b)] => destruct (run_drain_works b h1) as [h2 ->] end.
  cbn. rewrite (proj2 Henv). by eexists.
Qed.

End working_stderr.

(** ** When the queue is full

    Every record is preceded by a drain of the queue, so a full queue never
    refuses one: recording fails only when the sink fails. *)

Lemma drain_audit_to_stderr_errors (audit : AuditBuffer) h :
  wp (fun _ _ => True) (fun _ '(audit', r) =>
      ab_capacity audit' = ab_capacity audit /\ (forall e, r = Err e -> io_kind e = IoErrorKind.Other) /\
      (forall u, r = Ok u -> ab_queue audit' = [])) h (drain_audit_to_stderr audit).
Proof.
  unfold drain_audit_to_stderr. apply wp_bind.
  eapply wp_post; [apply (drain_queue_to_stderr_wp (fun _ => true)); auto|].
  intros h' [queue r] (_ & _ & H). cbn. split_and!; [done| |].
  - intros e He. destruct r; cbn in He; simplify_eq. done.
  - intros u Hu. destruct r as [[]| | |]; cbn in Hu; simplify_eq. by destruct (H tt eq_refl).
Qed.

Lemma record_event_never_full (event : AuditEvent) (buffer : AuditBuffer) h :
  0 < ab_capacity buffer ->
  wp (fun _ _ => True) (fun _ '(_, r) => forall e, r = Err e -> io_kind e = IoErrorKind.Other) h
    (record_event event buffer).
Proof.
  intros Hcap. unfold record_event. apply wp_bind. eapply wp_post; [apply drain_audit_to_stderr_errors|].
  intros h1 [b1 r1] (Hc & He & Hq). destruct r1 as [[]|e| |]; cbn; [|by intros ? [= <-]; apply He|done..].
  unfold try_push. rewrite Hc, (Hq tt eq_refl), (proj2 (Z.eqb_neq _ _)), (proj2 (Z.leb_gt _ _)) by (cbn; lia).
  cbn [map_err app]. apply wp_bind. eapply wp_post; [apply drain_audit_to_stderr_errors|].
  intros h2 [b2 r2] (_ & He2 & _). destruct r2 as [[]|e| |]; cbn; [|by intros ? [= <-]; apply He2|done..].
  split; [done|]. by intros r _ e [=].
Qed.
