(* ===== verification/Egress.v ===== *)
(** * The standard-library egress adapter ([crates/foxprox-egress/src/lib.rs]) *)

From S2P Require Import Prelude Text NetAddr Event Policy Flow AuditLog Config Effects.

Record StdHostEgressConfig : Type := mkStdHostEgressConfig {
  udp_response_limit : Z;
  dns_response_limit : Z
}.

Definition std_host_egress_config_default : StdHostEgressConfig := mkStdHostEgressConfig 65535 4096.

Abbreviation StdHostEgress := StdHostEgressConfig (only parsing).

Definition egress_io_error (kind : EgressErrorKind) (error : IoError) : EgressError :=
  mkEgressError kind (io_message error).

Definition ensure_allowed (allowed : bool) : Result unit EgressError :=
  if allowed then Ok tt
  else Err (mkEgressError EgressErrorKind.PolicyDenied (lit "policy denied host egress")).

Definition unspecified_for (destination : SocketAddr) : SocketAddr :=
  if is_ipv4 destination then mkSocketAddr (V4 0) 0 else mkSocketAddr (V6 0) 0.

Definition bind_unspecified_for (destination : SocketAddr) : Prog Host (Result Z EgressError) :=
  prog_map_err (egress_io_error EgressErrorKind.ConnectFailed) (udp_bind (unspecified_for destination)).

Definition endpoint_socket_addr (e : TransportEndpoint) : SocketAddr :=
  mkSocketAddr (ep_ip e) (ep_port e).

Definition connect_tcp (request : TcpEgressRequest) : Prog Host (Result Z EgressError) :=
  let! _ := Ret (ensure_allowed (egress_is_allowed (te_context request))) in
  let destination := endpoint_socket_addr (te_destination request) in
  prog_map_err (egress_io_error EgressErrorKind.ConnectFailed)
    (match te_connect_timeout request with
     | Some timeout => tcp_connect destination (Some timeout)
     | None => tcp_connect destination None
     end).

Definition connect_tcp_nonblocking (request : TcpEgressRequest) : Prog Host (Result Z EgressError) :=
  let! stream := connect_tcp request in
  let! _ := prog_map_err (egress_io_error EgressErrorKind.ConnectFailed) (tcp_set_nonblocking stream) in
  Ret (Ok stream).

(** The socket set-up and send both UDP paths share: bind, timeouts, send. *)
Definition send_datagram (destination : SocketAddr) (payload : list byte) (timeout : Duration)
  : Prog Host (Result Z EgressError) :=
  let! socket := bind_unspecified_for destination in
  let! _ := prog_map_err (egress_io_error EgressErrorKind.ConnectFailed)
              (udp_set_read_timeout socket timeout) in
  let! _ := prog_map_err (egress_io_error EgressErrorKind.ConnectFailed)
              (udp_set_write_timeout socket timeout) in
  let! _ := prog_map_err (egress_io_error EgressErrorKind.WriteFailed)
              (udp_send_to socket payload destination) in
  Ret (Ok socket).

Definition forward_udp_once (self : StdHostEgress) (request : UdpEgressRequest) (payload : list byte)
  (timeout : Duration) : Prog Host (Result (option (list byte)) EgressError) :=
  let! _ := Ret (ensure_allowed (egress_is_allowed (ue_context request))) in
  let! socket := send_datagram (endpoint_socket_addr (ue_destination request)) payload timeout in
  let* r := udp_recv socket (Z.to_nat (udp_response_limit self)) in
  Ret (match r with
       | Ok response => Ok (Some response)
       | Err error =>
           if bool_decide (io_kind error = IoErrorKind.WouldBlock)
              || bool_decide (io_kind error = IoErrorKind.TimedOut)
           then Ok None
           else Err (egress_io_error EgressErrorKind.ReadFailed error)
       | Panic => Panic
       | OutOfFuel => OutOfFuel
       end).

Definition query_dns_raw (self : StdHostEgress) (request : DnsEgressRequest) (payload : list byte)
  (timeout : Duration) : Prog Host (Result (list byte) EgressError) :=
  let! _ := Ret (ensure_allowed (egress_is_allowed (de_context request))) in
  let! socket := send_datagram (endpoint_socket_addr (de_upstream request)) payload timeout in
  prog_map_err (egress_io_error EgressErrorKind.ReadFailed)
    (udp_recv socket (Z.to_nat (dns_response_limit self))).

(** [sort_by_key(|addr| !addr.is_ipv4())] is stable, so the first address is
    the first IPv4 one, if any. *)
Definition ipv4_first (addrs : list SocketAddr) : list SocketAddr :=
  List.filter is_ipv4 addrs ++ List.filter (fun addr => negb (is_ipv4 addr)) addrs.

Definition resolve_host_port (host : Hostname) (port : Z) : IO SocketAddr :=
  let! addrs := resolve_host (hostname_str host) port in
  Ret (ok_or (head (ipv4_first addrs))
         (mkIoError IoErrorKind.AddrNotAvailable (lit "host did not resolve"))).

Definition egress_error_to_io (error : EgressError) : IoError :=
  let kind :=
    match ee_kind error with
    | EgressErrorKind.PolicyDenied => IoErrorKind.PermissionDenied
    | EgressErrorKind.ConnectFailed => IoErrorKind.ConnectionRefused
    | EgressErrorKind.ReadFailed => IoErrorKind.UnexpectedEof
    | EgressErrorKind.WriteFailed => IoErrorKind.BrokenPipe
    | EgressErrorKind.Timeout => IoErrorKind.TimedOut
    | EgressErrorKind.ResourceLimit => IoErrorKind.WouldBlock
    | EgressErrorKind.Unsupported => IoErrorKind.Unsupported
    end in
  mkIoError kind (egress_error_display error).

(** ** What an adapter may do on the network *)

(** Host operations that reach another host. *)
Definition touches_network (o : HostOp) : bool :=
  match o with
  | HostOp.TcpConnect _ _ | HostOp.UdpSendTo _ _ _ | HostOp.UdpBind _ | HostOp.ResolveHost _ _ => true
  | _ => false
  end.

(** The only traffic an authorised request may cause: a connection to its
    destination, or its payload sent there from an unspecified local address. *)
Definition authorised (allowed : bool) (destination : SocketAddr) (payload : list byte)
  (h : list (Action Host)) (o : HostOp) : Prop :=
  allowed = true /\
  match o with
  | HostOp.TcpConnect addr _ => addr = destination
  | HostOp.UdpSendTo _ bytes addr => addr = destination /\ bytes = payload
  | HostOp.UdpBind addr => addr = unspecified_for destination
  | HostOp.ResolveHost _ _ => False
  | HostOp.UdpSetReadTimeout _ _ | HostOp.UdpSetWriteTimeout _ _ | HostOp.UdpRecv _ _
  | HostOp.TcpSetNonblocking _ => True
  | _ => False
  end.

Lemma ensure_allowed_wp {B} step (Q : list (Action Host) -> Result B EgressError -> Prop) h allowed
  (f : unit -> Prog Host (Result B EgressError)) :
  (allowed = true -> wp step Q h (f tt)) ->
  (allowed = false -> Q h (Err (mkEgressError EgressErrorKind.PolicyDenied (lit "policy denied host egress")))) ->
  wp step Q h (prog_try (Ret (ensure_allowed allowed)) f).
Proof. destruct allowed; cbn; auto. Qed.

Lemma prog_map_err_wp {A E F} step (Q : list (Action Host) -> Result A F -> Prop) h (f : E -> F)
  (p : Prog Host (Result A E)) :
  wp step (fun h r => Q h (map_err f r)) h p -> wp step Q h (prog_map_err f p).
Proof. intros H. by apply wp_bind. Qed.

Lemma send_datagram_wp (destination : SocketAddr) (payload : list byte) (timeout : Duration)
  (Q : list (Action Host) -> Result Z EgressError -> Prop) h :
  (forall h r, returns r -> Q h r) ->
  wp (authorised true destination payload) Q h (send_datagram destination payload timeout).
Proof.
  intros HQ. unfold send_datagram, bind_unspecified_for.
  apply wp_try, prog_map_err_wp. apply (wp_perform (I := Host)); [by split|].
  intros [s|e| |] Hr; cbn in Hr |- *; auto; try done.
  split; [by split|]. intros [[]|e| |] Hr1; cbn in Hr1 |- *; auto; try done.
  split; [by split|]. intros [[]|e| |] Hr2; cbn in Hr2 |- *; auto; try done.
  split; [by split|]. intros [n|e| |] Hr3; cbn in Hr3 |- *; try (apply HQ; done); by destruct Hr3.
Qed.

(** [c1 \/ c2] for the outcomes an adapter call may have. *)
Definition denied_or {A} (allowed : bool) (P : Result A EgressError -> Prop)
  (r : Result A EgressError) : Prop :=
  if allowed then returns r /\ P r
  else r = Err (mkEgressError EgressErrorKind.PolicyDenied (lit "policy denied host egress")).

Lemma tcp_connect_nonblocking_wp (destination : SocketAddr) (timeout : option Duration) h :
  wp (authorised true destination [])
    (fun h r => match map_err (egress_io_error EgressErrorKind.ConnectFailed) r with
       | Ok a => wp (authorised true destination []) (fun _ r => returns r) h
           (let! _ := prog_map_err (egress_io_error EgressErrorKind.ConnectFailed) (tcp_set_nonblocking a) in Ret (Ok a))
       | Err e => True
       | Panic | OutOfFuel => False
       end) h (tcp_connect destination timeout).
Proof.
  apply (wp_perform (I := Host)); [by split|]. intros [s|e| |] Hr; cbn in Hr |- *; try done.
  split; [by split|]. intros [[]|e| |] Hr1; cbn in Hr1 |- *; done.
Qed.

Lemma connect_tcp_nonblocking_wp (request : TcpEgressRequest) h :
  wp (authorised (egress_is_allowed (te_context request)) (endpoint_socket_addr (te_destination request)) [])
     (fun _ r => denied_or (egress_is_allowed (te_context request)) (fun _ => True) r)
     h (connect_tcp_nonblocking request).
Proof.
  unfold connect_tcp_nonblocking, connect_tcp. apply wp_try, ensure_allowed_wp; intros ->; [|done].
  apply prog_map_err_wp.
  assert (forall t, wp (authorised true (endpoint_socket_addr (te_destination request)) [])
    (fun h r => match map_err (egress_io_error EgressErrorKind.ConnectFailed) r with
       | Ok a => wp (authorised true (endpoint_socket_addr (te_destination request)) [])
           (fun _ r => denied_or true (fun _ => True) r) h
           (let! _ := prog_map_err (egress_io_error EgressErrorKind.ConnectFailed) (tcp_set_nonblocking a) in Ret (Ok a))
       | Err e => denied_or true (fun _ : Result Z EgressError => True) (Err e)
       | Panic => denied_or true (fun _ : Result Z EgressError => True) Panic
       | OutOfFuel => denied_or true (fun _ : Result Z EgressError => True) OutOfFuel
       end) h (tcp_connect (endpoint_socket_addr (te_destination request)) t)) as Hc.
  { intros t. eapply (wp_mono (I := Host)); [done| |apply tcp_connect_nonblocking_wp].
    intros h' [a|e| |] H; try done. eapply (wp_mono (I := Host)); [done| |exact H]. by split. }
  destruct (te_connect_timeout request); apply Hc.
Qed.

Lemma forward_udp_once_wp (self : StdHostEgress) (request : UdpEgressRequest) (payload : list byte)
  (timeout : Duration) h :
  wp (authorised (egress_is_allowed (ue_context request)) (endpoint_socket_addr (ue_destination request)) payload)
     (fun _ r => denied_or (egress_is_allowed (ue_context request))
        (fun r => forall bs, r = Ok (Some bs) -> Z.of_nat (length bs) <= Z.max 0 (udp_response_limit self)) r)
     h (forward_udp_once self request payload timeout).
Proof.
  unfold forward_udp_once. apply ensure_allowed_wp; intros ->; [|done].
  apply wp_try, send_datagram_wp. intros h1 [s|e| |] Hr; try done. cbn. split; [by split|].
  intros r [Hr1 Hlen]. cbn. destruct r as [bs|e| |]; try done.
  - split; [done|]. intros bs' [= <-]. specialize (Hlen _ eq_refl). lia.
  - destruct (_ || _); cbn; (split; [done|]; done).
Qed.

Lemma query_dns_raw_wp (self : StdHostEgress) (request : DnsEgressRequest) (payload : list byte)
  (timeout : Duration) h :
  wp (authorised (egress_is_allowed (de_context request)) (endpoint_socket_addr (de_upstream request)) payload)
     (fun _ r => denied_or (egress_is_allowed (de_context request))
        (fun r => forall bs, r = Ok bs -> Z.of_nat (length bs) <= Z.max 0 (dns_response_limit self)) r)
     h (query_dns_raw self request payload timeout).
Proof.
  unfold query_dns_raw. apply ensure_allowed_wp; intros ->; [|done].
  apply wp_try, send_datagram_wp. intros h1 [s|e| |] Hr; try done. cbn. split; [by split|].
  intros r [Hr1 Hlen]. cbn. destruct r as [bs|e| |]; try done.
  split; [done|]. intros bs' [= <-]. specialize (Hlen _ eq_refl). lia.
Qed.

(** ** Properties *)

(** [C23] The egress adapter fails closed and sends nothing else: for every host
    behaviour, each adapter call whose context is not allowed performs no host operation
    and returns [PolicyDenied]; an allowed call connects or sends only to the request's
    own destination, sends exactly the given payload, resolves no name, and returns at
    most the configured number of response bytes. *)
Theorem egress_fails_closed (self : StdHostEgress) (tcp : TcpEgressRequest) (udp : UdpEgressRequest)
  (dns : DnsEgressRequest) (payload : list byte) (timeout : Duration) (h : list (Action Host)) :
  wp (authorised (egress_is_allowed (te_context tcp)) (endpoint_socket_addr (te_destination tcp)) [])
     (fun _ r => denied_or (egress_is_allowed (te_context tcp)) (fun _ => True) r)
     h (connect_tcp_nonblocking tcp) /\
  wp (authorised (egress_is_allowed (ue_context udp)) (endpoint_socket_addr (ue_destination udp)) payload)
     (fun _ r => denied_or (egress_is_allowed (ue_context udp))
        (fun r => forall bs, r = Ok (Some bs) -> Z.of_nat (length bs) <= Z.max 0 (udp_response_limit self)) r)
     h (forward_udp_once self udp payload timeout) /\
  wp (authorised (egress_is_allowed (de_context dns)) (endpoint_socket_addr (de_upstream dns)) payload)
     (fun _ r => denied_or (egress_is_allowed (de_context dns))
        (fun r => forall bs, r = Ok bs -> Z.of_nat (length bs) <= Z.max 0 (dns_response_limit self)) r)
     h (query_dns_raw self dns payload timeout).
Proof. split_and!; [apply connect_tcp_nonblocking_wp|apply forward_udp_once_wp|apply query_dns_raw_wp]. Qed.

(** Name resolution prefers IPv4 without inventing addresses: when the resolver
    answers, [resolve_host_port] returns the first IPv4 address if there is one, else
    the first address, and an [AddrNotAvailable] error on an empty answer; a resolver
    error is returned unchanged. *)
Theorem resolve_prefers_ipv4 (host : Hostname) (port : Z) (answers : Answers Host) (h : list (Action Host)) :
  let answer := answers h (HostOp.ResolveHost (hostname_str host) port) in
  let '(r, h') := replay answers h (resolve_host_port host port) in
  ops h' = ops h ++ [HostOp.ResolveHost (hostname_str host) port] /\
  match answer with
  | Ok addrs =>
      (forall a, r = Ok a ->
         exists pre post, addrs = pre ++ a :: post /\
           (if is_ipv4 a then Forall (fun b => is_ipv4 b = false) pre
            else pre = [] /\ Forall (fun b => is_ipv4 b = false) addrs)) /\
      (is_ok r = false <-> addrs = [])
  | Err e => r = Err e
  | _ => True
  end.
Proof.
  intros answer. unfold answer. clear answer. cbn.
  destruct (answers h (HostOp.ResolveHost (hostname_str host) port)) as [addrs|e| |]; cbn;
    (split; [unfold ops; by rewrite map_app|]); try done.
  assert (forall addrs, match head (ipv4_first addrs) with
    | Some a => exists pre post, addrs = pre ++ a :: post /\
        (if is_ipv4 a then Forall (fun b => is_ipv4 b = false) pre
         else pre = [] /\ Forall (fun b => is_ipv4 b = false) addrs)
    | None => addrs = [] end) as Hhead.
  { clear. unfold ipv4_first. induction addrs as [|a addrs IH]; cbn; [done|].
    destruct (is_ipv4 a) eqn:Ha; cbn [negb].
    - exists [], addrs. by rewrite Ha.
    - destruct (List.filter is_ipv4 addrs) as [|b bs] eqn:Hf; cbn [app head] in *.
      + exists [], addrs. rewrite Ha. split; [done|]. split; [done|]. constructor; [done|].
        apply Forall_forall. intros b Hb. destruct (is_ipv4 b) eqn:E; [|done].
        assert (b ∈ List.filter is_ipv4 addrs) as Hin by (apply list_elem_of_In, filter_In; by rewrite <- list_elem_of_In).
        rewrite Hf in Hin. set_solver.
      + destruct IH as (pre & post & -> & Hb). assert (is_ipv4 b = true) as Hb4.
        { assert (b ∈ List.filter is_ipv4 (pre ++ b :: post)) as Hin by (rewrite Hf; left).
          apply list_elem_of_In, filter_In in Hin; apply Hin. }
        rewrite Hb4 in *. exists (a :: pre), post. split; [done|]. by constructor. }
  specialize (Hhead addrs). destruct (head (ipv4_first addrs)) as [a|]; cbn.
  - split; [by intros a' [= <-]|]. split; [done|]. destruct Hhead as (pre & post & -> & _). by destruct pre.
  - by split.
Qed.
