(* ===== verification/ProxyParse.v ===== *)
(** * Explicit proxy parsing ([crates/foxprox-proxy/src/lib.rs], lines 597-611, 729-768, 809-1056)

    HTTP proxy request heads, SOCKS5 CONNECT requests, the head splitter and
    the origin-form rewriter: the byte-level part of the proxy frontend. *)

From S2P Require Import Prelude Text NetAddr Event Policy Flow AuditLog Effects Inspection.

Module ProxyParseError.
Inductive ProxyParseError : Type :=
| Truncated
| Malformed (detail : str)
| Unsupported (detail : str).
End ProxyParseError.
Abbreviation ProxyParseError := ProxyParseError.ProxyParseError.

#[export] Instance ProxyParseError_eq_dec : EqDecision ProxyParseError.
Proof. solve_decision. Defined.

(** The derived [Debug]. *)
Definition debug_proxy_parse_error (e : ProxyParseError) : str :=
  match e with
  | ProxyParseError.Truncated => lit "Truncated"
  | ProxyParseError.Malformed d => lit "Malformed(" ++ debug_str d ++ lit ")"
  | ProxyParseError.Unsupported d => lit "Unsupported(" ++ debug_str d ++ lit ")"
  end.

(** ** HTTP *)

Definition proxy_parse_host_port (authority : str) (default_port : option Z)
  : Result (Hostname * Z) ProxyParseError :=
  if starts_with (lit "[") authority then
    Err (ProxyParseError.Unsupported
           (lit "IPv6 literal authorities are not supported by hostname-only proxy events"))
  else
    let with_default :=
      match default_port with
      | None => Err (ProxyParseError.Malformed (lit "missing explicit port"))
      | Some default_port => Ok (authority, default_port)
      end in
    let? (host, port) :=
      match rsplit_once x3a authority with
      | Some (host, port) =>
          if negb (bool_decide (port = [])) && forallb is_ascii_digit port then
            let? port := map_err (fun _ => ProxyParseError.Malformed (lit "invalid port"))
                           (parse_uint u16_max port) in
            Ok (host, port)
          else with_default
      | None => with_default
      end in
    if bool_decide (is_Some (parse_ipv4 host)) then
      Err (ProxyParseError.Unsupported
             (lit "IPv4 literal authorities are not supported by hostname-only proxy events"))
    else
      let? host := map_err (fun error => ProxyParseError.Malformed (hostname_error_display error))
                     (hostname_parse host) in
      Ok (host, port).

(** [match s.find('/')]: what precedes the path, and the path. *)
Definition split_path (without_scheme : str) : str * str :=
  match find (lit "/") without_scheme with
  | Some index => (take index without_scheme, drop index without_scheme)
  | None => (without_scheme, lit "/")
  end.

Definition parse_absolute_http_target (target : str) : Result (Origin * str) ProxyParseError :=
  let? without_scheme :=
    ok_or (strip_prefix (lit "http://") target)
      (ProxyParseError.Unsupported (lit "only absolute-form http:// proxy targets are supported")) in
  let '(authority, path) := split_path without_scheme in
  let? (host, port) := proxy_parse_host_port authority (Some 80) in
  Ok (mkOrigin (lit "http") host port, path).

Definition parse_http_proxy_request_head (sandbox_id : SandboxId) (input : list byte)
  : Result NetworkEvent ProxyParseError :=
  let? text := ok_or (from_utf8 input)
                 (ProxyParseError.Malformed (lit "HTTP proxy head is not UTF-8")) in
  let? head_end := ok_or (find (crlf ++ crlf) text) ProxyParseError.Truncated in
  let? request_line := ok_or (head (split_crlf (take head_end text)))
                         (ProxyParseError.Malformed (lit "missing request line")) in
  let parts := split_whitespace request_line in
  let method := default [] (parts !! 0%nat) in
  let? target := ok_or (parts !! 1%nat) (ProxyParseError.Malformed (lit "missing request target")) in
  let? version := ok_or (parts !! 2%nat) (ProxyParseError.Malformed (lit "missing HTTP version")) in
  if negb (bool_decide (version = lit "HTTP/1.0") || bool_decide (version = lit "HTTP/1.1"))
     || bool_decide (is_Some (parts !! 3%nat)) then
    Err (ProxyParseError.Unsupported
           (lit "only HTTP/1.0 and HTTP/1.1 proxy requests are supported"))
  else if eq_ignore_ascii_case method (lit "CONNECT") then
    let? (host, port) := proxy_parse_host_port target None in
    Ok (NetworkEvent.HttpsConnect sandbox_id Frontend.HttpProxy host port)
  else
    let? method := map_err (fun error => ProxyParseError.Malformed (http_method_error_display error))
                     (http_method_parse method) in
    let? (origin, path_and_query) := parse_absolute_http_target target in
    Ok (NetworkEvent.HttpRequest sandbox_id Frontend.HttpProxy method origin path_and_query).

Definition absolute_http_path (target : str) : Result str IoError :=
  let? without_scheme := ok_or (strip_prefix (lit "http://") target)
                           (mkIoError IoErrorKind.InvalidData (lit "not absolute http target")) in
  Ok (match find (lit "/") without_scheme with
      | Some index => drop index without_scheme
      | None => lit "/"
      end).

Definition rewrite_http_request_for_origin (head : list byte) : Result (list byte) IoError :=
  let? text := ok_or (from_utf8 head) (mkIoError IoErrorKind.InvalidData (lit "HTTP head is not UTF-8")) in
  let? line_end := ok_or (find crlf text) (mkIoError IoErrorKind.InvalidData (lit "missing request line")) in
  let request_line := take line_end text in
  let parts := split_whitespace request_line in
  let method := default [] (parts !! 0%nat) in
  let target := default [] (parts !! 1%nat) in
  let version := default [] (parts !! 2%nat) in
  let? path := absolute_http_path target in
  Ok (method ++ lit " " ++ path ++ lit " " ++ version ++ drop line_end text).

(** [buffered.windows(4).position(|w| w == "\r\n\r\n")] is a byte search. *)
Definition split_proxy_head (buffered : list byte) : Result (list byte * list byte) IoError :=
  match find (crlf ++ crlf) buffered with
  | None => Err (mkIoError IoErrorKind.InvalidData (lit "proxy request head delimiter missing"))
  | Some head_end =>
      let split_at := (head_end + 4)%nat in
      Ok (take split_at buffered, drop split_at buffered)
  end.

(** ** SOCKS5 *)

Definition parse_socks_address (request : list byte)
  : Result (SocksDestination * nat) ProxyParseError :=
  match u8_val <$> (request !! 3%nat) with
  | Some 1 =>
      if (length request <? 10)%nat then Err ProxyParseError.Truncated
      else
        let? ip := or_panic (slice request 4 8) in
        let? port := or_panic (slice request 8 10) in
        Ok (SocksDestination.Ip (mkEndpoint (V4 (be_val ip)) (be_val port)), 10%nat)
  | Some 3 =>
      let? len := ok_or (request !! 4%nat) ProxyParseError.Truncated in
      let len := Z.to_nat (u8_val len) in
      if (length request <? 5 + len + 2)%nat then Err ProxyParseError.Truncated
      else
        let? bytes := or_panic (slice request 5 (5 + len)) in
        let? host := ok_or (from_utf8 bytes) (ProxyParseError.Malformed (lit "SOCKS hostname is not UTF-8")) in
        let? host := map_err (fun error => ProxyParseError.Malformed (hostname_error_display error))
                       (hostname_parse host) in
        let port_offset := (5 + len)%nat in
        let? port := or_panic (slice request port_offset (port_offset + 2)) in
        Ok (SocksDestination.Host host (be_val port), (port_offset + 2)%nat)
  | Some 4 =>
      if (length request <? 22)%nat then Err ProxyParseError.Truncated
      else
        let? octets := or_panic (slice request 4 20) in
        let? port := or_panic (slice request 20 22) in
        Ok (SocksDestination.Ip (mkEndpoint (V6 (be_val octets)) (be_val port)), 22%nat)
  | Some _ => Err (ProxyParseError.Unsupported (lit "unsupported SOCKS address type"))
  | None => Err ProxyParseError.Truncated
  end.

Definition parse_socks5_connect (sandbox_id : SandboxId) (input : list byte)
  : Result NetworkEvent ProxyParseError :=
  if (length input <? 2)%nat then Err ProxyParseError.Truncated
  else
    let? version := or_panic (input !! 0%nat) in
    if negb (u8_val version =? 5) then
      Err (ProxyParseError.Malformed (lit "SOCKS version is not 5"))
    else
      let? method_count := or_panic (input !! 1%nat) in
      let methods_end := (2 + Z.to_nat (u8_val method_count))%nat in
      if (length input <? methods_end + 4)%nat then Err ProxyParseError.Truncated
      else
        let? methods := or_panic (slice input 2 methods_end) in
        if negb (contains_byte x00 methods) then
          Err (ProxyParseError.Unsupported (lit "SOCKS5 no-auth method was not offered"))
        else
          let? request := or_panic (slice input methods_end (length input)) in
          let? request_version := or_panic (request !! 0%nat) in
          if negb (u8_val request_version =? 5) then
            Err (ProxyParseError.Malformed (lit "SOCKS request version is not 5"))
          else
            let? reserved := or_panic (request !! 2%nat) in
            if negb (u8_val reserved =? 0) then
              Err (ProxyParseError.Malformed (lit "SOCKS reserved byte is non-zero"))
            else
              let? command := or_panic (request !! 1%nat) in
              if negb (u8_val command =? 1) then
                Err (ProxyParseError.Unsupported (lit "only SOCKS5 CONNECT is alpha-supported"))
              else
                let? (target, consumed) := parse_socks_address request in
                if (length input <? methods_end + consumed)%nat then Err ProxyParseError.Truncated
                else Ok (NetworkEvent.SocksConnect sandbox_id target).

Definition socks_status_for_parse_error (request_bytes : list byte) : Result Z IoError :=
  if (2 <=? length request_bytes)%nat then
    let? n := or_panic (request_bytes !! 1%nat) in
    let request_offset := (2 + Z.to_nat (u8_val n))%nat in
    if (request_offset + 3 <? length request_bytes)%nat then
      let? command := or_panic (request_bytes !! (request_offset + 1)%nat) in
      let? address_type := or_panic (request_bytes !! (request_offset + 3)%nat) in
      if negb (u8_val command =? 1) then Ok 0x07
      else if negb ((u8_val address_type =? 1) || (u8_val address_type =? 3)
                    || (u8_val address_type =? 4)) then Ok 0x08
      else Ok 0x01
    else Ok 0x01
  else Ok 0x01.

Definition socks_status_for_io_error (error : IoError) : Z :=
  match io_kind error with
  | IoErrorKind.ConnectionRefused => 0x05
  | IoErrorKind.TimedOut => 0x04
  | IoErrorKind.AddrNotAvailable | IoErrorKind.NotFound => 0x04
  | _ => 0x01
  end.

Definition socks5_reply (status : Z) : list byte :=
  [x05; u8_of status; x00; x01; x00; x00; x00; x00; x00; x00].

(** ** Specification: wire forms *)

(** An absolute-form target. *)
Definition absolute_target (h : Hostname) (port : option Z) (path : str) : str :=
  lit "http://" ++ authority h port ++ path.

Definition path_wf (path : str) : Prop :=
  graphic path /\ exists rest, path = lit "/" ++ rest.

(** A host name the proxy does not take for an address literal. *)
Definition proxy_host_wf (h : Hostname) : Prop :=
  hostname_wf h /\ parse_ipv4 (hostname_str h) = None.

Definition encode_socks_address (target : SocksDestination) : list byte :=
  match target with
  | SocksDestination.Ip (mkEndpoint (V4 a) port) => [x01] ++ be_bytes 4 a ++ be_bytes 2 port
  | SocksDestination.Ip (mkEndpoint (V6 a) port) => [x04] ++ be_bytes 16 a ++ be_bytes 2 port
  | SocksDestination.Host h port =>
      [x03; u8_of (Z.of_nat (length (hostname_str h)))] ++ hostname_str h ++ be_bytes 2 port
  end.

(** RFC 1928: greeting and CONNECT request. *)
Definition encode_socks5_connect (methods : list byte) (target : SocksDestination) : list byte :=
  [x05; u8_of (Z.of_nat (length methods))] ++ methods ++ [x05; x01; x00] ++ encode_socks_address target.

Definition socks_target_wf (target : SocksDestination) : Prop :=
  0 <= socks_port target <= u16_max /\
  match target with
  | SocksDestination.Ip (mkEndpoint (V4 a) _) => 0 <= a <= u32_max
  | SocksDestination.Ip (mkEndpoint (V6 a) _) => 0 <= a <= u128_max
  | SocksDestination.Host h _ => hostname_wf h
  end.

(** ** Lemmas: lines of a head *)

(** The request line is what precedes the first line break. *)
Lemma head_line (s : str) : forall k,
  find (crlf ++ crlf) s = Some k ->
  exists n, find crlf s = Some n /\ head (split_crlf (take k s)) = Some (take n s).
Proof.
  induction s as [|x s IH]; intros k; cbn [find]; [done|].
  destruct (starts_with (crlf ++ crlf) (x :: s)) eqn:E4.
  - intros [= <-]. apply starts_with_true in E4 as [r Hr]. exists 0%nat.
    assert (starts_with crlf (x :: s) = true) as ->.
    { apply starts_with_true. exists (crlf ++ r). by rewrite Hr, <- app_assoc. }
    done.
  - intros (k' & Hk & ->)%fmap_Some. destruct (starts_with crlf (x :: s)) eqn:E2.
    + exists 0%nat. split; [done|]. apply starts_with_true in E2 as [r Hr]. cbn in Hr. injection Hr as -> ->.
      destruct k' as [|k']; [|done].
      apply find_Some in Hk as ([r' Hr'] & _). cbn in Hr'. discriminate.
    + destruct (IH k' Hk) as (n & -> & Hn). exists (S n). split; [done|].
      cbn [take]. revert Hn. destruct s as [|y s]; [by destruct k', n|].
      destruct k' as [|k']; cbn [take].
      * cbn. intros [= Hn]. by rewrite <- Hn.
      * intros Hn. cbn [split_crlf].
        assert (bool_decide (x = x0d) && bool_decide (y = x0a) = false) as ->.
        { apply andb_false_iff. rewrite !bool_decide_eq_false.
          destruct (decide (x = x0d)) as [->|]; [|by left]. right. intros ->.
          assert (starts_with crlf (x0d :: x0a :: s) = true); [|congruence].
          apply starts_with_true. by exists s. }
        cbn [split_crlf] in Hn. revert Hn. destruct (match take k' s with [] => _ | _ => _ end) as [|l ls]; [done|].
        cbn. by intros [= ->].
Qed.

(** ** Lemmas: HTTP targets *)

Lemma starts_with_bracket (h : Hostname) (r : str) :
  hostname_wf h -> starts_with (lit "[") (hostname_str h ++ r) = false.
Proof.
  intros Hwf. apply not_true_iff_false. rewrite starts_with_true. intros [s Hs].
  destruct (hostname_wf_last h Hwf) as (m & z & Hm & _). pose proof (hostname_wf_bytes h Hwf) as Hb.
  destruct (hostname_str h) as [|b t]; [by destruct m|]. injection Hs as ->.
  apply Forall_cons in Hb as [Hb _]. by destruct Hb.
Qed.

Lemma proxy_parse_host_port_authority (h : Hostname) (port default_port : option Z) (p : Z) :
  proxy_host_wf h -> (forall p, port = Some p -> 0 <= p <= u16_max) ->
  (port = Some p \/ port = None /\ default_port = Some p) ->
  proxy_parse_host_port (authority h port) default_port = Ok (h, p).
Proof.
  intros [Hwf H4] Hp Hport. unfold proxy_parse_host_port.
  assert (bool_decide (is_Some (parse_ipv4 (hostname_str h))) = false) as Hn
    by (apply bool_decide_eq_false; rewrite H4; by intros []).
  destruct Hport as [->|[-> ->]]; unfold authority.
  - rewrite starts_with_bracket by done. pose proof (Hp p eq_refl) as Hr.
    rewrite (proj2 (rsplit_once_Some x3a _ (hostname_str h) (dec p)))
      by (split; [done|apply digits_no_colon, dec_digits]).
    rewrite bool_decide_eq_false_2 by apply dec_nonempty.
    rewrite (proj2 (forallb_forall _ _)).
    2:{ intros b Hb. pose proof (dec_digits p) as Hd. rewrite Forall_forall in Hd. by apply Hd, list_elem_of_In. }
    cbn [negb andb]. rewrite parse_uint_dec by (unfold u16_max in *; lia). cbn [map_err result_bind].
    rewrite Hn. by rewrite hostname_parse_of_wf.
  - rewrite starts_with_bracket by done. rewrite app_nil_r.
    destruct (rsplit_once x3a (hostname_str h)) as [[a b]|] eqn:E.
    + apply rsplit_once_Some in E as [E _]. exfalso. apply (hostname_no_colon h Hwf). rewrite E. set_solver.
    + cbn [result_bind]. rewrite Hn. by rewrite hostname_parse_of_wf.
Qed.

Lemma find_slash (a path : str) :
  x2f ∉ a -> path_wf path -> find (lit "/") (a ++ path) = Some (length a).
Proof.
  intros Ha [_ [r ->]]. induction a as [|b a IH]; [exact (find_here (lit "/") r)|].
  apply not_elem_of_cons in Ha as [Hb Ha]. cbn [app length]. rewrite find_step.
  - by rewrite IH.
  - by apply starts_with_head_ne.
Qed.

Lemma authority_no_slash (h : Hostname) (port : option Z) : hostname_wf h -> x2f ∉ authority h port.
Proof.
  intros Hwf Hin. apply elem_of_app in Hin as [Hin|Hin].
  - pose proof (hostname_wf_bytes h Hwf) as Hb. rewrite Forall_forall in Hb. specialize (Hb _ Hin). by destruct Hb.
  - destruct port as [p|]; [|set_solver]. apply elem_of_cons in Hin as [|Hin]; [done|].
    pose proof (dec_digits p) as Hd. rewrite Forall_forall in Hd. by specialize (Hd _ Hin).
Qed.

Lemma parse_absolute_target (h : Hostname) (port : option Z) (path : str) :
  proxy_host_wf h -> (forall p, port = Some p -> 0 <= p <= u16_max) -> path_wf path ->
  parse_absolute_http_target (absolute_target h port path) =
  Ok (mkOrigin (lit "http") h (default 80 port), path).
Proof.
  intros Hh Hp Hpath. unfold parse_absolute_http_target, absolute_target.
  rewrite strip_prefix_app. cbn [ok_or result_bind]. unfold split_path.
  rewrite find_slash by (try apply authority_no_slash, Hh; done).
  rewrite take_app_length, drop_app_length.
  rewrite (proxy_parse_host_port_authority h port (Some 80) (default 80 port)); [done|done|done|].
  destruct port; [by left|by right].
Qed.

(** The path the policy sees is the path the origin gets. *)
Lemma absolute_path_agrees (target path : str) (o : Origin) :
  parse_absolute_http_target target = Ok (o, path) -> absolute_http_path target = Ok path.
Proof.
  unfold parse_absolute_http_target, absolute_http_path.
  destruct (strip_prefix _ _) as [s|]; cbn [ok_or result_bind]; [|done]. unfold split_path.
  destruct (find _ s); cbn; destruct (proxy_parse_host_port _ _) as [[]|e| |]; cbn; congruence.
Qed.

(** ** Lemmas: totality *)

Lemma proxy_parse_host_port_returns (authority : str) (d : option Z) :
  returns (proxy_parse_host_port authority d).
Proof.
  unfold proxy_parse_host_port. case_match; [done|]. apply result_bind_returns.
  - destruct (rsplit_once _ _) as [[h p]|]; [|by destruct d]. destruct (_ && _); [|by destruct d].
    apply result_bind_returns; [apply map_err_returns, parse_uint_returns|done].
  - intros [h p] _. case_match; [done|].
    apply result_bind_returns; [apply map_err_returns, hostname_parse_returns|done].
Qed.

Lemma parse_absolute_http_target_returns (t : str) : returns (parse_absolute_http_target t).
Proof.
  unfold parse_absolute_http_target. apply result_bind_returns; [auto with foxprox|]. intros s _.
  destruct (split_path s). apply result_bind_returns; [apply proxy_parse_host_port_returns|by intros []].
Qed.

Lemma parse_http_proxy_request_head_returns (sid : SandboxId) (input : list byte) :
  returns (parse_http_proxy_request_head sid input).
Proof.
  unfold parse_http_proxy_request_head. do 5 (apply result_bind_returns; [auto with foxprox|]; intros ? _).
  case_match; [done|]. case_match.
  - apply result_bind_returns; [apply proxy_parse_host_port_returns|by intros []].
  - apply result_bind_returns; [apply map_err_returns, http_method_parse_returns|]. intros m _.
    apply result_bind_returns; [apply parse_absolute_http_target_returns|by intros []].
Qed.

Lemma slice_ok {A} (l : list A) (i j : nat) : (i <= j <= length l)%nat ->
  exists r, slice l i j = Some r /\ length r = (j - i)%nat.
Proof.
  intros H. exists (take (j - i) (drop i l)). split; [by apply slice_Some|].
  rewrite length_take, length_drop. lia.
Qed.

Lemma lookup_ok {A} (l : list A) (i : nat) : (i < length l)%nat -> exists x, l !! i = Some x.
Proof. intros H. by destruct (lookup_lt_is_Some_2 l i H) as [x ?]; exists x. Qed.

Lemma parse_socks_address_returns (r : list byte) : returns (parse_socks_address r).
Proof.
  unfold parse_socks_address. destruct (r !! 3%nat) as [b|]; cbn [fmap option_fmap option_map]; [|done].
  destruct (u8_val b) as [|q|q]; [done| |done].
  destruct q as [q|q|]; [destruct q; try done|destruct q as [q|q|]; [done|destruct q; try done|done]|].
  - destruct (r !! 4%nat) as [l|]; cbn [ok_or result_bind]; [|done]. case_match; [done|]. to_prop.
    destruct (slice_ok r 5 (5 + Z.to_nat (u8_val l)) ltac:(lia)) as (x & -> & _). cbn [or_panic result_bind].
    apply result_bind_returns; [auto with foxprox|]. intros h _.
    apply result_bind_returns; [apply map_err_returns, hostname_parse_returns|]. intros h' _.
    destruct (slice_ok r (5 + Z.to_nat (u8_val l)) (5 + Z.to_nat (u8_val l) + 2) ltac:(lia)) as (y & -> & _). done.
  - case_match; [done|]. to_prop. destruct (slice_ok r 4 20 ltac:(lia)) as (x & -> & _).
    destruct (slice_ok r 20 22 ltac:(lia)) as (y & -> & _). done.
  - case_match; [done|]. to_prop. destruct (slice_ok r 4 8 ltac:(lia)) as (x & -> & _).
    destruct (slice_ok r 8 10 ltac:(lia)) as (y & -> & _). done.
Qed.

Lemma parse_socks5_connect_returns (sid : SandboxId) (input : list byte) :
  returns (parse_socks5_connect sid input).
Proof.
  unfold parse_socks5_connect. case_match; [done|]. to_prop.
  destruct (lookup_ok input 0 ltac:(lia)) as [b0 ->], (lookup_ok input 1 ltac:(lia)) as [b1 ->].
  cbn [or_panic result_bind]. case_match; [done|]. cbv zeta. case_match; [done|]. to_prop.
  set (e := (2 + Z.to_nat (u8_val b1))%nat) in *.
  destruct (slice_ok input 2 e ltac:(lia)) as (ms & -> & _). cbn [or_panic result_bind]. case_match; [done|].
  destruct (slice_ok input e (length input) ltac:(lia)) as (r & -> & Hr). cbn [or_panic result_bind].
  destruct (lookup_ok r 0 ltac:(lia)) as [r0 ->], (lookup_ok r 1 ltac:(lia)) as [r1 ->],
    (lookup_ok r 2 ltac:(lia)) as [r2 ->]. cbn [or_panic result_bind].
  do 3 (case_match; [done|]). apply result_bind_returns; [apply parse_socks_address_returns|].
  intros [t c] _. by case_match.
Qed.

Lemma socks_status_for_parse_error_returns (r : list byte) : returns (socks_status_for_parse_error r).
Proof.
  unfold socks_status_for_parse_error. case_match; [|done]. to_prop.
  destruct (lookup_ok r 1 ltac:(lia)) as [n ->]. cbn [or_panic result_bind]. cbv zeta. case_match; [|done]. to_prop.
  destruct (lookup_ok r (2 + Z.to_nat (u8_val n) + 1) ltac:(lia)) as [c ->].
  destruct (lookup_ok r (2 + Z.to_nat (u8_val n) + 3) ltac:(lia)) as [a ->]. cbn [or_panic result_bind].
  by repeat case_match.
Qed.

Lemma rewrite_returns (head : list byte) : returns (rewrite_http_request_for_origin head).
Proof.
  unfold rewrite_http_request_for_origin. do 2 (apply result_bind_returns; [auto with foxprox|]; intros ? _).
  apply result_bind_returns; [|done]. unfold absolute_http_path.
  apply result_bind_returns; [auto with foxprox|done].
Qed.

(** ** Lemmas: SOCKS5 *)

Lemma parse_socks_address_encoded (target : SocksDestination) (b0 b1 b2 : byte) (rest : list byte) :
  socks_target_wf target ->
  parse_socks_address ([b0; b1; b2] ++ encode_socks_address target ++ rest) =
  Ok (target, (3 + length (encode_socks_address target))%nat).
Proof.
  intros [Hport H]. set (r := [b0; b1; b2] ++ encode_socks_address target ++ rest).
  assert (drop 3 r = encode_socks_address target ++ rest) as H3 by done.
  assert (length r = 3 + length (encode_socks_address target) + length rest)%nat as Hlen
    by (unfold r; rewrite !length_app; cbn; lia).
  assert (forall p, 0 <= p <= u16_max -> be_val (be_bytes 2 p) = p) as Hbe
    by (intros p Hp; apply be_val_bytes_small; unfold u16_max in Hp; lia).
  clearbody r. destruct target as [h port|[[a|a] port]]; cbn [encode_socks_address socks_port ep_port] in *;
    rewrite <- !app_assoc in H3; rewrite ?length_app, ?length_be_bytes in *; cbn [length app] in *;
    unfold parse_socks_address; rewrite (lookup_drop_head _ _ _ _ H3); cbn [fmap option_fmap option_map u8_val Byte.to_N Z.of_N].
  - apply (drop_next r [_]) in H3. cbn [length Nat.add] in H3. rewrite (lookup_drop_head _ _ _ _ H3).
    assert (Z.of_nat (length (hostname_str h)) <= 253) as Hl by (destruct H; lia).
    cbn [ok_or result_bind]. rewrite u8_val_of, Z.mod_small, Nat2Z.id by lia.
    rewrite (proj2 (Nat.ltb_ge _ _)) by lia. apply (drop_next r [_]) in H3. cbn [length Nat.add] in H3.
    assert (hostname_str h <> []) as Hne.
    { destruct (hostname_wf_last h H) as (m & z & -> & _). by destruct m. }
    rewrite (slice_drop _ _ _ _ H3 Hne). cbn [or_panic result_bind].
    unfold from_utf8. rewrite utf8_valid_graphic by (by apply hostname_wf_graphic).
    cbn [ok_or result_bind]. rewrite hostname_parse_of_wf by done. cbn [map_err result_bind].
    apply drop_next in H3. pose proof (slice_drop _ _ _ _ H3 ltac:(done)) as Hs. rewrite length_be_bytes in Hs.
    rewrite Hs. cbn [or_panic result_bind]. rewrite Hbe by done. done.
  - rewrite (proj2 (Nat.ltb_ge _ _)) by lia. apply (drop_next r [_]) in H3. cbn [length Nat.add] in H3.
    pose proof (slice_drop _ _ _ _ H3 ltac:(done)) as Hs. rewrite length_be_bytes in Hs. cbn [Nat.add] in Hs. rewrite Hs.
    apply drop_next in H3. rewrite length_be_bytes in H3. cbn [Nat.add] in H3.
    pose proof (slice_drop _ _ _ _ H3 ltac:(done)) as Hs2. rewrite length_be_bytes in Hs2. cbn [Nat.add] in Hs2. rewrite Hs2.
    cbn [or_panic result_bind]. rewrite Hbe by done. rewrite be_val_bytes_small by (unfold u32_max in H; lia). done.
  - rewrite (proj2 (Nat.ltb_ge _ _)) by lia. apply (drop_next r [_]) in H3. cbn [length Nat.add] in H3.
    pose proof (slice_drop _ _ _ _ H3 ltac:(done)) as Hs. rewrite length_be_bytes in Hs. cbn [Nat.add] in Hs. rewrite Hs.
    apply drop_next in H3. rewrite length_be_bytes in H3. cbn [Nat.add] in H3.
    pose proof (slice_drop _ _ _ _ H3 ltac:(done)) as Hs2. rewrite length_be_bytes in Hs2. cbn [Nat.add] in Hs2. rewrite Hs2.
    cbn [or_panic result_bind]. rewrite Hbe by done. rewrite be_val_bytes_small by (unfold u128_max in H; lia). done.
Qed.

(** ** Lemmas: request heads *)

Definition proxy_version (version : str) : Prop := version = lit "HTTP/1.0" \/ version = lit "HTTP/1.1".

Lemma parse_request_head (sid : SandboxId) (m : HttpMethod) (target version : str)
  (headers : list str) (body : str) :
  let input := request_head m target version headers ++ body in
  method_wf m -> target <> [] -> graphic target -> proxy_version version ->
  Forall line_wf headers -> utf8_valid input = true ->
  parse_http_proxy_request_head sid input =
  if eq_ignore_ascii_case (method_str m) (lit "CONNECT") then
    let? (host, port) := proxy_parse_host_port target None in
    Ok (NetworkEvent.HttpsConnect sid Frontend.HttpProxy host port)
  else
    let? (origin, path) := parse_absolute_http_target target in
    Ok (NetworkEvent.HttpRequest sid Frontend.HttpProxy m origin path).
Proof.
  intros input Hm Htne Htg Hv Hh Hu.
  assert (request_words_wf m target version) as Hw
    by (destruct Hv as [-> | ->]; (split_and!; try done; repeat constructor)).
  destruct (request_words m target version Hw) as [Hwords Hline].
  set (lines := join [x20] [method_str m; target; version] :: headers).
  assert (Forall line_wf lines) as Hlines by by constructor.
  assert (Forall (fun l => x0d ∉ l) lines) as Hcrs
    by (eapply Forall_impl; [exact Hlines|]; intros l [_ ?]; done).
  unfold parse_http_proxy_request_head, from_utf8. rewrite Hu. cbn [ok_or result_bind].
  replace (find (crlf ++ crlf) input) with (Some (length (join crlf lines)))
    by (symmetry; unfold input, request_head; rewrite <- !app_assoc; by apply find_head_end).
  cbn [ok_or result_bind]. unfold input, request_head. rewrite <- !app_assoc.
  rewrite take_app_length, split_crlf_join by done.
  subst lines. cbn [list.head ok_or result_bind]. rewrite Hwords.
  change ([method_str m; target; version] !! 0%nat) with (Some (method_str m)).
  change ([method_str m; target; version] !! 1%nat) with (Some target).
  change ([method_str m; target; version] !! 2%nat) with (Some version).
  change ([method_str m; target; version] !! 3%nat) with (@None str). cbn [default ok_or result_bind]. unfold id.
  replace (bool_decide (version = lit "HTTP/1.0") || bool_decide (version = lit "HTTP/1.1")) with true
    by (destruct Hv as [-> | ->]; reflexivity).
  rewrite bool_decide_eq_false_2 by (intros [? ?]; done). cbn [negb orb].
  destruct (eq_ignore_ascii_case _ _); [done|].
  by rewrite http_method_parse_of_wf.
Qed.

Lemma upper_of_lower (b : byte) : is_ascii_lowercase b = false -> byte_to_upper (byte_to_lower b) = b.
Proof. destruct b; vm_compute; done. Qed.

(** Upper-case words that differ only in case are equal. *)
Lemma upper_word_inj (a b : str) :
  Forall (fun c => is_ascii_lowercase c = false) a -> Forall (fun c => is_ascii_lowercase c = false) b ->
  eq_ignore_ascii_case a b = true -> a = b.
Proof.
  assert (forall s, Forall (fun c => is_ascii_lowercase c = false) s ->
    map byte_to_upper (to_ascii_lowercase s) = s) as H.
  { intros s Hs. unfold to_ascii_lowercase. rewrite map_map. rewrite <- (map_id s) at 2.
    apply map_ext_Forall. eapply Forall_impl; [exact Hs|]. apply upper_of_lower. }
  intros Ha Hb E. apply bool_decide_eq_true in E. rewrite <- (H a Ha), <- (H b Hb). by rewrite E.
Qed.

Lemma absolute_target_graphic (h : Hostname) (port : option Z) (path : str) :
  proxy_host_wf h -> (forall p, port = Some p -> 0 <= p <= u16_max) -> path_wf path ->
  graphic (absolute_target h port path).
Proof.
  intros [Hh _] Hp [Hg _]. apply graphic_app; [repeat constructor|]. apply graphic_app; [|done].
  by apply authority_graphic.
Qed.

(** ** Properties *)

(** The method of a word of the request line is the word in upper case. *)
Lemma method_of_word (s word : str) (m : HttpMethod) :
  word ∈ split_whitespace s -> http_method_parse word = Ok m ->
  to_ascii_uppercase word = method_str m /\ forallb is_token_byte word = true.
Proof.
  intros Hw. unfold http_method_parse. rewrite (split_whitespace_trim s word Hw).
  case_match; [done|]. destruct (forallb is_token_byte word); cbn [negb]; [|done]. by intros [= <-].
Qed.

(** [C30] The origin receives the request that policy judged: whenever the head parser
    reports an HTTP request, the rewriter succeeds on the same bytes, and its output is the
    client's method word, which is the judged method up to the case of its letters (policy
    judges it in upper case, the origin gets it as it was written), exactly the path the
    event carries, the version of the client's request line (1.0 or 1.1, which is not part
    of the event) and the bytes behind the request line unchanged. *)
Theorem rewrite_forwards_the_judged_request (sid sid' : SandboxId) (frontend : Frontend)
  (input : list byte) (m : HttpMethod) (origin : Origin) (path : str) :
  parse_http_proxy_request_head sid input =
    Ok (NetworkEvent.HttpRequest sid' frontend m origin path) ->
  sid' = sid /\ frontend = Frontend.HttpProxy /\
  exists word target version line_end,
    find crlf input = Some line_end /\
    split_whitespace (take line_end input) = [word; target; version] /\
    http_method_parse word = Ok m /\
    to_ascii_uppercase word = method_str m /\ forallb is_token_byte word = true /\
    (version = lit "HTTP/1.0" \/ version = lit "HTTP/1.1") /\
    parse_absolute_http_target target = Ok (origin, path) /\
    rewrite_http_request_for_origin input =
      Ok (word ++ lit " " ++ path ++ lit " " ++ version ++ drop line_end input).
Proof.
  unfold parse_http_proxy_request_head, rewrite_http_request_for_origin.
  destruct (from_utf8 input) as [text|] eqn:Hu; cbn [ok_or result_bind]; [|done].
  assert (text = input) as -> by (unfold from_utf8 in Hu; case_match; congruence).
  destruct (find (crlf ++ crlf) input) as [k|] eqn:Hk; cbn [ok_or result_bind]; [|done].
  destruct (head_line input k Hk) as (n & -> & ->). cbn [ok_or result_bind].
  destruct (split_whitespace (take n input)) as [|word [|target [|version rest]]] eqn:Hwords; try done.
  cbn [list_lookup lookup Nat.add default ok_or result_bind].
  change ((word :: target :: version :: rest) !! 0%nat) with (Some word).
  change ((word :: target :: version :: rest) !! 1%nat) with (Some target).
  change ((word :: target :: version :: rest) !! 2%nat) with (Some version).
  change ((word :: target :: version :: rest) !! 3%nat) with (head rest).
  cbn [default ok_or result_bind]. unfold id.
  destruct (negb _ || _) eqn:Hv; [done|]. apply orb_false_iff in Hv as [Hv Hr].
  apply negb_false_iff, orb_true_iff in Hv. rewrite !bool_decide_eq_true in Hv. to_prop.
  destruct (eq_ignore_ascii_case _ _); [by destruct (proxy_parse_host_port _ _) as [[]|e| |]|].
  destruct (http_method_parse word) as [m'|e| |] eqn:Hm; cbn [map_err result_bind]; try done.
  destruct (parse_absolute_http_target target) as [[o p]|e| |] eqn:Ht; cbn [result_bind]; try done.
  intros [= <- <- <- <- <-]. split; [done|]. split; [done|]. exists word, target, version, n.
  assert (rest = []) as -> by (destruct rest; [done|]; exfalso; apply Hr; eauto).
  destruct (method_of_word (take n input) word m') as [Hup Htok]; [rewrite Hwords; by left|done|].
  rewrite (absolute_path_agrees _ _ _ Ht). by split_and!.
Qed.

Lemma rewrite_forwards_the_judged_request_witness :
  let sid := mkSandboxId (lit "s") in
  let input := lit "get http://Example.com/a HTTP/1.1" ++ crlf ++ lit "Host: x" ++ crlf ++ crlf in
  rewrite_http_request_for_origin input =
  Ok (lit "get /a HTTP/1.1" ++ crlf ++ lit "Host: x" ++ crlf ++ crlf).
Proof.
  intros sid input.
  destruct (rewrite_forwards_the_judged_request sid sid Frontend.HttpProxy input (mkHttpMethod (lit "GET"))
    (mkOrigin (lit "http") (mkHostname (lit "example.com")) 80) (lit "/a"))
    as (_ & _ & word & target & version & n & Hn & Hw & _ & _ & _ & _ & _ & Hr).
  - vm_compute. reflexivity.
  - rewrite Hr. vm_compute in Hn. injection Hn as <-. vm_compute in Hw. injection Hw as <- _ <-.
    vm_compute. reflexivity.
Defined.

(** [C36] The HTTP proxy frontend recovers every well-formed request: an absolute-form
    request yields the HTTP event with exactly its method, host, port (80 when absent)
    and path, and a CONNECT request yields the tunnel event with its host and port,
    whatever headers and body follow. *)
Theorem http_proxy_request_roundtrip (sid : SandboxId) (m : HttpMethod) (h : Hostname)
  (port : option Z) (connect_port : Z) (path version : str) (headers : list str) (body : str) :
  let request := request_head m (absolute_target h port path) version headers ++ body in
  let connect := request_head (mkHttpMethod (lit "CONNECT")) (authority h (Some connect_port))
                   version headers ++ body in
  proxy_host_wf h -> (forall p, port = Some p -> 0 <= p <= u16_max) -> 0 <= connect_port <= u16_max ->
  path_wf path -> method_wf m -> method_str m <> lit "CONNECT" -> proxy_version version ->
  Forall line_wf headers -> utf8_valid request = true -> utf8_valid connect = true ->
  parse_http_proxy_request_head sid request =
    Ok (NetworkEvent.HttpRequest sid Frontend.HttpProxy m
          (mkOrigin (lit "http") h (default 80 port)) path) /\
  parse_http_proxy_request_head sid connect =
    Ok (NetworkEvent.HttpsConnect sid Frontend.HttpProxy h connect_port).
Proof.
  intros request connect Hh Hp Hcp Hpath Hm Hnc Hv Hhs Hu Huc. split.
  - unfold request in *. rewrite parse_request_head; try done.
    2:{ by apply absolute_target_graphic. }
    assert (eq_ignore_ascii_case (method_str m) (lit "CONNECT") = false) as ->.
    { apply not_true_iff_false. intros E. apply Hnc. apply upper_word_inj; [|by repeat constructor|done].
      eapply Forall_impl; [apply Hm|]. by intros b [_ ?]. }
    by rewrite parse_absolute_target.
  - assert (forall p, Some connect_port = Some p -> 0 <= p <= u16_max) as Hcp' by (by intros p [= <-]).
    unfold connect in *. rewrite parse_request_head; try done.
    + change (eq_ignore_ascii_case _ _) with true. cbn match.
      by rewrite (proxy_parse_host_port_authority h (Some connect_port) None connect_port) by (try done; by left).
    + split; [done|]. repeat constructor.
    + unfold authority. by destruct (hostname_str h).
    + apply authority_graphic; [apply Hh|done].
Qed.

Lemma http_proxy_request_roundtrip_witness :
  let sid := mkSandboxId (lit "s") in
  let h := mkHostname (lit "example.com") in
  let m := mkHttpMethod (lit "POST") in
  let headers := [lit "Host: example.com"; lit "Content-Length: 1"] in
  parse_http_proxy_request_head sid
    (request_head m (absolute_target h (Some 8080) (lit "/a?b")) (lit "HTTP/1.1") headers ++ [x41]) =
    Ok (NetworkEvent.HttpRequest sid Frontend.HttpProxy m (mkOrigin (lit "http") h 8080) (lit "/a?b")) /\
  parse_http_proxy_request_head sid
    (request_head (mkHttpMethod (lit "CONNECT")) (authority h (Some 443)) (lit "HTTP/1.1") headers ++ [x41]) =
    Ok (NetworkEvent.HttpsConnect sid Frontend.HttpProxy h 443).
Proof.
  intros sid h m headers.
  apply (http_proxy_request_roundtrip sid m h (Some 8080) 443 (lit "/a?b") (lit "HTTP/1.1") headers [x41]).
  - split; [|vm_compute; reflexivity].
    apply (hostname_parse_Ok_wf (lit "example.com")). vm_compute. reflexivity.
  - intros p [= <-]. vm_compute. split; discriminate.
  - vm_compute. split; discriminate.
  - split; [repeat constructor|]. by exists (lit "a?b").
  - apply (http_method_parse_wf (lit "POST")). vm_compute. reflexivity.
  - vm_compute. discriminate.
  - by right.
  - repeat constructor; try discriminate; vm_compute; set_solver.
  - vm_compute. reflexivity.
  - vm_compute. reflexivity.
Defined.

(** [C37] The SOCKS5 parser inverts the RFC 1928 encoding: for any greeting that offers
    no-authentication and any IPv4, IPv6 or host-name destination, parsing the encoded
    greeting and CONNECT request returns exactly that destination, trailing bytes
    ignored. *)
Theorem socks5_connect_roundtrip (sid : SandboxId) (methods : list byte) (target : SocksDestination)
  (trailing : list byte) :
  (length methods <= 255)%nat -> x00 ∈ methods -> socks_target_wf target ->
  parse_socks5_connect sid (encode_socks5_connect methods target ++ trailing) =
  Ok (NetworkEvent.SocksConnect sid target).
Proof.
  intros Hlen H0 Hwf. set (input := encode_socks5_connect methods target ++ trailing).
  set (tail := [x05; x01; x00] ++ encode_socks_address target ++ trailing).
  assert (input = [x05; u8_of (Z.of_nat (length methods))] ++ methods ++ tail) as Hi
    by (unfold input, encode_socks5_connect, tail; rewrite <- !app_assoc; done).
  assert (1 <= length (encode_socks_address target))%nat as Ha
    by (destruct target as [?|[[] ?]]; cbn; lia).
  assert (length input = 5 + length methods + length (encode_socks_address target) + length trailing)%nat as Hl
    by (rewrite Hi; unfold tail; rewrite !length_app; cbn [length]; lia).
  assert (drop 2 input = methods ++ tail) as H2 by (by rewrite Hi).
  assert (drop (2 + length methods) input = tail) as Ht by (by apply drop_next in H2).
  unfold parse_socks5_connect. rewrite (proj2 (Nat.ltb_ge _ _)) by lia.
  replace (input !! 0%nat) with (Some x05) by (by rewrite Hi).
  replace (input !! 1%nat) with (Some (u8_of (Z.of_nat (length methods)))) by (by rewrite Hi).
  cbn [or_panic result_bind]. change (negb (u8_val x05 =? 5)) with false. cbn match.
  rewrite u8_val_of, Z.mod_small, Nat2Z.id by lia. cbv zeta.
  rewrite (proj2 (Nat.ltb_ge _ _)) by lia.
  assert (methods <> []) as Hne by (intros ->; set_solver).
  rewrite (slice_drop _ _ _ _ H2 Hne). cbn [or_panic result_bind].
  unfold contains_byte. rewrite bool_decide_eq_true_2 by done. cbn [negb].
  replace (slice input (2 + length methods) (length input)) with (Some tail).
  2:{ symmetry. apply slice_Some. split; [lia|]. rewrite Ht. symmetry. apply take_ge. rewrite <- Ht, length_drop. lia. }
  cbn [or_panic result_bind]. unfold tail.
  replace (([x05; x01; x00] ++ encode_socks_address target ++ trailing) !! 0%nat) with (Some x05) by done.
  replace (([x05; x01; x00] ++ encode_socks_address target ++ trailing) !! 1%nat) with (Some x01) by done.
  replace (([x05; x01; x00] ++ encode_socks_address target ++ trailing) !! 2%nat) with (Some x00) by done.
  cbn [or_panic result_bind]. change (u8_val x05 =? 5) with true. change (u8_val x00 =? 0) with true.
  change (u8_val x01 =? 1) with true. cbn match. cbn [negb].
  rewrite parse_socks_address_encoded by done. cbn [result_bind].
  by rewrite (proj2 (Nat.ltb_ge _ _)) by lia.
Qed.

Lemma socks5_connect_roundtrip_witness :
  let sid := mkSandboxId (lit "s") in
  let target := SocksDestination.Ip (mkEndpoint (V4 (ipv4_new 10 0 0 1)) 443) in
  parse_socks5_connect sid ([x05; x01; x00; x05; x01; x00; x01; x0a; x00; x00; x01; x01; xbb]) =
  Ok (NetworkEvent.SocksConnect sid target).
Proof.
  intros sid target. apply (socks5_connect_roundtrip sid [x00] target []).
  - cbn. lia.
  - left.
  - split; vm_compute; split; discriminate.
Defined.
