(* ===== verification/Proxy.v ===== *)
(** * The explicit proxy frontends ([crates/foxprox-proxy/src/lib.rs], lines 36-225, 291-595, 623-852)

    The connection handlers of the HTTP and SOCKS5 proxies and their listeners,
    as programs over the host interface of [Effects].  The shared audit buffer
    is behind its mutex: [AuditLock] answers its current content, which other
    handler threads may have changed, and [AuditUnlock] publishes the new one.
    A handler thread whose [eprintln!] or [thread::spawn] fails panics there ([run]). *)

From S2P Require Import Prelude Text NetAddr Event Policy Flow AuditLog Config Effects.
From S2P Require Import AuditIo Egress ProxyParse.

Record HttpProxyProofConfig : Type := mkHttpProxyProofConfig {
  hp_sandbox_id : SandboxId;
  hp_listen_addr : SocketAddr;
  hp_policy : PolicyRuleSet;
  hp_request_head_limit : Z;
  hp_request_head_timeout : Duration;
  hp_connect_timeout : Duration;
  hp_audit_queue_capacity : Z;
  hp_max_connections : Z
}.

Definition http_proxy_config_new (sandbox_id : SandboxId) (listen_addr : SocketAddr) : HttpProxyProofConfig :=
  mkHttpProxyProofConfig sandbox_id listen_addr policy_rule_set_default (16 * 1024) (from_secs 5)
    (from_secs 5) 8192 1024.

Record Socks5ProxyProofConfig : Type := mkSocks5ProxyProofConfig {
  sp_sandbox_id : SandboxId;
  sp_listen_addr : SocketAddr;
  sp_policy : PolicyRuleSet;
  sp_request_timeout : Duration;
  sp_connect_timeout : Duration;
  sp_audit_queue_capacity : Z;
  sp_max_connections : Z
}.

Definition socks5_proxy_config_new (sandbox_id : SandboxId) (listen_addr : SocketAddr) : Socks5ProxyProofConfig :=
  mkSocks5ProxyProofConfig sandbox_id listen_addr policy_rule_set_default (from_secs 5) (from_secs 5) 8192 1024.

(** ** Audit *)

Definition shared_audit_buffer (capacity : Z) : Result AuditBuffer IoError :=
  if capacity =? 0 then
    Err (mkIoError IoErrorKind.InvalidInput (lit "audit queue capacity must be non-zero"))
  else Ok (audit_buffer_new capacity).

(** [audit.lock()?] and the guard's scope: the mutex is released on every way
    out of [body]. *)
Definition with_audit_lock {A} (poisoned : str) (body : AuditBuffer -> Prog Host (AuditBuffer * Result A IoError))
  : IO A :=
  let* guard := audit_lock in
  match guard with
  | Ok buffer =>
      let* (buffer, r) := body buffer in
      let* _ := audit_unlock buffer in
      Ret r
  | _ => Ret (Err (mkIoError IoErrorKind.Other poisoned))
  end.

Definition proxy_lifecycle_event (now : SystemTime) (sandbox_id : SandboxId) (frontend : Frontend)
  (kind : AuditEventKind) (listen_addr : SocketAddr) (detail : str) : AuditEvent :=
  let event := with_sandbox_id (audit_event_new now frontend kind) sandbox_id in
  let event := set_ae_protocol (Some Protocol.Tcp) event in
  let event := set_ae_destination (Some (endpoint_of_socket_addr listen_addr)) event in
  let event := set_ae_destination_port (Some (sa_port listen_addr)) event in
  set_ae_detail (Some detail) event.

Definition emit_proxy_lifecycle_audit (sandbox_id : SandboxId) (frontend : Frontend)
  (kind : AuditEventKind) (listen_addr : SocketAddr) (detail : str) : IO unit :=
  let* time := now in
  let event := proxy_lifecycle_event time sandbox_id frontend kind listen_addr detail in
  with_audit_lock (lit "audit queue lock poisoned while recording proxy lifecycle event")
    (record_event event).

Definition proxy_event_frontend (event : NetworkEvent) : Frontend :=
  match event with
  | NetworkEvent.HttpRequest _ frontend _ _ _ | NetworkEvent.HttpsConnect _ frontend _ _ => frontend
  | NetworkEvent.SocksConnect _ _ => Frontend.Socks5
  | NetworkEvent.Unsupported _ frontend _ => frontend
  | _ => Frontend.Setup
  end.

Definition proxy_audit_kind (event : NetworkEvent) : AuditEventKind :=
  match event with
  | NetworkEvent.HttpRequest _ _ _ _ _ => AuditEventKind.HttpRequest
  | NetworkEvent.HttpsConnect _ _ _ _ => AuditEventKind.HttpsConnect
  | NetworkEvent.SocksConnect _ _ => AuditEventKind.SocksConnect
  | _ => AuditEventKind.UnsupportedDenied
  end.

(** The fields every event with a host name sets. *)
Definition set_audit_host (host : Hostname) (port : Z) (audit : AuditEvent) : AuditEvent :=
  set_ae_attribution (Some (attribution_explicit_proxy host))
    (set_ae_destination_port (Some port) (set_ae_hostname (Some host) audit)).

Definition proxy_audit_event (now : SystemTime) (event : NetworkEvent) (decision : Decision) : AuditEvent :=
  let audit := with_decision (audit_event_new now (proxy_event_frontend event) (proxy_audit_kind event)) decision in
  let audit := match event_sandbox_id event with
               | Some sandbox_id => with_sandbox_id audit sandbox_id
               | None => audit
               end in
  let audit := set_ae_protocol (Some (event_protocol event)) audit in
  match event with
  | NetworkEvent.HttpRequest _ _ method origin path_and_query =>
      set_ae_http (Some origin) (Some method) (Some path_and_query)
        (set_audit_host (or_host origin) (or_port origin) audit)
  | NetworkEvent.HttpsConnect _ _ host port => set_audit_host host port audit
  | NetworkEvent.SocksConnect _ (SocksDestination.Host host port) => set_audit_host host port audit
  | NetworkEvent.SocksConnect _ (SocksDestination.Ip endpoint) =>
      set_ae_attribution (Some attribution_ip_only)
        (set_ae_destination_port (Some (ep_port endpoint)) (set_ae_destination (Some endpoint) audit))
  | NetworkEvent.Unsupported _ _ reason => set_ae_detail (Some (debug_unsupported_reason reason)) audit
  | _ => audit
  end.

Definition emit_proxy_audit (event : NetworkEvent) (decision : Decision) : IO unit :=
  with_audit_lock (lit "audit queue lock poisoned while recording proxy decision")
    (fun buffer =>
      let* time := now in
      record_event (proxy_audit_event time event decision) buffer).

Definition emit_unsupported_proxy_audit (sandbox_id : SandboxId) (frontend : Frontend) (detail : str) : IO unit :=
  let event := NetworkEvent.Unsupported (Some sandbox_id) frontend (UnsupportedReason.Malformed detail) in
  let decision := evaluate policy_rule_set_default event in
  emit_proxy_audit event decision.

(** Record an unusable request, then fail with [error]. *)
Definition reject_request {A} (sandbox_id : SandboxId) (frontend : Frontend) (detail : str) (error : IoError) : IO A :=
  let! _ := emit_unsupported_proxy_audit sandbox_id frontend detail in
  Ret (Err error).

(** ** Egress *)

Definition event_attribution (event : NetworkEvent) : Attribution :=
  match event with
  | NetworkEvent.HttpRequest _ _ _ origin _ => attribution_explicit_proxy (or_host origin)
  | NetworkEvent.HttpsConnect _ _ host _ => attribution_explicit_proxy host
  | NetworkEvent.SocksConnect _ target =>
      match socks_host target with
      | Some host => attribution_explicit_proxy host
      | None => attribution_ip_only
      end
  | _ => attribution_ip_only
  end.

Definition connect_allowed_tcp (event : NetworkEvent) (decision : Decision) (destination : SocketAddr)
  (connect_timeout : Duration) (frontend : Frontend) (sandbox_id : SandboxId) : IO Z :=
  let request := mkTcpEgressRequest
    (mkEgressContext sandbox_id frontend decision (event_attribution event))
    None (endpoint_of_socket_addr destination) (Some connect_timeout) in
  prog_map_err egress_error_to_io (connect_tcp request).

Definition socks_destination_socket_addr (event : NetworkEvent) (timeout : Duration) : IO SocketAddr :=
  match event with
  | NetworkEvent.SocksConnect _ (SocksDestination.Host host port) => resolve_host_port host port
  | NetworkEvent.SocksConnect _ (SocksDestination.Ip endpoint) =>
      Ret (Ok (mkSocketAddr (ep_ip endpoint) (ep_port endpoint)))
  | _ => Ret (Err (mkIoError IoErrorKind.InvalidData (lit "not a SOCKS event")))
  end.

Definition tunnel_bidirectional (client upstream : Z) : IO unit :=
  let! client_read := tcp_try_clone client in
  let! upstream_read := tcp_try_clone upstream in
  let* _ := tcp_spawn_copy client_read upstream in
  let* upstream_to_client := tcp_copy upstream_read client in
  let* _ := ignore (tcp_shutdown client ShutdownBoth) in
  let* _ := tcp_join_copy client_read upstream in
  Ret upstream_to_client.

(** ** The SOCKS5 handler *)

Definition write_socks5_reply (stream : Z) (status : Z) : IO unit :=
  tcp_write_all stream (socks5_reply status).

Definition read_socks5_greeting_and_request (stream : Z) : IO (list byte) :=
  let! greeting_prefix := tcp_read_exact stream 2 in
  let! version := Ret (or_panic (greeting_prefix !! 0%nat)) in
  if negb (u8_val version =? 5) then Ret (Err (mkIoError IoErrorKind.InvalidData (lit "not SOCKS5")))
  else
    let! count := Ret (or_panic (greeting_prefix !! 1%nat)) in
    let method_count := Z.to_nat (u8_val count) in
    let! methods := tcp_read_exact stream method_count in
    if negb (contains_byte x00 methods) then
      let! _ := tcp_write_all stream [x05; xff] in
      Ret (Err (mkIoError IoErrorKind.PermissionDenied (lit "SOCKS5 no-auth method not offered")))
    else
      let! _ := tcp_write_all stream [x05; x00] in
      let! request_head := tcp_read_exact stream 4 in
      let! address_type := Ret (or_panic (request_head !! 3%nat)) in
      let read_rest extra_len :=
        let! rest := tcp_read_exact stream extra_len in
        Ret (Ok (greeting_prefix ++ methods ++ request_head ++ rest)) in
      match u8_val address_type with
      | 1 => read_rest 6%nat
      | 3 =>
          let! len := tcp_read_exact stream 1 in
          let! len := Ret (or_panic (len !! 0%nat)) in
          let! rest := tcp_read_exact stream (Z.to_nat (u8_val len) + 2) in
          Ret (Ok (greeting_prefix ++ methods ++ request_head ++ [len] ++ rest))
      | 4 => read_rest 18%nat
      | _ =>
          let* _ := ignore (write_socks5_reply stream 0x08) in
          Ret (Err (mkIoError IoErrorKind.InvalidData (lit "unsupported SOCKS5 address type")))
      end.

(** From the policy decision on. *)
Definition serve_socks5_event (client : Z) (config : Socks5ProxyProofConfig) (event : NetworkEvent) : IO unit :=
  let decision := evaluate (sp_policy config) event in
  let* _ := eprintln in
  prog_match (emit_proxy_audit event decision)
    (fun error =>
      let* _ := ignore (write_socks5_reply client 0x01) in
      Ret (Err error)) (fun _ =>
  if negb (is_allowed decision) then
    let* _ := ignore (write_socks5_reply client 0x02) in
    Ret (Ok tt)
  else
  prog_match (socks_destination_socket_addr event (sp_connect_timeout config))
    (fun error =>
      let* _ := ignore (write_socks5_reply client 0x04) in
      Ret (Err error)) (fun destination =>
  prog_match (connect_allowed_tcp event decision destination (sp_connect_timeout config)
                Frontend.Socks5 (sp_sandbox_id config))
    (fun error =>
      let* _ := ignore (write_socks5_reply client (socks_status_for_io_error error)) in
      Ret (Err error)) (fun upstream =>
  let! _ := write_socks5_reply client 0x00 in
  tunnel_bidirectional client upstream))).

Definition handle_socks5_proxy_stream_with_audit (client : Z) (config : Socks5ProxyProofConfig) : IO unit :=
  let reject := reject_request (sp_sandbox_id config) Frontend.Socks5 in
  let! _ := tcp_set_read_timeout client (Some (sp_request_timeout config)) in
  prog_match (read_socks5_greeting_and_request client)
    (fun error => reject (lit "SOCKS5 read failed: " ++ io_message error) error) (fun request_bytes =>
  let! _ := tcp_set_read_timeout client None in
  prog_match (Ret (parse_socks5_connect (sp_sandbox_id config) request_bytes))
    (fun error =>
      let! status := Ret (socks_status_for_parse_error request_bytes) in
      let* _ := ignore (write_socks5_reply client status) in
      let detail := debug_proxy_parse_error error in
      reject detail (mkIoError IoErrorKind.InvalidData detail)) (fun event =>
  serve_socks5_event client config event)).

(** ** The HTTP proxy handler *)

Definition head_exceeded : IoError :=
  mkIoError IoErrorKind.InvalidData (lit "proxy request head exceeded limit").

(** Every read adds a byte and [limit] bytes end the loop, so [limit + 1]
    rounds are enough. *)
Fixpoint read_proxy_head_loop (fuel : nat) (stream : Z) (limit : nat) (buffer : list byte) : IO (list byte) :=
  match fuel with
  | O => Ret OutOfFuel
  | S fuel =>
      if (limit <=? length buffer)%nat then Ret (Err head_exceeded)
      else
        let! chunk := tcp_read stream 1024 in
        let read_len := length chunk in
        if (read_len =? 0)%nat then
          Ret (Err (mkIoError IoErrorKind.UnexpectedEof (lit "client closed before proxy request head")))
        else
          let buffer := buffer ++ chunk in
          if (limit <? length buffer)%nat then Ret (Err head_exceeded)
          else if bool_decide (is_Some (find (crlf ++ crlf) buffer)) then Ret (Ok buffer)
          else read_proxy_head_loop fuel stream limit buffer
  end.

Definition read_proxy_head (stream : Z) (limit : nat) : IO (list byte) :=
  read_proxy_head_loop (S limit) stream limit [].

Definition response_503 : list byte :=
  lit "HTTP/1.1 503 Service Unavailable" ++ crlf ++ lit "Content-Length: 0" ++ crlf ++ crlf.
Definition response_established : list byte :=
  lit "HTTP/1.1 200 Connection Established" ++ crlf ++ crlf.

(** From the policy decision on. *)
Definition serve_http_event (client : Z) (config : HttpProxyProofConfig) (event : NetworkEvent)
  (head tail : list byte) : IO unit :=
  let decision := evaluate (hp_policy config) event in
  let* _ := eprintln in
  prog_match (emit_proxy_audit event decision)
    (fun error =>
      let* _ := ignore (tcp_write_all client response_503) in
      Ret (Err error)) (fun _ =>
  if negb (is_allowed decision) then
    let* _ := eprintln in
    let* _ := ignore (tcp_shutdown client ShutdownBoth) in
    Ret (Ok tt)
  else
    let connect destination :=
      connect_allowed_tcp event decision destination (hp_connect_timeout config)
        Frontend.HttpProxy (hp_sandbox_id config) in
    match event with
    | NetworkEvent.HttpRequest _ _ _ origin _ =>
        let! destination := resolve_host_port (or_host origin) (or_port origin) in
        let! upstream := connect destination in
        let! rewritten := Ret (rewrite_http_request_for_origin head) in
        let! _ := tcp_write_all upstream rewritten in
        let! _ := tcp_write_all upstream tail in
        tunnel_bidirectional client upstream
    | NetworkEvent.HttpsConnect _ _ host port =>
        let! destination := resolve_host_port host port in
        let! upstream := connect destination in
        let! _ := tcp_write_all client response_established in
        let! _ := tcp_write_all upstream tail in
        tunnel_bidirectional client upstream
    | _ => Ret (Err (mkIoError IoErrorKind.InvalidData (lit "unexpected proxy event type")))
    end).

Definition handle_http_proxy_stream_with_audit (client : Z) (config : HttpProxyProofConfig) : IO unit :=
  let reject := reject_request (hp_sandbox_id config) Frontend.HttpProxy in
  let! _ := tcp_set_read_timeout client (Some (hp_request_head_timeout config)) in
  prog_match (read_proxy_head client (Z.to_nat (hp_request_head_limit config)))
    (fun error => reject (lit "HTTP proxy read failed: " ++ io_message error) error) (fun buffered =>
  let! _ := tcp_set_read_timeout client None in
  prog_match (Ret (split_proxy_head buffered))
    (fun error => reject (lit "HTTP proxy request split failed: " ++ io_message error) error) (fun '(head, tail) =>
  prog_match (Ret (parse_http_proxy_request_head (hp_sandbox_id config) head))
    (fun error =>
      let detail := debug_proxy_parse_error error in
      reject detail (mkIoError IoErrorKind.InvalidData detail)) (fun event =>
  serve_http_event client config event head tail))).

(** ** The listeners *)

(** One accepted connection of [listener.incoming()]: a handler thread when the
    limiter grants a permit, else the connection is closed. *)
Definition admit_connection (accepted : Result Z IoError) : Prog Host unit :=
  match accepted with
  | Ok stream =>
      let* permit := try_acquire_permit in
      if permit : bool then spawn_handler stream
      else
        let* _ := eprintln in
        ignore (tcp_shutdown stream ShutdownBoth)
  | _ => eprintln
  end.

(** [listener.incoming()] never ends; [rounds] is how many connections are
    taken from it. *)
Fixpoint accept_connections (rounds : nat) (listener : Z) : Prog Host unit :=
  match rounds with
  | O => Ret tt
  | S rounds =>
      let* accepted := tcp_accept listener in
      let* _ := admit_connection accepted in
      accept_connections rounds listener
  end.

(** [ConnectionLimiter::new]'s check. *)
Definition check_max_connections (max_connections : Z) : Result unit IoError :=
  if max_connections =? 0 then
    Err (mkIoError IoErrorKind.InvalidInput (lit "max connections must be non-zero"))
  else Ok tt.

(** What both listeners do; [name] is the protocol in the audit details. *)
Definition run_proxy_listener (rounds : nat) (sandbox_id : SandboxId) (frontend : Frontend) (name : str)
  (listen_addr : SocketAddr) (audit_queue_capacity max_connections : Z)
  (ready : SocketAddr -> IO unit) : IO unit :=
  let! _ := Ret (shared_audit_buffer audit_queue_capacity) in
  let! _ := Ret (check_max_connections max_connections) in
  let! listener := tcp_listen listen_addr in
  let! local_addr := tcp_local_addr listener in
  let! _ := emit_proxy_lifecycle_audit sandbox_id frontend AuditEventKind.BrokerStarted local_addr
              (name ++ lit " proxy broker started") in
  let! _ := emit_proxy_lifecycle_audit sandbox_id frontend AuditEventKind.ProxyListenerConfigured local_addr
              (name ++ lit " proxy listener configured") in
  let! _ := ready local_addr in
  let* _ := eprintln in
  let* _ := accept_connections rounds listener in
  Ret (Ok tt).

Definition run_http_proxy_proof_with_ready (rounds : nat) (config : HttpProxyProofConfig)
  (ready : SocketAddr -> IO unit) : IO unit :=
  run_proxy_listener rounds (hp_sandbox_id config) Frontend.HttpProxy (lit "http") (hp_listen_addr config)
    (hp_audit_queue_capacity config) (hp_max_connections config) ready.

Definition run_http_proxy_proof (rounds : nat) (config : HttpProxyProofConfig) : IO unit :=
  run_http_proxy_proof_with_ready rounds config (fun _ => Ret (Ok tt)).

Definition run_socks5_proxy_proof_with_ready (rounds : nat) (config : Socks5ProxyProofConfig)
  (ready : SocketAddr -> IO unit) : IO unit :=
  run_proxy_listener rounds (sp_sandbox_id config) Frontend.Socks5 (lit "socks5") (sp_listen_addr config)
    (sp_audit_queue_capacity config) (sp_max_connections config) ready.

Definition run_socks5_proxy_proof (rounds : nat) (config : Socks5ProxyProofConfig) : IO unit :=
  run_socks5_proxy_proof_with_ready rounds config (fun _ => Ret (Ok tt)).

(** ** What a history shows *)

#[local] Arguments audit_event_json_line : simpl never.
#[local] Arguments proxy_audit_event : simpl never.

Definition read_bytes (client : Z) (e : Action Host) : list byte :=
  match e with
  | existT o r =>
      match o return host_answer o -> list byte with
      | HostOp.TcpRead s _ | HostOp.TcpReadExact s _ => fun r =>
          if s =? client then match r with Ok bs => bs | _ => [] end else []
      | _ => fun _ => []
      end r
  end.

(** The bytes read from [client], in order. *)
Definition received (client : Z) (h : list (Action Host)) : list byte := flat_map (read_bytes client) h.

(** The event's audit line, with its decision, was written. *)
Definition recorded (event : NetworkEvent) (decision : Decision) (h : list (Action Host)) : Prop :=
  exists now, happened (HostOp.StderrWriteAll (audit_event_json_line (proxy_audit_event now event decision)))
                (Ok tt) h.

Definition resolved (host : Hostname) (port : Z) (addr : SocketAddr) (h : list (Action Host)) : Prop :=
  exists addrs, happened (HostOp.ResolveHost (hostname_str host) port) (Ok addrs) h /\ addr ∈ addrs.

Definition connected (stream : Z) (h : list (Action Host)) : Prop :=
  exists addr timeout, happened (HostOp.TcpConnect addr timeout) (Ok stream) h.

(** Operations that reach no other host and move no payload. *)
Definition housekeeping (o : HostOp) : bool :=
  match o with
  | HostOp.Now | HostOp.TcpSetReadTimeout _ _ | HostOp.TcpShutdown _ _ | HostOp.TcpTryClone _
  | HostOp.TcpJoinCopy _ _ | HostOp.StderrWriteAll _ | HostOp.Eprintln | HostOp.AuditLock
  | HostOp.AuditUnlock _ | HostOp.TcpRead _ _ | HostOp.TcpReadExact _ _ => true
  | _ => false
  end.

Definition is_read (o : HostOp) : bool :=
  match o with
  | HostOp.TcpRead _ _ | HostOp.TcpReadExact _ _ => true
  | _ => false
  end.

(** Everything but reading. *)
Definition not_read (o : HostOp) : bool := negb (is_read o).

Lemma audit_not_read (o : HostOp) : audit_op o = true -> not_read o = true.
Proof. by destruct o. Qed.

Lemma quiet_received (client : Z) h h' : quiet not_read h h' -> received client h' = received client h.
Proof.
  intros (t & -> & Ht). unfold received. rewrite flat_map_app.
  rewrite <- (app_nil_r (flat_map (read_bytes client) h)) at 2. f_equal.
  induction Ht as [|[o r] t Ho _ IH]; [done|]. cbn [flat_map]. rewrite IH. by destruct o.
Qed.

Lemma recorded_mono event decision h h' :
  quiet not_read h h' -> recorded event decision h -> recorded event decision h'.
Proof. intros Hq [now H]. exists now. by eapply happened_mono. Qed.

Lemma resolved_mono host port addr h h' :
  quiet not_read h h' -> resolved host port addr h -> resolved host port addr h'.
Proof. intros Hq (addrs & H & Ha). exists addrs. split; [by eapply happened_mono|done]. Qed.

Lemma connected_mono stream h h' :
  quiet not_read h h' -> connected stream h -> connected stream h'.
Proof. intros Hq (a & t & H). exists a, t. by eapply happened_mono. Qed.

(** ** Weakest preconditions of the shared parts *)

Section parts.
Context (client : Z) (step : list (Action Host) -> HostOp -> Prop).
Context (Haudit : forall h o, audit_op o = true -> step h o).

#[local] Hint Resolve audit_not_read : foxprox.

Lemma with_audit_lock_wp (poisoned : str) (body : AuditBuffer -> Prog Host (AuditBuffer * Result unit IoError))
  (P : list (Action Host) -> unit -> Prop) h0 h :
  (forall h1 h2 a, quiet not_read h1 h2 -> P h1 a -> P h2 a) -> quiet not_read h0 h ->
  (forall buffer h1, quiet not_read h0 h1 -> wp step (fun h' '(_, r) => part not_read h0 P h' r) h1 (body buffer)) ->
  wp step (part not_read h0 P) h (with_audit_lock poisoned body).
Proof.
  intros HP Hq Hb. unfold with_audit_lock. apply wp_bind, wp_op; [by apply Haudit|].
  intros [buffer|e| |] Hv; [|apply part_err; auto with foxprox|done|done].
  apply wp_bind. eapply wp_post; [by apply Hb, quiet_step|].
  intros h2 [b r] (Hr & Hq2 & Ha). apply wp_bind, wp_op; [by apply Haudit|]. intros [] _. cbn.
  split_and!; [done|auto with foxprox|]. intros a E. eapply HP; [|by apply Ha]. auto with foxprox.
Qed.

Lemma emit_proxy_audit_wp (event : NetworkEvent) (decision : Decision) h :
  wp step (part not_read h (fun h' _ => recorded event decision h')) h (emit_proxy_audit event decision).
Proof.
  unfold emit_proxy_audit. apply with_audit_lock_wp; [|auto with foxprox|].
  { intros h1 h2 _. apply recorded_mono. }
  intros buffer h1 Hq. apply wp_bind, wp_op; [by apply Haudit|]. intros now _.
  eapply wp_post; [apply (record_event_wp not_read step audit_not_read Haudit)|]. intros h2 [b r] (Hr & Hq2 & H).
  split_and!; [done| |intros u E; exists now; by apply (H u)].
  eapply quiet_trans; [|exact Hq2]. auto with foxprox.
Qed.

Lemma emit_proxy_lifecycle_audit_wp sandbox_id frontend kind listen_addr detail h :
  wp step (part not_read h (fun h' _ => exists now, happened (HostOp.StderrWriteAll (audit_event_json_line
      (proxy_lifecycle_event now sandbox_id frontend kind listen_addr detail))) (Ok tt) h'))
    h (emit_proxy_lifecycle_audit sandbox_id frontend kind listen_addr detail).
Proof.
  unfold emit_proxy_lifecycle_audit. apply wp_bind, wp_op; [by apply Haudit|]. intros now _.
  apply with_audit_lock_wp; [|auto with foxprox|].
  { intros h1 h2 _ Hq [now' H]. exists now'. by eapply happened_mono. }
  intros buffer h1 Hq. eapply wp_post; [apply (record_event_wp not_read step audit_not_read Haudit)|]. intros h2 [b r] (Hr & Hq2 & H).
  split_and!; [done|by eapply quiet_trans|]. intros u E. exists now. by apply (H u).
Qed.

Lemma reject_request_wp {A} (sandbox_id : SandboxId) (frontend : Frontend) (detail : str) (error : IoError)
  (P : list (Action Host) -> A -> Prop) h0 h :
  quiet not_read h0 h -> wp step (part not_read h0 P) h (reject_request sandbox_id frontend detail error).
Proof.
  intros Hq. unfold reject_request, emit_unsupported_proxy_audit.
  eapply (part_try not_read step); [done|apply emit_proxy_audit_wp|]. intros h' a Hq' _. cbn. by apply part_err.
Qed.

Context (Hkeep : forall h o, housekeeping o = true -> step h o).

Lemma head_ipv4_first (addrs : list SocketAddr) (a : SocketAddr) :
  head (ipv4_first addrs) = Some a -> a ∈ addrs.
Proof.
  intros H. assert (a ∈ ipv4_first addrs) as Hin.
  { destruct (ipv4_first addrs); [done|]. injection H as ->. left. }
  unfold ipv4_first in Hin. apply elem_of_app in Hin as [Hin|Hin];
    apply list_elem_of_In, filter_In in Hin as [Hin _]; by apply list_elem_of_In.
Qed.

Lemma resolve_host_port_wp (host : Hostname) (port : Z) h0 h :
  quiet not_read h0 h -> step h (HostOp.ResolveHost (hostname_str host) port) ->
  wp step (part not_read h0 (fun h' a => resolved host port a h')) h (resolve_host_port host port).
Proof.
  intros Hq Hs. unfold resolve_host_port. apply wp_try, wp_op; [done|].
  intros [addrs|e| |] Hr; try done; [|apply part_err; auto with foxprox]. cbn.
  destruct (head (ipv4_first addrs)) as [a|] eqn:E; [|apply part_err; auto with foxprox].
  apply part_ok; [auto with foxprox|]. exists addrs. split; [apply happened_last|by apply head_ipv4_first].
Qed.

Lemma connect_allowed_tcp_wp event decision destination timeout frontend sandbox_id h0 h :
  quiet not_read h0 h ->
  (is_allowed decision = true -> step h (HostOp.TcpConnect destination (Some timeout))) ->
  wp step (part not_read h0 (fun h' s => connected s h')) h
    (connect_allowed_tcp event decision destination timeout frontend sandbox_id).
Proof.
  intros Hq Hs. unfold connect_allowed_tcp, connect_tcp. cbn [te_context te_destination te_connect_timeout].
  unfold egress_is_allowed. cbn [ec_decision].
  replace (endpoint_socket_addr (endpoint_of_socket_addr destination)) with destination by by destruct destination.
  apply prog_map_err_wp, wp_try. destruct (is_allowed decision); cbn; [|by apply part_err].
  split; [by apply Hs|]. intros [s|e| |] Hr; try done; cbn;
    [apply part_ok|apply part_err]; auto with foxprox.
  exists destination, (Some timeout). apply happened_last.
Qed.

Lemma ignore_wp {A} (o : HostOp) (f : unit -> Prog Host A) (Q : list (Action Host) -> A -> Prop) h :
  step h o -> (forall r, host_valid o r -> wp step Q (h ++ [existT o r : Action Host]) (f tt)) ->
  wp step Q h (prog_bind (ignore (@perform Host o)) f).
Proof. intros Hs H. cbn. auto. Qed.

Lemma tunnel_bidirectional_wp (upstream : Z) (P : list (Action Host) -> unit -> Prop) h0 h :
  (forall h1 h2 a, quiet not_read h1 h2 -> P h1 a -> P h2 a) -> quiet not_read h0 h -> P h tt ->
  connected upstream h ->
  (forall h from, connected upstream h -> step h (HostOp.TcpSpawnCopy from upstream)) ->
  (forall h from, step h (HostOp.TcpCopy from client)) ->
  wp step (part not_read h0 P) h (tunnel_bidirectional client upstream).
Proof.
  intros HP Hq HPh Hc Hspawn Hcopy. unfold tunnel_bidirectional.
  assert (forall h', quiet not_read h h' -> quiet not_read h0 h' /\ P h' tt /\ connected upstream h') as Hall.
  { intros h' Hq'. split_and!; [by eapply quiet_trans|by eapply HP|by eapply connected_mono]. }
  apply wp_try, wp_op; [by apply Hkeep|]. intros [cr|e| |] Hr; try done; [|apply part_err; auto with foxprox].
  apply wp_try, wp_op; [by apply Hkeep|]. intros [ur|e| |] Hr2; try done;
    [|apply part_err, Hall; auto 6 with foxprox].
  apply wp_bind, wp_op; [apply Hspawn, Hall; auto 6 with foxprox|]. intros [] _.
  apply wp_bind, wp_op; [by apply Hcopy|]. intros r Hr3.
  apply ignore_wp; [by apply Hkeep|]. intros sd _.
  apply wp_bind, wp_op; [by apply Hkeep|]. intros [] _. cbn.
  split_and!; [by destruct r|apply Hall|intros [] _; apply Hall];
    repeat (apply quiet_step; [done|]); apply quiet_refl.
Qed.

End parts.

(** ** Specification: what a handler may do *)

(** The name and port an event asks to reach. *)
Definition event_target (event : NetworkEvent) : option (Hostname * Z) :=
  match event with
  | NetworkEvent.HttpRequest _ _ _ origin _ => Some (or_host origin, or_port origin)
  | NetworkEvent.HttpsConnect _ _ host port => Some (host, port)
  | NetworkEvent.SocksConnect _ (SocksDestination.Host host port) => Some (host, port)
  | _ => None
  end.

(** The bytes received so far are a request that parses to [event], and its
    decision is in the audit log. *)
Definition http_audited (config : HttpProxyProofConfig) (client : Z) (event : NetworkEvent)
  (head tail : list byte) (h : list (Action Host)) : Prop :=
  split_proxy_head (received client h) = Ok (head, tail) /\
  parse_http_proxy_request_head (hp_sandbox_id config) head = Ok event /\
  recorded event (evaluate (hp_policy config) event) h.

Definition http_authorised (config : HttpProxyProofConfig) (client : Z) (event : NetworkEvent)
  (head tail : list byte) (h : list (Action Host)) : Prop :=
  http_audited config client event head tail h /\ is_allowed (evaluate (hp_policy config) event) = true.

Definition http_permitted (config : HttpProxyProofConfig) (client : Z) (h : list (Action Host)) (o : HostOp) : Prop :=
  match o with
  | HostOp.ResolveHost host port => exists event head tail hostname,
      http_authorised config client event head tail h /\
      host = hostname_str hostname /\ event_target event = Some (hostname, port)
  | HostOp.TcpConnect addr timeout => exists event head tail hostname port,
      http_authorised config client event head tail h /\
      event_target event = Some (hostname, port) /\ resolved hostname port addr h /\
      timeout = Some (hp_connect_timeout config)
  | HostOp.TcpWriteAll stream bytes =>
      (stream = client /\ (bytes = response_503 \/ bytes = response_established)) \/
      (connected stream h /\ exists event head tail,
         http_authorised config client event head tail h /\
         (bytes = tail \/ rewrite_http_request_for_origin head = Ok bytes))
  | HostOp.TcpSpawnCopy _ to => connected to h
  | HostOp.TcpCopy _ to => to = client
  | o => housekeeping o = true
  end.

Definition socks_audited (config : Socks5ProxyProofConfig) (client : Z) (event : NetworkEvent)
  (h : list (Action Host)) : Prop :=
  parse_socks5_connect (sp_sandbox_id config) (received client h) = Ok event /\
  recorded event (evaluate (sp_policy config) event) h.

Definition socks_authorised (config : Socks5ProxyProofConfig) (client : Z) (event : NetworkEvent)
  (h : list (Action Host)) : Prop :=
  socks_audited config client event h /\ is_allowed (evaluate (sp_policy config) event) = true.

Definition socks_permitted (config : Socks5ProxyProofConfig) (client : Z) (h : list (Action Host)) (o : HostOp) : Prop :=
  match o with
  | HostOp.ResolveHost host port => exists event hostname,
      socks_authorised config client event h /\
      host = hostname_str hostname /\ event_target event = Some (hostname, port)
  | HostOp.TcpConnect addr timeout => exists event,
      socks_authorised config client event h /\ timeout = Some (sp_connect_timeout config) /\
      match event with
      | NetworkEvent.SocksConnect _ (SocksDestination.Host host port) => resolved host port addr h
      | NetworkEvent.SocksConnect _ (SocksDestination.Ip e) => addr = mkSocketAddr (ep_ip e) (ep_port e)
      | _ => False
      end
  | HostOp.TcpWriteAll stream bytes =>
      stream = client /\ (bytes = [x05; x00] \/ bytes = [x05; xff] \/ exists status, bytes = socks5_reply status)
  | HostOp.TcpSpawnCopy _ to => connected to h
  | HostOp.TcpCopy _ to => to = client
  | o => housekeeping o = true
  end.

(** A handler returns, and returns success only for an audited request. *)
Definition handled (P : list (Action Host) -> Prop) (h : list (Action Host)) (r : Result unit IoError) : Prop :=
  returns r /\ (r = Ok tt -> P h).

Lemma handled_part (P P' : list (Action Host) -> Prop) h h' (r : Result unit IoError) :
  (forall h', quiet not_read h h' -> P' h' -> P h') ->
  part not_read h (fun h' _ => P' h') h' r -> handled P h' r.
Proof. intros HP (Hr & Hq & H). split; [done|]. intros ->. apply HP; [done|by apply (H tt)]. Qed.

Lemma handled_mono (P P' : list (Action Host) -> Prop) h (r : Result unit IoError) :
  (P h -> P' h) -> handled P h r -> handled P' h r.
Proof. intros H [Hr Hp]. split; [done|auto]. Qed.

(** ** Reading the request *)

Section reading.
Context (client : Z) (step : list (Action Host) -> HostOp -> Prop).
Context (Hkeep : forall h o, housekeeping o = true -> step h o).

(** Adds [b] to what was received. *)
Definition reading {E} (P : list byte -> Prop) (h h' : list (Action Host)) (r : Result (list byte) E) : Prop :=
  returns r /\ forall b, r = Ok b -> received client h' = received client h ++ b /\ P b.

Lemma received_read h (o : HostOp) (r : host_answer o) (b : list byte) :
  read_bytes client (existT o r) = b -> received client (h ++ [existT o r : Action Host]) = received client h ++ b.
Proof. intros <-. unfold received. rewrite flat_map_app. cbn [flat_map]. by rewrite app_nil_r. Qed.

Lemma read_exact_wp {B} (n : nat) (f : list byte -> IO B) (Q : list (Action Host) -> Result B IoError -> Prop) h :
  (forall h' bs, length bs = n -> received client h' = received client h ++ bs -> wp step Q h' (f bs)) ->
  (forall h' e, Q h' (Err e)) ->
  wp step Q h (prog_try (tcp_read_exact client n) f).
Proof.
  intros Hok Herr. apply wp_try, wp_op; [by apply Hkeep|].
  intros [bs|e| |] [Hr Hlen]; try done. apply Hok; [by apply Hlen|].
  apply received_read. cbn. by rewrite Z.eqb_refl.
Qed.

Lemma read_proxy_head_loop_wp (limit fuel : nat) : forall buffer h,
  received client h = buffer -> (limit - length buffer < fuel)%nat ->
  wp step (fun h' r => returns r /\ forall b, r = Ok b ->
       received client h' = b /\ (length b <= limit)%nat /\ is_Some (find (crlf ++ crlf) b))
    h (read_proxy_head_loop fuel client limit buffer).
Proof.
  induction fuel as [|fuel IH]; intros buffer h Hb Hf; [lia|]. cbn [read_proxy_head_loop].
  destruct (Nat.leb_spec limit (length buffer)); [done|].
  apply wp_try, wp_op; [by apply Hkeep|]. intros [chunk|e| |] [Hr _]; try done.
  destruct (Nat.eqb_spec (length chunk) 0); [done|].
  assert (received client (h ++ [existT (HostOp.TcpRead client 1024) (Ok chunk) : Action Host]) = buffer ++ chunk) as Hb'.
  { erewrite received_read; [by rewrite Hb|]. cbn. by rewrite Z.eqb_refl. }
  destruct (Nat.ltb_spec limit (length (buffer ++ chunk))) as [|Hle]; [done|].
  case_bool_decide.
  - cbn. split; [done|]. intros b [= <-]. split_and!; [done|lia|done].
  - apply IH; [done|]. rewrite length_app. lia.
Qed.

Lemma read_socks5_wp h :
  (forall h bytes, bytes = [x05; x00] \/ bytes = [x05; xff] \/ (exists status, bytes = socks5_reply status) ->
     step h (HostOp.TcpWriteAll client bytes)) ->
  wp step (reading (fun _ => True) h) h (read_socks5_greeting_and_request client).
Proof.
  intros Hw. unfold read_socks5_greeting_and_request.
  apply read_exact_wp; [|done]. intros h1 g Hg E1.
  destruct g as [|g0 [|g1 [|]]]; try done. cbn [lookup list_lookup or_panic prog_try prog_bind].
  destruct (negb _); [done|]. cbn [prog_try prog_bind].
  apply read_exact_wp; [|done]. intros h2 ms Hms E2. destruct (negb _).
  - apply wp_try, wp_op; [apply Hw; auto|]. by intros [[]|e| |] Hr.
  - apply wp_try, wp_op; [apply Hw; auto|]. intros [[]|e| |] Hr; try done.
    match goal with |- wp _ _ ?h3 _ => assert (received client h3 = received client h2) as E3
      by (erewrite received_read; [by rewrite app_nil_r|done]); generalize dependent h3 end.
    intros h3 E3. apply read_exact_wp; [|done]. intros h4 rq Hrq E4.
    destruct rq as [|r0 [|r1 [|r2 [|r3 [|]]]]]; try done. cbn [or_panic prog_try prog_bind].
    change (([r0; r1; r2; r3] : list byte) !! 3%nat) with (Some r3). cbn [or_panic prog_try prog_bind].
    assert (forall n, wp step (reading (fun _ => True) h) h4
      (let! rest := tcp_read_exact client n in Ret (Ok ([g0; g1] ++ ms ++ [r0; r1; r2; r3] ++ rest)))) as Hrest.
    { intros n. apply read_exact_wp; [|done]. intros h5 rest _ E5. split; [done|]. intros b [= <-].
      split; [|done]. by rewrite E5, E4, E3, E2, E1, <- !app_assoc. }
    assert (forall n, wp step (reading (fun _ => True) h) h4
      (let! len := tcp_read_exact client 1 in
       let! len := Ret (or_panic (len !! 0%nat)) in
       let! rest := tcp_read_exact client (n len) in
       Ret (Ok ([g0; g1] ++ ms ++ [r0; r1; r2; r3] ++ [len] ++ rest)))) as Hlen.
    { intros n. apply read_exact_wp; [|done]. intros h5 l Hl E5. destruct l as [|l0 [|]]; try done.
      cbn [lookup list_lookup or_panic prog_try prog_bind].
      apply read_exact_wp; [|done]. intros h6 rest _ E6. split; [done|]. intros b [= <-].
      split; [|done]. by rewrite E6, E5, E4, E3, E2, E1, <- !app_assoc. }
    assert (wp step (reading (fun _ => True) h) h4
      (let* _ := ignore (write_socks5_reply client 8) in
       Ret (Err (mkIoError IoErrorKind.InvalidData (lit "unsupported SOCKS5 address type"))))) as Hbad.
    { apply ignore_wp; [apply Hw; eauto|]. by intros r _. }
    destruct (u8_val r3) as [|q|q]; [exact Hbad| |exact Hbad].
    destruct q as [[q|q|]|[q|[q|q|]|]|]; first [exact Hbad|apply (Hlen (fun len => (Z.to_nat (u8_val len) + 2)%nat))|apply Hrest].
Qed.

End reading.

(** ** The handlers *)

Lemma http_keep (config : HttpProxyProofConfig) (client : Z) h (o : HostOp) :
  housekeeping o = true -> http_permitted config client h o.
Proof. by destruct o. Qed.

Lemma socks_keep (config : Socks5ProxyProofConfig) (client : Z) h (o : HostOp) :
  housekeeping o = true -> socks_permitted config client h o.
Proof. by destruct o. Qed.

Lemma http_audit (config : HttpProxyProofConfig) (client : Z) h (o : HostOp) :
  audit_op o = true -> http_permitted config client h o.
Proof. by destruct o. Qed.

Lemma socks_audit (config : Socks5ProxyProofConfig) (client : Z) h (o : HostOp) :
  audit_op o = true -> socks_permitted config client h o.
Proof. by destruct o. Qed.

Lemma http_audited_mono config client event head tail h h' :
  quiet not_read h h' -> http_audited config client event head tail h -> http_audited config client event head tail h'.
Proof.
  intros Hq (H1 & H2 & H3). split_and!; [by rewrite (quiet_received client _ _ Hq)|done|by eapply recorded_mono].
Qed.

Lemma socks_audited_mono config client event h h' :
  quiet not_read h h' -> socks_audited config client event h -> socks_audited config client event h'.
Proof. intros Hq (H1 & H2). split; [by rewrite (quiet_received client _ _ Hq)|by eapply recorded_mono]. Qed.

(** What a finished HTTP handler guarantees. *)
Definition http_done (config : HttpProxyProofConfig) (client : Z) (h : list (Action Host)) : Prop :=
  exists event head tail, http_audited config client event head tail h.

Definition socks_done (config : Socks5ProxyProofConfig) (client : Z) (h : list (Action Host)) : Prop :=
  exists event, socks_audited config client event h.

Section http.
Context (config : HttpProxyProofConfig) (client : Z).
Abbreviation permitted := (http_permitted config client).
Abbreviation finished := (fun h r => handled (http_done config client) h r).

Lemma http_forward_wp (event : NetworkEvent) (head tail : list byte) (host : Hostname) (port : Z)
  (payload : Z -> IO unit) h :
  http_authorised config client event head tail h -> event_target event = Some (host, port) ->
  (forall h' upstream, http_authorised config client event head tail h' -> connected upstream h' ->
     wp permitted finished h' (payload upstream)) ->
  wp permitted finished h
    (let! destination := resolve_host_port host port in
     let! upstream := connect_allowed_tcp event (evaluate (hp_policy config) event) destination
                        (hp_connect_timeout config) Frontend.HttpProxy (hp_sandbox_id config) in
     payload upstream).
Proof.
  intros Ha Ht Hpay. apply wp_try. eapply wp_post.
  { apply (resolve_host_port_wp permitted _ _ h h); [apply quiet_refl|]. exists event, head, tail, host. done. }
  intros h1 [addr|e| |] (Hr1 & Hq1 & H1); try done. specialize (H1 addr eq_refl).
  assert (http_authorised config client event head tail h1) as Ha1
    by (split; [eapply http_audited_mono; [exact Hq1|apply Ha]|apply Ha]).
  apply wp_try. eapply wp_post.
  { apply (connect_allowed_tcp_wp permitted _ _ _ _ _ _ h1 h1); [apply quiet_refl|].
    intros _. exists event, head, tail, host, port. done. }
  intros h2 [u|e| |] (Hr2 & Hq2 & H2); try done. apply Hpay; [|by apply H2].
  split; [eapply http_audited_mono; [exact Hq2|apply Ha1]|apply Ha1].
Qed.

Lemma http_tunnel_wp (event : NetworkEvent) (head tail : list byte) (upstream : Z) h :
  http_authorised config client event head tail h -> connected upstream h ->
  wp permitted finished h
    (let! _ := tcp_write_all upstream tail in tunnel_bidirectional client upstream).
Proof.
  intros Ha Hc. apply wp_try, wp_op.
  { right. split; [done|]. exists event, head, tail. auto. }
  intros [[]|e| |] Hr; try done. set (h1 := h ++ _).
  assert (quiet not_read h h1) as Hq by (apply quiet_step; [done|apply quiet_refl]).
  eapply wp_post.
  { apply (tunnel_bidirectional_wp client permitted (http_keep config client) upstream
      (fun h _ => http_audited config client event head tail h) h1 h1); [| |apply (http_audited_mono _ _ _ _ _ h); [done|apply Ha]| | |].
    - intros h' h'' _. apply http_audited_mono.
    - apply quiet_refl.
    - by eapply connected_mono.
    - done.
    - done. }
  intros h2 r. eapply handled_part. intros h' _ H. by exists event, head, tail.
Qed.

Lemma serve_http_event_wp (event : NetworkEvent) (head tail : list byte) h :
  split_proxy_head (received client h) = Ok (head, tail) ->
  parse_http_proxy_request_head (hp_sandbox_id config) head = Ok event ->
  wp permitted finished h (serve_http_event client config event head tail).
Proof.
  intros Hs Hp. unfold serve_http_event. cbv zeta. apply wp_bind, wp_op; [done|]. intros [] _. set (h1 := h ++ _).
  assert (quiet not_read h h1) as Hq1 by (apply quiet_step; [done|apply quiet_refl]).
  apply wp_match. eapply wp_post; [apply (emit_proxy_audit_wp permitted (http_audit config client))|].
  intros h2 [[]|e| |] (Hr & Hq2 & Hrec); try done.
  2:{ apply ignore_wp; [by left; auto|]. intros r _. done. }
  assert (http_audited config client event head tail h2) as Ha.
  { split_and!; [|done|by apply (Hrec tt)]. by rewrite (quiet_received client _ _ Hq2), (quiet_received client _ _ Hq1). }
  destruct (is_allowed _) eqn:Hal; cbn [negb].
  - assert (http_authorised config client event head tail h2) as Hauth by by split.
    destruct event as [| | | | |sid f m o p|sid f host port| | | |]; try done.
    + apply (http_forward_wp _ head tail _ _ (fun upstream =>
        let! rewritten := Ret (rewrite_http_request_for_origin head) in
        let! _ := tcp_write_all upstream rewritten in
        let! _ := tcp_write_all upstream tail in tunnel_bidirectional client upstream)); [done|done|].
      intros h3 u Ha3 Hc3. apply wp_try. cbn [wp].
      pose proof (rewrite_returns head) as Hrw.
      destruct (rewrite_http_request_for_origin head) as [rw|e| |] eqn:Hrw'; try done.
      apply wp_try, wp_op.
      { right. split; [done|]. eexists _, head, tail. split; [exact Ha3|by right]. }
      intros [[]|e| |] Hr3; try done. set (h4 := h3 ++ _).
      assert (quiet not_read h3 h4) as Hq4 by (apply quiet_step; [done|apply quiet_refl]).
      eapply http_tunnel_wp; [|by eapply connected_mono].
      split; [eapply http_audited_mono; [exact Hq4|apply Ha3]|apply Ha3].
    + apply (http_forward_wp _ head tail _ _ (fun upstream =>
        let! _ := tcp_write_all client response_established in
        let! _ := tcp_write_all upstream tail in tunnel_bidirectional client upstream)); [done|done|].
      intros h3 u Ha3 Hc3. apply wp_try, wp_op; [by left; auto|].
      intros [[]|e| |] Hr3; try done. set (h4 := h3 ++ _).
      assert (quiet not_read h3 h4) as Hq4 by (apply quiet_step; [done|apply quiet_refl]).
      eapply http_tunnel_wp; [|by eapply connected_mono].
      split; [eapply http_audited_mono; [exact Hq4|apply Ha3]|apply Ha3].
  - apply wp_bind, wp_op; [done|]. intros [] _. apply ignore_wp; [done|]. intros r _. cbn.
    split; [done|]. intros _. exists event, head, tail.
    eapply http_audited_mono; [|exact Ha]. do 2 (apply quiet_step; [done|]). apply quiet_refl.
Qed.

Lemma http_reject_wp (detail : str) (error : IoError) h :
  wp permitted finished h (reject_request (A := unit) (hp_sandbox_id config) Frontend.HttpProxy detail error).
Proof.
  eapply wp_post.
  { apply (reject_request_wp permitted (http_audit config client) _ _ _ _
      (fun h _ => http_done config client h) h h). apply quiet_refl. }
  intros h' r. by apply handled_part.
Qed.

End http.

Section socks.
Context (config : Socks5ProxyProofConfig) (client : Z).
Abbreviation permitted := (socks_permitted config client).
Abbreviation finished := (fun h r => handled (socks_done config client) h r).

Lemma socks_reply_permitted (status : Z) h :
  permitted h (HostOp.TcpWriteAll client (socks5_reply status)).
Proof. cbn. split; [done|]. right. right. by exists status. Qed.

Lemma socks_reply_fail_wp (status : Z) (error : IoError) h :
  wp permitted finished h (let* _ := ignore (write_socks5_reply client status) in Ret (Err error)).
Proof. apply ignore_wp; [apply socks_reply_permitted|]. by intros r _. Qed.

Lemma serve_socks5_event_wp (event : NetworkEvent) h :
  parse_socks5_connect (sp_sandbox_id config) (received client h) = Ok event ->
  wp permitted finished h (serve_socks5_event client config event).
Proof.
  intros Hp. unfold serve_socks5_event. cbv zeta. apply wp_bind, wp_op; [done|]. intros [] _. set (h1 := h ++ _).
  assert (quiet not_read h h1) as Hq1 by (apply quiet_step; [done|apply quiet_refl]).
  apply wp_match. eapply wp_post; [apply (emit_proxy_audit_wp permitted (socks_audit config client))|].
  intros h2 [[]|e| |] (Hr & Hq2 & Hrec); try done; [|apply socks_reply_fail_wp].
  assert (socks_audited config client event h2) as Ha.
  { split; [|by apply (Hrec tt)]. by rewrite (quiet_received client _ _ Hq2), (quiet_received client _ _ Hq1). }
  destruct (is_allowed _) eqn:Hal; cbn [negb].
  2:{ apply ignore_wp; [apply socks_reply_permitted|]. intros r _. split; [done|]. intros _. exists event.
      eapply socks_audited_mono; [|exact Ha]. apply quiet_step; [done|apply quiet_refl]. }
  set (target h addr := match event with
    | NetworkEvent.SocksConnect _ (SocksDestination.Host host port) => resolved host port addr h
    | NetworkEvent.SocksConnect _ (SocksDestination.Ip e) => addr = mkSocketAddr (ep_ip e) (ep_port e)
    | _ => False
    end).
  apply wp_match. eapply (wp_post _ (part not_read h2 (fun h a => target h a))).
  { destruct event as [| | | | | | | |sid [host port|ep]| |]; try by apply part_err, quiet_refl.
    - apply (resolve_host_port_wp permitted host port h2 h2); [apply quiet_refl|].
      by exists (NetworkEvent.SocksConnect sid (SocksDestination.Host host port)), host.
    - by apply part_ok; [apply quiet_refl|]. }
  intros h3 [addr|e| |] (Hr3 & Hq3 & H3); try done; [|apply socks_reply_fail_wp].
  apply wp_match. eapply wp_post.
  { apply (connect_allowed_tcp_wp permitted _ _ _ _ _ _ h3 h3); [apply quiet_refl|].
    intros _. exists event. split_and!; [split; [by eapply socks_audited_mono|done]|done|].
    apply (H3 addr eq_refl). }
  intros h4 [u|e| |] (Hr4 & Hq4 & H4); try done; [|apply socks_reply_fail_wp].
  apply wp_try, wp_op; [apply socks_reply_permitted|]. intros [[]|e| |] Hr5; try done. set (h5 := h4 ++ _).
  assert (quiet not_read h4 h5) as Hq5 by (apply quiet_step; [done|apply quiet_refl]).
  eapply wp_post.
  { apply (tunnel_bidirectional_wp client permitted (socks_keep config client) u
      (fun h _ => socks_audited config client event h) h5 h5).
    - intros h' h'' _. apply socks_audited_mono.
    - apply quiet_refl.
    - eapply socks_audited_mono; [|exact Ha]. eapply quiet_trans; [exact Hq3|]. by eapply quiet_trans.
    - eapply connected_mono; [exact Hq5|by apply H4].
    - done.
    - done. }
  intros h6 r. eapply handled_part. intros h' _ H. by exists event.
Qed.

Lemma socks_reject_wp (detail : str) (error : IoError) h :
  wp permitted finished h (reject_request (A := unit) (sp_sandbox_id config) Frontend.Socks5 detail error).
Proof.
  eapply wp_post.
  { apply (reject_request_wp permitted (socks_audit config client) _ _ _ _
      (fun h _ => socks_done config client h) h h). apply quiet_refl. }
  intros h' r. by apply handled_part.
Qed.

End socks.

(** ** Properties *)

Lemma http_handler_wp (config : HttpProxyProofConfig) (client : Z) :
  wp (http_permitted config client) (fun h r => handled (http_done config client) h r) []
    (handle_http_proxy_stream_with_audit client config).
Proof.
  unfold handle_http_proxy_stream_with_audit. cbv zeta.
  apply wp_try, wp_op; [done|]. intros [[]|e| |] Hr; try done. set (h1 := [] ++ _).
  apply wp_match. eapply wp_post.
  { apply (read_proxy_head_loop_wp client _ (http_keep config client)); [done|cbn; lia]. }
  intros h2 [b|e| |] [Hr2 H2]; try done; [|apply http_reject_wp].
  destruct (H2 b eq_refl) as (Hrecv & _ & _).
  apply wp_try, wp_op; [done|]. intros [[]|e| |] Hr3; try done. set (h3 := h2 ++ _).
  assert (received client h3 = b) as Hrecv3.
  { rewrite <- Hrecv. apply (quiet_received client). apply quiet_step; [done|apply quiet_refl]. }
  apply wp_match. cbn [wp]. destruct (split_proxy_head b) as [[head tail]|e| |] eqn:Hs;
    [|apply http_reject_wp|unfold split_proxy_head in Hs; case_match; done|unfold split_proxy_head in Hs; case_match; done].
  pose proof (parse_http_proxy_request_head_returns (hp_sandbox_id config) head) as Hp.
  apply wp_match. cbn [wp]. destruct (parse_http_proxy_request_head _ head) as [event|e| |] eqn:He; try done;
    [|apply http_reject_wp].
  apply serve_http_event_wp; [by rewrite Hrecv3|done].
Qed.

(** [C4] The HTTP proxy never acts before policy and audit: on every connection and for
    every host behaviour, a name is resolved and a connection opened only for the host
    and port of an event that the received bytes parse to, that policy allows, and
    whose decision is already written to the audit log; the connection goes to a
    resolved address of that name; the origin is sent only the rewritten request and
    the bytes behind its head; the handler always returns (the head limit bounds its
    loop), and returns success only for a request whose decision was audited. *)
Theorem http_proxy_acts_after_audited_allow (config : HttpProxyProofConfig) (client : Z) :
  wp (http_permitted config client) (fun h r => handled (http_done config client) h r) []
    (handle_http_proxy_stream_with_audit client config).
Proof. apply http_handler_wp. Qed.

Lemma socks5_handler_wp (config : Socks5ProxyProofConfig) (client : Z) :
  wp (socks_permitted config client) (fun h r => handled (socks_done config client) h r) []
    (handle_socks5_proxy_stream_with_audit client config).
Proof.
  unfold handle_socks5_proxy_stream_with_audit. cbv zeta.
  apply wp_try, wp_op; [done|]. intros [[]|e| |] Hr; try done. set (h1 := [] ++ _).
  apply wp_match. eapply wp_post.
  { apply (read_socks5_wp client _ (socks_keep config client)). intros h b Hb. split; [done|]. exact Hb. }
  intros h2 [b|e| |] [Hr2 H2]; try done; [|apply socks_reject_wp].
  destruct (H2 b eq_refl) as (Hrecv & _).
  apply wp_try, wp_op; [done|]. intros [[]|e| |] Hr3; try done. set (h3 := h2 ++ _).
  assert (received client h3 = b) as Hrecv3.
  { change b with (received client h1 ++ b). rewrite <- Hrecv.
    apply (quiet_received client). apply quiet_step; [done|apply quiet_refl]. }
  pose proof (parse_socks5_connect_returns (sp_sandbox_id config) b) as Hp.
  apply wp_match. cbn [wp]. destruct (parse_socks5_connect _ b) as [event|e| |] eqn:He; try done.
  - apply serve_socks5_event_wp. by rewrite Hrecv3.
  - pose proof (socks_status_for_parse_error_returns b) as Hst. apply wp_try. cbn [wp].
    destruct (socks_status_for_parse_error b) as [status|e'| |]; try done.
    apply ignore_wp; [apply socks_reply_permitted|]. intros r _. apply socks_reject_wp.
Qed.

(** [C5] The SOCKS5 proxy never acts before policy and audit: a name is resolved and a
    connection opened only for the destination of a CONNECT request that the received
    bytes parse to, that policy allows and whose decision is already written to the
    audit log, and only to that destination's address; nothing but greeting and reply
    bytes is written to the client before the tunnel; the handler always returns, and
    returns success only for an audited request. *)
Theorem socks5_proxy_acts_after_audited_allow (config : Socks5ProxyProofConfig) (client : Z) :
  wp (socks_permitted config client) (fun h r => handled (socks_done config client) h r) []
    (handle_socks5_proxy_stream_with_audit client config).
Proof. apply socks5_handler_wp. Qed.

(** ** The listeners: specification and property *)

Definition lifecycle_recorded (sandbox_id : SandboxId) (frontend : Frontend) (kind : AuditEventKind)
  (detail : str) (h : list (Action Host)) : Prop :=
  exists now addr, happened (HostOp.StderrWriteAll
    (audit_event_json_line (proxy_lifecycle_event now sandbox_id frontend kind addr detail))) (Ok tt) h.

(** Both lifecycle events of a listener are in the audit log. *)
Definition announced (sandbox_id : SandboxId) (frontend : Frontend) (name : str) (h : list (Action Host)) : Prop :=
  lifecycle_recorded sandbox_id frontend AuditEventKind.BrokerStarted (name ++ lit " proxy broker started") h /\
  lifecycle_recorded sandbox_id frontend AuditEventKind.ProxyListenerConfigured
    (name ++ lit " proxy listener configured") h.

(** The last two operations granted [stream] a permit, or refused it one. *)
Definition just_admitted (stream : Z) (granted : bool) (h : list (Action Host)) : Prop :=
  exists h0 listener, h = h0 ++ [existT (HostOp.TcpAccept listener) (Ok stream) : Action Host;
                                 existT HostOp.TryAcquire granted : Action Host].

Definition listener_permitted (sandbox_id : SandboxId) (frontend : Frontend) (name : str)
  (h : list (Action Host)) (o : HostOp) : Prop :=
  match o with
  | HostOp.TcpListen _ => ~ exists l a, happened (HostOp.TcpListen a) (Ok l) h
  | HostOp.TcpAccept listener =>
      announced sandbox_id frontend name h /\ exists a, happened (HostOp.TcpListen a) (Ok listener) h
  | HostOp.SpawnHandler stream => just_admitted stream true h
  | HostOp.TcpShutdown stream _ =>
      exists h0, h = h0 ++ [existT HostOp.Eprintln tt : Action Host] /\ just_admitted stream false h0
  | HostOp.TryAcquire => exists h0 listener stream,
      h = h0 ++ [existT (HostOp.TcpAccept listener) (Ok stream) : Action Host]
  | HostOp.TcpLocalAddr _ | HostOp.Now | HostOp.StderrWriteAll _ | HostOp.Eprintln
  | HostOp.AuditLock | HostOp.AuditUnlock _ => True
  | _ => False
  end.

Section listener.
Context (sandbox_id : SandboxId) (frontend : Frontend) (name : str).
Abbreviation permitted := (listener_permitted sandbox_id frontend name).
Abbreviation is_announced := (announced sandbox_id frontend name).

Lemma listener_audit h (o : HostOp) : audit_op o = true -> permitted h o.
Proof. by destruct o. Qed.

Lemma announced_app h t : is_announced h -> is_announced (h ++ t).
Proof.
  intros [(n1 & a1 & H1) (n2 & a2 & H2)].
  split; [exists n1, a1|exists n2, a2]; apply in_or_app; by left.
Qed.

Lemma accept_connections_wp (listener : Z) (rounds : nat) : forall h,
  is_announced h -> (exists a, happened (HostOp.TcpListen a) (Ok listener) h) ->
  wp permitted (fun _ _ => True) h (accept_connections rounds listener).
Proof.
  induction rounds as [|rounds IH]; intros h Ha Hl; cbn [accept_connections]; [done|].
  assert (forall t, wp permitted (fun _ _ => True) (h ++ t) (accept_connections rounds listener)) as Hnext.
  { intros t. apply IH; [by apply announced_app|]. destruct Hl as [a Hl]. exists a. apply in_or_app. by left. }
  apply wp_bind, wp_op; [by split|]. intros accepted Hacc. apply wp_bind.
  destruct accepted as [stream|e| |]; try done; cbn [admit_connection].
  - apply wp_bind, wp_op; [by exists h, listener, stream|]. intros permit _. rewrite <- app_assoc.
    destruct permit.
    + apply wp_op; [by exists h, listener|]. intros [] _. rewrite <- app_assoc. apply Hnext.
    + apply wp_bind, wp_op; [done|]. intros [] _. unfold ignore. apply wp_bind, wp_op.
      { exists (h ++ [existT (HostOp.TcpAccept listener) (Ok stream) : Action Host; existT HostOp.TryAcquire false : Action Host]).
        split; [reflexivity|]. by exists h, listener. }
      intros r _. cbn [wp]. rewrite <- !app_assoc. apply Hnext.
  - apply wp_op; [done|]. intros [] _. rewrite <- app_assoc. apply Hnext.
Qed.

End listener.

(** The proxy listeners announce themselves before they serve: for either frontend
    and every host behaviour, the listener binds once, reports ready and accepts only
    after both lifecycle events are in the audit log, starts a handler only for a stream
    it just accepted and the limiter just granted a permit, shuts down exactly the
    refused ones, and returns (errors before accepting included). *)
Theorem listener_announces_then_admits (rounds : nat) (sandbox_id : SandboxId) (frontend : Frontend)
  (name : str) (listen_addr : SocketAddr) (capacity max_connections : Z) (ready : SocketAddr -> IO unit) :
  (forall h addr, announced sandbox_id frontend name h ->
     wp (listener_permitted sandbox_id frontend name) (fun h' r => returns r /\ exists t, h' = h ++ t) h (ready addr)) ->
  wp (listener_permitted sandbox_id frontend name) (fun _ r => returns r) []
    (run_proxy_listener rounds sandbox_id frontend name listen_addr capacity max_connections ready).
Proof.
  intros Hready. unfold run_proxy_listener.
  apply wp_try. cbn [wp]. unfold shared_audit_buffer. destruct (capacity =? 0); [done|].
  apply wp_try. cbn [wp]. unfold check_max_connections. destruct (max_connections =? 0); [done|].
  apply wp_try, wp_op; [by intros (l & a & [])|]. intros [l|e| |] Hr; try done. set (h1 := [] ++ _).
  assert (happened (HostOp.TcpListen listen_addr) (Ok l) h1) as Hl1 by by left.
  apply wp_try, wp_op; [done|]. intros [addr|e| |] Hr2; try done. set (h2 := h1 ++ _).
  apply wp_try. eapply wp_post; [apply (emit_proxy_lifecycle_audit_wp _ (listener_audit _ _ _))|].
  intros h3 [[]|e| |] (Hr3 & Hq3 & H3); try done.
  apply wp_try. eapply wp_post; [apply (emit_proxy_lifecycle_audit_wp _ (listener_audit _ _ _))|].
  intros h4 [[]|e| |] (Hr4 & Hq4 & H4); try done.
  assert (announced sandbox_id frontend name h4) as Ha4.
  { destruct (H3 tt eq_refl) as [n3 H3'], (H4 tt eq_refl) as [n4 H4']. split.
    - exists n3, addr. by eapply happened_mono.
    - by exists n4, addr. }
  assert (happened (HostOp.TcpListen listen_addr) (Ok l) h4) as Hl4.
  { eapply happened_mono; [exact Hq4|]. eapply happened_mono; [exact Hq3|]. apply in_or_app. by left. }
  apply wp_try. eapply wp_post; [apply Hready, Ha4|]. intros h5 [[]|e| |] (Hr5 & t & ->); try done.
  apply wp_bind, wp_op; [done|]. intros [] _. apply wp_bind. rewrite <- app_assoc.
  eapply wp_post; [apply accept_connections_wp|by intros].
  - by apply announced_app.
  - exists listen_addr. apply in_or_app. by left.
Qed.

Lemma listener_announces_then_admits_witness :
  let sid := mkSandboxId (lit "s") in
  wp (listener_permitted sid Frontend.HttpProxy (lit "http")) (fun _ r => returns r) []
    (run_http_proxy_proof 3 (http_proxy_config_new sid (mkSocketAddr (V4 (ipv4_new 127 0 0 1)) 8080))).
Proof.
  intros sid. apply (listener_announces_then_admits 3 sid Frontend.HttpProxy (lit "http")).
  intros h addr _. cbn. split; [done|]. exists []. by rewrite app_nil_r.
Defined.
