(* ===== verification/Limiter.v ===== *)
(** * Atomic limiters ([crates/foxprox-proxy/src/lib.rs] 226-289, [crates/foxprox-net/src/udp.rs] 75-131)

    [ConnectionLimiter] shares one atomic counter between the accept loop and
    the permits of running handlers, [WorkerLimiter] one between the packet loop
    and the worker threads.  Each atomic access is one step of a thread, so the
    step relation covers every interleaving and every spurious failure of
    [compare_exchange_weak].  The class [AtomicLimiter] is what the argument
    needs of either. *)

From S2P Require Import Prelude Text NetAddr Flow AuditLog Effects.

(** A thread: outside, in [try_acquire]'s loop with the value it last saw,
    holding a permit, or refused. *)
Module Thread.
Inductive Thread : Type :=
| Idle
| Trying (current : Z)
| Holding
| Refused.
End Thread.
Abbreviation Thread := Thread.Thread.

(** [compare_exchange_weak(current, new)]: the counter, and the value seen
    when it failed. *)
Definition compare_exchange_weak (active current new : Z) (spurious : bool) : Z * Result unit Z :=
  if (active =? current) && negb spurious then (new, Ok tt) else (active, Err active).

(** ** The connection limiter of the proxy *)

Record ConnectionLimiter : Type := mkConnectionLimiter {
  cl_max_connections : Z;
  cl_active : Z
}.

Definition connection_limiter_new (max_connections : Z) : Result ConnectionLimiter IoError :=
  if max_connections =? 0 then
    Err (mkIoError IoErrorKind.InvalidInput (lit "max connections must be non-zero"))
  else Ok (mkConnectionLimiter max_connections 0).

(** [self.active.load]. *)
Definition try_acquire_load (self : ConnectionLimiter) : Thread := Thread.Trying (cl_active self).

(** One round of [try_acquire]'s loop. *)
Definition try_acquire_round (self : ConnectionLimiter) (current : Z) (spurious : bool)
  : ConnectionLimiter * Thread :=
  if cl_max_connections self <=? current then (self, Thread.Refused)
  else
    let (active, r) := compare_exchange_weak (cl_active self) current ((current + 1) mod 2 ^ 64) spurious in
    (mkConnectionLimiter (cl_max_connections self) active,
     match r with
     | Ok _ => Thread.Holding
     | Err next => Thread.Trying next
     | _ => Thread.Trying current
     end).

(** [fetch_sub(1)] of a dropped permit. *)
Definition permit_drop (self : ConnectionLimiter) : ConnectionLimiter :=
  mkConnectionLimiter (cl_max_connections self) ((cl_active self - 1) mod 2 ^ 64).

(** ** The worker limiter of the packet runtimes *)

Record WorkerLimiter : Type := mkWorkerLimiter {
  wl_max_workers : Z;
  wl_active : Z
}.

Definition worker_limiter_new (max_workers : Z) : Result WorkerLimiter IoError :=
  if max_workers =? 0 then
    Err (mkIoError IoErrorKind.InvalidInput (lit "max worker threads must be non-zero"))
  else Ok (mkWorkerLimiter max_workers 0).

Definition worker_acquire_load (self : WorkerLimiter) : Thread := Thread.Trying (wl_active self).

Definition worker_acquire_round (self : WorkerLimiter) (current : Z) (spurious : bool) : WorkerLimiter * Thread :=
  if wl_max_workers self <=? current then (self, Thread.Refused)
  else
    let (active, r) := compare_exchange_weak (wl_active self) current ((current + 1) mod 2 ^ 64) spurious in
    (mkWorkerLimiter (wl_max_workers self) active,
     match r with
     | Ok _ => Thread.Holding
     | Err next => Thread.Trying next
     | _ => Thread.Trying current
     end).

Definition worker_permit_drop (self : WorkerLimiter) : WorkerLimiter :=
  mkWorkerLimiter (wl_max_workers self) ((wl_active self - 1) mod 2 ^ 64).

(** ** The interface *)

Class AtomicLimiter (L : Type) := {
  lim_new : Z -> Result L IoError;
  lim_max : L -> Z;
  lim_active : L -> Z;
  lim_load : L -> Thread;
  lim_round : L -> Z -> bool -> L * Thread;
  lim_drop : L -> L;

  lim_new_spec m l : lim_new m = Ok l -> lim_max l = m /\ lim_active l = 0;
  lim_load_spec l : lim_load l = Thread.Trying (lim_active l);
  lim_drop_spec l : lim_max (lim_drop l) = lim_max l /\ lim_active (lim_drop l) = (lim_active l - 1) mod 2 ^ 64;
  lim_refuses l c spurious : lim_max l <= c -> lim_round l c spurious = (l, Thread.Refused);
  lim_round_spec l c spurious : c < lim_max l ->
    let (l', t) := lim_round l c spurious in
    lim_max l' = lim_max l /\
    if (lim_active l =? c) && negb spurious
    then t = Thread.Holding /\ lim_active l' = (c + 1) mod 2 ^ 64
    else t = Thread.Trying (lim_active l) /\ lim_active l' = lim_active l
}.

#[export] Instance connection_limiter : AtomicLimiter ConnectionLimiter.
Proof.
  refine {| lim_new := connection_limiter_new; lim_max := cl_max_connections; lim_active := cl_active;
            lim_load := try_acquire_load; lim_round := try_acquire_round; lim_drop := permit_drop |}; try done.
  - intros m l. unfold connection_limiter_new. destruct (m =? 0); [done|]. by intros [= <-].
  - intros l c spurious H. unfold try_acquire_round. by rewrite (proj2 (Z.leb_le _ _) H).
  - intros l c spurious H. unfold try_acquire_round, compare_exchange_weak.
    rewrite (proj2 (Z.leb_gt _ _) H). by destruct (_ && _).
Defined.

#[export] Instance worker_limiter : AtomicLimiter WorkerLimiter.
Proof.
  refine {| lim_new := worker_limiter_new; lim_max := wl_max_workers; lim_active := wl_active;
            lim_load := worker_acquire_load; lim_round := worker_acquire_round; lim_drop := worker_permit_drop |}; try done.
  - intros m l. unfold worker_limiter_new. destruct (m =? 0); [done|]. by intros [= <-].
  - intros l c spurious H. unfold worker_acquire_round. by rewrite (proj2 (Z.leb_le _ _) H).
  - intros l c spurious H. unfold worker_acquire_round, compare_exchange_weak.
    rewrite (proj2 (Z.leb_gt _ _) H). by destruct (_ && _).
Defined.

(** ** Interleavings *)

Section interleavings.
Context {L : Type} `{!AtomicLimiter L}.

Record System : Type := mkSystem {
  sys_limiter : L;
  sys_threads : list Thread
}.

(** What a thread does next; [spurious] is the hardware's choice. *)
Definition thread_step (limiter : L) (t : Thread) (spurious : bool) : L * Thread :=
  match t with
  | Thread.Idle => (limiter, lim_load limiter)
  | Thread.Trying current => lim_round limiter current spurious
  | Thread.Holding => (lim_drop limiter, Thread.Idle)
  | Thread.Refused => (limiter, Thread.Idle)
  end.

Inductive limiter_step : System -> System -> Prop :=
| limiter_step_thread limiter ts i t spurious limiter' t' :
    ts !! i = Some t -> thread_step limiter t spurious = (limiter', t') ->
    limiter_step (mkSystem limiter ts) (mkSystem limiter' (<[i := t']> ts)).

Inductive limiter_reachable (max : Z) (n : nat) : System -> Prop :=
| limiter_start limiter :
    lim_new max = Ok limiter ->
    limiter_reachable max n (mkSystem limiter (replicate n Thread.Idle))
| limiter_next s s' :
    limiter_reachable max n s -> limiter_step s s' ->
    limiter_reachable max n s'.

(** ** Invariant *)

Definition is_holding (t : Thread) : bool := match t with Thread.Holding => true | _ => false end.

Definition holders (ts : list Thread) : Z := Z.of_nat (length (List.filter is_holding ts)).

Lemma holders_insert (ts : list Thread) : forall (i : nat) (t t' : Thread),
  ts !! i = Some t ->
  holders (<[i := t']> ts) = holders ts - Z.b2z (is_holding t) + Z.b2z (is_holding t').
Proof.
  unfold holders. induction ts as [|x ts IH]; intros [|i] t t' H; cbn in H; simplify_eq.
  - cbn. destruct (is_holding t), (is_holding t'); cbn [length Z.b2z]; lia.
  - change (<[S i := t']> (x :: ts)) with (x :: <[i := t']> ts). cbn [List.filter]. specialize (IH i t t' H).
    destruct (is_holding x); cbn [length]; lia.
Qed.

Lemma holders_pos (ts : list Thread) (i : nat) : ts !! i = Some Thread.Holding -> 1 <= holders ts.
Proof.
  intros H. unfold holders. assert (List.In Thread.Holding (List.filter is_holding ts)) as Hin.
  { apply filter_In. split; [|done]. by eapply list_elem_of_In, list_elem_of_lookup_2. }
  destruct (List.filter is_holding ts); [done|]. cbn [length]. lia.
Qed.

Record limiter_inv (max : Z) (s : System) : Prop := mkLimiterInv {
  li_max : lim_max (sys_limiter s) = max;
  li_active : lim_active (sys_limiter s) = holders (sys_threads s);
  li_bound : holders (sys_threads s) <= max;
  li_seen : forall i c, sys_threads s !! i = Some (Thread.Trying c) -> 0 <= c <= max
}.

Lemma holders_idle (n : nat) : holders (replicate n Thread.Idle) = 0.
Proof. by induction n. Qed.

Lemma lookup_insert_case {A} (l : list A) (i j : nat) (x y : A) :
  <[i := x]> l !! j = Some y -> (i = j /\ x = y) \/ l !! j = Some y.
Proof.
  intros H. apply list_lookup_insert_Some in H as [(-> & -> & _)|[_ H]]; [by left|by right].
Qed.

Lemma limiter_step_inv (m : Z) (s s' : System) :
  0 <= m <= u64_max -> limiter_inv m s -> limiter_step s s' -> limiter_inv m s'.
Proof.
  intros Hm [H1 H2 H3 H4] Hs. destruct Hs as [limiter ts i t spurious limiter' t' Hi Ht].
  cbn [sys_limiter sys_threads] in *. pose proof (holders_insert ts i t t' Hi) as Hh.
  assert (0 <= holders ts) as H0 by (unfold holders; lia).
  assert (forall j c, <[i := t']> ts !! j = Some (Thread.Trying c) -> t' = Thread.Trying c \/ 0 <= c <= m) as Hold.
  { intros j c Hj. apply lookup_insert_case in Hj as [[_ ->]|Hj]; [by left|right; by eapply H4]. }
  destruct t as [|c| |]; cbn [thread_step] in *.
  - rewrite lim_load_spec in Ht. simplify_eq. cbn [is_holding Z.b2z] in Hh.
    split; cbn [sys_limiter sys_threads]; try lia. intros j c [[= <-]|]%Hold; lia.
  - specialize (H4 i c Hi). destruct (Z.le_gt_cases (lim_max limiter) c) as [Hc|Hc].
    + rewrite lim_refuses in Ht by done. simplify_eq. cbn [is_holding Z.b2z] in Hh.
      split; cbn [sys_limiter sys_threads]; try lia. by intros j c' [|]%Hold.
    + pose proof (lim_round_spec limiter c spurious Hc) as Hr. rewrite Ht in Hr. destruct Hr as [Hmax Hr].
      destruct (Z.eqb_spec (lim_active limiter) c), spurious; cbn [andb negb] in Hr; destruct Hr as [-> Ha];
        cbn [is_holding Z.b2z] in Hh; split; cbn [sys_limiter sys_threads]; rewrite ?Ha; try lia;
        try (intros j c' [[= <-]|]%Hold; lia); try by intros j c' [|]%Hold.
      rewrite Z.mod_small by (unfold u64_max in Hm; lia). lia.
  - pose proof (holders_pos ts i Hi). destruct (lim_drop_spec limiter) as [Hd1 Hd2]. simplify_eq.
    cbn [is_holding Z.b2z] in Hh. split; cbn [sys_limiter sys_threads]; try lia.
    + rewrite Hd2, Z.mod_small by (unfold u64_max in Hm; lia). lia.
    + by intros j c' [|]%Hold.
  - simplify_eq. cbn [is_holding Z.b2z] in Hh. split; cbn [sys_limiter sys_threads]; try lia. by intros j c' [|]%Hold.
Qed.

Lemma limiter_reachable_inv (m : Z) (n : nat) (s : System) :
  0 <= m <= u64_max -> limiter_reachable m n s -> limiter_inv m s.
Proof.
  intros Hm. induction 1 as [limiter H|s s' _ IH Hs].
  - apply lim_new_spec in H as [H1 H2]. split; cbn [sys_limiter sys_threads]; rewrite ?holders_idle; try lia.
    intros i c Hi. apply lookup_replicate in Hi as [Hi _]. done.
  - by eapply limiter_step_inv.
Qed.

(** The counter is the number of permits; refusals happen at the limit only;
    with room, an undisturbed thread gets a permit. *)
Definition limiter_sound (m : Z) (s : System) : Prop :=
  let limiter := sys_limiter s in
  lim_active limiter = holders (sys_threads s) /\ 0 <= holders (sys_threads s) <= m /\
  (forall i c spurious, sys_threads s !! i = Some (Thread.Trying c) ->
     snd (thread_step limiter (Thread.Trying c) spurious) = Thread.Refused -> c = m) /\
  (holders (sys_threads s) < m ->
     exists limiter', thread_step limiter (snd (thread_step limiter Thread.Idle false)) false =
                      (limiter', Thread.Holding)).

Lemma limiter_inv_sound (m : Z) (s : System) : limiter_inv m s -> limiter_sound m s.
Proof.
  intros [H1 H2 H3 H4]. unfold limiter_sound. split_and!; [done|unfold holders; lia|done| |].
  - intros i c spurious Hi. specialize (H4 i c Hi). cbn [thread_step].
    destruct (Z.le_gt_cases (lim_max (sys_limiter s)) c) as [Hc|Hc]; [lia|].
    pose proof (lim_round_spec _ c spurious Hc) as Hr. destruct (lim_round _ _ _) as [l' t].
    destruct Hr as [_ Hr]. cbn [snd]. destruct (_ && _); by destruct Hr as [-> _].
  - intros Hroom. cbn [thread_step snd]. rewrite lim_load_spec. cbn [thread_step].
    pose proof (lim_round_spec (sys_limiter s) (lim_active (sys_limiter s)) false) as Hr.
    destruct (lim_round _ _ _) as [l' t]. rewrite Z.eqb_refl in Hr. destruct Hr as (_ & -> & _); [lia|]. by eexists.
Qed.

End interleavings.

Arguments System L : clear implicits.

(** ** Properties *)

Theorem limiter_bounds_connections (m : Z) (n : nat) (s : System ConnectionLimiter) :
  0 <= m <= u64_max -> limiter_reachable m n s -> limiter_sound m s.
Proof. intros Hm Hr. by eapply limiter_inv_sound, limiter_reachable_inv. Qed.

Theorem limiter_bounds_workers (m : Z) (n : nat) (s : System WorkerLimiter) :
  0 <= m <= u64_max -> limiter_reachable m n s -> limiter_sound m s.
Proof. intros Hm Hr. by eapply limiter_inv_sound, limiter_reachable_inv. Qed.

(** Two threads race for one permit: both read zero, one wins. *)
Lemma connections_race : limiter_reachable 1 2 (mkSystem (mkConnectionLimiter 1 1) [Thread.Holding; Thread.Trying 1]).
Proof.
  eapply limiter_next; [eapply limiter_next; [eapply limiter_next; [eapply limiter_next; [eapply (limiter_start 1 2); reflexivity|]|]|]|].
  - eapply (limiter_step_thread _ _ 0 _ false); reflexivity.
  - eapply (limiter_step_thread _ _ 1 _ false); reflexivity.
  - eapply (limiter_step_thread _ _ 0 _ false); reflexivity.
  - apply (limiter_step_thread (mkConnectionLimiter 1 1) [Thread.Holding; Thread.Trying 0] 1
      (Thread.Trying 0) false (mkConnectionLimiter 1 1) (Thread.Trying 1)); reflexivity.
Qed.

(** A spurious failure of the exchange does not leak a permit. *)
Lemma workers_race : limiter_reachable 2 2 (mkSystem (mkWorkerLimiter 2 1) [Thread.Holding; Thread.Trying 1]).
Proof.
  eapply limiter_next; [eapply limiter_next; [eapply limiter_next; [eapply limiter_next; [eapply (limiter_start 2 2); reflexivity|]|]|]|].
  - eapply (limiter_step_thread _ _ 0 _ false); reflexivity.
  - eapply (limiter_step_thread _ _ 0 _ true); reflexivity.
  - eapply (limiter_step_thread _ _ 0 _ false); reflexivity.
  - apply (limiter_step_thread (mkWorkerLimiter 2 1) [Thread.Holding; Thread.Idle] 1
      Thread.Idle false (mkWorkerLimiter 2 1) (Thread.Trying 1)); reflexivity.
Qed.

(** [C28] The limits on connections and on worker threads hold under every interleaving: in
    each reachable state the atomic counter is exactly the number of live permits and
    never exceeds the limit (so releasing never underflows); a thread is refused only
    when the counter it read was at the limit; and whenever there is room, a thread
    that runs undisturbed gets a permit. *)
Theorem limiters_bound_their_threads (m : Z) (n : nat) :
  0 <= m <= u64_max ->
  (forall s : System ConnectionLimiter, limiter_reachable m n s -> limiter_sound m s) /\
  (forall s : System WorkerLimiter, limiter_reachable m n s -> limiter_sound m s).
Proof. intros Hm. split; intros s; [by apply limiter_bounds_connections|by apply limiter_bounds_workers]. Qed.

Lemma limiters_bound_their_threads_witness :
  let s := mkSystem (mkConnectionLimiter 1 1) [Thread.Holding; Thread.Trying 1] in
  let w := mkSystem (mkWorkerLimiter 2 1) [Thread.Holding; Thread.Trying 1] in
  cl_active (sys_limiter s) = 1 /\ holders (sys_threads s) <= 1 /\
  snd (thread_step (sys_limiter s) (Thread.Trying 1) false) = Thread.Refused /\
  wl_active (sys_limiter w) = 1 /\ holders (sys_threads w) <= 2 /\
  snd (thread_step (sys_limiter w) (Thread.Trying 1) false) = Thread.Holding.
Proof.
  intros s w.
  destruct (proj1 (limiters_bound_their_threads 1 2 ltac:(unfold u64_max; lia)) s connections_race) as (_ & Hs & _).
  destruct (proj2 (limiters_bound_their_threads 2 2 ltac:(unfold u64_max; lia)) w workers_race) as (_ & Hw & _).
  split; [reflexivity|]. split; [apply Hs|]. split; [reflexivity|].
  split; [reflexivity|]. split; [apply Hw|reflexivity].
Defined.
