(* ===== verification/Tcp.v ===== *)
(** * The transparent TCP relay ([crates/foxprox-net/src/lib.rs])

    The per-socket state machine of the TUN frontend: accept a flow of the
    [smoltcp] socket, judge it, inspect its first bytes on the HTTP and TLS
    ports, connect through the egress adapter, and bridge bytes both ways.  The
    audit buffer is owned by the loop and threaded through; the [smoltcp] stack
    is the environment. *)

From S2P Require Import Prelude Text NetAddr Event Policy Flow Dns Inspection AuditLog.
From S2P Require Import Config Effects AuditIo Egress.

Record TcpProofConfig : Type := mkTcpProofConfig {
  tp_sandbox_id : SandboxId;
  tp_broker_ip : Z;
  tp_prefix_len : Z;
  tp_mtu : Z;
  tp_tcp_port : Z;
  tp_connect_timeout : Duration;
  tp_pending_buffer_limit : Z;
  tp_idle_timeout : Duration;
  tp_policy : PolicyRuleSet;
  tp_audit_queue_capacity : Z;
  tp_tcp_egress_override : option SocketAddr
}.

Definition tcp_proof_config_new (sandbox_id : SandboxId) : TcpProofConfig :=
  mkTcpProofConfig sandbox_id (ipv4_new 10 255 0 1) 24 1500 80 (from_secs 5) (256 * 1024) (from_secs 30)
    policy_rule_set_default 8192 None.

(** ** Audit *)

Definition emit_raw_audit (audit : AuditBuffer) (event : AuditEvent) : AuditIO unit := record_event event audit.

Definition host_header_attribution (host : Hostname) : Attribution :=
  mkAttribution (Some host) AttributionSource.HttpHostHeader AttributionConfidence.High.

(** Attribution of a ClientHello: its SNI, else the DNS cache, else none. *)
Definition tls_event_attribution (sni dns_hostname : option Hostname) : Attribution :=
  match sni, dns_hostname with
  | Some sni, _ => mkAttribution (Some sni) AttributionSource.TlsSni AttributionConfidence.High
  | None, Some dns_hostname =>
      mkAttribution (Some dns_hostname) AttributionSource.DnsCache AttributionConfidence.Medium
  | None, None => attribution_ip_only
  end.

Definition egress_attribution (event : NetworkEvent) : Attribution :=
  match event with
  | NetworkEvent.TcpConnectAttempt _ _ _ _ attribution => attribution
  | NetworkEvent.HttpRequest _ _ _ origin _ => host_header_attribution (or_host origin)
  | NetworkEvent.TlsClientHello _ _ _ sni _ dns_hostname _ => tls_event_attribution sni dns_hostname
  | _ => attribution_ip_only
  end.

Definition egress_context (sandbox_id : SandboxId) (event : NetworkEvent) (decision : Decision) : EgressContext :=
  mkEgressContext sandbox_id Frontend.Tun decision (egress_attribution event).

Definition transparent_tcp_audit_kind (event : NetworkEvent) (decision : Decision) : AuditEventKind :=
  match d_reason decision with
  | Some DenialReason.SniDnsMismatch => AuditEventKind.SniDnsMismatchDenied
  | Some DenialReason.HiddenSni => AuditEventKind.HiddenSniDenied
  | _ =>
      match event with
      | NetworkEvent.TcpConnectAttempt _ _ _ _ _ => AuditEventKind.TcpConnect
      | NetworkEvent.HttpRequest _ _ _ _ _ => AuditEventKind.TransparentHttpRequest
      | NetworkEvent.TlsClientHello _ _ _ _ _ _ _ => AuditEventKind.TlsClientHello
      | _ => AuditEventKind.UnsupportedDenied
      end
  end.

Definition transparent_tcp_audit_event (now : SystemTime) (event : NetworkEvent) (decision : Decision) : AuditEvent :=
  let audit := with_decision
    (audit_event_new now Frontend.Tun (transparent_tcp_audit_kind event decision)) decision in
  let audit := match event_sandbox_id event with
               | Some sandbox_id => with_sandbox_id audit sandbox_id
               | None => audit
               end in
  let audit := set_ae_protocol (Some (event_protocol event)) audit in
  match event with
  | NetworkEvent.TcpConnectAttempt _ _ source destination attribution =>
      set_ae_hostname (at_hostname attribution)
        (set_ae_attribution (Some attribution) (with_endpoints audit source (Some destination)))
  | NetworkEvent.HttpRequest _ _ method origin path_and_query =>
      set_ae_http (Some origin) (Some method) (Some path_and_query)
        (set_ae_attribution (Some (host_header_attribution (or_host origin)))
          (set_ae_destination_port (Some (or_port origin)) (set_ae_hostname (Some (or_host origin)) audit)))
  | NetworkEvent.TlsClientHello _ _ destination sni _ dns_hostname _ =>
      let audit := with_endpoints audit None (Some destination) in
      let attribution := tls_event_attribution sni dns_hostname in
      let audit := match at_hostname attribution with
                   | Some hostname => set_ae_hostname (Some hostname) audit
                   | None => audit
                   end in
      set_ae_attribution (Some attribution) audit
  | NetworkEvent.Unsupported _ _ reason => set_ae_detail (Some (debug_unsupported_reason reason)) audit
  | _ => audit
  end.

Definition emit_tcp_audit (audit : AuditBuffer) (event : NetworkEvent) (decision : Decision) : AuditIO unit :=
  let* time := now in
  record_event (transparent_tcp_audit_event time event decision) audit.

Definition emit_tcp_unsupported_audit (audit : AuditBuffer) (sandbox_id : SandboxId) (detail : str) : AuditIO unit :=
  let event := NetworkEvent.Unsupported (Some sandbox_id) Frontend.Tun (UnsupportedReason.Malformed detail) in
  let decision := evaluate policy_rule_set_default event in
  emit_tcp_audit audit event decision.

Definition emit_tcp_lifecycle_audit (audit : AuditBuffer) (config : TcpProofConfig) (kind : AuditEventKind)
  : AuditIO unit :=
  let* time := now in
  let event := with_sandbox_id (audit_event_new time Frontend.Tun kind) (tp_sandbox_id config) in
  let event := set_ae_protocol (Some Protocol.Tcp) event in
  let event := set_ae_destination (Some (mkEndpoint (V4 (tp_broker_ip config)) (tp_tcp_port config))) event in
  let event := set_ae_detail (Some
    (lit "tcp_port=" ++ dec (tp_tcp_port config) ++ lit " broker_ip=" ++ ipv4_display (tp_broker_ip config)
     ++ lit " mtu=" ++ dec (tp_mtu config) ++ lit " prefix_len=" ++ dec (tp_prefix_len config))) event in
  emit_raw_audit audit event.

(** ** Flows *)

(** A flow whose first bytes are being read: [InspectingHttpFlow] and
    [InspectingTlsFlow] have the same fields. *)
Record InspectingFlow : Type := mkInspectingFlow {
  if_source : TransportEndpoint;
  if_destination : SocketAddr;
  if_pending_to_host : list byte;
  if_started_at : Z;
  if_last_activity : Z
}.

Record ConnectingFlow : Type := mkConnectingFlow {
  cf_source : TransportEndpoint;
  cf_requested_destination : SocketAddr;
  cf_host_destination : SocketAddr;
  cf_receiver : Z;
  cf_pending_to_host : list byte;
  cf_started_at : Z;
  cf_last_activity : Z
}.

Record ActiveFlow : Type := mkActiveFlow {
  af_source : TransportEndpoint;
  af_destination : SocketAddr;
  af_host : Z;
  af_pending_to_host : list byte;
  af_pending_to_sandbox : list byte;
  af_host_eof : bool;
  af_host_write_shutdown : bool;
  af_bytes_to_host : Z;
  af_bytes_to_sandbox : Z;
  af_started_at : Z;
  af_last_activity : Z
}.

Module FlowState.
Inductive FlowState : Type :=
| InspectingHttp (flow : InspectingFlow)
| InspectingTls (flow : InspectingFlow)
| Connecting (flow : ConnectingFlow)
| Active (flow : ActiveFlow).
End FlowState.
Abbreviation FlowState := FlowState.FlowState.

(** [t.elapsed()], which saturates at zero. *)
Definition elapsed (t now : Z) : Duration := Z.max 0 (now - t).

(** [t.elapsed() > timeout]. *)
Definition elapsed_over (t : Z) (timeout : Duration) : Prog Host bool :=
  let* now := instant_now in
  Ret (timeout <? elapsed t now).

Definition emit_tcp_flow_closed_audit (audit : AuditBuffer) (sandbox_id : SandboxId) (active : ActiveFlow)
  : AuditIO unit :=
  let* time := now in
  let event := with_sandbox_id (audit_event_new time Frontend.Tun AuditEventKind.TcpFlowClosed) sandbox_id in
  let event := with_endpoints event (Some (af_source active)) (Some (endpoint_of_socket_addr (af_destination active))) in
  let event := set_ae_protocol (Some Protocol.Tcp) event in
  let event := set_ae_bytes (af_bytes_to_host active) (af_bytes_to_sandbox active) event in
  let* instant := instant_now in
  let event := set_ae_flow_duration (Some (elapsed (af_started_at active) instant)) event in
  record_event event audit.

(** ** Moving bytes *)

(** [[0_u8; 8192]]. *)
Definition CHUNK_LEN : nat := Z.to_nat 8192.

Definition smol_error (what detail : str) : IoError := mkIoError IoErrorKind.Other (what ++ detail).

(** Every round adds a byte to [pending] or ends the loop. *)
Fixpoint recv_socket_to_vec_loop (fuel : nat) (socket : Z) (limit : nat) (pending : list byte) (last_activity : Z)
  : IO (list byte * Z) :=
  match fuel with
  | O => Ret OutOfFuel
  | S fuel =>
      let* can_recv := sock_can_recv socket in
      if negb (can_recv && (length pending <? limit)%nat) then Ret (Ok (pending, last_activity))
      else
        let! chunk := prog_map_err (smol_error (lit "smoltcp recv failed: ")) (sock_recv_slice socket CHUNK_LEN) in
        let read_len := length chunk in
        if (read_len =? 0)%nat then Ret (Ok (pending, last_activity))
        else
          let remaining := (limit - length pending)%nat in
          let copy_len := Nat.min read_len remaining in
          let pending := pending ++ take copy_len chunk in
          let* last_activity := instant_now in
          if (copy_len <? read_len)%nat then
            Ret (Err (mkIoError IoErrorKind.Other (lit "pending buffer limit exceeded")))
          else recv_socket_to_vec_loop fuel socket limit pending last_activity
  end.

Definition recv_socket_to_vec (socket : Z) (pending : list byte) (limit : nat) (last_activity : Z)
  : IO (list byte * Z) :=
  recv_socket_to_vec_loop (S (limit - length pending)) socket limit pending last_activity.

Definition set_to_host (pending : list byte) (last_activity : Z) (self : ActiveFlow) : ActiveFlow :=
  mkActiveFlow (af_source self) (af_destination self) (af_host self) pending (af_pending_to_sandbox self)
    (af_host_eof self) (af_host_write_shutdown self) (af_bytes_to_host self) (af_bytes_to_sandbox self)
    (af_started_at self) last_activity.

Definition set_to_sandbox (pending : list byte) (eof : bool) (last_activity : Z) (self : ActiveFlow) : ActiveFlow :=
  mkActiveFlow (af_source self) (af_destination self) (af_host self) (af_pending_to_host self) pending
    eof (af_host_write_shutdown self) (af_bytes_to_host self) (af_bytes_to_sandbox self)
    (af_started_at self) last_activity.

Definition set_write_shutdown (self : ActiveFlow) : ActiveFlow :=
  mkActiveFlow (af_source self) (af_destination self) (af_host self) (af_pending_to_host self)
    (af_pending_to_sandbox self) (af_host_eof self) true (af_bytes_to_host self) (af_bytes_to_sandbox self)
    (af_started_at self) (af_last_activity self).

(** [self.bytes += n as u64], wrapping. *)
Definition u64_count (a : Z) (n : nat) : Z := (a + Z.of_nat n) mod 2 ^ 64.

Definition wrote_to_host (n : nat) (now : Z) (self : ActiveFlow) : ActiveFlow :=
  mkActiveFlow (af_source self) (af_destination self) (af_host self) (drop n (af_pending_to_host self))
    (af_pending_to_sandbox self) (af_host_eof self) (af_host_write_shutdown self)
    (u64_count (af_bytes_to_host self) n) (af_bytes_to_sandbox self) (af_started_at self) now.

Definition wrote_to_sandbox (n : nat) (now : Z) (self : ActiveFlow) : ActiveFlow :=
  mkActiveFlow (af_source self) (af_destination self) (af_host self) (af_pending_to_host self)
    (drop n (af_pending_to_sandbox self)) (af_host_eof self) (af_host_write_shutdown self)
    (af_bytes_to_host self) (u64_count (af_bytes_to_sandbox self) n) (af_started_at self) now.

Fixpoint flush_to_host_loop (fuel : nat) (self : ActiveFlow) : IO ActiveFlow :=
  match fuel with
  | O => Ret OutOfFuel
  | S fuel =>
      if bool_decide (af_pending_to_host self = []) then Ret (Ok self)
      else
        let* r := tcp_write (af_host self) (af_pending_to_host self) in
        match r with
        | Ok 0%nat => Ret (Ok self)
        | Ok written =>
            let* now := instant_now in
            flush_to_host_loop fuel (wrote_to_host written now self)
        | Err error =>
            if bool_decide (io_kind error = IoErrorKind.WouldBlock) then Ret (Ok self) else Ret (Err error)
        | Panic => Ret Panic
        | OutOfFuel => Ret OutOfFuel
        end
  end.

Definition flush_to_host (self : ActiveFlow) : IO ActiveFlow :=
  flush_to_host_loop (S (length (af_pending_to_host self))) self.

Fixpoint read_from_host_loop (fuel : nat) (limit : nat) (self : ActiveFlow) : IO ActiveFlow :=
  match fuel with
  | O => Ret OutOfFuel
  | S fuel =>
      if negb (length (af_pending_to_sandbox self) <? limit)%nat then Ret (Ok self)
      else
        let* r := tcp_read (af_host self) CHUNK_LEN in
        match r with
        | Ok [] => Ret (Ok (set_to_sandbox (af_pending_to_sandbox self) true (af_last_activity self) self))
        | Ok chunk =>
            let* now := instant_now in
            read_from_host_loop fuel limit
              (set_to_sandbox (af_pending_to_sandbox self ++ chunk) (af_host_eof self) now self)
        | Err error =>
            if bool_decide (io_kind error = IoErrorKind.WouldBlock) then Ret (Ok self) else Ret (Err error)
        | Panic => Ret Panic
        | OutOfFuel => Ret OutOfFuel
        end
  end.

Definition read_from_host (limit : nat) (self : ActiveFlow) : IO ActiveFlow :=
  read_from_host_loop (S (limit - length (af_pending_to_sandbox self))) limit self.

Fixpoint flush_to_sandbox_loop (fuel : nat) (socket : Z) (self : ActiveFlow) : IO ActiveFlow :=
  match fuel with
  | O => Ret OutOfFuel
  | S fuel =>
      if bool_decide (af_pending_to_sandbox self = []) then Ret (Ok self)
      else
        let* can_send := sock_can_send socket in
        if negb can_send then Ret (Ok self)
        else
          let! written := prog_map_err (smol_error (lit "smoltcp send failed: "))
                            (sock_send_slice socket (af_pending_to_sandbox self)) in
          if (written =? 0)%nat then Ret (Ok self)
          else
            let* now := instant_now in
            flush_to_sandbox_loop fuel socket (wrote_to_sandbox written now self)
  end.

Definition flush_to_sandbox (socket : Z) (self : ActiveFlow) : IO ActiveFlow :=
  flush_to_sandbox_loop (S (length (af_pending_to_sandbox self))) socket self.

Definition recv_from_sandbox (socket : Z) (limit : nat) (self : ActiveFlow) : IO ActiveFlow :=
  let! (pending, last) := recv_socket_to_vec socket (af_pending_to_host self) limit (af_last_activity self) in
  flush_to_host (set_to_host pending last self).

(** [if !socket.may_recv() && pending.is_empty() && !shut { shutdown }]. *)
Definition shutdown_host_write (socket : Z) (self : ActiveFlow) : IO ActiveFlow :=
  let* may_recv := sock_may_recv socket in
  if negb may_recv && bool_decide (af_pending_to_host self = []) && negb (af_host_write_shutdown self) then
    let! _ := tcp_shutdown (af_host self) ShutdownWrite in
    Ret (Ok (set_write_shutdown self))
  else Ret (Ok self).

Definition active_pump (socket : Z) (limit : nat) (self : ActiveFlow) : IO ActiveFlow :=
  let! self := flush_to_host self in
  let! self := recv_from_sandbox socket limit self in
  let! self := shutdown_host_write socket self in
  let! self := read_from_host limit self in
  let! self := flush_to_sandbox socket self in
  if af_host_eof self && bool_decide (af_pending_to_sandbox self = []) then
    let* _ := sock_close socket in
    Ret (Ok self)
  else Ret (Ok self).

Definition active_new (source : TransportEndpoint) (destination : SocketAddr) (host : Z) (pending : list byte)
  : Prog Host ActiveFlow :=
  let* now := instant_now in
  Ret (mkActiveFlow source destination host pending [] false false 0 0 now now).

(** ** Connecting *)

(** The worker thread's program. *)
Definition connect_worker (request : TcpEgressRequest) : IO Z :=
  prog_map_err egress_error_to_io (connect_tcp_nonblocking request).

Definition connecting_new_with_egress (source : TransportEndpoint) (requested_destination host_destination : SocketAddr)
  (context : EgressContext) (timeout : Duration) (pending_to_host : list byte) : Prog Host ConnectingFlow :=
  let* receiver := spawn_connect (mkTcpEgressRequest context (Some source)
                                    (endpoint_of_socket_addr host_destination) (Some timeout)) in
  let* now := instant_now in
  Ret (mkConnectingFlow source requested_destination host_destination receiver pending_to_host now now).

Definition connecting_new_with_pending (source : TransportEndpoint) (destination : SocketAddr)
  (context : EgressContext) (timeout : Duration) (pending_to_host : list byte) : Prog Host ConnectingFlow :=
  connecting_new_with_egress source destination destination context timeout pending_to_host.

Definition connecting_new (source : TransportEndpoint) (destination : SocketAddr) (context : EgressContext)
  (timeout : Duration) : Prog Host ConnectingFlow :=
  connecting_new_with_pending source destination context timeout [].

Definition connecting_pump (socket : Z) (limit : nat) (self : ConnectingFlow) : IO ConnectingFlow :=
  let! (pending, last) := recv_socket_to_vec socket (cf_pending_to_host self) limit (cf_last_activity self) in
  Ret (Ok (mkConnectingFlow (cf_source self) (cf_requested_destination self) (cf_host_destination self)
             (cf_receiver self) pending (cf_started_at self) last)).

Definition connecting_try_finish (self : ConnectingFlow) : IO (option ActiveFlow) :=
  let* r := try_recv_connect (cf_receiver self) in
  match r with
  | Ok (Ok stream) =>
      let* _ := eprintln in
      let* active := active_new (cf_source self) (cf_requested_destination self) stream (cf_pending_to_host self) in
      Ret (Ok (Some active))
  | Ok (Err error) => Ret (Err error)
  | Ok Panic => Ret Panic
  | Ok OutOfFuel => Ret OutOfFuel
  | Err TryRecvEmpty => Ret (Ok None)
  | Err TryRecvDisconnected => Ret (Err (mkIoError IoErrorKind.Other (lit "host connector worker ended")))
  | Panic => Ret Panic
  | OutOfFuel => Ret OutOfFuel
  end.

Definition connecting_is_expired (self : ConnectingFlow) (timeout : Duration) : Prog Host bool :=
  elapsed_over (cf_started_at self) (timeout + from_secs 1).

(** ** Inspecting *)

Definition inspecting_new (source : TransportEndpoint) (destination : SocketAddr) : Prog Host InspectingFlow :=
  let* now := instant_now in
  Ret (mkInspectingFlow source destination [] now now).

Definition set_inspected (pending : list byte) (last : Z) (self : InspectingFlow) : InspectingFlow :=
  mkInspectingFlow (if_source self) (if_destination self) pending (if_started_at self) last.

(** The derived [Debug]. *)
Definition debug_inspection_error (e : InspectionError) : str :=
  match e with
  | InspectionError.Truncated => lit "Truncated"
  | InspectionError.Malformed d => lit "Malformed(" ++ debug_str d ++ lit ")"
  | InspectionError.Unsupported d => lit "Unsupported(" ++ debug_str d ++ lit ")"
  end.

(** What an inspecting flow becomes: still itself, or connecting. *)
Abbreviation Inspected := (InspectingFlow * option ConnectingFlow)%type.

(** The common end of both [pump]s: judge the event; when allowed, connect
    with the bytes read so far. *)
Definition judge_inspected (config : TcpProofConfig) (audit : AuditBuffer) (self : InspectingFlow)
  (event : NetworkEvent) (denied : str) : AuditIO Inspected :=
  let decision := evaluate (tp_policy config) event in
  let* _ := eprintln in
  audit_try (emit_tcp_audit audit event decision) (fun audit _ =>
  if negb (is_allowed decision) then Ret (audit, Err (mkIoError IoErrorKind.Other denied))
  else
    let* connecting := connecting_new_with_pending (if_source self) (if_destination self)
      (egress_context (tp_sandbox_id config) event decision) (tp_connect_timeout config) (if_pending_to_host self) in
    Ret (audit, Ok (self, Some connecting))).

Definition unsupported_detail (what : str) (self : InspectingFlow) (error : InspectionError) : str :=
  what ++ lit " source=" ++ display_endpoint (if_source self) ++ lit " destination="
  ++ socket_addr_display (if_destination self) ++ lit " error=" ++ debug_inspection_error error.

(** Record bytes that are not the expected protocol, then fail. *)
Definition reject_inspected (config : TcpProofConfig) (audit : AuditBuffer) (self : InspectingFlow)
  (what : str) (error : InspectionError) : AuditIO Inspected :=
  audit_try (emit_tcp_unsupported_audit audit (tp_sandbox_id config) (unsupported_detail what self error))
    (fun audit _ =>
  Ret (audit, Err (mkIoError IoErrorKind.Other (what ++ lit ": " ++ debug_inspection_error error)))).

Definition http_pump (config : TcpProofConfig) (socket : Z) (audit : AuditBuffer) (self : InspectingFlow)
  : AuditIO Inspected :=
  audit_try (keep_audit audit (recv_socket_to_vec socket (if_pending_to_host self)
               (Z.to_nat (tp_pending_buffer_limit config)) (if_last_activity self))) (fun audit '(pending, last) =>
  let self := set_inspected pending last self in
  match parse_http_request_head (if_pending_to_host self) (sa_port (if_destination self)) with
  | Ok inspection =>
      judge_inspected config audit self
        (NetworkEvent.HttpRequest (tp_sandbox_id config) Frontend.Tun (hi_method inspection)
           (hi_origin inspection) (hi_path_and_query inspection))
        (lit "transparent HTTP policy denied request")
  | Err InspectionError.Truncated => Ret (audit, Ok (self, None))
  | Err error => reject_inspected config audit self (lit "malformed or unsupported HTTP request head") error
  | Panic => Ret (audit, Panic)
  | OutOfFuel => Ret (audit, OutOfFuel)
  end).

(** [TransparentTcpState.flow]. *)
Abbreviation TransparentTcpState := (option FlowState).

(** What one step of a flow leaves: the flow, the audit buffer, and an error
    that ends the runtime. *)
Abbreviation Stepped := (TransparentTcpState * AuditBuffer * Result unit IoError)%type.

Section relay.
Context `{!IterOrder (SandboxId * Hostname) DnsCacheEntry}.

(** [cache.lookup_address(..)] on the optional cache of the runtime. *)
Definition cached_entry (config : TcpProofConfig) (dns_cache : option DnsCache) (ip : IpAddr) (now : SystemTime)
  : option DnsCacheEntry :=
  match dns_cache with
  | Some cache => lookup_address cache (tp_sandbox_id config) ip now
  | None => None
  end.

Definition tcp_attribution_for_destination (config : TcpProofConfig) (dns_cache : option DnsCache)
  (ip : IpAddr) (now : SystemTime) : Attribution :=
  match cached_entry config dns_cache ip now with
  | Some entry => cache_entry_attribution entry
  | None => attribution_ip_only
  end.

(** [cache.and_then(|c| c.lookup_address(.., SystemTime::now()))]: the clock is
    read only when there is a cache. *)
Definition tls_dns_hostname (config : TcpProofConfig) (dns_cache : option DnsCache) (ip : IpAddr)
  : Prog Host (option Hostname) :=
  match dns_cache with
  | Some cache =>
      let* time := now in
      Ret (ce_hostname <$> lookup_address cache (tp_sandbox_id config) ip time)
  | None => Ret None
  end.

Definition names_differ (sni dns_hostname : option Hostname) : bool :=
  match sni, dns_hostname with
  | Some sni, Some dns_hostname => negb (bool_decide (sni = dns_hostname))
  | _, _ => false
  end.

Definition tls_pump (config : TcpProofConfig) (socket : Z) (dns_cache : option DnsCache) (audit : AuditBuffer)
  (self : InspectingFlow) : AuditIO Inspected :=
  audit_try (keep_audit audit (recv_socket_to_vec socket (if_pending_to_host self)
               (Z.to_nat (tp_pending_buffer_limit config)) (if_last_activity self))) (fun audit '(pending, last) =>
  let self := set_inspected pending last self in
  match parse_tls_client_hello (if_pending_to_host self) with
  | Ok inspection =>
      let* dns_hostname := tls_dns_hostname config dns_cache (sa_ip (if_destination self)) in
      judge_inspected config audit self
        (NetworkEvent.TlsClientHello (tp_sandbox_id config) Frontend.Tun
           (endpoint_of_socket_addr (if_destination self)) (ti_sni inspection) (ti_ech_present inspection)
           dns_hostname (names_differ (ti_sni inspection) dns_hostname))
        (lit "transparent TLS policy denied ClientHello")
  | Err InspectionError.Truncated => Ret (audit, Ok (self, None))
  | Err error => reject_inspected config audit self (lit "malformed or unsupported TLS ClientHello") error
  | Panic => Ret (audit, Panic)
  | OutOfFuel => Ret (audit, OutOfFuel)
  end).

(** ** The state machine *)

Definition transparent_tcp_state_new : TransparentTcpState := None.

Definition should_inspect_http (port : Z) : bool := port =? 80.
Definition should_inspect_tls (port : Z) : bool := port =? 443.

Definition endpoint_to_socket_addr (e : SmolEndpoint) : SocketAddr := mkSocketAddr (V4 (se_addr e)) (se_port e).
Definition endpoint_to_transport (e : SmolEndpoint) : TransportEndpoint := mkEndpoint (V4 (se_addr e)) (se_port e).

(** [if flow.is_none() && !socket.is_open() { listen }]. *)
Definition ensure_listening (socket : Z) (config : TcpProofConfig) (flow : TransparentTcpState) : IO unit :=
  match flow with
  | Some _ => Ret (Ok tt)
  | None =>
      let* is_open := sock_is_open socket in
      if is_open : bool then Ret (Ok tt)
      else
        let! _ := prog_map_err (smol_error (lit "listen failed: ")) (sock_listen socket (tp_tcp_port config)) in
        let* _ := eprintln in
        Ret (Ok tt)
  end.

(** The state an allowed flow starts in. *)
Definition start_flow (config : TcpProofConfig) (source : TransportEndpoint) (destination : SocketAddr)
  (event : NetworkEvent) (decision : Decision) : Prog Host FlowState :=
  let context := egress_context (tp_sandbox_id config) event decision in
  match tp_tcp_egress_override config with
  | Some override_destination =>
      let* flow := connecting_new_with_egress source destination override_destination context
                     (tp_connect_timeout config) [] in
      Ret (FlowState.Connecting flow)
  | None =>
      if should_inspect_http (sa_port destination) then
        let* flow := inspecting_new source destination in Ret (FlowState.InspectingHttp flow)
      else if should_inspect_tls (sa_port destination) then
        let* flow := inspecting_new source destination in Ret (FlowState.InspectingTls flow)
      else
        let* flow := connecting_new source destination context (tp_connect_timeout config) in
        Ret (FlowState.Connecting flow)
  end.

(** [if flow.is_none() && socket.is_active() { .. }]: judge a new flow. *)
Definition accept_flow (socket : Z) (config : TcpProofConfig) (dns_cache : option DnsCache)
  (flow : TransparentTcpState) (audit : AuditBuffer) : Prog Host (TransparentTcpState * AuditBuffer) :=
  match flow with
  | Some flow => Ret (Some flow, audit)
  | None =>
      let* is_active := sock_is_active socket in
      if negb is_active then Ret (None, audit)
      else
        let* local := sock_local_endpoint socket in
        let* remote := sock_remote_endpoint socket in
        match local, remote with
        | Some local, Some remote =>
            let destination := endpoint_to_socket_addr local in
            let source := endpoint_to_transport remote in
            let* _ := eprintln in
            let* time := now in
            let event := NetworkEvent.TcpConnectAttempt (tp_sandbox_id config) Frontend.Tun (Some source)
              (endpoint_of_socket_addr destination)
              (tcp_attribution_for_destination config dns_cache (sa_ip destination) time) in
            let decision := evaluate (tp_policy config) event in
            let* _ := eprintln in
            let* (audit, r) := emit_tcp_audit audit event decision in
            match r with
            | Ok _ =>
                if is_allowed decision then
                  let* flow := start_flow config source destination event decision in
                  Ret (Some flow, audit)
                else
                  let* _ := sock_abort socket in
                  Ret (None, audit)
            | _ =>
                let* _ := eprintln in
                let* _ := sock_abort socket in
                Ret (None, audit)
            end
        | _, _ => Ret (None, audit)
        end
  end.

Definition abort_flow (socket : Z) (audit : AuditBuffer) : Prog Host Stepped :=
  let* _ := eprintln in
  let* _ := sock_abort socket in
  Ret (None, audit, Ok tt).

(** [wrap] is the state the flow is in. *)
Definition step_inspecting (socket : Z) (config : TcpProofConfig) (wrap : InspectingFlow -> FlowState)
  (pump : AuditIO Inspected) : Prog Host Stepped :=
  let* (audit, r) := pump in
  match r with
  | Ok (_, Some connecting) => Ret (Some (FlowState.Connecting connecting), audit, Ok tt)
  | Ok (flow, None) =>
      let* expired := elapsed_over (if_started_at flow) (tp_connect_timeout config) in
      let* gone := (if expired : bool then Ret true
                    else let* is_active := sock_is_active socket in Ret (negb is_active)) in
      if gone : bool then abort_flow socket audit else Ret (Some (wrap flow), audit, Ok tt)
  | Err _ => abort_flow socket audit
  | Panic => Ret (None, audit, Panic)
  | OutOfFuel => Ret (None, audit, OutOfFuel)
  end.

Definition step_connecting (socket : Z) (config : TcpProofConfig) (audit : AuditBuffer) (flow : ConnectingFlow)
  : Prog Host Stepped :=
  let* r := (let! flow := connecting_pump socket (Z.to_nat (tp_pending_buffer_limit config)) flow in
             let! connected := connecting_try_finish flow in
             Ret (Ok (flow, connected))) in
  match r with
  | Ok (_, Some active) => Ret (Some (FlowState.Active active), audit, Ok tt)
  | Ok (flow, None) =>
      let* is_active := sock_is_active socket in
      let* gone := (if negb is_active then Ret true else connecting_is_expired flow (tp_connect_timeout config)) in
      if gone : bool then abort_flow socket audit
      else Ret (Some (FlowState.Connecting flow), audit, Ok tt)
  | Err _ => abort_flow socket audit
  | Panic => Ret (None, audit, Panic)
  | OutOfFuel => Ret (None, audit, OutOfFuel)
  end.

Definition step_active (socket : Z) (config : TcpProofConfig) (audit : AuditBuffer) (flow : ActiveFlow)
  : Prog Host Stepped :=
  let* r := active_pump socket (Z.to_nat (tp_pending_buffer_limit config)) flow in
  match r with
  | Ok flow =>
      let* idle := elapsed_over (af_last_activity flow) (tp_idle_timeout config) in
      if idle : bool then abort_flow socket audit
      else
        let* is_active := sock_is_active socket in
        if negb is_active && bool_decide (af_pending_to_host flow = [])
           && bool_decide (af_pending_to_sandbox flow = []) then
          let* (audit, r) := emit_tcp_flow_closed_audit audit (tp_sandbox_id config) flow in
          match r with
          | Ok _ => let* _ := eprintln in Ret (None, audit, Ok tt)
          | r => Ret (Some (FlowState.Active flow), audit, r)
          end
        else Ret (Some (FlowState.Active flow), audit, Ok tt)
  | Err _ => abort_flow socket audit
  | Panic => Ret (None, audit, Panic)
  | OutOfFuel => Ret (None, audit, OutOfFuel)
  end.

Definition step_flow (socket : Z) (config : TcpProofConfig) (dns_cache : option DnsCache) (audit : AuditBuffer)
  (flow : TransparentTcpState) : Prog Host Stepped :=
  match flow with
  | None => Ret (None, audit, Ok tt)
  | Some (FlowState.InspectingHttp flow) =>
      step_inspecting socket config FlowState.InspectingHttp (http_pump config socket audit flow)
  | Some (FlowState.InspectingTls flow) =>
      step_inspecting socket config FlowState.InspectingTls (tls_pump config socket dns_cache audit flow)
  | Some (FlowState.Connecting flow) => step_connecting socket config audit flow
  | Some (FlowState.Active flow) => step_active socket config audit flow
  end.

(** [TransparentTcpState::poll]. *)
Definition tcp_poll (flow : TransparentTcpState) (socket : Z) (config : TcpProofConfig) (audit : AuditBuffer)
  (dns_cache : option DnsCache) : Prog Host Stepped :=
  let* r := ensure_listening socket config flow in
  match r with
  | Ok _ =>
      let* (flow, audit) := accept_flow socket config dns_cache flow audit in
      step_flow socket config dns_cache audit flow
  | r => Ret (flow, audit, r)
  end.

(** The runtime's endless loop, [n] rounds of it; between two rounds the packet
    interface is polled, which is the environment's step. *)
Fixpoint tcp_polls (n : nat) (flow : TransparentTcpState) (socket : Z) (config : TcpProofConfig)
  (audit : AuditBuffer) (dns_cache : option DnsCache) : Prog Host Stepped :=
  match n with
  | O => Ret (flow, audit, Ok tt)
  | S n =>
      let* (flow, audit, r) := tcp_poll flow socket config audit dns_cache in
      match r with
      | Ok _ => tcp_polls n flow socket config audit dns_cache
      | r => Ret (flow, audit, r)
      end
  end.

(** Start-up after the packet interface is configured, then the loop. *)
Definition run_tcp_proof (n : nat) (socket : Z) (config : TcpProofConfig) (ready : IO unit) : IO unit :=
  let! audit := Ret (net_audit_buffer (tp_audit_queue_capacity config)) in
  let! _ := prog_map_err (smol_error (lit "listen failed: ")) (sock_listen socket (tp_tcp_port config)) in
  let* (_, r) :=
    audit_try (emit_tcp_lifecycle_audit audit config AuditEventKind.SessionStarted) (fun audit _ =>
    audit_try (emit_tcp_lifecycle_audit audit config AuditEventKind.BrokerStarted) (fun audit _ =>
    audit_try (emit_tcp_lifecycle_audit audit config AuditEventKind.TunConfigured) (fun audit _ =>
    let* _ := eprintln in
    audit_try (keep_audit audit ready) (fun audit _ =>
    let* (_, audit, r) := tcp_polls n transparent_tcp_state_new socket config audit None in
    Ret (audit, r))))) in
  Ret r.

End relay.

(** ** What a history shows *)

#[local] Arguments transparent_tcp_audit_event : simpl never.
#[local] Arguments audit_event_json_line : simpl never.

Definition accepts (socket : Z) (o : HostOp) : bool :=
  match o with HostOp.SockRemoteEndpoint s => s =? socket | _ => false end.

(** Operations that accept no flow of [socket]. *)
Definition same_flow (socket : Z) (o : HostOp) : bool := negb (accepts socket o).

(** The actions since the current flow of [socket] was accepted. *)
Definition flow_history (socket : Z) (h : list (Action Host)) : list (Action Host) :=
  fold_left (fun acc e => if accepts socket (projT1 e) then [] else acc ++ [e]) h [].

(** Bytes an action moves: read from the sandbox, written to the host, read
    from the host, written to the sandbox. *)
Definition from_sandbox (socket : Z) (e : Action Host) : list byte :=
  match e with
  | existT o r =>
      match o return host_answer o -> list byte with
      | HostOp.SockRecvSlice s _ => fun r =>
          if s =? socket then match r with Ok bs => bs | _ => [] end else []
      | _ => fun _ => []
      end r
  end.

Definition to_host (host : Z) (e : Action Host) : list byte :=
  match e with
  | existT o r =>
      match o return host_answer o -> list byte with
      | HostOp.TcpWrite s bytes => fun r =>
          if s =? host then match r with Ok n => take n bytes | _ => [] end else []
      | _ => fun _ => []
      end r
  end.

Definition from_host (host : Z) (e : Action Host) : list byte :=
  match e with
  | existT o r =>
      match o return host_answer o -> list byte with
      | HostOp.TcpRead s _ => fun r =>
          if s =? host then match r with Ok bs => bs | _ => [] end else []
      | _ => fun _ => []
      end r
  end.

Definition to_sandbox (socket : Z) (e : Action Host) : list byte :=
  match e with
  | existT o r =>
      match o return host_answer o -> list byte with
      | HostOp.SockSendSlice s bytes => fun r =>
          if s =? socket then match r with Ok n => take n bytes | _ => [] end else []
      | _ => fun _ => []
      end r
  end.

(** The bytes of the current flow of [socket]. *)
Definition stream (socket : Z) (f : Action Host -> list byte) (h : list (Action Host)) : list byte :=
  flat_map f (flow_history socket h).

Definition tcp_recorded (event : NetworkEvent) (decision : Decision) (h : list (Action Host)) : Prop :=
  exists now, happened (HostOp.StderrWriteAll
    (audit_event_json_line (transparent_tcp_audit_event now event decision))) (Ok tt) h.

(** ** Specification *)

(** [event] is allowed and its decision is in the audit log. *)
Definition tcp_allowed (config : TcpProofConfig) (event : NetworkEvent) (h : list (Action Host)) : Prop :=
  is_allowed (evaluate (tp_policy config) event) = true /\
  tcp_recorded event (evaluate (tp_policy config) event) h.

Definition connect_event (config : TcpProofConfig) (source : TransportEndpoint) (destination : SocketAddr)
  (attribution : Attribution) : NetworkEvent :=
  NetworkEvent.TcpConnectAttempt (tp_sandbox_id config) Frontend.Tun (Some source)
    (endpoint_of_socket_addr destination) attribution.

Definition http_event (config : TcpProofConfig) (i : HttpInspection) : NetworkEvent :=
  NetworkEvent.HttpRequest (tp_sandbox_id config) Frontend.Tun (hi_method i) (hi_origin i) (hi_path_and_query i).

Definition tls_event (config : TcpProofConfig) (destination : SocketAddr) (i : TlsClientHelloInspection)
  (dns_hostname : option Hostname) : NetworkEvent :=
  NetworkEvent.TlsClientHello (tp_sandbox_id config) Frontend.Tun (endpoint_of_socket_addr destination)
    (ti_sni i) (ti_ech_present i) dns_hostname (names_differ (ti_sni i) dns_hostname).

(** The event that decides a flow whose first bytes are [seen]: the request or
    ClientHello they hold on the inspected ports, else the connection itself. *)
Definition decides (config : TcpProofConfig) (source : TransportEndpoint) (destination : SocketAddr)
  (seen : list byte) (event : NetworkEvent) : Prop :=
  let plain := exists attribution, event = connect_event config source destination attribution in
  match tp_tcp_egress_override config with
  | Some _ => plain
  | None =>
      if sa_port destination =? 80 then
        exists i, parse_http_request_head seen (sa_port destination) = Ok i /\ event = http_event config i
      else if sa_port destination =? 443 then
        exists i dns_hostname, parse_tls_client_hello seen = Ok i /\ event = tls_event config destination i dns_hostname
      else plain
  end.

(** The current flow of [socket] comes from [source] and dialled [destination]: so the
    stack answered when the flow was accepted. *)
Definition dialled (socket : Z) (source : TransportEndpoint) (destination : SocketAddr)
  (h : list (Action Host)) : Prop :=
  exists before local remote, quiet (same_flow socket)
      ((before ++ [existT (HostOp.SockLocalEndpoint socket) (Some local) : Action Host])
         ++ [existT (HostOp.SockRemoteEndpoint socket) (Some remote) : Action Host]) h /\
    source = endpoint_to_transport remote /\ destination = endpoint_to_socket_addr local.

(** The connection was dialled and allowed. *)
Definition admitted (config : TcpProofConfig) (socket : Z) (source : TransportEndpoint) (destination : SocketAddr)
  (h : list (Action Host)) : Prop :=
  dialled socket source destination h /\
  exists attribution, tcp_allowed config (connect_event config source destination attribution) h.

(** And so was the event that decides the flow. *)
Definition cleared (config : TcpProofConfig) (socket : Z) (source : TransportEndpoint) (destination : SocketAddr)
  (event : NetworkEvent) (h : list (Action Host)) : Prop :=
  admitted config socket source destination h /\
  exists seen rest, stream socket (from_sandbox socket) h = seen ++ rest /\
    decides config source destination seen event /\ tcp_allowed config event h.

Definition host_destination (config : TcpProofConfig) (destination : SocketAddr) : SocketAddr :=
  default destination (tp_tcp_egress_override config).

Definition relay_permitted (config : TcpProofConfig) (socket : Z) (h : list (Action Host)) (o : HostOp) : Prop :=
  match o with
  | HostOp.SpawnConnect request => exists source destination event,
      cleared config socket source destination event h /\
      request = mkTcpEgressRequest
        (egress_context (tp_sandbox_id config) event (evaluate (tp_policy config) event)) (Some source)
        (endpoint_of_socket_addr (host_destination config destination)) (Some (tp_connect_timeout config))
  | HostOp.TcpWrite host bytes =>
      (exists source destination event, cleared config socket source destination event h) /\
      stream socket (to_host host) h ++ bytes = stream socket (from_sandbox socket) h
  | HostOp.SockSendSlice s bytes => s = socket /\
      (exists source destination event, cleared config socket source destination event h) /\
      exists host, stream socket (to_sandbox socket) h ++ bytes = stream socket (from_host host) h
  | HostOp.SockListen s port => s = socket /\ port = tp_tcp_port config
  | HostOp.SockRecvSlice s _ | HostOp.SockClose s | HostOp.SockAbort s | HostOp.SockIsOpen s
  | HostOp.SockIsActive s | HostOp.SockMayRecv s | HostOp.SockCanRecv s | HostOp.SockCanSend s
  | HostOp.SockLocalEndpoint s | HostOp.SockRemoteEndpoint s => s = socket
  | HostOp.TcpShutdown _ ShutdownWrite | HostOp.TcpRead _ _ | HostOp.TryRecvConnect _
  | HostOp.InstantNow => True
  | o => audit_op o = true
  end.

Definition buffer_limit (config : TcpProofConfig) : nat := Z.to_nat (tp_pending_buffer_limit config).

(** No byte of the flow was written, and none was read from a host. *)
Definition unforwarded (socket : Z) (h : list (Action Host)) : Prop :=
  stream socket (to_sandbox socket) h = [] /\
  forall host, stream socket (to_host host) h = [] /\ stream socket (from_host host) h = [].

Record gathering (config : TcpProofConfig) (socket : Z) (h : list (Action Host)) (pending : list byte) : Prop :=
  mkGathering {
    ga_fresh : unforwarded socket h;
    ga_pending : stream socket (from_sandbox socket) h = pending;
    ga_limit : (length pending <= buffer_limit config)%nat
  }.

Record relaying (config : TcpProofConfig) (socket : Z) (h : list (Action Host)) (a : ActiveFlow) : Prop :=
  mkRelaying {
    re_cleared : exists event, cleared config socket (af_source a) (af_destination a) event h;
    re_to_host : stream socket (to_host (af_host a)) h ++ af_pending_to_host a =
                 stream socket (from_sandbox socket) h;
    re_to_sandbox : stream socket (to_sandbox socket) h ++ af_pending_to_sandbox a =
                    stream socket (from_host (af_host a)) h;
    re_bytes_to_host : af_bytes_to_host a = Z.of_nat (length (stream socket (to_host (af_host a)) h)) mod 2 ^ 64;
    re_bytes_to_sandbox : af_bytes_to_sandbox a = Z.of_nat (length (stream socket (to_sandbox socket) h)) mod 2 ^ 64;
    re_host_limit : (length (af_pending_to_host a) <= buffer_limit config)%nat;
    re_sandbox_limit : (length (af_pending_to_sandbox a) < buffer_limit config + CHUNK_LEN)%nat
  }.

Definition relay_state (config : TcpProofConfig) (socket : Z) (h : list (Action Host)) (flow : option FlowState) : Prop :=
  match flow with
  | None => True
  | Some (FlowState.InspectingHttp f) =>
      tp_tcp_egress_override config = None /\ sa_port (if_destination f) = 80 /\
      admitted config socket (if_source f) (if_destination f) h /\ gathering config socket h (if_pending_to_host f)
  | Some (FlowState.InspectingTls f) =>
      tp_tcp_egress_override config = None /\ sa_port (if_destination f) = 443 /\
      admitted config socket (if_source f) (if_destination f) h /\ gathering config socket h (if_pending_to_host f)
  | Some (FlowState.Connecting c) =>
      (exists event, cleared config socket (cf_source c) (cf_requested_destination c) event h) /\
      gathering config socket h (cf_pending_to_host c)
  | Some (FlowState.Active a) => relaying config socket h a
  end.

(** ** Lemmas: histories *)

Lemma flow_history_snoc (socket : Z) h (e : Action Host) :
  flow_history socket (h ++ [e]) = if accepts socket (projT1 e) then [] else flow_history socket h ++ [e].
Proof. unfold flow_history. by rewrite fold_left_app. Qed.

Lemma stream_snoc (socket : Z) f h (o : HostOp) (r : host_answer o) :
  accepts socket o = false ->
  stream socket f (h ++ [existT o r : Action Host]) = stream socket f h ++ f (existT o r).
Proof.
  intros Ho. unfold stream. rewrite flow_history_snoc. cbn [projT1]. rewrite Ho, flat_map_app.
  cbn. by rewrite app_nil_r.
Qed.

Lemma stream_accept (socket : Z) f h (o : HostOp) (r : host_answer o) :
  accepts socket o = true -> stream socket f (h ++ [existT o r : Action Host]) = [].
Proof. intros Ho. unfold stream. rewrite flow_history_snoc. cbn [projT1]. by rewrite Ho. Qed.

(** Operations that move no byte of a flow. *)
Definition no_data (o : HostOp) : bool :=
  match o with
  | HostOp.SockRecvSlice _ _ | HostOp.SockSendSlice _ _ | HostOp.TcpRead _ _ | HostOp.TcpWrite _ _
  | HostOp.SockRemoteEndpoint _ => false
  | _ => true
  end.

Lemma audit_no_data (o : HostOp) : audit_op o = true -> no_data o = true.
Proof. by destruct o. Qed.

Lemma no_data_same_flow (socket : Z) (o : HostOp) : no_data o = true -> same_flow socket o = true.
Proof. by destruct o. Qed.

Lemma stream_quiet (socket : Z) (ok : HostOp -> bool) f h h' :
  (forall o, ok o = true -> accepts socket o = false) ->
  (forall o (r : host_answer o), ok o = true -> f (existT o r : Action Host) = []) ->
  quiet ok h h' -> stream socket f h' = stream socket f h.
Proof.
  intros Hacc Hf (t & -> & Ht). revert h. induction Ht as [|[o r] t Ho _ IH]; intros h.
  - by rewrite app_nil_r.
  - rewrite cons_middle, app_assoc. rewrite IH, stream_snoc by (by apply Hacc). by rewrite Hf, app_nil_r.
Qed.

Lemma streams_no_data (socket host : Z) h h' : quiet no_data h h' ->
  stream socket (from_sandbox socket) h' = stream socket (from_sandbox socket) h /\
  stream socket (to_sandbox socket) h' = stream socket (to_sandbox socket) h /\
  stream socket (to_host host) h' = stream socket (to_host host) h /\
  stream socket (from_host host) h' = stream socket (from_host host) h.
Proof.
  intros Hq. split_and!; (eapply stream_quiet; [|intros o r|exact Hq]); intros; by destruct o.
Qed.

(** What the sandbox sent only grows within a flow. *)
Lemma stream_grows (socket : Z) f h h' :
  quiet (same_flow socket) h h' -> exists rest, stream socket f h' = stream socket f h ++ rest.
Proof.
  intros (t & -> & Ht). revert h. induction Ht as [|[o r] t Ho _ IH]; intros h.
  - exists []. by rewrite !app_nil_r.
  - rewrite cons_middle, app_assoc.
    match goal with |- context [stream socket f (?x ++ t)] => destruct (IH x) as [rest Hr]; rewrite Hr end.
    rewrite stream_snoc by (unfold same_flow in Ho; by apply negb_true_iff). rewrite <- app_assoc. eauto.
Qed.

Lemma tcp_allowed_mono config event ok h h' :
  quiet ok h h' -> tcp_allowed config event h -> tcp_allowed config event h'.
Proof. intros Hq [H1 [now H2]]. split; [done|]. exists now. by eapply happened_mono. Qed.

Lemma dialled_mono socket source destination h h' :
  quiet (same_flow socket) h h' -> dialled socket source destination h -> dialled socket source destination h'.
Proof.
  intros Hq (before & local & remote & H & ?). exists before, local, remote. split; [|done]. by eapply quiet_trans.
Qed.

Lemma admitted_mono config socket source destination h h' :
  quiet (same_flow socket) h h' -> admitted config socket source destination h ->
  admitted config socket source destination h'.
Proof.
  intros Hq [Hd [attribution H]]. split; [by eapply dialled_mono|]. exists attribution. by eapply tcp_allowed_mono.
Qed.

Lemma cleared_mono config socket source destination event h h' :
  quiet (same_flow socket) h h' -> cleared config socket source destination event h ->
  cleared config socket source destination event h'.
Proof.
  intros Hq (Ha & seen & rest & Hs & Hd & He). split; [by eapply admitted_mono|].
  destruct (stream_grows socket (from_sandbox socket) h h' Hq) as [more Hm].
  exists seen, (rest ++ more). rewrite Hm, Hs, <- app_assoc. split_and!; [done|done|by eapply tcp_allowed_mono].
Qed.

Lemma quiet_no_data_same_flow socket h h' : quiet no_data h h' -> quiet (same_flow socket) h h'.
Proof. apply quiet_weaken, no_data_same_flow. Qed.

Lemma gathering_mono config socket pending h h' :
  quiet no_data h h' -> gathering config socket h pending -> gathering config socket h' pending.
Proof.
  intros Hq [[H1 H2] H3 H4]. split; [|by rewrite (proj1 (streams_no_data socket 0 h h' Hq))|done]. split.
  - by rewrite (proj1 (proj2 (streams_no_data socket 0 h h' Hq))).
  - intros host. destruct (streams_no_data socket host h h' Hq) as (_ & _ & -> & ->). apply H2.
Qed.

Lemma relaying_mono config socket a h h' :
  quiet no_data h h' -> relaying config socket h a -> relaying config socket h' a.
Proof.
  intros Hq [[event H1] H2 H3 H4 H5 H6 H7].
  destruct (streams_no_data socket (af_host a) h h' Hq) as (E1 & E2 & E3 & E4).
  split; rewrite ?E1, ?E2, ?E3, ?E4; try done.
  exists event. eapply cleared_mono; [by apply quiet_no_data_same_flow|exact H1].
Qed.

Lemma relay_state_mono config socket flow h h' :
  quiet no_data h h' -> relay_state config socket h flow -> relay_state config socket h' flow.
Proof.
  intros Hq. destruct flow as [[f|f|c|a]|]; cbn; [| | | |done].
  - intros (? & ? & ? & ?). split_and!; try done; [|by eapply gathering_mono].
    eapply admitted_mono; [by apply quiet_no_data_same_flow|done].
  - intros (? & ? & ? & ?). split_and!; try done; [|by eapply gathering_mono].
    eapply admitted_mono; [by apply quiet_no_data_same_flow|done].
  - intros ([e ?] & ?). split; [|by eapply gathering_mono]. exists e.
    eapply cleared_mono; [by apply quiet_no_data_same_flow|done].
  - by apply relaying_mono.
Qed.

Lemma relay_audit config socket h (o : HostOp) : audit_op o = true -> relay_permitted config socket h o.
Proof. by destruct o. Qed.

(** One operation that moves no byte keeps every fact. *)
Lemma no_data_step h (o : HostOp) (r : host_answer o) :
  no_data o = true -> quiet no_data h (h ++ [existT o r : Action Host]).
Proof. intros Ho. apply quiet_step; [done|apply quiet_refl]. Qed.

(** ** Moving bytes *)

Definition recv_op (o : HostOp) : bool :=
  match o with
  | HostOp.SockCanRecv _ | HostOp.SockRecvSlice _ _ | HostOp.InstantNow => true
  | _ => false
  end.

Lemma recv_op_same_flow socket h h' : quiet recv_op h h' -> quiet (same_flow socket) h h'.
Proof. apply quiet_weaken. by intros []. Qed.

Lemma streams_recv (socket host : Z) h h' : quiet recv_op h h' ->
  stream socket (to_sandbox socket) h' = stream socket (to_sandbox socket) h /\
  stream socket (to_host host) h' = stream socket (to_host host) h /\
  stream socket (from_host host) h' = stream socket (from_host host) h.
Proof.
  intros Hq. split_and!; (eapply stream_quiet; [|intros o r|exact Hq]); intros; by destruct o.
Qed.

Section moving.
Context (config : TcpProofConfig) (socket : Z).
Abbreviation permitted := (relay_permitted config socket).
Abbreviation limit := (buffer_limit config).
Abbreviation sandbox_bytes := (stream socket (from_sandbox socket)).

Lemma recv_loop_wp (base : list byte) (fuel : nat) : forall pending last h,
  sandbox_bytes h = base ++ pending -> (limit - length pending < fuel)%nat -> (length pending <= limit)%nat ->
  wp permitted (yields (fun h' '(p, _) => quiet recv_op h h' /\ sandbox_bytes h' = base ++ p /\ (length p <= limit)%nat))
    h (recv_socket_to_vec_loop fuel socket limit pending last).
Proof.
  induction fuel as [|fuel IH]; intros pending last h Hs Hf Hl; [lia|]. cbn [recv_socket_to_vec_loop].
  apply wp_bind, wp_op; [done|]. intros can _. set (h1 := h ++ _).
  assert (quiet recv_op h h1) as Hq1 by (apply quiet_step; [done|apply quiet_refl]).
  assert (sandbox_bytes h1 = base ++ pending) as Hs1 by (unfold h1; rewrite stream_snoc by done; by rewrite app_nil_r).
  destruct can; cbn [andb negb]; [|by apply yields_ok].
  destruct (Nat.ltb_spec (length pending) limit) as [Hlt|]; cbn [negb]; [|by apply yields_ok].
  apply wp_try, prog_map_err_wp, wp_op; [done|]. intros [chunk|e| |] [Hr _]; try done.
  set (h2 := h1 ++ _). cbn [map_err].
  assert (quiet recv_op h h2) as Hq2 by (apply quiet_step; [done|exact Hq1]).
  assert (sandbox_bytes h2 = base ++ pending ++ chunk) as Hs2.
  { unfold h2. rewrite stream_snoc by done. cbn. rewrite Z.eqb_refl, Hs1. by rewrite <- app_assoc. }
  destruct (Nat.eqb_spec (length chunk) 0) as [H0|H0].
  { apply yields_ok. destruct chunk; [|done]. by rewrite app_nil_r in Hs2. }
  apply wp_bind, wp_op; [done|]. intros now _. set (h3 := h2 ++ _).
  assert (quiet recv_op h h3) as Hq3 by (apply quiet_step; [done|exact Hq2]).
  assert (sandbox_bytes h3 = base ++ pending ++ chunk) as Hs3 by (unfold h3; rewrite stream_snoc by done; by rewrite app_nil_r).
  destruct (Nat.ltb_spec (Nat.min (length chunk) (limit - length pending)) (length chunk)); [apply yields_err|].
  assert (take (Nat.min (length chunk) (limit - length pending)) chunk = chunk) as -> by (apply take_ge; lia).
  eapply wp_post; [apply IH|]; rewrite ?length_app; try done; try lia.
  intros h' r (Hr' & HP). split; [done|]. intros [p l] E. destruct (HP _ E) as (H1 & H2 & H3).
  split_and!; [by eapply quiet_trans|done|done].
Qed.

Lemma recv_wp (base pending : list byte) last h :
  sandbox_bytes h = base ++ pending -> (length pending <= limit)%nat ->
  wp permitted (yields (fun h' '(p, _) => quiet recv_op h h' /\ sandbox_bytes h' = base ++ p /\ (length p <= limit)%nat))
    h (recv_socket_to_vec socket pending limit last).
Proof. intros Hs Hl. apply recv_loop_wp; [done|lia|done]. Qed.

Lemma gathering_recv (pending : list byte) last h :
  gathering config socket h pending ->
  wp permitted (yields (fun h' '(p, _) => quiet recv_op h h' /\ gathering config socket h' p))
    h (recv_socket_to_vec socket pending limit last).
Proof.
  intros [[H1 H2] H3 H4]. eapply wp_post; [by apply (recv_wp [] pending)|].
  intros h' r (Hr & H). split; [done|]. intros [p l] E. destruct (H _ E) as (Hq & Hs & Hl).
  split; [done|]. split; [|done|done]. split.
  - by rewrite (proj1 (streams_recv socket 0 h h' Hq)).
  - intros host. destruct (streams_recv socket host h h' Hq) as (_ & -> & ->). apply H2.
Qed.

Abbreviation relays := (relaying config socket).

Lemma relays_keep a h (o : HostOp) (r : host_answer o) :
  no_data o = true -> relays h a -> relays (h ++ [existT o r : Action Host]) a.
Proof. intros Ho. apply relaying_mono. by apply no_data_step. Qed.

Lemma count_app (n m : Z) : (n mod 2 ^ 64 + m) mod 2 ^ 64 = (n + m) mod 2 ^ 64.
Proof. apply Zplus_mod_idemp_l. Qed.

Lemma count_zero (b : Z) : (exists n, b = n mod 2 ^ 64) -> u64_count b 0 = b.
Proof. intros [n ->]. unfold u64_count. rewrite count_app. f_equal. lia. Qed.

Lemma relays_set_last a h now : relays h a -> relays h (set_to_host (af_pending_to_host a) now a).
Proof. by intros []. Qed.

Lemma flush_to_host_loop_wp (fuel : nat) : forall a h,
  relays h a -> (length (af_pending_to_host a) < fuel)%nat ->
  wp permitted (yields relays) h (flush_to_host_loop fuel a).
Proof.
  induction fuel as [|fuel IH]; intros a h Ha Hf; [lia|]. cbn [flush_to_host_loop].
  case_bool_decide as Hne; [by apply yields_ok|].
  pose proof Ha as [[event Hc] Hth Hts Hbh Hbs Hlh Hls].
  apply wp_bind, wp_op. { split; [by eexists _, _, event|exact Hth]. }
  intros [n|e| |] [Hr Hn]; try done; set (h1 := h ++ _).
  - specialize (Hn n eq_refl).
    assert (quiet (same_flow socket) h h1) as Hq by (apply quiet_step; [done|apply quiet_refl]).
    assert (relays h1 (wrote_to_host n (af_last_activity a) a)) as Ha1.
    { unfold h1. split; cbn [wrote_to_host af_source af_destination af_host af_pending_to_host af_pending_to_sandbox
        af_bytes_to_host af_bytes_to_sandbox]; rewrite ?(stream_snoc socket _ h) by done; cbn [to_host from_sandbox
        to_sandbox from_host]; rewrite ?Z.eqb_refl, ?app_nil_r.
      - exists event. by eapply cleared_mono.
      - rewrite <- app_assoc, take_drop. done.
      - done.
      - rewrite length_app, length_take, Nat.min_l by done. unfold u64_count. rewrite Hbh, count_app. f_equal. lia.
      - done.
      - rewrite length_drop. lia.
      - done. }
    destruct n as [|n].
    + apply yields_ok. destruct Ha1 as [R1 R2 R3 R4 R5 R6 R7]. split; try done.
      cbn [wrote_to_host af_bytes_to_host af_host] in R4. rewrite count_zero in R4; [exact R4|by eexists].
    + apply wp_bind, wp_op; [done|]. intros now _. apply IH.
      * apply relays_keep; [done|]. by destruct Ha1.
      * cbn. rewrite length_drop. lia.
  - case_bool_decide; [|apply yields_err]. apply yields_ok. unfold h1.
    pose proof (fun r => stream_snoc socket (to_host (af_host a)) h (HostOp.TcpWrite (af_host a) (af_pending_to_host a)) r eq_refl).
    split; rewrite ?(stream_snoc socket _ h) by done; cbn; rewrite ?Z.eqb_refl, ?app_nil_r; try done.
    exists event. eapply cleared_mono; [|exact Hc]. apply quiet_step; [done|apply quiet_refl].
Qed.

Lemma flush_to_host_wp a h : relays h a -> wp permitted (yields relays) h (flush_to_host a).
Proof. intros Ha. apply flush_to_host_loop_wp; [done|lia]. Qed.

Lemma recv_from_sandbox_wp a h : relays h a -> wp permitted (yields relays) h (recv_from_sandbox socket limit a).
Proof.
  intros [[event Hc] Hth Hts Hbh Hbs Hlh Hls]. unfold recv_from_sandbox. eapply yields_try; [eapply recv_wp; [symmetry; exact Hth|done]|].
  intros h' [p l] (Hq & Hs & Hl). apply flush_to_host_wp.
  destruct (streams_recv socket (af_host a) h h' Hq) as (E1 & E2 & E3).
  split; cbn [set_to_host af_source af_destination af_host af_pending_to_host af_pending_to_sandbox
    af_bytes_to_host af_bytes_to_sandbox]; rewrite ?E1, ?E2, ?E3; try done.
  exists event. eapply cleared_mono; [by apply recv_op_same_flow|done].
Qed.

Lemma shutdown_host_write_wp a h : relays h a -> wp permitted (yields relays) h (shutdown_host_write socket a).
Proof.
  intros Ha. unfold shutdown_host_write. apply wp_bind, wp_op; [done|]. intros may _.
  assert (relays (h ++ [existT (HostOp.SockMayRecv socket) may : Action Host]) a) as Ha1 by by apply relays_keep.
  destruct (_ && _); [|by apply yields_ok].
  apply wp_try, wp_op; [done|]. intros [[]|e| |] Hr; try done.
  apply yields_ok. apply (relays_keep _ _ (HostOp.TcpShutdown (af_host a) ShutdownWrite)) with (r := Ok tt) in Ha1; [|done].
  by destruct Ha1.
Qed.

Lemma read_from_host_loop_wp (fuel : nat) : forall a h,
  relays h a -> (limit - length (af_pending_to_sandbox a) < fuel)%nat ->
  wp permitted (yields relays) h (read_from_host_loop fuel limit a).
Proof.
  induction fuel as [|fuel IH]; intros a h Ha Hf; [lia|]. cbn [read_from_host_loop].
  destruct (Nat.ltb_spec (length (af_pending_to_sandbox a)) limit) as [Hlt|]; cbn [negb]; [|by apply yields_ok].
  pose proof Ha as [[event Hc] Hth Hts Hbh Hbs Hlh Hls].
  apply wp_bind, wp_op; [done|]. intros r [Hr Hn]. set (h1 := h ++ _).
  assert (quiet (same_flow socket) h h1) as Hq by (apply quiet_step; [done|apply quiet_refl]).
  assert (forall chunk eof now, r = Ok chunk \/ (chunk = [] /\ exists e, r = Err e) -> (length chunk <= CHUNK_LEN)%nat ->
    relays h1 (set_to_sandbox (af_pending_to_sandbox a ++ chunk) eof now a)) as Hnext.
  { intros chunk eof now Hchunk Hlen. unfold h1. split; cbn [set_to_sandbox af_source af_destination af_host
      af_pending_to_host af_pending_to_sandbox af_bytes_to_host af_bytes_to_sandbox];
      rewrite ?(stream_snoc socket _ h) by done; cbn [to_host from_sandbox to_sandbox from_host];
      rewrite ?Z.eqb_refl, ?app_nil_r; try done.
    - exists event. by eapply cleared_mono.
    - rewrite app_assoc, Hts. by destruct Hchunk as [-> |[-> [e ->]]].
    - rewrite length_app. lia. }
  destruct r as [chunk|e| |]; try done.
  - specialize (Hn chunk eq_refl). destruct chunk as [|b chunk].
    + apply yields_ok. specialize (Hnext [] true (af_last_activity a)). rewrite app_nil_r in Hnext. apply Hnext; [by left|lia].
    + apply wp_bind, wp_op; [done|]. intros now _. apply IH.
      * apply relays_keep; [done|]. apply Hnext; [by left|done].
      * cbn [set_to_sandbox af_pending_to_sandbox]. rewrite length_app. cbn [length]. lia.
  - case_bool_decide; [|apply yields_err]. apply yields_ok.
    specialize (Hnext [] (af_host_eof a) (af_last_activity a)). rewrite app_nil_r in Hnext.
    destruct a. apply Hnext; [right; eauto|cbn; lia].
Qed.

Lemma flush_to_sandbox_loop_wp (fuel : nat) : forall a h,
  relays h a -> (length (af_pending_to_sandbox a) < fuel)%nat ->
  wp permitted (yields relays) h (flush_to_sandbox_loop fuel socket a).
Proof.
  induction fuel as [|fuel IH]; intros a h Ha Hf; [lia|]. cbn [flush_to_sandbox_loop].
  case_bool_decide as Hne; [by apply yields_ok|].
  apply wp_bind, wp_op; [done|]. intros can _. apply (relays_keep _ _ (HostOp.SockCanSend socket) can) in Ha; [|done].
  set (h0 := h ++ _) in *. clearbody h0. destruct can; cbn [negb]; [|by apply yields_ok].
  pose proof Ha as [[event Hc] Hth Hts Hbh Hbs Hlh Hls].
  apply wp_try, prog_map_err_wp, wp_op. { split_and!; [done|by eexists _, _, event|by eexists]. }
  intros [n|e| |] [Hr Hn]; try done. cbn [map_err]. set (h1 := h0 ++ _). specialize (Hn n eq_refl).
  assert (quiet (same_flow socket) h0 h1) as Hq by (apply quiet_step; [done|apply quiet_refl]).
  assert (forall now, relays h1 (wrote_to_sandbox n now a)) as Ha1.
  { intros now. unfold h1. split; cbn [wrote_to_sandbox af_source af_destination af_host af_pending_to_host
      af_pending_to_sandbox af_bytes_to_host af_bytes_to_sandbox]; rewrite ?(stream_snoc socket _ h0) by done;
      cbn [to_host from_sandbox to_sandbox from_host]; rewrite ?Z.eqb_refl, ?app_nil_r; try done.
    - exists event. by eapply cleared_mono.
    - rewrite <- app_assoc, take_drop. done.
    - rewrite length_app, length_take, Nat.min_l by done. unfold u64_count. rewrite Hbs, count_app. f_equal. lia.
    - rewrite length_drop. lia. }
  destruct (Nat.eqb_spec n 0) as [->|].
  - apply yields_ok. destruct (Ha1 0) as [R1 R2 R3 R4 R5 R6 R7]. split; try done.
    cbn [wrote_to_sandbox af_bytes_to_sandbox] in R5. rewrite count_zero in R5; [exact R5|by eexists].
  - apply wp_bind, wp_op; [done|]. intros now _. apply IH; [by apply relays_keep|]. cbn. rewrite length_drop. lia.
Qed.

Lemma active_pump_wp a h : relays h a -> wp permitted (yields relays) h (active_pump socket limit a).
Proof.
  intros Ha. unfold active_pump. eapply yields_try; [by apply flush_to_host_wp|]. clear a h Ha. intros h a Ha.
  eapply yields_try; [by apply recv_from_sandbox_wp|]. clear a h Ha. intros h a Ha.
  eapply yields_try; [by apply shutdown_host_write_wp|]. clear a h Ha. intros h a Ha.
  eapply yields_try; [apply read_from_host_loop_wp; [done|lia]|]. clear a h Ha. intros h a Ha.
  eapply yields_try; [apply flush_to_sandbox_loop_wp; [done|lia]|]. clear a h Ha. intros h a Ha.
  destruct (_ && _); [|by apply yields_ok]. apply wp_bind, wp_op; [done|]. intros [] _.
  apply yields_ok. by apply relays_keep.
Qed.

End moving.

(** ** The state machine *)

Section machine.
Context `{!IterOrder (SandboxId * Hostname) DnsCacheEntry}.
Context (config : TcpProofConfig) (socket : Z).
Abbreviation permitted := (relay_permitted config socket).
Abbreviation state := (relay_state config socket).

Lemma emit_tcp_audit_wp audit event decision h :
  wp permitted (yields_audit (fun h' _ => quiet no_data h h' /\ tcp_recorded event decision h')) h
    (emit_tcp_audit audit event decision).
Proof.
  unfold emit_tcp_audit. apply wp_bind, wp_op; [done|]. intros now _.
  eapply wp_post; [apply (record_event_wp no_data permitted audit_no_data (relay_audit config socket))|].
  intros h' [b r] (Hr & Hq & H). split; [done|]. intros u E. split; [|exists now; by apply (H u)].
  eapply quiet_trans; [|exact Hq]. by apply no_data_step.
Qed.

Lemma connecting_new_wp source destination event pending h (Q : list (Action Host) -> ConnectingFlow -> Prop) :
  cleared config socket source destination event h -> gathering config socket h pending ->
  (forall h' c, state h' (Some (FlowState.Connecting c)) -> Q h' c) ->
  wp permitted Q h
    (connecting_new_with_egress source destination (host_destination config destination)
       (egress_context (tp_sandbox_id config) event (evaluate (tp_policy config) event))
       (tp_connect_timeout config) pending).
Proof.
  intros Hc Hg HQ. unfold connecting_new_with_egress. apply wp_bind, wp_op; [by exists source, destination, event|].
  intros rx _. apply wp_bind, wp_op; [done|]. intros now _. apply HQ.
  eapply (relay_state_mono _ _ _ h); [do 2 (apply quiet_step; [done|]); apply quiet_refl|].
  split; [by exists event|done].
Qed.

Definition inspected (wrap : InspectingFlow -> FlowState) (h : list (Action Host)) (i : Inspected) : Prop :=
  match snd i with
  | Some connecting => state h (Some (FlowState.Connecting connecting))
  | None => state h (Some (wrap (fst i)))
  end.

Lemma judge_inspected_wp wrap audit flow event denied h :
  tp_tcp_egress_override config = None -> admitted config socket (if_source flow) (if_destination flow) h ->
  gathering config socket h (if_pending_to_host flow) ->
  decides config (if_source flow) (if_destination flow) (if_pending_to_host flow) event ->
  wp permitted (yields_audit (inspected wrap)) h (judge_inspected config audit flow event denied).
Proof.
  intros Ho Ha Hg Hd. unfold judge_inspected. apply wp_bind, wp_op; [done|]. intros [] _.
  apply (audit_try_wp (fun h' _ => quiet no_data h h' /\ tcp_recorded event (evaluate (tp_policy config) event) h')).
  { eapply wp_post; [apply emit_tcp_audit_wp|]. intros h' s [Hr H]. split; [done|]. intros a E.
    destruct (H a E) as [Hq Hrec]. split; [|done]. eapply quiet_trans; [|exact Hq]. by apply no_data_step. }
  intros h1 audit1 _ [Hq Hrec]. destruct (is_allowed _) eqn:Hal; cbn [negb]; [|by apply yields_err].
  apply wp_bind.
  replace (connecting_new_with_pending (if_source flow) (if_destination flow)) with
    (connecting_new_with_egress (if_source flow) (if_destination flow) (host_destination config (if_destination flow)))
    by (unfold host_destination; by rewrite Ho).
  apply connecting_new_wp.
  - split; [eapply admitted_mono; [by apply quiet_no_data_same_flow|done]|]. exists (if_pending_to_host flow), [].
    rewrite app_nil_r. split_and!; [by eapply gathering_mono|done|done].
  - by eapply gathering_mono.
  - intros h2 c Hc. by apply yields_ok.
Qed.

Lemma reject_inspected_wp wrap audit flow what error h :
  wp permitted (yields_audit (inspected wrap)) h (reject_inspected config audit flow what error).
Proof.
  unfold reject_inspected, emit_tcp_unsupported_audit. eapply audit_try_wp; [apply emit_tcp_audit_wp|].
  intros h' audit' a _. by apply yields_err.
Qed.

Lemma http_pump_wp audit flow h :
  state h (Some (FlowState.InspectingHttp flow)) ->
  wp permitted (yields_audit (inspected FlowState.InspectingHttp)) h (http_pump config socket audit flow).
Proof.
  intros (Ho & Hp & Ha & Hg). unfold http_pump. eapply audit_try_wp; [by apply keep_audit_wp, gathering_recv|].
  intros h1 audit1 [pending last] [Hq Hg1].
  assert (admitted config socket (if_source flow) (if_destination flow) h1) as Ha1
    by (eapply admitted_mono; [by apply recv_op_same_flow|done]).
  cbn [set_inspected if_pending_to_host if_destination]. rewrite Hp.
  pose proof (parse_http_request_head_returns pending 80) as Hr.
  destruct (parse_http_request_head pending 80) as [i|[]| |] eqn:Hi; try done; try apply reject_inspected_wp.
  - apply judge_inspected_wp; try done. unfold decides. cbn. rewrite Ho, Hp. cbn. by exists i.
  - by apply yields_ok.
Qed.

Lemma tls_pump_wp audit cache flow h :
  state h (Some (FlowState.InspectingTls flow)) ->
  wp permitted (yields_audit (inspected FlowState.InspectingTls)) h (tls_pump config socket cache audit flow).
Proof.
  intros (Ho & Hp & Ha & Hg). unfold tls_pump. eapply audit_try_wp; [by apply keep_audit_wp, gathering_recv|].
  intros h1 audit1 [pending last] [Hq Hg1].
  assert (admitted config socket (if_source flow) (if_destination flow) h1) as Ha1
    by (eapply admitted_mono; [by apply recv_op_same_flow|done]).
  cbn [set_inspected if_pending_to_host if_destination].
  pose proof (parse_tls_client_hello_returns pending) as Hr.
  destruct (parse_tls_client_hello pending) as [i|[]| |] eqn:Hi; try done; try apply reject_inspected_wp;
    [|by apply yields_ok].
  assert (forall h2 dns, quiet no_data h1 h2 ->
    wp permitted (yields_audit (inspected FlowState.InspectingTls)) h2
      (judge_inspected config audit1 (set_inspected pending last flow) (tls_event config (if_destination flow) i dns)
         (lit "transparent TLS policy denied ClientHello"))) as Hjudge.
  { intros h2 dns Hq2. apply judge_inspected_wp; try done;
      [eapply admitted_mono; [by apply quiet_no_data_same_flow|done]|by eapply gathering_mono|].
    unfold decides. cbn [set_inspected if_destination]. rewrite Ho, Hp. cbn. by exists i, dns. }
  apply wp_bind. unfold tls_dns_hostname. destruct cache as [cache|].
  - apply wp_bind, wp_op; [done|]. intros now _. apply Hjudge. by apply no_data_step.
  - apply Hjudge, quiet_refl.
Qed.

(** What a step must leave behind. *)
Definition stepped (h : list (Action Host)) (s : Stepped) : Prop :=
  let '(flow, _, r) := s in returns r /\ state h flow.

Lemma abort_flow_wp audit h : wp permitted stepped h (abort_flow socket audit).
Proof.
  unfold abort_flow. apply wp_bind, wp_op; [done|]. intros [] _. apply wp_bind, wp_op; [done|]. by intros [] _.
Qed.

Lemma elapsed_over_wp t timeout (Q : list (Action Host) -> bool -> Prop) h :
  (forall h' b, quiet no_data h h' -> Q h' b) -> wp permitted Q h (elapsed_over t timeout).
Proof. intros HQ. apply wp_bind, wp_op; [done|]. intros now _. apply HQ. by apply no_data_step. Qed.

Lemma is_active_wp (Q : list (Action Host) -> bool -> Prop) h :
  (forall h' b, quiet no_data h h' -> Q h' b) -> wp permitted Q h (sock_is_active socket).
Proof. intros HQ. apply wp_op; [done|]. intros b _. apply HQ. by apply no_data_step. Qed.

Lemma step_inspecting_wp wrap pump h :
  wp permitted (yields_audit (inspected wrap)) h pump ->
  wp permitted stepped h (step_inspecting socket config wrap pump).
Proof.
  intros Hp. unfold step_inspecting. apply wp_bind. eapply wp_post; [exact Hp|].
  intros h1 [audit [[flow [c|]]|e| |]] [Hr H]; try done; [by split; [|apply (H _ eq_refl)]|].
  specialize (H _ eq_refl). cbn in H. apply wp_bind, elapsed_over_wp. intros h2 expired Hq2.
  assert (forall h3 b, quiet no_data h2 h3 -> wp permitted stepped h3
    (if b : bool then abort_flow socket audit else Ret (Some (wrap flow), audit, Ok tt))) as Hend.
  { intros h3 [] Hq3; [apply abort_flow_wp|]. split; [done|].
    eapply relay_state_mono; [|exact H]. by eapply quiet_trans. }
  apply wp_bind. destruct expired; [apply (Hend h2 true), quiet_refl|].
  apply wp_bind, is_active_wp. intros h3 b Hq3. by apply Hend.
Qed.

Lemma step_connecting_wp audit flow h :
  state h (Some (FlowState.Connecting flow)) -> wp permitted stepped h (step_connecting socket config audit flow).
Proof.
  intros [[event Hc] Hg]. unfold step_connecting. apply wp_bind.
  eapply (wp_post _ (yields (fun h '(c, a) => match a with
    | Some a => relaying config socket h a
    | None => state h (Some (FlowState.Connecting c)) end))).
  { unfold connecting_pump. eapply (yields_try (fun h c => state h (Some (FlowState.Connecting c)))).
    - eapply yields_try; [by apply gathering_recv|]. intros h1 [pending last] [Hq Hg1]. apply yields_ok.
      split; [|exact Hg1]. exists event. eapply cleared_mono; [by apply recv_op_same_flow|exact Hc].
    - clear. intros h c Hst. pose proof Hst as [[event Hc] Hg].
      eapply (yields_try (fun h a => match a with
        | Some a => relaying config socket h a
        | None => state h (Some (FlowState.Connecting c)) end)).
      + unfold connecting_try_finish. apply wp_bind, wp_op; [done|]. intros r [Hr Hx].
        assert (state (h ++ [existT (HostOp.TryRecvConnect (cf_receiver c)) r : Action Host]) (Some (FlowState.Connecting c)))
          as Hst1 by (eapply relay_state_mono; [by apply no_data_step|exact Hst]).
        destruct r as [[hs|e| |]|[]| |]; try done; try (by specialize (Hx _ eq_refl));
          [|by apply yields_ok].
        apply wp_bind, wp_op; [done|]. intros [] _. apply wp_bind, wp_bind, wp_op; [done|]. intros now _.
        apply yields_ok. set (h1 := (_ ++ _) ++ _).
        assert (quiet no_data h h1) as Hq
          by (unfold h1; do 3 (apply quiet_step; [done|]); apply quiet_refl).
        pose proof (gathering_mono _ _ _ _ _ Hq Hg) as [[G1 G2] G3 G4]. destruct (G2 hs) as [G5 G6].
        split; cbn [af_source af_destination af_host af_pending_to_host af_pending_to_sandbox af_bytes_to_host
          af_bytes_to_sandbox]; rewrite ?G1, ?G5, ?G6; try done.
        * exists event. eapply cleared_mono; [by apply quiet_no_data_same_flow|exact Hc].
        * assert (0 < CHUNK_LEN)%nat by (apply Nat2Z.inj_lt; done). cbn [length]. lia.
      + intros h' [a|] H; by apply yields_ok. }
  intros h1 [[c [a|]]|e| |] [Hr H]; try done; [by split; [|apply (H _ eq_refl)]|].
  specialize (H _ eq_refl). cbn beta match in H. apply wp_bind, is_active_wp. intros h2 active Hq2.
  assert (forall h3 b, quiet no_data h2 h3 -> wp permitted stepped h3
    (if b : bool then abort_flow socket audit else Ret (Some (FlowState.Connecting c), audit, Ok tt))) as Hend.
  { intros h3 [] Hq3; [apply abort_flow_wp|]. split; [done|].
    eapply relay_state_mono; [|exact H]. by eapply quiet_trans. }
  apply wp_bind. destruct active; cbn [negb]; [|apply (Hend h2 true), quiet_refl].
  apply elapsed_over_wp. intros h3 b Hq3. by apply Hend.
Qed.

Lemma step_active_wp audit flow h :
  state h (Some (FlowState.Active flow)) -> wp permitted stepped h (step_active socket config audit flow).
Proof.
  intros Ha. unfold step_active. apply wp_bind. eapply wp_post; [by apply active_pump_wp|].
  intros h1 [a|e| |] [Hr H]; try done. specialize (H _ eq_refl).
  apply wp_bind, elapsed_over_wp. intros h2 [] Hq2; [apply abort_flow_wp|].
  apply wp_bind, is_active_wp. intros h3 active Hq3.
  assert (relaying config socket h3 a) as H3 by (eapply relaying_mono; [|exact H]; by eapply quiet_trans).
  destruct (_ && _); [|by split].
  unfold emit_tcp_flow_closed_audit. apply wp_bind, wp_bind, wp_op; [done|]. intros now _.
  apply wp_bind, wp_op; [done|]. intros instant _.
  eapply wp_post; [apply (record_event_wp no_data permitted audit_no_data (relay_audit config socket))|].
  intros h4 [b r] (Hr4 & Hq4 & _).
  destruct r as [[]|e| |]; try done.
  split; [done|]. eapply relaying_mono; [exact Hq4|]. by do 2 (apply relays_keep; [done|]).
Qed.

Lemma step_flow_wp cache audit flow h :
  state h flow -> wp permitted stepped h (step_flow socket config cache audit flow).
Proof.
  intros H. destruct flow as [[f|f|c|a]|]; cbn [step_flow].
  - by apply step_inspecting_wp, http_pump_wp.
  - by apply step_inspecting_wp, tls_pump_wp.
  - by apply step_connecting_wp.
  - by apply step_active_wp.
  - done.
Qed.

(** The state an allowed, freshly accepted flow starts in. *)
Lemma start_flow_wp source destination attribution h (Q : list (Action Host) -> FlowState -> Prop) :
  let event := connect_event config source destination attribution in
  dialled socket source destination h -> tcp_allowed config event h -> gathering config socket h [] ->
  (forall h' f, state h' (Some f) -> Q h' f) ->
  wp permitted Q h (start_flow config source destination event (evaluate (tp_policy config) event)).
Proof.
  intros event Hdial He Hg HQ. unfold start_flow.
  assert (admitted config socket source destination h) as Ha by (split; [done|by exists attribution]).
  assert ((tp_tcp_egress_override config <> None \/
           (sa_port destination =? 80) = false /\ (sa_port destination =? 443) = false) ->
          cleared config socket source destination event h) as Hplain.
  { intros H. split; [done|]. exists [], []. split; [by apply Hg|]. split; [|done].
    unfold decides. destruct (tp_tcp_egress_override config); [by exists attribution|].
    destruct H as [|[-> ->]]; [done|]. by exists attribution. }
  assert (forall wrap, (forall f, if_source f = source -> if_destination f = destination -> if_pending_to_host f = [] ->
            gathering config socket (h ++ [existT HostOp.InstantNow (if_started_at f) : Action Host]) [] ->
            state (h ++ [existT HostOp.InstantNow (if_started_at f) : Action Host]) (Some (wrap f))) ->
          wp permitted Q h (let* flow := inspecting_new source destination in Ret (wrap flow))) as Hinspect.
  { intros wrap Hw. apply wp_bind, wp_bind, wp_op; [done|]. intros now _. apply HQ.
    apply (Hw (mkInspectingFlow source destination [] now now)); try done.
    eapply gathering_mono; [|exact Hg]. by apply no_data_step. }
  destruct (tp_tcp_egress_override config) as [od|] eqn:Ho.
  - apply wp_bind. replace od with (host_destination config destination) by (unfold host_destination; by rewrite Ho).
    apply connecting_new_wp; [by apply Hplain; left|done|]. intros h' c Hc. by apply HQ.
  - unfold should_inspect_http, should_inspect_tls.
    destruct (Z.eqb_spec (sa_port destination) 80) as [H80|]; [|destruct (Z.eqb_spec (sa_port destination) 443) as [H443|]].
    + apply Hinspect. intros f <- <- Hf Hg'. split_and!; try done; [|by rewrite Hf].
      eapply admitted_mono; [by apply quiet_no_data_same_flow, no_data_step|done].
    + apply Hinspect. intros f <- <- Hf Hg'. split_and!; try done; [|by rewrite Hf].
      eapply admitted_mono; [by apply quiet_no_data_same_flow, no_data_step|done].
    + apply wp_bind. unfold connecting_new, connecting_new_with_pending.
      replace (connecting_new_with_egress source destination destination) with
        (connecting_new_with_egress source destination (host_destination config destination))
        by (unfold host_destination; by rewrite Ho).
      apply connecting_new_wp; [by apply Hplain; right|done|]. intros h' c Hc. by apply HQ.
Qed.

Lemma accept_flow_wp cache flow audit h :
  state h flow ->
  wp permitted (fun h' '(flow', _) => state h' flow') h (accept_flow socket config cache flow audit).
Proof.
  intros Hst. destruct flow as [flow|]; [done|]. cbn [accept_flow].
  apply wp_bind, wp_op; [done|]. intros [] _; cbn [negb]; [|done].
  apply wp_bind, wp_op; [done|]. intros local _. apply wp_bind, wp_op; [done|]. intros remote _.
  match goal with |- wp _ _ (?x ++ _) _ => set (h0 := x) end. set (h1 := h0 ++ _).
  destruct local as [local|]; [|done]. destruct remote as [remote|]; [|done].
  assert (gathering config socket h1 []) as Hg.
  { assert (forall f, stream socket f h1 = []) as Hs
      by (intros f; apply stream_accept; cbn; apply Z.eqb_refl).
    split; [|apply Hs|cbn; lia]. split; [apply Hs|]. intros host. split; apply Hs. }
  apply wp_bind, wp_op; [done|]. intros [] _. apply wp_bind, wp_op; [done|]. intros time _.
  apply wp_bind, wp_op; [done|]. intros [] _. set (h4 := ((_ ++ _) ++ _) ++ _).
  assert (quiet no_data h1 h4) as Hq4 by (unfold h4; do 3 (apply quiet_step; [done|]); apply quiet_refl).
  clearbody h4. apply wp_bind. eapply wp_post; [apply emit_tcp_audit_wp|].
  intros h5 [audit' r] [Hr H]. cbn [snd] in Hr, H. destruct r as [[]|e| |]; try done.
  destruct (H tt eq_refl) as [Hq5 Hrec]. destruct (is_allowed _) eqn:Hal.
  - assert (quiet no_data h1 h5) as Hq15 by by eapply quiet_trans.
    apply wp_bind, start_flow_wp; [|by split|by eapply gathering_mono|done].
    exists (h ++ [existT (HostOp.SockIsActive socket) true : Action Host]), local, remote.
    split; [by apply quiet_no_data_same_flow|done].
  - apply wp_bind, wp_op; [done|]. by intros [] _.
Qed.

Lemma tcp_poll_wp cache flow audit h :
  state h flow -> wp permitted stepped h (tcp_poll flow socket config audit cache).
Proof.
  intros Hst. unfold tcp_poll. apply wp_bind.
  eapply (wp_post _ (fun h' (r : Result unit IoError) => returns r /\ state h' flow)).
  { destruct flow as [flow|]; [by cbn|]. cbn [ensure_listening]. apply wp_bind, wp_op; [done|]. intros [] _; [by cbn|].
    apply wp_try, prog_map_err_wp, wp_op; [done|]. intros [[]|e| |] Hr; try done. }
  intros h1 [[]|e| |] [Hr Hst1]; try done.
  apply wp_bind. eapply wp_post; [by apply accept_flow_wp|]. intros h2 [flow' audit'] Hst2. by apply step_flow_wp.
Qed.

Lemma tcp_polls_wp (n : nat) cache : forall flow audit h,
  state h flow -> wp permitted stepped h (tcp_polls n flow socket config audit cache).
Proof.
  induction n as [|n IH]; intros flow audit h Hst; cbn [tcp_polls]; [by split|].
  apply wp_bind. eapply wp_post; [by apply tcp_poll_wp|].
  intros h1 [[flow' audit'] [[]|e| |]] [Hr H]; try done. by apply IH.
Qed.

End machine.

(** ** Properties *)

(** Connections and payload are for cleared flows only; nothing else of the
    network is touched. *)
Definition tcp_gate (config : TcpProofConfig) (socket : Z) (h : list (Action Host)) (o : HostOp) : Prop :=
  match o with
  | HostOp.SpawnConnect request => exists source destination event,
      cleared config socket source destination event h /\
      request = mkTcpEgressRequest
        (egress_context (tp_sandbox_id config) event (evaluate (tp_policy config) event)) (Some source)
        (endpoint_of_socket_addr (host_destination config destination)) (Some (tp_connect_timeout config))
  | HostOp.TcpWrite _ _ | HostOp.SockSendSlice _ _ =>
      exists source destination event, cleared config socket source destination event h
  | HostOp.TcpConnect _ _ | HostOp.ResolveHost _ _ | HostOp.UdpBind _ | HostOp.UdpSendTo _ _ _ => False
  | _ => True
  end.

(** [C6] The transparent TCP relay never connects before policy and audit: over any number
    of polls and for every behaviour of the TCP stack, the host, the clock and the DNS
    cache, a host connection is started only for a flow whose connect event policy
    allowed and whose decision is in the audit log, and on ports 80 and 443 (without an
    egress override) only after the HTTP request or ClientHello that its first bytes
    parse to was allowed and recorded as well; the request carries exactly that decision
    and destination; payload moves only on such flows; and every poll returns. *)
Theorem tcp_relay_acts_after_audited_allow (order : IterOrder (SandboxId * Hostname) DnsCacheEntry)
  (config : TcpProofConfig) (socket : Z) (n : nat) (audit : AuditBuffer) (cache : option DnsCache) :
  wp (tcp_gate config socket) (fun _ '(_, _, r) => returns r) []
    (tcp_polls n transparent_tcp_state_new socket config audit cache).
Proof.
  eapply wp_mono; [| |by apply (tcp_polls_wp config socket n cache None audit [])].
  - intros h []; cbn; try done.
    + by intros [? _].
    + by intros (_ & ? & _).
  - by intros h [[flow b] r] [? _].
Qed.

(** Every write sends exactly the next bytes that arrived from the other side. *)
Definition tcp_streams (socket : Z) (h : list (Action Host)) (o : HostOp) : Prop :=
  match o with
  | HostOp.TcpWrite host bytes =>
      stream socket (to_host host) h ++ bytes = stream socket (from_sandbox socket) h
  | HostOp.SockSendSlice s bytes => s = socket /\
      exists host, stream socket (to_sandbox socket) h ++ bytes = stream socket (from_host host) h
  | _ => True
  end.

(** [C7] The transparent TCP relay is a faithful, bounded pipe: over any number of polls,
    what is written to the host followed by what is pending is exactly what the sandbox
    sent in this flow (the inspected first bytes included), and likewise towards the
    sandbox: no byte is lost, repeated or reordered, whatever partial writes and would-
    block errors occur.  The byte counters equal the delivered lengths (modulo 2^64),
    and both pending buffers stay within the limit (plus one read chunk towards the
    sandbox). *)
Theorem tcp_relay_is_a_bounded_pipe (order : IterOrder (SandboxId * Hostname) DnsCacheEntry)
  (config : TcpProofConfig) (socket : Z) (n : nat) (audit : AuditBuffer) (cache : option DnsCache) :
  wp (fun h o => tcp_streams socket h o) (fun h '(flow, _, _) => relay_state config socket h flow) []
    (tcp_polls n transparent_tcp_state_new socket config audit cache).
Proof.
  eapply wp_mono; [| |by apply (tcp_polls_wp config socket n cache None audit [])].
  - intros h []; cbn; try done.
    + by intros [_ ?].
    + by intros (? & _ & ?).
  - by intros h [[flow b] r] [_ ?].
Qed.
