(* ===== verification/TcpStages.v ===== *)
(** * The stages of a transparent TCP flow ([crates/foxprox-net/src/lib.rs])

    A flow is accepted, inspected (on ports 80 and 443), connected and relayed, in
    this order; each stage has a deadline, and a flow leaves no stage silently.  The
    stages are a relation on the states before and after a poll; the polls of [Tcp]
    refine it. *)

From S2P Require Import Prelude Text NetAddr Event Policy Flow Dns Inspection AuditLog Config.
From S2P Require Import Effects AuditIo Tcp.

#[local] Abbreviation History := (list (Action Host)).

(** ** What happens during a poll *)

(** [h'] is [h] and something after it. *)
Definition extends (h h' : History) : Prop := exists t, h' = h ++ t.

(** [o] was answered [r] between [h] and [h']. *)
Definition during (h h' : History) (o : HostOp) (r : host_answer o) : Prop :=
  exists t, h' = h ++ t /\ happened o r t.

(** The call moved bytes of a flow. *)
Definition carries (e : Action Host) : bool :=
  match e with
  | existT (HostOp.SockRecvSlice _ _) r => match (r : Result (list byte) str) with Ok (_ :: _) => true | _ => false end
  | existT (HostOp.SockSendSlice _ _) r => match (r : Result nat str) with Ok (S _) => true | _ => false end
  | existT (HostOp.TcpRead _ _) r => match (r : Result (list byte) IoError) with Ok (_ :: _) => true | _ => false end
  | existT (HostOp.TcpWrite _ _) r => match (r : Result nat IoError) with Ok (S _) => true | _ => false end
  | _ => false
  end.

Definition traffic (h h' : History) : Prop := exists o r, during h h' o r /\ carries (existT o r) = true.

(** A clock reading between [h] and [h'] at which [since] is at most [limit] ago. *)
Definition within (h h' : History) (since : Z) (limit : Duration) : Prop :=
  exists t : Z, during h h' HostOp.InstantNow t /\ elapsed since t <= limit.

(** The last activity of a flow is what it was, or a reading behind some traffic. *)
Definition activity (h h' : History) (before after : Z) : Prop :=
  after = before \/ (during h h' HostOp.InstantNow after /\ traffic h h').

Lemma extends_refl h : extends h h.
Proof. exists []. by rewrite app_nil_r. Qed.

Lemma extends_trans h1 h2 h3 : extends h1 h2 -> extends h2 h3 -> extends h1 h3.
Proof. intros [t1 ->] [t2 ->]. exists (t1 ++ t2). by rewrite app_assoc. Qed.

Lemma extends_snoc h1 h2 e : extends h1 h2 -> extends h1 (h2 ++ [e]).
Proof. intros [t ->]. exists (t ++ [e]). by rewrite app_assoc. Qed.

Lemma during_last h1 h2 (o : HostOp) (r : host_answer o) :
  extends h1 h2 -> during h1 (h2 ++ [existT o r : Action Host]) o r.
Proof. intros [t ->]. exists (t ++ [existT o r]). split; [by rewrite app_assoc|]. apply happened_last. Qed.

(** A call of a part is a call of the whole. *)
Lemma during_mono h0 h1 h2 h3 o r : extends h0 h1 -> during h1 h2 o r -> extends h2 h3 -> during h0 h3 o r.
Proof.
  intros [t0 ->] (t1 & -> & H) [t2 ->]. exists (t0 ++ t1 ++ t2). split; [by rewrite !app_assoc|].
  apply in_or_app. right. apply in_or_app. by left.
Qed.

Lemma during_here h0 h h' (o : HostOp) (r : host_answer o) :
  extends h0 h -> extends (h ++ [existT o r : Action Host]) h' -> during h0 h' o r.
Proof. intros H1 H2. eapply during_mono; [apply extends_refl|by apply during_last|exact H2]. Qed.

Lemma traffic_mono h0 h1 h2 h3 : extends h0 h1 -> traffic h1 h2 -> extends h2 h3 -> traffic h0 h3.
Proof. intros H1 (o & r & H & Hc) H3. exists o, r. split; [by eapply during_mono|done]. Qed.

Lemma activity_mono h0 h1 h2 h3 a b : extends h0 h1 -> activity h1 h2 a b -> extends h2 h3 -> activity h0 h3 a b.
Proof.
  intros H1 [->|[Hd Ht]] H3; [by left|]. right. split; [by eapply during_mono|by eapply traffic_mono].
Qed.

Lemma activity_trans h0 h1 h2 a b c :
  extends h0 h1 -> extends h1 h2 -> activity h0 h1 a b -> activity h1 h2 b c -> activity h0 h2 a c.
Proof.
  intros H1 H2 Hab [->|[Hd Ht]].
  - eapply activity_mono; [apply extends_refl|exact Hab|exact H2].
  - right. split; [eapply during_mono|eapply traffic_mono]; eauto using extends_refl.
Qed.

#[export] Hint Resolve extends_refl extends_snoc during_last : foxprox.

(** A call that moves bytes, then a reading of the clock. *)
Lemma activity_now h0 h (o : HostOp) (r : host_answer o) (before t : Z) :
  extends h0 h -> carries (existT o r) = true ->
  activity h0 ((h ++ [existT o r : Action Host]) ++ [existT HostOp.InstantNow t : Action Host]) before t.
Proof.
  intros Hh Hc. right. split; [auto with foxprox|]. exists o, r. split; [|exact Hc].
  eapply during_mono; [apply extends_refl|by apply during_last|auto with foxprox].
Qed.

(** ** Specification *)

(** The record of a flow that was relayed to its end. *)
Definition tcp_flow_closed_event (time instant : Z) (sandbox_id : SandboxId) (active : ActiveFlow) : AuditEvent :=
  set_ae_flow_duration (Some (elapsed (af_started_at active) instant))
    (set_ae_bytes (af_bytes_to_host active) (af_bytes_to_sandbox active)
      (set_ae_protocol (Some Protocol.Tcp)
        (with_endpoints
          (with_sandbox_id (audit_event_new time Frontend.Tun AuditEventKind.TcpFlowClosed) sandbox_id)
          (Some (af_source active)) (Some (endpoint_of_socket_addr (af_destination active)))))).

(** The instant was read during the poll. *)
Definition fresh (h h' : History) (started_at : Z) : Prop := during h h' HostOp.InstantNow started_at.

(** The two ends of a flow, and when its stage began. *)
Definition same_inspecting (before after : InspectingFlow) : Prop :=
  if_source after = if_source before /\ if_destination after = if_destination before /\
  if_started_at after = if_started_at before.

Definition same_connecting (before after : ConnectingFlow) : Prop :=
  cf_source after = cf_source before /\ cf_requested_destination after = cf_requested_destination before /\
  cf_host_destination after = cf_host_destination before /\ cf_receiver after = cf_receiver before /\
  cf_started_at after = cf_started_at before.

Definition same_active (before after : ActiveFlow) : Prop :=
  af_source after = af_source before /\ af_destination after = af_destination before /\
  af_host after = af_host before /\ af_started_at after = af_started_at before.

(** The flow [a] was relayed to its end: every byte that arrived for either side was
    delivered, and the record with the ends of the flow, all the bytes delivered to each
    side and the time since it was connected was written. *)
Definition closes (config : TcpProofConfig) (socket : Z) (h h' : History) (a : ActiveFlow) : Prop :=
  exists b time instant,
    same_active a b /\ relaying config socket h' b /\
    af_pending_to_host b = [] /\ af_pending_to_sandbox b = [] /\
    during h h' HostOp.Now time /\ during h h' HostOp.InstantNow instant /\
    during h h' (HostOp.StderrWriteAll
      (audit_event_json_line (tcp_flow_closed_event time instant (tp_sandbox_id config) b))) (Ok tt).

(** A flow ends with the abort of its socket, or relayed to the last byte and with its
    closing record in the log. *)
Definition ends (config : TcpProofConfig) (socket : Z) (h h' : History) (flow : FlowState) : Prop :=
  during h h' (HostOp.SockAbort socket) tt \/
  exists a, flow = FlowState.Active a /\ closes config socket h h' a.

(** The stages of a flow in a poll from [h] to [h'] whose result is [r].  A flow
    stays in its stage only within the deadline of the stage. *)
Inductive stage (config : TcpProofConfig) (socket : Z) (h h' : History) (r : Result unit IoError)
  : TransparentTcpState -> TransparentTcpState -> Prop :=
| stage_idle : stage config socket h h' r None None
| stage_end flow : ends config socket h h' flow -> stage config socket h h' r (Some flow) None
| stage_inspecting_http f f' :
    same_inspecting f f' -> within h h' (if_started_at f) (tp_connect_timeout config) ->
    stage config socket h h' r (Some (FlowState.InspectingHttp f)) (Some (FlowState.InspectingHttp f'))
| stage_inspecting_tls f f' :
    same_inspecting f f' -> within h h' (if_started_at f) (tp_connect_timeout config) ->
    stage config socket h h' r (Some (FlowState.InspectingTls f)) (Some (FlowState.InspectingTls f'))
| stage_judged flow f c :
    flow = FlowState.InspectingHttp f \/ flow = FlowState.InspectingTls f ->
    cf_source c = if_source f -> cf_requested_destination c = if_destination f ->
    cf_host_destination c = if_destination f -> fresh h h' (cf_started_at c) ->
    stage config socket h h' r (Some flow) (Some (FlowState.Connecting c))
| stage_connecting c c' :
    same_connecting c c' -> within h h' (cf_started_at c) (tp_connect_timeout config + from_secs 1) ->
    stage config socket h h' r (Some (FlowState.Connecting c)) (Some (FlowState.Connecting c'))
| stage_connected c a :
    during h h' (HostOp.TryRecvConnect (cf_receiver c)) (Ok (Ok (af_host a))) ->
    af_source a = cf_source c -> af_destination a = cf_requested_destination c ->
    fresh h h' (af_started_at a) ->
    stage config socket h h' r (Some (FlowState.Connecting c)) (Some (FlowState.Active a))
| stage_active a a' :
    same_active a a' -> activity h h' (af_last_activity a) (af_last_activity a') ->
    within h h' (af_last_activity a') (tp_idle_timeout config) ->
    stage config socket h h' r (Some (FlowState.Active a)) (Some (FlowState.Active a')).

(** A new flow starts with nothing read. *)
Definition starts (config : TcpProofConfig) (h h' : History) (flow : FlowState) : Prop :=
  match flow with
  | FlowState.InspectingHttp f | FlowState.InspectingTls f =>
      tp_tcp_egress_override config = None /\ if_pending_to_host f = [] /\ fresh h h' (if_started_at f)
  | FlowState.Connecting c =>
      cf_host_destination c = default (cf_requested_destination c) (tp_tcp_egress_override config) /\
      cf_pending_to_host c = [] /\ fresh h h' (cf_started_at c)
  | FlowState.Active _ => False
  end.

(** A poll: a socket without a flow may accept one, and the flow takes a step. *)
Definition polled (config : TcpProofConfig) (socket : Z) (h h' : History) (flow : TransparentTcpState)
  (flow' : TransparentTcpState) (r : Result unit IoError) : Prop :=
  exists accepted,
    match flow with
    | Some _ => accepted = flow
    | None => accepted = None \/ exists new, accepted = Some new /\ starts config h h' new
    end /\ stage config socket h h' r accepted flow'.

(** ** Proofs *)

(** Two specifications of one program. *)
Lemma wp_both {A} (step : History -> HostOp -> Prop) (Q Q' : History -> A -> Prop) (p : Prog Host A) : forall h,
  wp (I := Host) step Q h p -> wp (I := Host) (fun _ _ => True) Q' h p ->
  wp (I := Host) step (fun h a => Q h a /\ Q' h a) h p.
Proof.
  induction p as [a|o k IH]; intros h H1 H2; [by split|]. split; [apply H1|].
  intros r Hr. apply IH; [by apply H1|by apply H2].
Qed.

Section polls.
Context (h0 : History).

#[local] Abbreviation holds := (wp (I := Host) (fun _ _ => True)).

(** A program adds to the history. *)
Lemma wp_extends {A} (Q : History -> A -> Prop) (p : Prog Host A) : forall h,
  holds Q h p -> holds (fun h' a => extends h h' /\ Q h' a) h p.
Proof. apply (wp_grows (I := Host)). Qed.

(** A part of the poll that began at [h0]. *)
Definition part_of {A} (P : History -> A -> Prop) (h : History) (r : Result A IoError) : Prop :=
  extends h0 h /\ forall a, r = Ok a -> P h a.

Lemma part_of_ok {A} (P : History -> A -> Prop) h a : extends h0 h -> P h a -> part_of P h (Ok a).
Proof. intros Hh H. split; [done|]. by intros a' [= <-]. Qed.

Lemma part_of_not_ok {A} (P : History -> A -> Prop) h (r : Result A IoError) :
  extends h0 h -> is_ok r = false -> part_of P h r.
Proof. intros Hh Hr. split; [done|]. by intros a ->. Qed.

Lemma part_of_try {A B} (P : History -> A -> Prop) (P' : History -> B -> Prop) (p : IO A) (k : A -> IO B) h :
  holds (part_of P) h p ->
  (forall h' a, extends h0 h' -> P h' a -> holds (part_of P') h' (k a)) ->
  holds (part_of P') h (prog_try p k).
Proof.
  intros Hp Hk. apply wp_try. eapply wp_post; [exact Hp|].
  intros h' [a|e| |] [Hh HP]; [by apply Hk, HP|by apply part_of_not_ok..].
Qed.

(** A call of the host, then the rest. *)
Lemma call_wp {A} (o : HostOp) (k : host_answer o -> Prog Host A) (Q : History -> A -> Prop) h :
  extends h0 h ->
  (forall r, host_valid o r -> extends h0 (h ++ [existT o r : Action Host]) ->
     holds Q (h ++ [existT o r : Action Host]) (k r)) ->
  holds Q h (prog_bind (@perform Host o) k).
Proof. intros Hh Hk. apply wp_bind, wp_op; [done|]. intros r Hr. apply Hk; [done|auto with foxprox]. Qed.

(** *** Moving bytes *)

Lemma recv_socket_to_vec_activity (socket : Z) (limit : nat) (before : Z) (fuel : nat) : forall pending last h,
  extends h0 h -> activity h0 h before last ->
  holds (part_of (fun h' s => activity h0 h' before (snd s))) h (recv_socket_to_vec_loop fuel socket limit pending last).
Proof.
  induction fuel as [|fuel IH]; intros pending last h Hh Ha; cbn [recv_socket_to_vec_loop]; [by apply part_of_not_ok|].
  apply call_wp; [done|]. intros can_recv _ Hh1.
  assert (activity h0 (h ++ [existT (HostOp.SockCanRecv socket) can_recv : Action Host]) before last) as Ha1
    by (eapply activity_mono; [apply extends_refl|exact Ha|auto with foxprox]).
  destruct (negb _); [by apply part_of_ok|].
  apply wp_try, wp_bind, wp_op; [done|]. intros chunk Hv. cbn [wp].
  destruct chunk as [chunk|e| |]; cbn [map_err]; try (by apply part_of_not_ok; auto with foxprox).
  destruct chunk as [|b chunk]; cbn [length Nat.eqb].
  { apply part_of_ok; [auto with foxprox|]. eapply activity_mono; [apply extends_refl|exact Ha1|auto with foxprox]. }
  apply call_wp; [auto with foxprox|]. intros t _ Hh2. destruct (_ <? _)%nat; [by apply part_of_not_ok|].
  apply IH; [done|]. by apply activity_now.
Qed.

(** [b] is the flow [a] after a part of the poll. *)
Definition pumped (a : ActiveFlow) (h : History) (b : ActiveFlow) : Prop :=
  same_active a b /\ activity h0 h (af_last_activity a) (af_last_activity b).

Lemma pumped_mono a h h' b : pumped a h b -> extends h h' -> pumped a h' b.
Proof. intros [Hs Ha] Hh. split; [done|]. by eapply activity_mono; [apply extends_refl|exact Ha|]. Qed.

Lemma flush_to_host_pumped a (fuel : nat) : forall b h,
  extends h0 h -> pumped a h b -> holds (part_of (pumped a)) h (flush_to_host_loop fuel b).
Proof.
  induction fuel as [|fuel IH]; intros b h Hh Hb; cbn [flush_to_host_loop]; [by apply part_of_not_ok|].
  case_bool_decide; [by apply part_of_ok|]. apply call_wp; [done|]. intros r Hr Hh1.
  destruct r as [[|n]|e| |]; try by apply part_of_not_ok.
  - apply part_of_ok; [done|]. by eapply pumped_mono; [exact Hb|auto with foxprox].
  - apply call_wp; [done|]. intros t _ Hh2. apply IH; [done|]. split; [apply Hb|]. by apply activity_now.
  - case_bool_decide; [|by apply part_of_not_ok]. apply part_of_ok; [done|]. by eapply pumped_mono; [exact Hb|auto with foxprox].
Qed.

Lemma read_from_host_pumped a (limit fuel : nat) : forall b h,
  extends h0 h -> pumped a h b -> holds (part_of (pumped a)) h (read_from_host_loop fuel limit b).
Proof.
  induction fuel as [|fuel IH]; intros b h Hh Hb; cbn [read_from_host_loop]; [by apply part_of_not_ok|].
  destruct (negb _); [by apply part_of_ok|]. apply call_wp; [done|]. intros r Hr Hh1.
  destruct r as [[|x chunk]|e| |]; try by apply part_of_not_ok.
  - apply part_of_ok; [done|]. by eapply pumped_mono; [exact Hb|auto with foxprox].
  - apply call_wp; [done|]. intros t _ Hh2. apply IH; [done|]. split; [apply Hb|]. by apply activity_now.
  - case_bool_decide; [|by apply part_of_not_ok]. apply part_of_ok; [done|]. by eapply pumped_mono; [exact Hb|auto with foxprox].
Qed.

Lemma flush_to_sandbox_pumped a (socket : Z) (fuel : nat) : forall b h,
  extends h0 h -> pumped a h b -> holds (part_of (pumped a)) h (flush_to_sandbox_loop fuel socket b).
Proof.
  induction fuel as [|fuel IH]; intros b h Hh Hb; cbn [flush_to_sandbox_loop]; [by apply part_of_not_ok|].
  case_bool_decide; [by apply part_of_ok|]. apply call_wp; [done|]. intros can_send _ Hh1.
  assert (pumped a (h ++ [existT (HostOp.SockCanSend socket) can_send : Action Host]) b) as Hb1
    by (eapply pumped_mono; [exact Hb|auto with foxprox]).
  destruct (negb _); [by apply part_of_ok|].
  apply wp_try, wp_bind, wp_op; [done|]. intros r Hv. cbn [wp].
  destruct r as [[|n]|e| |]; cbn [map_err Nat.eqb]; try (by apply part_of_not_ok; auto with foxprox).
  - apply part_of_ok; [auto with foxprox|]. eapply pumped_mono; [exact Hb1|auto with foxprox].
  - apply call_wp; [auto with foxprox|]. intros t _ Hh2. apply IH; [done|]. split; [apply Hb|]. by apply activity_now.
Qed.

Lemma recv_from_sandbox_pumped a b (socket : Z) (limit : nat) h :
  extends h0 h -> pumped a h b -> holds (part_of (pumped a)) h (recv_from_sandbox socket limit b).
Proof.
  intros Hh [Hs Ha]. eapply part_of_try; [by apply recv_socket_to_vec_activity|].
  intros h1 [pending last] Hh1 Hl. by apply flush_to_host_pumped.
Qed.

Lemma shutdown_host_write_pumped a b (socket : Z) h :
  extends h0 h -> pumped a h b -> holds (part_of (pumped a)) h (shutdown_host_write socket b).
Proof.
  intros Hh Hb. apply call_wp; [done|]. intros may_recv _ Hh1.
  destruct (_ && _); [|by apply part_of_ok; [|eapply pumped_mono; [exact Hb|auto with foxprox]]].
  eapply (part_of_try (fun h' _ => pumped a h' b)); [|by intros; apply part_of_ok].
  apply wp_op; [done|]. intros r Hr. split; [auto with foxprox|]. intros _ _.
  eapply pumped_mono; [exact Hb|auto with foxprox].
Qed.

Lemma active_pump_pumped a (socket : Z) (limit : nat) h :
  extends h0 h -> holds (part_of (pumped a)) h (active_pump socket limit a).
Proof.
  intros Hh. eapply part_of_try; [apply (flush_to_host_pumped a); [done|by split; [|left]]|].
  intros h1 a1 Hh1 H1. eapply part_of_try; [by apply recv_from_sandbox_pumped|].
  intros h2 a2 Hh2 H2. eapply part_of_try; [by apply shutdown_host_write_pumped|].
  intros h3 a3 Hh3 H3. eapply part_of_try; [by apply read_from_host_pumped|].
  intros h4 a4 Hh4 H4. eapply part_of_try; [by apply flush_to_sandbox_pumped|].
  intros h5 a5 Hh5 H5. destruct (_ && _); [|by apply part_of_ok].
  apply call_wp; [done|]. intros [] _ Hh6. apply part_of_ok; [done|]. eapply pumped_mono; [exact H5|auto with foxprox].
Qed.

(** *** Records *)

(** A recorded line was written during the poll; no byte of a flow moved meanwhile. *)
Lemma record_event_during (event : AuditEvent) (audit : AuditBuffer) h :
  extends h0 h ->
  holds (fun h' s => quiet no_data h h' /\ part_of (fun h' _ =>
      during h0 h' (HostOp.StderrWriteAll (audit_event_json_line event)) (Ok tt)) h' (snd s))
    h (record_event event audit).
Proof.
  intros Hh. assert (steps_ok (I := Host) (fun _ _ => True) [] []) as Hnil by by intros [].
  pose proof (record_event_wp no_data (fun _ _ => True) audit_no_data ltac:(done) event audit []) as Hw.
  eapply (wp_mono (I := Host)); [done| |exact (wp_local (I := Host) _ _ _ [] h Hnil Hw)]. clear Hw.
  intros h' [audit' r] (t & -> & _ & (_ & (t' & E & Hq) & Hw)). cbn [app] in E. subst t'.
  split; [by exists t|]. split; [eapply extends_trans; [exact Hh|by exists t]|].
  intros [] Hr. destruct Hh as [t0 ->]. exists (t0 ++ t). split; [by rewrite app_assoc|].
  apply in_or_app. right. by apply (Hw tt).
Qed.

(** Parts that keep the audit buffer beside the result. *)
Lemma audit_part_try {A B} (P : History -> A -> Prop) (P' : History -> B -> Prop)
  (p : AuditIO A) (k : AuditBuffer -> A -> AuditIO B) h :
  holds (fun h' s => part_of P h' (snd s)) h p ->
  (forall h' audit a, extends h0 h' -> P h' a -> holds (fun h'' s => part_of P' h'' (snd s)) h' (k audit a)) ->
  holds (fun h' s => part_of P' h' (snd s)) h (audit_try p k).
Proof.
  intros Hp Hk. apply wp_bind. eapply wp_post; [exact Hp|].
  intros h' [audit [a|e| |]] [Hh HP]; cbn [snd] in *; [by apply Hk, HP|by apply part_of_not_ok..].
Qed.

Lemma keep_audit_part {A} (P : History -> A -> Prop) (audit : AuditBuffer) (p : IO A) h :
  holds (part_of P) h p -> holds (fun h' s => part_of P h' (snd s)) h (keep_audit audit p).
Proof. intros Hp. apply wp_bind. by eapply wp_post; [exact Hp|]. Qed.

Lemma emit_tcp_audit_part audit event decision h :
  extends h0 h -> holds (fun h' s => part_of (fun _ _ => True) h' (snd s)) h (emit_tcp_audit audit event decision).
Proof.
  intros Hh. apply call_wp; [done|]. intros time _ Hh1.
  eapply wp_post; [by apply record_event_during|]. intros h' s (_ & Hh' & _). by split.
Qed.

(** *** Inspecting *)

(** A connecting flow between two ends, begun during the poll. *)
Definition connects (source : TransportEndpoint) (requested host : SocketAddr) (h : History) (c : ConnectingFlow) : Prop :=
  cf_source c = source /\ cf_requested_destination c = requested /\ cf_host_destination c = host /\
  fresh h0 h (cf_started_at c).

Lemma connecting_new_connects source requested host context timeout pending h :
  extends h0 h ->
  holds (fun h' c => extends h0 h' /\ connects source requested host h' c /\ cf_pending_to_host c = pending) h
    (connecting_new_with_egress source requested host context timeout pending).
Proof.
  intros Hh. apply call_wp; [done|]. intros receiver _ Hh1. apply call_wp; [done|]. intros t _ Hh2.
  split; [done|]. split; [|done]. split_and!; try done. by apply during_last.
Qed.

Definition inspected (f : InspectingFlow) (h : History) (s : Inspected) : Prop :=
  same_inspecting f (fst s) /\
  forall c, snd s = Some c -> connects (if_source f) (if_destination f) (if_destination f) h c.

Lemma judge_inspected_part config audit f f' event denied h :
  extends h0 h -> same_inspecting f f' ->
  holds (fun h' s => part_of (inspected f) h' (snd s)) h (judge_inspected config audit f' event denied).
Proof.
  intros Hh Hs. apply call_wp; [done|]. intros [] _ Hh1.
  eapply (audit_part_try (fun _ _ => True)); [by apply emit_tcp_audit_part|]. intros h2 audit2 _ Hh2 _.
  destruct (negb _); [by apply part_of_not_ok|].
  apply wp_bind. eapply wp_post; [by apply connecting_new_connects|]. intros h3 c (Hh3 & Hc & _).
  apply part_of_ok; [done|]. split; [done|]. intros c' [= <-]. destruct Hs as (<- & <- & _). exact Hc.
Qed.

Lemma reject_inspected_part config audit f f' what error h :
  extends h0 h -> holds (fun h' s => part_of (inspected f) h' (snd s)) h (reject_inspected config audit f' what error).
Proof.
  intros Hh. eapply (audit_part_try (fun _ _ => True)); [by apply emit_tcp_audit_part|].
  intros h1 audit1 _ Hh1 _. by apply part_of_not_ok.
Qed.

Lemma inspected_waiting f f' h : same_inspecting f f' -> inspected f h (f', None).
Proof. by split. Qed.

(** The reading of both pumps. *)
Lemma recv_inspected f (socket : Z) (limit : nat) audit h :
  extends h0 h ->
  holds (fun h' s => part_of (fun _ _ => True) h' (snd s)) h
    (keep_audit audit (recv_socket_to_vec socket (if_pending_to_host f) limit (if_last_activity f))).
Proof.
  intros Hh. apply keep_audit_part. eapply wp_post.
  - apply (recv_socket_to_vec_activity socket limit (if_last_activity f)); [done|by left].
  - intros h' r [Hh' _]. by split.
Qed.

Lemma http_pump_part config socket audit f h :
  extends h0 h -> holds (fun h' s => part_of (inspected f) h' (snd s)) h (http_pump config socket audit f).
Proof.
  intros Hh. eapply (audit_part_try (fun _ _ => True)); [by apply recv_inspected|].
  intros h1 audit1 [pending last] Hh1 _. cbv zeta. destruct (parse_http_request_head _ _) as [i|[]| |].
  - by apply judge_inspected_part.
  - by apply part_of_ok.
  - by apply reject_inspected_part.
  - by apply reject_inspected_part.
  - by apply part_of_not_ok.
  - by apply part_of_not_ok.
Qed.

Section with_cache.
Context `{!IterOrder (SandboxId * Hostname) DnsCacheEntry}.

Lemma tls_pump_part config socket cache audit f h :
  extends h0 h -> holds (fun h' s => part_of (inspected f) h' (snd s)) h (tls_pump config socket cache audit f).
Proof.
  intros Hh. eapply (audit_part_try (fun _ _ => True)); [by apply recv_inspected|].
  intros h1 audit1 [pending last] Hh1 _. cbv zeta. destruct (parse_tls_client_hello _) as [i|[]| |].
  - apply wp_bind. unfold tls_dns_hostname. destruct cache as [cache|]; [|by apply judge_inspected_part].
    apply call_wp; [done|]. intros time _ Hh2. by apply judge_inspected_part.
  - by apply part_of_ok.
  - by apply reject_inspected_part.
  - by apply reject_inspected_part.
  - by apply part_of_not_ok.
  - by apply part_of_not_ok.
Qed.

(** *** Steps *)

Definition steps_to (config : TcpProofConfig) (socket : Z) (flow : TransparentTcpState) (h : History) (s : Stepped)
  : Prop :=
  let '(flow', _, r) := s in extends h0 h /\ (returns r -> stage config socket h0 h r flow flow').

Lemma elapsed_over_reads_clock (since : Z) (timeout : Duration) h :
  extends h0 h ->
  holds (fun h' over => extends h0 h' /\ (over = false -> within h0 h' since timeout)) h (elapsed_over since timeout).
Proof.
  intros Hh. apply call_wp; [done|]. intros t _ Hh1. split; [done|]. intros Ho.
  exists t. split; [by apply during_last|]. by apply Z.ltb_ge.
Qed.

Lemma within_mono h h' since limit : within h0 h since limit -> extends h h' -> within h0 h' since limit.
Proof. intros (t & Ht & Hl) Hh. exists t. split; [|done]. by eapply during_mono; [apply extends_refl| |]. Qed.

Lemma abort_flow_steps config socket audit flow h :
  extends h0 h -> holds (steps_to config socket (Some flow)) h (abort_flow socket audit).
Proof.
  intros Hh. apply call_wp; [done|]. intros [] _ Hh1. apply call_wp; [done|]. intros [] _ Hh2.
  split; [done|]. intros _. apply stage_end. left. by apply during_last.
Qed.

(** A flow in its first stage, behind one of the two protocols. *)
Lemma step_inspecting_steps config socket f (wrap : InspectingFlow -> FlowState) (pump : AuditIO Inspected) h :
  wrap = FlowState.InspectingHttp \/ wrap = FlowState.InspectingTls ->
  holds (fun h' s => part_of (inspected f) h' (snd s)) h pump ->
  holds (steps_to config socket (Some (wrap f))) h (step_inspecting socket config wrap pump).
Proof.
  intros Hwrap Hp. apply wp_bind. eapply wp_post; [exact Hp|].
  intros h1 [audit r] [Hh1 Hr]. cbn [snd] in Hr. destruct r as [[f' [c|]]|e| |].
  - destruct (Hr _ eq_refl) as [_ Hc]. destruct (Hc c eq_refl) as (Hs & Hd & Hhd & Hf). split; [done|]. intros _.
    apply (stage_judged _ _ _ _ _ _ f); try done. by destruct Hwrap as [-> | ->]; [left|right].
  - destruct (Hr _ eq_refl) as [Hs _]. cbn [fst] in Hs.
    apply wp_bind. eapply wp_post; [by apply elapsed_over_reads_clock|]. intros h2 expired [Hh2 Hw].
    assert (holds (fun h' gone => extends h0 h' /\
        (gone = false -> within h0 h' (if_started_at f) (tp_connect_timeout config))) h2
      (if expired then Ret true else let* is_active := sock_is_active socket in Ret (negb is_active))) as Hgone.
    { destruct expired; [by split|]. apply call_wp; [done|]. intros is_active _ Hh3. split; [done|]. intros _.
      destruct Hs as (_ & _ & <-). eapply within_mono; [by apply Hw|auto with foxprox]. }
    apply wp_bind. eapply wp_post; [exact Hgone|]. intros h3 [|] [Hh3 Hw3]; [by apply abort_flow_steps|].
    split; [done|]. intros _. by destruct Hwrap as [-> | ->]; constructor; [|apply Hw3| |apply Hw3].
  - by apply abort_flow_steps.
  - by split.
  - by split.
Qed.

Lemma connecting_try_finish_part c h :
  extends h0 h ->
  holds (part_of (fun h' connected => forall a, connected = Some a ->
      during h0 h' (HostOp.TryRecvConnect (cf_receiver c)) (Ok (Ok (af_host a))) /\
      af_source a = cf_source c /\ af_destination a = cf_requested_destination c /\ fresh h0 h' (af_started_at a)))
    h (connecting_try_finish c).
Proof.
  intros Hh. apply call_wp; [done|]. intros r _ Hh1.
  destruct r as [[stream|e| |]|[]| |]; try (by apply part_of_not_ok); [|by apply part_of_ok].
  apply call_wp; [done|]. intros [] _ Hh2.
  apply wp_bind, call_wp; [done|]. intros t _ Hh3. apply part_of_ok; [done|]. intros a [= <-].
  split_and!; try done; [|by apply during_last].
  apply (during_here h0 h); [done|auto with foxprox].
Qed.

Lemma step_connecting_steps config socket audit c h :
  extends h0 h -> holds (steps_to config socket (Some (FlowState.Connecting c))) h (step_connecting socket config audit c).
Proof.
  intros Hh. apply wp_bind. eapply wp_post.
  { eapply (part_of_try (fun _ c' => same_connecting c c')).
    - eapply part_of_try; [by apply (recv_socket_to_vec_activity _ _ (cf_last_activity c)); [|left]|].
      intros h1 [pending last] Hh1 _. by apply part_of_ok.
    - intros h1 c' Hh1 Hs.
      eapply part_of_try; [by apply connecting_try_finish_part|]. intros h2 connected Hh2 Hc.
      apply (part_of_ok (fun h s => same_connecting c (fst s) /\ forall a, snd s = Some a ->
        during h0 h (HostOp.TryRecvConnect (cf_receiver c)) (Ok (Ok (af_host a))) /\
        af_source a = cf_source c /\ af_destination a = cf_requested_destination c /\ fresh h0 h (af_started_at a)));
        [done|]. destruct Hs as (E1 & E2 & E3 & E4 & E5). rewrite E1, E2, E4 in Hc. by split. }
  intros h1 r [Hh1 Hr]. destruct r as [[c' [a|]]|e| |].
  - destruct (Hr _ eq_refl) as [_ Ha]. destruct (Ha a eq_refl) as (H1 & H2 & H3 & H4).
    split; [done|]. intros _. by constructor.
  - destruct (Hr _ eq_refl) as [Hs _]. cbn [fst] in Hs. apply call_wp; [done|]. intros is_active _ Hh2.
    assert (holds (fun h' gone => extends h0 h' /\
        (gone = false -> within h0 h' (cf_started_at c) (tp_connect_timeout config + from_secs 1)))
      (h1 ++ [existT (HostOp.SockIsActive socket) is_active : Action Host])
      (if negb is_active then Ret true else connecting_is_expired c' (tp_connect_timeout config))) as Hgone.
    { destruct (negb is_active); [by split|]. destruct Hs as (_ & _ & _ & _ & <-). by apply elapsed_over_reads_clock. }
    apply wp_bind. eapply wp_post; [exact Hgone|]. intros h3 [|] [Hh3 Hw]; [by apply abort_flow_steps|].
    split; [done|]. intros _. constructor; [done|by apply Hw].
  - by apply abort_flow_steps.
  - by split.
  - by split.
Qed.

(** The record of a relayed flow. *)
Definition closing (config : TcpProofConfig) (a : ActiveFlow) (h : History) : Prop :=
  exists time instant, during h0 h HostOp.Now time /\ during h0 h HostOp.InstantNow instant /\
    during h0 h (HostOp.StderrWriteAll
      (audit_event_json_line (tcp_flow_closed_event time instant (tp_sandbox_id config) a))) (Ok tt).

Lemma closing_mono config a h h' : closing config a h -> extends h h' -> closing config a h'.
Proof.
  intros (time & instant & H1 & H2 & H3) Hh. exists time, instant.
  split_and!; by eapply during_mono; [apply extends_refl|eassumption|].
Qed.

Lemma emit_tcp_flow_closed_part config audit a h :
  extends h0 h ->
  holds (fun h' s => quiet no_data h h' /\ part_of (fun h' _ => closing config a h') h' (snd s))
    h (emit_tcp_flow_closed_audit audit (tp_sandbox_id config) a).
Proof.
  intros Hh. apply call_wp; [done|]. intros time _ Hh1. apply call_wp; [done|]. intros instant _ Hh2.
  eapply wp_post; [by apply wp_extends, record_event_during|]. intros h' s (Hx & Hq & Hh' & Hr).
  split; [eapply quiet_trans; [|exact Hq]; do 2 (apply quiet_step; [done|]); apply quiet_refl|]. split; [done|].
  match type of Hr with context [audit_event_json_line ?event] =>
    assert (event = tcp_flow_closed_event time instant (tp_sandbox_id config) a) as Ee by (cbv; reflexivity);
    rewrite Ee in Hr; clear Ee
  end.
  intros [] E. exists time, instant. split_and!; [| |by apply (Hr tt)].
  - eapply (during_here h0 h); [done|]. eapply extends_trans; [|exact Hx]. auto with foxprox.
  - by eapply (during_here h0 (h ++ _)); [|exact Hx].
Qed.

(** The pump of a relayed flow keeps what the history shows of it. *)
Lemma active_pump_relays config socket a h :
  extends h0 h -> relaying config socket h a ->
  holds (fun h' r => part_of (fun h' b => pumped a h' b /\ relaying config socket h' b) h' r) h
    (active_pump socket (buffer_limit config) a).
Proof.
  intros Hh Ha. eapply wp_post; [apply wp_both; [by apply active_pump_pumped|]|].
  - eapply (wp_mono (I := Host) (relay_permitted config socket)); [done| |by apply active_pump_wp].
    intros h' r H. exact H.
  - intros h' r [[Hh' H1] [_ H2]]. split; [done|]. intros b E. split; [by apply H1|by apply H2].
Qed.

Lemma step_active_steps config socket audit a h :
  extends h0 h -> relaying config socket h a ->
  holds (steps_to config socket (Some (FlowState.Active a))) h (step_active socket config audit a).
Proof.
  intros Hh Hrel. apply wp_bind. eapply wp_post; [by apply active_pump_relays|].
  intros h1 r [Hh1 Hr]. destruct r as [b|e| |]; [|by apply abort_flow_steps|by split..].
  destruct (Hr b eq_refl) as [[Hs Ha] Hb]. apply call_wp; [done|]. intros t _ Hh2.
  destruct (_ <? _) eqn:Eover; [by apply abort_flow_steps|]. set (h2 := h1 ++ _) in *.
  assert (relaying config socket h2 b) as Hb2 by (eapply relaying_mono; [by apply (no_data_step h1 HostOp.InstantNow)|done]).
  assert (forall h' r, extends h2 h' -> extends h0 h' ->
    stage config socket h0 h' r (Some (FlowState.Active a)) (Some (FlowState.Active b))) as Hstay.
  { intros h' r Hh' Hh0. constructor; [done| |].
    - eapply activity_mono; [apply extends_refl|exact Ha|]. eapply extends_trans; [|exact Hh']. unfold h2. auto with foxprox.
    - exists t. split; [by eapply (during_here h0 h1)|by apply Z.ltb_ge]. }
  apply call_wp; [done|]. intros is_active _ Hh3.
  destruct (_ && _ && _) eqn:Edone; [|split; [done|intros _; apply Hstay; auto with foxprox]].
  apply andb_true_iff in Edone as [Edone E2%bool_decide_eq_true_1].
  apply andb_true_iff in Edone as [_ E1%bool_decide_eq_true_1].
  apply wp_bind. eapply wp_post; [by apply wp_extends, (emit_tcp_flow_closed_part config)|].
  intros h4 [audit4 r] (Hh34 & Hq & Hh4 & Hc). cbn [snd] in Hc.
  assert (extends h2 h4) as Hh24 by (eapply extends_trans; [|exact Hh34]; auto with foxprox).
  destruct r as [[]|e| |]; [|split; [done|intros _; by apply Hstay]..].
  apply call_wp; [done|]. intros [] _ Hh5. split; [done|]. intros _. apply stage_end. right.
  assert (closing config b h4) as (time & instant & H1 & H2 & H3)%(closing_mono _ _ _ (h4 ++ [existT HostOp.Eprintln tt]))
    by (exact (Hc tt eq_refl) || auto with foxprox); [|auto with foxprox].
  exists a. split; [done|]. exists b, time, instant. split_and!; try done.
  eapply relaying_mono; [|exact Hb2].
  eapply quiet_trans; [by apply (no_data_step h2 (HostOp.SockIsActive socket) is_active)|].
  eapply quiet_trans; [exact Hq|by apply no_data_step].
Qed.

Lemma step_flow_steps config socket cache audit flow h :
  extends h0 h -> (forall a, flow = Some (FlowState.Active a) -> relaying config socket h a) ->
  holds (steps_to config socket flow) h (step_flow socket config cache audit flow).
Proof.
  intros Hh Ha. destruct flow as [[f|f|c|a]|]; cbn [step_flow].
  - by apply step_inspecting_steps; [left|apply http_pump_part].
  - by apply step_inspecting_steps; [right|apply tls_pump_part].
  - by apply step_connecting_steps.
  - by apply step_active_steps, Ha.
  - split; [done|]. intros _. constructor.
Qed.

(** *** Accepting *)

Lemma start_flow_starts config source destination event decision h :
  extends h0 h ->
  holds (fun h' flow => extends h0 h' /\ starts config h0 h' flow) h
    (start_flow config source destination event decision).
Proof.
  intros Hh. unfold start_flow. destruct (tp_tcp_egress_override config) as [o|] eqn:Eo.
  - apply wp_bind. eapply wp_post; [by apply connecting_new_connects|]. intros h1 c (Hh1 & (_ & _ & E & Hf) & Hp).
    split; [done|]. cbn. by rewrite Eo.
  - destruct (should_inspect_http _); [|destruct (should_inspect_tls _)].
    1-2: apply wp_bind, call_wp; [done|]; intros t _ Hh1; split; [done|]; cbn; split_and!; try done;
         by apply during_last.
    apply wp_bind. eapply wp_post; [by apply connecting_new_connects|]. intros h1 c (Hh1 & (_ & E1 & E2 & Hf) & Hp).
    split; [done|]. cbn. by rewrite Eo, E1.
Qed.

Lemma accept_flow_starts config socket cache audit h :
  extends h0 h ->
  holds (fun h' s => extends h0 h' /\ forall flow, fst s = Some flow -> starts config h0 h' flow) h
    (accept_flow socket config cache None audit).
Proof.
  intros Hh. apply call_wp; [done|]. intros is_active _ Hh1. destruct (negb _); [by split|].
  apply call_wp; [done|]. intros local _ Hh2. apply call_wp; [done|]. intros remote _ Hh3.
  destruct local as [local|]; [|by split]. destruct remote as [remote|]; [|by split].
  apply call_wp; [done|]. intros [] _ Hh4. apply call_wp; [done|]. intros time _ Hh5.
  apply call_wp; [done|]. intros [] _ Hh6.
  apply wp_bind. eapply wp_post; [by apply emit_tcp_audit_part|]. intros h7 [audit7 r] [Hh7 _].
  assert (holds (fun h' s => extends h0 h' /\ forall flow, fst s = Some flow -> starts config h0 h' flow) h7
    (let* _ := eprintln in let* _ := sock_abort socket in Ret (None, audit7))) as Habort.
  { apply call_wp; [done|]. intros [] _ Hh8. apply call_wp; [done|]. intros [] _ Hh9. by split. }
  destruct r as [[]|e| |]; [|done..]. destruct (is_allowed _).
  - apply wp_bind. eapply wp_post; [by apply start_flow_starts|]. intros h8 flow [Hh8 Hs].
    split; [done|]. by intros flow' [= <-].
  - apply call_wp; [done|]. intros [] _ Hh8. by split.
Qed.

Lemma starts_mono config h h' flow : starts config h0 h flow -> extends h h' -> starts config h0 h' flow.
Proof.
  intros Hs Hh. assert (forall t, fresh h0 h t -> fresh h0 h' t) as Hf.
  { intros t Ht. by eapply during_mono; [apply extends_refl|exact Ht|]. }
  destruct flow; cbn in *; try done; destruct Hs as (H1 & H2 & H3); split_and!; try done; by apply Hf.
Qed.

Lemma ensure_listening_wp config socket flow h :
  extends h0 h ->
  holds (fun h' r => extends h0 h' /\ (is_Some flow -> r = Ok tt)) h (ensure_listening socket config flow).
Proof.
  intros Hh. destruct flow as [f|]; [by split|]. apply call_wp; [done|]. intros is_open _ Hh1.
  destruct is_open; [by split; [|intros []]|].
  apply wp_try, wp_bind, wp_op; [done|]. intros r _. cbn [wp].
  destruct r as [[]|e| |]; cbn [map_err]; try (split; [auto with foxprox|by intros []]).
  apply call_wp; [auto with foxprox|]. intros [] _ Hh2. by split; [|intros []].
Qed.

End with_cache.

End polls.

Section poll.
Context `{!IterOrder (SandboxId * Hostname) DnsCacheEntry}.

Lemma tcp_poll_polled config socket flow audit cache h :
  relay_state config socket h flow ->
  wp (I := Host) (fun _ _ => True)
    (fun h' '(flow', _, r) => returns r -> polled config socket h h' flow flow' r) h
    (tcp_poll flow socket config audit cache).
Proof.
  intros Hst. destruct flow as [f|].
  { unfold tcp_poll. cbn [ensure_listening accept_flow prog_bind].
    eapply wp_post; [apply (step_flow_steps h); [apply extends_refl|]|].
    - intros a [= ->]. exact Hst.
    - intros h2 [[flow' audit'] r] [_ Hs] Hret. exists (Some f). split; [done|by apply Hs]. }
  apply wp_bind. eapply wp_post; [apply (ensure_listening_wp h), extends_refl|]. intros h1 r [Hh1 _].
  destruct r as [[]|e| |]; try (by intros _; exists None; split; [left|constructor]).
  apply wp_bind. eapply wp_post; [by apply (accept_flow_starts h)|]. intros h2 [flow audit2] [Hh2 Hs]. cbn [fst] in Hs.
  eapply wp_post; [apply (wp_extends), (step_flow_steps h); [done|]|].
  - intros a ->. by destruct (Hs _ eq_refl).
  - intros h3 [[flow' audit'] r] (Hh23 & _ & Hstage) Hret. exists flow. split; [|by apply Hstage].
    destruct flow as [new|]; [right|by left]. exists new. split; [done|]. eapply starts_mono; [by apply Hs|done].
Qed.

End poll.

Lemma tcp_poll_stages `{!IterOrder (SandboxId * Hostname) DnsCacheEntry} config socket flow audit cache h :
  relay_state config socket h flow ->
  wp (I := Host) (relay_permitted config socket)
    (fun h' '(flow', _, r) => returns r /\ relay_state config socket h' flow' /\
                              polled config socket h h' flow flow' r) h
    (tcp_poll flow socket config audit cache).
Proof.
  intros Hst. eapply wp_post; [apply wp_both; [by apply tcp_poll_wp|by apply tcp_poll_polled]|].
  intros h' [[flow' audit'] r] [[Hr Hst'] Hp]. split_and!; [done|done|by apply Hp].
Qed.

(** ** Properties *)

(** [C8] Flows go through their stages in order and keep their ends: in every state the
    loop reaches, the next poll returns, and it accepts a flow with nothing read, keeps
    the flow in its stage within the stage's deadline, moves it from inspection to
    connection to relaying with the same source and destination (and the stream its own
    worker connected), or ends it: by aborting its socket or, for a relayed flow of which
    every byte that arrived was delivered, after writing its closing record, which holds
    the flow's own source and destination, the bytes delivered to each side over its whole
    life (modulo 2^64) and the time since it was connected. *)
Theorem tcp_flow_keeps_its_stages (order : IterOrder (SandboxId * Hostname) DnsCacheEntry)
  (config : TcpProofConfig) (socket : Z) (n : nat) (audit : AuditBuffer) (cache : option DnsCache) :
  wp (I := Host) (relay_permitted config socket)
    (fun h '(flow, audit, r) =>
       wp (I := Host) (relay_permitted config socket)
         (fun h' '(flow', _, r) => returns r /\ polled config socket h h' flow flow' r) h
         (tcp_poll flow socket config audit cache)) []
    (tcp_polls n transparent_tcp_state_new socket config audit cache).
Proof.
  eapply wp_post; [by apply tcp_polls_wp|]. intros h [[flow audit'] r] [_ Hst].
  eapply wp_post; [by apply tcp_poll_stages|]. intros h' [[flow' audit''] r'] (Hr & _ & Hp). by split.
Qed.

(** The stage's deadline has passed at [late]. *)
Definition stale (config : TcpProofConfig) (late : Z) (flow : FlowState) : Prop :=
  match flow with
  | FlowState.InspectingHttp f | FlowState.InspectingTls f => if_started_at f + tp_connect_timeout config < late
  | FlowState.Connecting c => cf_started_at c + (tp_connect_timeout config + from_secs 1) < late
  | FlowState.Active a => af_last_activity a + tp_idle_timeout config < late
  end.

(** The host moves no bytes. *)
Definition silent (env : Env Host) : Prop := forall h o r, env h o = Some r -> carries (existT o r) = false.

(** The flow has left its stage: it ended, or it went on to the next one. *)
Definition left_stage (config : TcpProofConfig) (socket : Z) (h h' : History) (flow : FlowState)
  (flow' : TransparentTcpState) : Prop :=
  match flow, flow' with
  | _, None => ends config socket h h' flow
  | FlowState.InspectingHttp _, Some (FlowState.Connecting _)
  | FlowState.InspectingTls _, Some (FlowState.Connecting _)
  | FlowState.Connecting _, Some (FlowState.Active _) => True
  | _, _ => False
  end.

(** What holds of every answer of an environment holds of a run against it. *)
Lemma run_answers {A} (P : Action Host -> bool) (env : Env Host) (p : Prog Host A) :
  (forall h o r, env h o = Some r -> P (existT o r) = true) ->
  forall h o r, during h (snd (run env h p)) o r -> P (existT o r) = true.
Proof.
  intros HP. assert (forall h, exists t, snd (run env h p) = h ++ t /\ Forall (fun e => P e = true) t) as Hrun.
  { induction p as [a|o k IH]; intros h; cbn; [exists []; by rewrite app_nil_r|].
    destruct (env h o) as [r|] eqn:E; [|exists []; by rewrite app_nil_r].
    destruct (IH r (h ++ [existT o r])) as (t & Er & Ht). exists (existT o r :: t).
    split; [|constructor; [by apply (HP h)|done]]. etransitivity; [exact Er|]. by rewrite <- app_assoc. }
  intros h o r (t & E & Hin). destruct (Hrun h) as (t' & E' & Ht). rewrite E in E'. apply app_inv_head in E' as <-.
  rewrite Forall_forall in Ht. apply Ht. by apply list_elem_of_In.
Qed.

(** Readings of the clock are not before [late]. *)
Definition late_reading (late : Z) (e : Action Host) : bool :=
  match e with
  | existT HostOp.InstantNow t => late <=? (t : Z)
  | _ => true
  end.

(** [C9] No flow outlives its deadline: once the clock shows that the deadline of a flow's
    stage has passed, the next poll makes the flow leave the stage (or panics in
    [eprintln!] or [thread::spawn]), whatever the stack and the host do, so that a sandbox that keeps a request head or a ClientHello
    incomplete, or a host that never answers, holds a flow for a bounded time; a relayed
    flow on which nothing moves is ended after the idle timeout. *)
Theorem tcp_stale_flow_leaves_its_stage (order : IterOrder (SandboxId * Hostname) DnsCacheEntry)
  (config : TcpProofConfig) (socket : Z) (flow : FlowState) (audit : AuditBuffer) (cache : option DnsCache)
  (env : Env Host) (h : History) (late : Z) :
  env_ok env -> relay_state config socket h (Some flow) ->
  (forall h (t : Z), env h HostOp.InstantNow = Some (t : host_answer HostOp.InstantNow) -> late <= t) ->
  stale config late flow ->
  (match flow with FlowState.Active _ => silent env | _ => True end) ->
  match run env h (tcp_poll (Some flow) socket config audit cache) with
  | (Finished (flow', _, r), h') => returns r /\ left_stage config socket h h' flow flow'
  | (PanickedIn o, _) => o = HostOp.Eprintln \/ exists request, o = HostOp.SpawnConnect request
  end.
Proof.
  intros Henv Hst Hclock Hstale Hsilent.
  pose proof (wp_run _ _ env _ h Henv (tcp_poll_stages config socket (Some flow) audit cache h Hst)) as Hp.
  assert (forall since limit, since + limit < late ->
    ~ within h (snd (run env h (tcp_poll (Some flow) socket config audit cache))) since limit) as Hover.
  { intros since limit Hl (t & Ht & He). unfold elapsed in He.
    apply (run_answers (late_reading late)) in Ht; [apply Z.leb_le in Ht; lia|].
    intros h' [] t' Ht'; try done. by apply Z.leb_le, (Hclock h'). }
  assert (silent env -> ~ traffic h (snd (run env h (tcp_poll (Some flow) socket config audit cache)))) as Hquiet.
  { intros Hs (o & r & Hd & Hc). apply (run_answers (fun e => negb (carries e))) in Hd; [by rewrite Hc in Hd|].
    intros h' o' r' E. by rewrite (Hs h' o' r' E). }
  destruct (run env h _) as [[[[flow' audit'] r]|o] h']; cbn [snd] in *; destruct Hp as [_ Hp]; cbn in Hp.
  2:{ destruct Hp as [Hp Ho]. destruct o; try discriminate Hp; cbn in Ho; try done; [by left|right; by eexists]. }
  destruct Hp as (Hr & _ & accepted & -> & Hstage). split; [done|].
  inversion Hstage as [|? He|? ? Hs Hw|? ? Hs Hw|? ? ? [->| ->]|? ? Hs Hw|? ? Hd|? ? Hs Ha Hw]; subst; cbn; try done.
  - by destruct flow.
  - by destruct (Hover _ _ Hstale Hw).
  - by destruct (Hover _ _ Hstale Hw).
  - by destruct (Hover _ _ Hstale Hw).
  - destruct Ha as [E|[_ Ht]]; [|by destruct (Hquiet Hsilent Ht)]. rewrite E in Hw. by destruct (Hover _ _ Hstale Hw).
Qed.

(** A request head that never comes: accepted by one poll, ended by a late one. *)
Lemma tcp_stale_flow_leaves_its_stage_witness :
  let order := canonical_order (SandboxId * Hostname) DnsCacheEntry in
  let policy := mkPolicyRuleSet [] DecisionAction.Allow true true [] true true in
  let config := mkTcpProofConfig (mkSandboxId (lit "s")) (ipv4_new 10 255 0 1) 24 1500 80 (from_secs 5) 1024
                  (from_secs 30) policy 8 None in
  let at_ (clock : Z) : Answers Host := fun h o =>
    match o return host_answer o with
    | HostOp.InstantNow => clock
    | HostOp.SockIsOpen _ | HostOp.SockIsActive _ => true
    | HostOp.SockLocalEndpoint _ => Some (mkSmolEndpoint (ipv4_new 93 184 216 34) 80)
    | HostOp.SockRemoteEndpoint _ => Some (mkSmolEndpoint (ipv4_new 10 255 0 2) 40000)
    | o => obliging_host h o
    end in
  exists f h audit' h', relay_state config 0 h (Some (FlowState.InspectingHttp f)) /\
    run (answering (at_ (from_secs 6))) h
      (tcp_poll (Some (FlowState.InspectingHttp f)) 0 config (audit_buffer_new 8) None)
    = (Finished (None, audit', Ok tt), h').
Proof.
  intros order policy config at_.
  assert (forall clock, answers_ok (at_ clock)) as Hat.
  { intros clock h o. pose proof (obliging_host_ok h o) as H. destruct o; exact H || exact I. }
  pose proof (executes_finished (I := Host) _ _ _ _ _ (wp_run _ _ _ _ [] (answering_ok _ (Hat 0))
    (tcp_poll_wp config 0 None None (audit_buffer_new 8) [] I))) as H.
  destruct (replay (at_ 0) [] _) as [[[flow audit] r] h] eqn:E1.
  assert (exists f, flow = Some (FlowState.InspectingHttp f) /\ if_started_at f = 0) as (f & -> & Hf).
  { vm_compute in E1. injection E1 as <- _ _ _. by eexists. }
  destruct H as [[_ Hst] _].
  pose proof (tcp_stale_flow_leaves_its_stage order config 0 (FlowState.InspectingHttp f) (audit_buffer_new 8) None
    (answering (at_ (from_secs 6))) h (from_secs 6) (answering_ok _ (Hat _)) Hst
    ltac:(intros h' t [= <-]; reflexivity) ltac:(unfold stale; rewrite Hf; reflexivity) I) as H2.
  rewrite run_answering in H2. cbn beta match in H2.
  match type of H2 with context [replay ?a h ?p] => destruct (replay a h p) as [[[flow' audit'] r'] h'] eqn:E end.
  exists f, h, audit', h'. split; [exact Hst|]. rewrite run_answering, E. destruct H2 as [_ _].
  clear -E E1. vm_compute in E1. injection E1 as <- <- <- <-. vm_compute in E. injection E as <- _ <- _. reflexivity.
Defined.
