(* ===== verification/Udp.v ===== *)
(** * The UDP and DNS relay ([crates/foxprox-net/src/udp.rs])

    The packet runtime's UDP side: DNS queries to the broker address go to the
    upstream resolver, datagrams to the configured ports go to their host
    destinations, each on a worker thread that sends its result back through a
    channel.  The loop owns the audit buffer, the DNS cache and the flow table;
    the [smoltcp] stack, the channel and the workers' schedule are the
    environment.  The worker limiter is in [Limiter]. *)

From S2P Require Import Prelude Text NetAddr Event Policy Flow Dns Inspection AuditLog.
From S2P Require Import Config Effects AuditIo Egress Limiter.

Record UdpDnsProofConfig : Type := mkUdpDnsProofConfig {
  up_sandbox_id : SandboxId;
  up_broker_ip : Z;
  up_prefix_len : Z;
  up_mtu : Z;
  up_dns_port : Z;
  up_upstream_dns : SocketAddr;
  up_udp_packet_capacity : Z;
  up_udp_payload_capacity : Z;
  up_upstream_timeout : Duration;
  up_udp_forward_ports : list Z;
  up_udp_forward_timeout : Duration;
  up_policy : PolicyRuleSet;
  up_audit_queue_capacity : Z;
  up_max_worker_threads : Z;
  up_max_udp_flows : Z
}.

Definition udp_dns_proof_config_new (sandbox_id : SandboxId) : UdpDnsProofConfig :=
  mkUdpDnsProofConfig sandbox_id (ipv4_new 10 255 0 1) 24 1500 53
    (mkSocketAddr (V4 (ipv4_new 1 1 1 1)) 53) 16 (16 * 1500) (from_secs 5) [] (from_secs 3)
    policy_rule_set_default 8192 1024 4096.

Record UdpForwardSocket : Type := mkUdpForwardSocket { us_port : Z; us_handle : Z }.

Record UdpForwardDatagram : Type := mkUdpForwardDatagram {
  ud_socket : UdpForwardSocket;
  ud_payload : list byte;
  ud_metadata : UdpMetadata
}.

Definition other_error (detail : str) : IoError := mkIoError IoErrorKind.Other detail.

Definition validate_max_udp_flows (max_udp_flows : Z) : Result unit IoError :=
  if max_udp_flows =? 0 then
    Err (mkIoError IoErrorKind.InvalidInput (lit "max UDP flows must be non-zero"))
  else Ok tt.

Definition udp_socket_checks (config : UdpDnsProofConfig) : Result unit IoError :=
  if (up_udp_packet_capacity config =? 0) || (up_udp_payload_capacity config =? 0) then
    Err (mkIoError IoErrorKind.InvalidInput (lit "udp capacities must be non-zero"))
  else Ok tt.

(** ** Addresses *)

Definition ip_to_std (ip : Z) : Result IpAddr IoError := Ok (V4 ip).

Definition udp_endpoint_to_transport (endpoint : SmolEndpoint) : Result TransportEndpoint IoError :=
  let? ip := ip_to_std (se_addr endpoint) in
  Ok (mkEndpoint ip (se_port endpoint)).

Definition std_ip_to_smoltcp (ip : IpAddr) : Result Z IoError :=
  match ip with
  | V4 ip => Ok ip
  | V6 _ => Err (other_error (lit "IPv6 is unsupported in UDP proof"))
  end.

(** [metadata.local_address.map(ip_to_std).transpose()?.ok_or_else(..)]. *)
Definition local_destination (metadata : UdpMetadata) : Result IpAddr IoError :=
  match um_local_address metadata with
  | Some ip => ip_to_std ip
  | None => Err (other_error (lit "udp metadata missing local destination"))
  end.

Definition host_port_text (e : TransportEndpoint) : str := ip_display (ep_ip e) ++ lit ":" ++ dec (ep_port e).

Definition udp_classification_for_port (port : Z) : Protocol * FlowTimeoutClass :=
  let classification := classify_udp_candidate port in
  let timeout_class :=
    if bool_decide (classification = Protocol.Quic) then FlowTimeoutClass.Quic else FlowTimeoutClass.GenericUdp in
  (classification, timeout_class).

(** ** Audit *)

Definition udp_audit_kind (event : NetworkEvent) (decision : Decision) : AuditEventKind :=
  match event with
  | NetworkEvent.DnsQuery _ _ _ _ => AuditEventKind.DnsQuery
  | NetworkEvent.UdpFlowAttempt _ _ _ _ _ classification =>
      if bool_decide (classification = Protocol.Quic) && is_allowed decision then
        AuditEventKind.QuicCandidateFlowCreated
      else if is_allowed decision then AuditEventKind.UdpFlowCreated
      else AuditEventKind.UdpPacketDenied
  | _ => AuditEventKind.UnsupportedDenied
  end.

Definition udp_audit_event (now : SystemTime) (event : NetworkEvent) (decision : Decision) : AuditEvent :=
  let audit := with_decision (audit_event_new now Frontend.Tun (udp_audit_kind event decision)) decision in
  let audit := match event_sandbox_id event with
               | Some sandbox_id => with_sandbox_id audit sandbox_id
               | None => audit
               end in
  let audit := set_ae_protocol (Some (event_protocol event)) audit in
  match event with
  | NetworkEvent.DnsQuery _ hostname query_type _ =>
      set_ae_dns (Some query_type) (ae_dns_rcode audit) (ae_dns_answers audit)
        (set_ae_hostname (Some hostname) audit)
  | NetworkEvent.UdpFlowAttempt _ _ source destination attribution _ =>
      set_ae_hostname (at_hostname attribution)
        (set_ae_attribution (Some attribution) (with_endpoints audit (Some source) (Some destination)))
  | NetworkEvent.Unsupported _ _ reason => set_ae_detail (Some (debug_unsupported_reason reason)) audit
  | _ => audit
  end.

Definition emit_udp_raw_audit (audit : AuditBuffer) (event : AuditEvent) : AuditIO unit := record_event event audit.

Definition emit_udp_audit (audit : AuditBuffer) (event : NetworkEvent) (decision : Decision) : AuditIO unit :=
  let* time := now in
  record_event (udp_audit_event time event decision) audit.

Definition debug_ports (ports : list Z) : str := lit "[" ++ join (lit ", ") (map dec ports) ++ lit "]".

Definition emit_udp_lifecycle_audit (audit : AuditBuffer) (config : UdpDnsProofConfig) (kind : AuditEventKind)
  : AuditIO unit :=
  let* time := now in
  let event := with_sandbox_id (audit_event_new time Frontend.Tun kind) (up_sandbox_id config) in
  let event := set_ae_protocol (Some Protocol.Dns) event in
  let event := set_ae_destination (Some (mkEndpoint (V4 (up_broker_ip config)) (up_dns_port config))) event in
  let event := set_ae_detail (Some
    (lit "broker_dns=" ++ ipv4_display (up_broker_ip config) ++ lit ":" ++ dec (up_dns_port config)
     ++ lit " upstream=" ++ socket_addr_display (up_upstream_dns config)
     ++ lit " udp_forward_ports=" ++ debug_ports (up_udp_forward_ports config))) event in
  emit_udp_raw_audit audit event.

Definition dns_response_audit_event (now : SystemTime) (config : UdpDnsProofConfig)
  (observation : DnsResponseObservation) : AuditEvent :=
  let event := with_sandbox_id (audit_event_new now Frontend.Tun AuditEventKind.DnsQuery) (up_sandbox_id config) in
  let event := set_ae_protocol (Some Protocol.Dns) event in
  let event := set_ae_hostname (ro_hostname observation) event in
  let event := set_ae_dns (query_type_str <$> ro_query_type observation) (Some (ro_rcode observation))
                 (ar_address <$> ro_answers observation) event in
  set_ae_decision (Some (decision_allow (lit "broker-dns-response"))) event.

Definition emit_dns_response_audit (audit : AuditBuffer) (config : UdpDnsProofConfig)
  (observation : DnsResponseObservation) : AuditIO unit :=
  let* time := now in
  record_event (dns_response_audit_event time config observation) audit.

Definition udp_flow_expired_event (now : SystemTime) (sandbox_id : SandboxId) (flow : UdpFlowRecord) : AuditEvent :=
  let event := with_sandbox_id (audit_event_new now Frontend.Tun AuditEventKind.UdpFlowExpired) sandbox_id in
  let event := with_endpoints event
    (Some (mkEndpoint (fk_source_ip (uf_key flow)) (fk_source_port (uf_key flow))))
    (Some (mkEndpoint (fk_destination_ip (uf_key flow)) (fk_destination_port (uf_key flow)))) in
  let event := set_ae_protocol (Some Protocol.Udp) event in
  let event := set_ae_destination_port (Some (fk_destination_port (uf_key flow))) event in
  let event := set_ae_attribution (Some (uf_attribution flow)) event in
  let event := set_ae_hostname (at_hostname (uf_attribution flow)) event in
  let event := set_ae_bytes (uf_bytes_from_sandbox flow) (uf_bytes_to_sandbox flow) event in
  set_ae_flow_duration (duration_since (uf_last_activity flow) (uf_created_at flow)) event.

Definition emit_udp_flow_expired_audit (audit : AuditBuffer) (sandbox_id : SandboxId) (flow : UdpFlowRecord)
  : AuditIO unit :=
  let* time := now in
  record_event (udp_flow_expired_event time sandbox_id flow) audit.

Definition emit_udp_unsupported_audit (audit : AuditBuffer) (sandbox_id : SandboxId) (detail : str) : AuditIO unit :=
  let event := NetworkEvent.Unsupported (Some sandbox_id) Frontend.Tun (UnsupportedReason.Malformed detail) in
  let decision := evaluate policy_rule_set_default event in
  emit_udp_audit audit event decision.

(** ** Worker threads *)

Definition forward_udp_datagram (request : UdpEgressRequest) (payload : list byte) (timeout : Duration)
  : IO (option (list byte)) :=
  prog_map_err egress_error_to_io (forward_udp_once std_host_egress_config_default request payload timeout).

Definition forward_dns_query (request : DnsEgressRequest) (payload : list byte) (timeout : Duration)
  : IO (list byte) :=
  prog_map_err egress_error_to_io (query_dns_raw std_host_egress_config_default request payload timeout).

(** The body of a worker's closure, and the result it sends.  The response
    parser is total ([Dns.parse_dns_response_returns]), so [.ok()] is
    [result_ok]. *)
Definition udp_worker (job : UdpWorkerJob) : Prog Host UdpWorkerResult :=
  match job with
  | UdpWorkerJob.Dns request payload timeout question sandbox_id metadata source =>
      let* response := forward_dns_query request payload timeout in
      let observation :=
        match result_ok response with
        | Some response => result_ok (parse_dns_response response (Some question))
        | None => None
        end in
      match observation with
      | Some seen =>
          let* time := now in
          Ret (UdpWorkerResult.Dns metadata source response observation
                 (cache_entry_from_response sandbox_id seen time true))
      | None => Ret (UdpWorkerResult.Dns metadata source response observation [])
      end
  | UdpWorkerJob.Forward request payload timeout handle metadata source destination key =>
      let* response := forward_udp_datagram request payload timeout in
      Ret (UdpWorkerResult.Forward handle metadata source destination key response)
  end.

(** ** The loop's state *)

Record UdpState : Type := mkUdpState {
  st_cache : DnsCache;
  st_flows : UdpFlowTable;
  st_audit : AuditBuffer
}.

Definition set_cache (cache : DnsCache) (st : UdpState) : UdpState := mkUdpState cache (st_flows st) (st_audit st).
Definition set_flows (flows : UdpFlowTable) (st : UdpState) : UdpState := mkUdpState (st_cache st) flows (st_audit st).
Definition set_audit (audit : AuditBuffer) (st : UdpState) : UdpState := mkUdpState (st_cache st) (st_flows st) audit.

Abbreviation UdpStep := (Prog Host (UdpState * Result unit IoError)).

(** [if let Err(error) = p { eprintln!(..); continue; }] on an audit program. *)
Definition or_report (st : UdpState) (p : AuditIO unit) (k : UdpState -> UdpStep) : UdpStep :=
  let* (audit, r) := p in
  let st := set_audit audit st in
  match r with
  | Ok _ => k st
  | Err _ => let* _ := eprintln in Ret (st, Ok tt)
  | Panic => Ret (st, Panic)
  | OutOfFuel => Ret (st, OutOfFuel)
  end.

(** The same on a program that leaves the state alone. *)
Definition or_warn {A} (st : UdpState) (p : IO A) (k : A -> UdpStep) : UdpStep :=
  let* r := p in
  match r with
  | Ok a => k a
  | Err _ => let* _ := eprintln in Ret (st, Ok tt)
  | Panic => Ret (st, Panic)
  | OutOfFuel => Ret (st, OutOfFuel)
  end.

(** Sequencing of steps: a panic or exhausted fuel ends the run. *)
Definition then_step (p : UdpStep) (k : UdpState -> UdpStep) : UdpStep :=
  let* (st, r) := p in
  match r with
  | Ok _ => k st
  | r => Ret (st, r)
  end.

Fixpoint for_each {A} (items : list A) (f : A -> UdpState -> UdpStep) (st : UdpState) : UdpStep :=
  match items with
  | [] => Ret (st, Ok tt)
  | x :: items => then_step (f x st) (for_each items f)
  end.

(** ** Results of workers *)

Definition send_udp_response (handle : Z) (endpoint : SmolEndpoint) (local_address : Z) (response : list byte)
  : IO unit :=
  prog_map_err (fun error => other_error (lit "smoltcp udp send failed: " ++ error))
    (udp_sock_send_slice handle response (mkUdpMetadata endpoint (Some local_address))).

Fixpoint insert_cache_entries (entries : list DnsCacheEntry) (cache : DnsCache) : Prog Host DnsCache :=
  match entries with
  | [] => Ret cache
  | entry :: entries => let* _ := eprintln in insert_cache_entries entries (cache_insert cache entry)
  end.

Definition handle_dns_result (config : UdpDnsProofConfig) (dns_handle : Z) (metadata : UdpMetadata)
  (response : Result (list byte) IoError) (observation : option DnsResponseObservation)
  (cache_entries : list DnsCacheEntry) (st : UdpState) : UdpStep :=
  or_warn st (Ret response) (fun response =>
  or_report st (match observation with
                | Some observation => emit_dns_response_audit (st_audit st) config observation
                | None => Ret (st_audit st, Ok tt)
                end) (fun st =>
  or_warn st (send_udp_response dns_handle (um_endpoint metadata) (up_broker_ip config) response) (fun _ =>
  let* cache := insert_cache_entries cache_entries (st_cache st) in
  let* _ := eprintln in
  Ret (set_cache cache st, Ok tt)))).

Definition handle_forward_result (handle : Z) (metadata : UdpMetadata) (destination : TransportEndpoint)
  (key : FlowKey) (response : Result (option (list byte)) IoError) (st : UdpState) : UdpStep :=
  or_warn st (Ret response) (fun response =>
  match response with
  | None => Ret (st, Ok tt)
  | Some response =>
      let* time := now in
      let st := set_flows (fst (record_host_datagram (st_flows st) key (Z.of_nat (length response)) time)) st in
      or_warn st (Ret (std_ip_to_smoltcp (ep_ip destination))) (fun local_address =>
      or_warn st (send_udp_response handle (um_endpoint metadata) local_address response) (fun _ =>
      let* _ := eprintln in
      Ret (st, Ok tt)))
  end).

Definition handle_worker_result (config : UdpDnsProofConfig) (dns_handle : Z) (result : UdpWorkerResult)
  : UdpState -> UdpStep :=
  match result with
  | UdpWorkerResult.Dns metadata _ response observation cache_entries =>
      handle_dns_result config dns_handle metadata response observation cache_entries
  | UdpWorkerResult.Forward handle metadata _ destination key response =>
      handle_forward_result handle metadata destination key response
  end.

(** [while let Ok(result) = worker_rx.try_recv()]; one round per result. *)
Fixpoint handle_worker_results (fuel : nat) (config : UdpDnsProofConfig) (dns_handle : Z) (st : UdpState) : UdpStep :=
  match fuel with
  | O => Ret (st, OutOfFuel)
  | S fuel =>
      let* received := try_recv_worker in
      match received with
      | Ok result =>
          then_step (handle_worker_result config dns_handle result st) (handle_worker_results fuel config dns_handle)
      | _ => Ret (st, Ok tt)
      end
  end.

(** ** Datagrams from the sandbox *)

Definition broker_dns_decision : Decision := decision_allow (lit "broker-dns").

Definition debug_dns_parse_error (error : DnsParseError) : str :=
  match error with
  | DnsParseError.Truncated => lit "Truncated"
  | DnsParseError.MalformedName => lit "MalformedName"
  | DnsParseError.BadCompressionPointer => lit "BadCompressionPointer"
  | DnsParseError.Unsupported detail => lit "Unsupported(" ++ debug_str detail ++ lit ")"
  end.

Definition malformed_query_detail (source destination : TransportEndpoint) (error : DnsParseError) : str :=
  lit "malformed broker DNS query source=" ++ host_port_text source ++ lit " destination="
  ++ host_port_text destination ++ lit " error=" ++ debug_dns_parse_error error.

Definition dns_query_event (config : UdpDnsProofConfig) (question : DnsQuestion) : NetworkEvent :=
  NetworkEvent.DnsQuery (up_sandbox_id config) (q_hostname question) (query_type_str (q_query_type question))
    Frontend.Tun.

Definition dns_job (config : UdpDnsProofConfig) (payload : list byte) (question : DnsQuestion)
  (metadata : UdpMetadata) (source : TransportEndpoint) : UdpWorkerJob :=
  UdpWorkerJob.Dns
    (mkDnsEgressRequest (mkEgressContext (up_sandbox_id config) Frontend.Tun broker_dns_decision attribution_ip_only)
       (q_hostname question) (query_type_str (q_query_type question))
       (endpoint_of_socket_addr (up_upstream_dns config)))
    payload (up_upstream_timeout config) question (up_sandbox_id config) metadata source.

Definition handle_dns_datagram (config : UdpDnsProofConfig) (audit : AuditBuffer) (payload : list byte)
  (metadata : UdpMetadata) : AuditIO unit :=
  audit_try (Ret (audit, local_destination metadata)) (fun audit destination_ip =>
  audit_try (Ret (audit, udp_endpoint_to_transport (um_endpoint metadata))) (fun audit source =>
  let destination := mkEndpoint destination_ip (up_dns_port config) in
  if negb (bool_decide (destination_ip = V4 (up_broker_ip config))) then
    let event := NetworkEvent.UdpFlowAttempt (up_sandbox_id config) Frontend.Tun source destination
                   attribution_ip_only Protocol.Dns in
    audit_try (emit_udp_audit audit event (evaluate (up_policy config) event)) (fun audit _ =>
    let* _ := eprintln in
    Ret (audit, Ok tt))
  else
    match parse_dns_query payload with
    | Ok question =>
        let* _ := eprintln in
        audit_try (emit_udp_audit audit (dns_query_event config question) broker_dns_decision) (fun audit _ =>
        let* permit := try_acquire_permit in
        if negb permit then
          let* _ := eprintln in
          Ret (audit, Ok tt)
        else
          let* _ := spawn_worker (dns_job config payload question metadata source) in
          Ret (audit, Ok tt))
    | Err error =>
        let* _ := eprintln in
        emit_udp_unsupported_audit audit (up_sandbox_id config) (malformed_query_detail source destination error)
    | Panic => Ret (audit, Panic)
    | OutOfFuel => Ret (audit, OutOfFuel)
    end)).

Section relay.
Context `{!IterOrder (SandboxId * Hostname) DnsCacheEntry, !IterOrder FlowKey UdpFlowRecord}.

Definition udp_attribution_for_destination (config : UdpDnsProofConfig) (cache : DnsCache) (destination_ip : IpAddr)
  (now : SystemTime) : Attribution :=
  match lookup_address cache (up_sandbox_id config) destination_ip now with
  | Some entry => cache_entry_attribution entry
  | None => attribution_ip_only
  end.

Definition flow_limit_decision : Decision :=
  mkDecision DecisionAction.FailClosed None (Some (DenialReason.ResourceLimit (lit "max_udp_flows"))).

Definition udp_event (config : UdpDnsProofConfig) (source destination : TransportEndpoint) (attribution : Attribution)
  : NetworkEvent :=
  NetworkEvent.UdpFlowAttempt (up_sandbox_id config) Frontend.Tun source destination attribution
    (fst (udp_classification_for_port (ep_port destination))).

Definition udp_flow_key (source destination : TransportEndpoint) : FlowKey :=
  flow_key_udp (ep_ip source) (ep_port source) (ep_ip destination) (ep_port destination).

Definition forward_job (config : UdpDnsProofConfig) (datagram : UdpForwardDatagram)
  (source destination : TransportEndpoint) (attribution : Attribution) (decision : Decision) : UdpWorkerJob :=
  UdpWorkerJob.Forward
    (mkUdpEgressRequest (mkEgressContext (up_sandbox_id config) Frontend.Tun decision attribution)
       source destination (snd (udp_classification_for_port (ep_port destination))))
    (ud_payload datagram) (up_udp_forward_timeout config) (us_handle (ud_socket datagram))
    (ud_metadata datagram) source destination (udp_flow_key source destination).

(** Policy allowed the datagram and the record is written: the flow limit, the
    worker limit, the flow record and the worker. *)
Definition forward_allowed (config : UdpDnsProofConfig) (datagram : UdpForwardDatagram)
  (source destination : TransportEndpoint) (attribution : Attribution) (decision : Decision) (now : SystemTime)
  (st : UdpState) : UdpStep :=
  let event := udp_event config source destination attribution in
  let key := udp_flow_key source destination in
  if bool_decide (flow_get (st_flows st) key = None)
     && (up_max_udp_flows config <=? Z.of_nat (flow_len (st_flows st))) then
    let* (audit, r) := emit_udp_audit (st_audit st) event flow_limit_decision in
    match r with
    | Ok _ => let* _ := eprintln in Ret (set_audit audit st, Ok tt)
    | r => Ret (set_audit audit st, r)
    end
  else
    let* permit := try_acquire_permit in
    if negb permit then
      let* _ := eprintln in
      Ret (st, Ok tt)
    else
      let flows := record_sandbox_datagram (st_flows st) key
                     (snd (udp_classification_for_port (ep_port destination))) attribution
                     (Z.of_nat (length (ud_payload datagram))) now in
      let* _ := spawn_worker (forward_job config datagram source destination attribution decision) in
      Ret (set_flows flows st, Ok tt).

Definition handle_udp_forward_datagram (config : UdpDnsProofConfig) (datagram : UdpForwardDatagram) (st : UdpState)
  : UdpStep :=
  match local_destination (ud_metadata datagram), udp_endpoint_to_transport (um_endpoint (ud_metadata datagram)) with
  | Ok destination_ip, Ok source =>
      let destination := mkEndpoint destination_ip (us_port (ud_socket datagram)) in
      let* time := now in
      let attribution := udp_attribution_for_destination config (st_cache st) destination_ip time in
      let event := udp_event config source destination attribution in
      let decision := evaluate (up_policy config) event in
      let* _ := (if bool_decide (fst (udp_classification_for_port (ep_port destination)) = Protocol.Quic)
                 then eprintln else Ret tt) in
      let* _ := eprintln in
      let* (audit, r) := emit_udp_audit (st_audit st) event decision in
      let st := set_audit audit st in
      match r with
      | Ok _ =>
          if negb (is_allowed decision) then Ret (st, Ok tt)
          else forward_allowed config datagram source destination attribution decision time st
      | r => Ret (st, r)
      end
  | Err error, _ | _, Err error => Ret (st, Err error)
  | _, _ => Ret (st, Panic)
  end.

(** ** Expiry *)

Fixpoint expire_flows (sandbox_id : SandboxId) (expired : list UdpFlowRecord) (st : UdpState) : UdpStep :=
  match expired with
  | [] => Ret (st, Ok tt)
  | flow :: expired =>
      let* (audit, r) := emit_udp_flow_expired_audit (st_audit st) sandbox_id flow in
      let st := set_audit audit st in
      match r with
      | Ok _ =>
          let st := set_flows (fst (flow_remove (st_flows st) (uf_key flow))) st in
          let* _ := eprintln in
          expire_flows sandbox_id expired st
      | r => Ret (st, r)
      end
  end.

Definition expire_udp_flows_with_audit (sandbox_id : SandboxId) (now : SystemTime) (st : UdpState) : UdpStep :=
  expire_flows sandbox_id (flow_expired (st_flows st) now) st.

(** ** The loop *)

(** [if let Err(error) = handler(..) { eprintln!(..) }]. *)
Definition report (p : UdpStep) : UdpStep :=
  let* (st, r) := p in
  match r with
  | Err _ => let* _ := eprintln in Ret (st, Ok tt)
  | r => Ret (st, r)
  end.

(** [while socket.can_recv()]; one round per datagram. *)
Fixpoint recv_datagrams (fuel : nat) (socket : Z) (received : list (list byte * UdpMetadata))
  : IO (list (list byte * UdpMetadata)) :=
  match fuel with
  | O => Ret OutOfFuel
  | S fuel =>
      let* can_recv := udp_sock_can_recv socket in
      if negb can_recv then Ret (Ok received)
      else
        let* r := udp_sock_recv socket in
        match r with
        | Ok datagram => recv_datagrams fuel socket (received ++ [datagram])
        | _ => let* _ := eprintln in Ret (Ok received)
        end
  end.

Fixpoint recv_forward (fuel : nat) (sockets : list UdpForwardSocket) (received : list UdpForwardDatagram)
  : IO (list UdpForwardDatagram) :=
  match sockets with
  | [] => Ret (Ok received)
  | socket :: sockets =>
      let! datagrams := recv_datagrams fuel (us_handle socket) [] in
      recv_forward fuel sockets
        (received ++ map (fun '(payload, metadata) => mkUdpForwardDatagram socket payload metadata) datagrams)
  end.

(** A program that leaves the state alone, inside a step. *)
Definition with_state {A} (st : UdpState) (p : IO A) (k : A -> UdpStep) : UdpStep :=
  let* r := p in
  match r with
  | Ok a => k a
  | Err e => Ret (st, Err e)
  | Panic => Ret (st, Panic)
  | OutOfFuel => Ret (st, OutOfFuel)
  end.

Definition dns_step (config : UdpDnsProofConfig) (datagram : list byte * UdpMetadata) (st : UdpState) : UdpStep :=
  report (let* (audit, r) := handle_dns_datagram config (st_audit st) (fst datagram) (snd datagram) in
          Ret (set_audit audit st, r)).

Definition forward_step (config : UdpDnsProofConfig) (datagram : UdpForwardDatagram) (st : UdpState) : UdpStep :=
  report (handle_udp_forward_datagram config datagram st).

Definition expire_step (config : UdpDnsProofConfig) (st : UdpState) : UdpStep :=
  let* time := now in
  let (cache, expired) := cache_expire (st_cache st) time in
  let* _ := (if (0 <? expired)%nat then eprintln else Ret tt) in
  report (expire_udp_flows_with_audit (up_sandbox_id config) time (set_cache cache st)).

(** One round of the endless loop, in two parts: the results of the workers,
    then the datagrams, new results and expiry. *)
Definition udp_front (fuel : nat) (config : UdpDnsProofConfig) (dns_handle : Z) (st : UdpState) : UdpStep :=
  let* _ := iface_poll in
  handle_worker_results fuel config dns_handle st.

Definition udp_back (fuel : nat) (config : UdpDnsProofConfig) (dns_handle : Z)
  (forward_sockets : list UdpForwardSocket) (st : UdpState) : UdpStep :=
  with_state st (recv_datagrams fuel dns_handle []) (fun received =>
  then_step (for_each received (dns_step config) st) (fun st =>
  with_state st (recv_forward fuel forward_sockets []) (fun received =>
  then_step (for_each received (forward_step config) st) (fun st =>
  then_step (handle_worker_results fuel config dns_handle st) (fun st =>
  then_step (expire_step config st) (fun st =>
  let* _ := sleep (from_millis 2) in
  Ret (st, Ok tt))))))).

Definition udp_round (fuel : nat) (config : UdpDnsProofConfig) (dns_handle : Z)
  (forward_sockets : list UdpForwardSocket) (st : UdpState) : UdpStep :=
  then_step (udp_front fuel config dns_handle st) (udp_back fuel config dns_handle forward_sockets).

Fixpoint udp_rounds (n fuel : nat) (config : UdpDnsProofConfig) (dns_handle : Z)
  (forward_sockets : list UdpForwardSocket) (st : UdpState) : UdpStep :=
  match n with
  | O => Ret (st, Ok tt)
  | S n =>
      then_step (udp_round fuel config dns_handle forward_sockets st)
        (udp_rounds n fuel config dns_handle forward_sockets)
  end.

(** ** Start-up *)

(** [udp_socket(&config)?], bound to a port, added to the socket set. *)
Definition bound_socket (config : UdpDnsProofConfig) (what : str) (port : Z) : IO Z :=
  let! _ := Ret (udp_socket_checks config) in
  let* handle := udp_sock_new in
  let! _ := prog_map_err (fun error => other_error (what ++ error)) (udp_sock_bind handle port) in
  Ret (Ok handle).

Fixpoint bind_forward_sockets (config : UdpDnsProofConfig) (ports : list Z) : IO (list UdpForwardSocket) :=
  match ports with
  | [] => Ret (Ok [])
  | port :: ports =>
      if port =? up_dns_port config then bind_forward_sockets config ports
      else
        let! handle := bound_socket config (lit "udp forward bind failed: ") port in
        let! sockets := bind_forward_sockets config ports in
        Ret (Ok (mkUdpForwardSocket port handle :: sockets))
  end.

(** Start-up around the configuration of the packet interface ([setup]), the
    lifecycle records, and [n] rounds of the loop. *)
Definition run_udp_dns_proof (n fuel : nat) (config : UdpDnsProofConfig) (setup ready : IO unit) : IO UdpState :=
  let! audit := Ret (net_audit_buffer (up_audit_queue_capacity config)) in
  let! _ := Ret (worker_limiter_new (up_max_worker_threads config)) in
  let! _ := Ret (validate_max_udp_flows (up_max_udp_flows config)) in
  let! _ := setup in
  let! dns_handle := bound_socket config (lit "udp dns bind failed: ") (up_dns_port config) in
  let! forward_sockets := bind_forward_sockets config (up_udp_forward_ports config) in
  let* (audit, r) :=
    audit_try (emit_udp_lifecycle_audit audit config AuditEventKind.SessionStarted) (fun audit _ =>
    audit_try (emit_udp_lifecycle_audit audit config AuditEventKind.BrokerStarted) (fun audit _ =>
    audit_try (emit_udp_lifecycle_audit audit config AuditEventKind.TunConfigured) (fun audit _ =>
    let* _ := eprintln in
    keep_audit audit ready))) in
  let! _ := Ret r in
  let* (st, r) := udp_rounds n fuel config dns_handle forward_sockets (mkUdpState ∅ ∅ audit) in
  Ret (result_map (fun _ => st) r).

End relay.

(** ** What a history shows *)

#[local] Arguments udp_audit_event : simpl never.
#[local] Arguments dns_response_audit_event : simpl never.
#[local] Arguments udp_flow_expired_event : simpl never.
#[local] Arguments audit_event_json_line : simpl never.

Abbreviation History := (list (Action Host)).

(** Any continuation. *)
Definition any_op (o : HostOp) : bool := true.
Abbreviation grows := (quiet any_op).

Definition recorded_line (event : AuditEvent) (h : History) : Prop :=
  happened (HostOp.StderrWriteAll (audit_event_json_line event)) (Ok tt) h.

Definition udp_recorded (event : NetworkEvent) (decision : Decision) (h : History) : Prop :=
  exists time, recorded_line (udp_audit_event time event decision) h.

Definition received (handle : Z) (payload : list byte) (metadata : UdpMetadata) (h : History) : Prop :=
  happened (HostOp.UdpSockRecv handle) (Ok (payload, metadata)) h.

Definition worker_sent (result : UdpWorkerResult) (h : History) : Prop := happened HostOp.TryRecvWorker (Ok result) h.

Definition spawned (job : UdpWorkerJob) (h : History) : Prop := happened (HostOp.SpawnWorker job) tt h.

(** The last thing that happened is that the limiter granted a permit. *)
Definition holds_permit (h : History) : Prop := exists h0, h = h0 ++ [existT HostOp.TryAcquire true : Action Host].

(** The audit record of a DNS response, if it could be parsed. *)
Definition response_recorded (config : UdpDnsProofConfig) (observation : option DnsResponseObservation) (h : History)
  : Prop :=
  forall seen, observation = Some seen -> exists time, recorded_line (dns_response_audit_event time config seen) h.

(** A query that may go upstream: received on the DNS socket for the broker's
    own address, well-formed, and recorded. *)
Definition dns_authorised (config : UdpDnsProofConfig) (dns_handle : Z) (h : History) (job : UdpWorkerJob) : Prop :=
  exists payload metadata question,
    received dns_handle payload metadata h /\
    um_local_address metadata = Some (up_broker_ip config) /\
    parse_dns_query payload = Ok question /\
    udp_recorded (dns_query_event config question) broker_dns_decision h /\
    job = dns_job config payload question metadata
            (mkEndpoint (V4 (se_addr (um_endpoint metadata))) (se_port (um_endpoint metadata))).

(** A datagram that may go to the host network: received on a forward socket,
    and its flow event allowed and recorded under the policy of the relay. *)
Definition forward_authorised (config : UdpDnsProofConfig) (sockets : list UdpForwardSocket) (h : History)
  (job : UdpWorkerJob) : Prop :=
  exists socket payload metadata ip attribution,
    let source := mkEndpoint (V4 (se_addr (um_endpoint metadata))) (se_port (um_endpoint metadata)) in
    let destination := mkEndpoint (V4 ip) (us_port socket) in
    let event := udp_event config source destination attribution in
    let decision := evaluate (up_policy config) event in
    socket ∈ sockets /\ received (us_handle socket) payload metadata h /\ um_local_address metadata = Some ip /\
    is_allowed decision = true /\ udp_recorded event decision h /\
    job = forward_job config (mkUdpForwardDatagram socket payload metadata) source destination attribution decision.

(** A response that may go back into the sandbox: the payload a worker sent,
    on the socket and to the endpoint of its request, from the address the
    request was sent to; a DNS response only after its record is written. *)
Definition response_authorised (config : UdpDnsProofConfig) (dns_handle : Z) (h : History)
  (handle : Z) (bytes : list byte) (target : UdpMetadata) : Prop :=
  (exists metadata source observation entries,
     worker_sent (UdpWorkerResult.Dns metadata source (Ok bytes) observation entries) h /\
     response_recorded config observation h /\
     handle = dns_handle /\ target = mkUdpMetadata (um_endpoint metadata) (Some (up_broker_ip config))) \/
  (exists metadata source destination key ip,
     worker_sent (UdpWorkerResult.Forward handle metadata source destination key (Ok (Some bytes))) h /\
     ep_ip destination = V4 ip /\ target = mkUdpMetadata (um_endpoint metadata) (Some ip)).

Definition udp_permitted (config : UdpDnsProofConfig) (dns_handle : Z) (sockets : list UdpForwardSocket)
  (h : History) (o : HostOp) : Prop :=
  match o with
  | HostOp.SpawnWorker job =>
      holds_permit h /\ (dns_authorised config dns_handle h job \/ forward_authorised config sockets h job)
  | HostOp.UdpSockSendSlice handle bytes target => response_authorised config dns_handle h handle bytes target
  | HostOp.TryAcquire | HostOp.UdpSockCanRecv _ | HostOp.UdpSockRecv _ | HostOp.TryRecvWorker | HostOp.IfacePoll
  | HostOp.Sleep _ => True
  | _ => audit_op o = true
  end.

(** ** The invariant of the loop *)

(** A cache entry comes from a response that was recorded and delivered. *)
Definition cache_entry_earned (config : UdpDnsProofConfig) (dns_handle : Z) (h : History) (entry : DnsCacheEntry)
  : Prop :=
  exists metadata source response observation entries,
    worker_sent (UdpWorkerResult.Dns metadata source (Ok response) observation entries) h /\
    response_recorded config observation h /\ entry ∈ entries /\
    happened (HostOp.UdpSockSendSlice dns_handle response
                (mkUdpMetadata (um_endpoint metadata) (Some (up_broker_ip config)))) (Ok tt) h.

Definition flow_key_of (job : UdpWorkerJob) : option FlowKey :=
  match job with
  | UdpWorkerJob.Forward _ _ _ _ _ _ _ key => Some key
  | UdpWorkerJob.Dns _ _ _ _ _ _ _ => None
  end.

Record udp_inv (config : UdpDnsProofConfig) (dns_handle : Z) (h : History) (st : UdpState) : Prop := mkUdpInv {
  ui_bound : st_flows st = ∅ \/ Z.of_nat (flow_len (st_flows st)) <= up_max_udp_flows config;
  ui_wf : flow_table_wf (st_flows st);
  ui_flows : forall key r, st_flows st !! key = Some r -> exists job, spawned job h /\ flow_key_of job = Some key;
  ui_cache_wf : cache_wf (st_cache st);
  ui_cache : forall key entry, st_cache st !! key = Some entry -> cache_entry_earned config dns_handle h entry
}.

(** How many results and datagrams the environment has handed over. *)
Definition is_delivery (e : Action Host) : bool :=
  match e with
  | existT HostOp.TryRecvWorker r => is_ok (r : Result UdpWorkerResult TryRecvError)
  | existT (HostOp.UdpSockRecv _) r => is_ok (r : Result (list byte * UdpMetadata) str)
  | _ => false
  end.

Definition deliveries (h : History) : nat := length (List.filter is_delivery h).

(** ** Weakest preconditions *)

Lemma deliveries_grow h h' : grows h h' -> (deliveries h <= deliveries h')%nat.
Proof. intros (t & -> & _). unfold deliveries. rewrite List.filter_app, length_app. lia. Qed.

Lemma deliveries_snoc h (e : Action Host) : deliveries (h ++ [e]) = (deliveries h + Nat.b2n (is_delivery e))%nat.
Proof. unfold deliveries. rewrite List.filter_app, length_app. cbn. by destruct (is_delivery e). Qed.

Lemma grows_step h (o : HostOp) (r : host_answer o) : grows h (h ++ [existT o r : Action Host]).
Proof. apply quiet_step; [done|apply quiet_refl]. Qed.

Lemma grows_step_trans h h1 (o : HostOp) (r : host_answer o) : grows h h1 -> grows h (h1 ++ [existT o r : Action Host]).
Proof. intros H. eapply quiet_trans; [exact H|apply grows_step]. Qed.

#[local] Hint Resolve grows_step grows_step_trans : foxprox.

Lemma recorded_line_mono event h h' : grows h h' -> recorded_line event h -> recorded_line event h'.
Proof. apply happened_mono. Qed.

Lemma udp_recorded_mono event decision h h' : grows h h' -> udp_recorded event decision h -> udp_recorded event decision h'.
Proof. intros Hg [time H]. exists time. by eapply recorded_line_mono. Qed.

Lemma response_recorded_mono config observation h h' :
  grows h h' -> response_recorded config observation h -> response_recorded config observation h'.
Proof. intros Hg H seen Hs. destruct (H seen Hs) as [time Ht]. exists time. by eapply recorded_line_mono. Qed.

Lemma cache_entry_earned_mono config dns_handle entry h h' :
  grows h h' -> cache_entry_earned config dns_handle h entry -> cache_entry_earned config dns_handle h' entry.
Proof.
  intros Hg (metadata & source & response & observation & entries & H1 & H2 & H3 & H4).
  exists metadata, source, response, observation, entries.
  split_and!; [by eapply happened_mono|by eapply response_recorded_mono|done|by eapply happened_mono].
Qed.

Lemma udp_inv_mono config dns_handle st h h' : grows h h' -> udp_inv config dns_handle h st -> udp_inv config dns_handle h' st.
Proof.
  intros Hg [H1 H2 H3 H4 H5]. split; try done.
  - intros key r Hr. destruct (H3 key r Hr) as (job & Hj & Hk). exists job. split; [by eapply happened_mono|done].
  - intros key entry He. eapply cache_entry_earned_mono; [done|by eapply H5].
Qed.

Lemma udp_inv_set_audit config dns_handle st h audit :
  udp_inv config dns_handle h st -> udp_inv config dns_handle h (set_audit audit st).
Proof. intros []. by split. Qed.

Lemma udp_inv_set_cache config dns_handle st h cache :
  udp_inv config dns_handle h st -> cache_wf cache ->
  (forall key entry, cache !! key = Some entry -> cache_entry_earned config dns_handle h entry) ->
  udp_inv config dns_handle h (set_cache cache st).
Proof. intros [] ??. by split. Qed.

Section machine.
Context `{!IterOrder (SandboxId * Hostname) DnsCacheEntry, !IterOrder FlowKey UdpFlowRecord}.
Context (config : UdpDnsProofConfig) (dns_handle : Z) (sockets : list UdpForwardSocket) (fuel : nat).
Abbreviation permitted := (udp_permitted config dns_handle sockets).
Abbreviation inv := (udp_inv config dns_handle).

Lemma udp_audit h (o : HostOp) : audit_op o = true -> permitted h o.
Proof. by destruct o. Qed.

(** After a step: the history has grown, the invariant holds and the result is
    not an error; fuel is exhausted only by that many deliveries. *)
Definition settled (h0 h : History) (s : UdpState * Result unit IoError) : Prop :=
  grows h0 h /\ inv h (fst s) /\
  match snd s with
  | Ok _ => True
  | OutOfFuel => (fuel <= deliveries h)%nat
  | Err _ | Panic => False
  end.

(** After a handler, which may return an error. *)
Definition handled (h0 h : History) (s : UdpState * Result unit IoError) : Prop :=
  grows h0 h /\ inv h (fst s) /\ returns (snd s).

Lemma settled_grows h0 h1 h s : grows h0 h1 -> settled h1 h s -> settled h0 h s.
Proof. intros Hg (H1 & H2 & H3). split_and!; [by eapply quiet_trans|done|done]. Qed.

Lemma settled_ok h0 h st : grows h0 h -> inv h st -> settled h0 h (st, Ok tt).
Proof. intros Hg Hi. split; [exact Hg|]. by split. Qed.

(** A diagnostic line, then a result. *)
Lemma eprintln_wp {A} (Q : History -> A -> Prop) (k : Prog Host A) h :
  (forall h', grows h h' -> wp permitted Q h' k) -> wp permitted Q h (let* _ := eprintln in k).
Proof. intros H. apply wp_bind, wp_op; [done|]. intros [] _. by apply H, grows_step. Qed.

Lemma eprintln_ok h0 h st : grows h0 h -> inv h st ->
  wp permitted (settled h0) h (let* _ := eprintln in Ret (st, Ok tt)).
Proof.
  intros Hg Hi. apply eprintln_wp. intros h' Hg'. apply settled_ok; [by eapply quiet_trans|by eapply udp_inv_mono].
Qed.

Lemma then_step_wp (p : UdpStep) (k : UdpState -> UdpStep) h0 h :
  wp permitted (settled h) h p -> grows h0 h ->
  (forall h' st, grows h h' -> inv h' st -> wp permitted (settled h') h' (k st)) ->
  wp permitted (settled h0) h (then_step p k).
Proof.
  intros Hp Hg Hk. apply wp_bind. eapply wp_post; [exact Hp|]. intros h1 [st r] (H1 & H2 & H3). cbn in H2, H3.
  destruct r as [[]|e| |]; try done.
  - eapply wp_post; [by apply Hk|]. intros h2 s Hs. eapply settled_grows; [|exact Hs]. by eapply quiet_trans.
  - split_and!; [by eapply quiet_trans|done|done].
Qed.

(** A fallible program that does not touch the state, with its error reported. *)
Lemma or_warn_wp {A} (st : UdpState) (p : IO A) (k : A -> UdpStep) (P : History -> A -> Prop) h0 h :
  grows h0 h -> inv h st ->
  wp permitted (part any_op h P) h p ->
  (forall h' a, grows h h' -> inv h' st -> P h' a -> wp permitted (settled h') h' (k a)) ->
  wp permitted (settled h0) h (or_warn st p k).
Proof.
  intros Hg Hi Hp Hk. apply wp_bind. eapply wp_post; [exact Hp|]. intros h1 r (Hr & Hg1 & H1).
  assert (inv h1 st) as Hi1 by by eapply udp_inv_mono. assert (grows h0 h1) by by eapply quiet_trans.
  destruct r as [a|e| |]; try done; [|by apply eprintln_ok].
  eapply wp_post; [apply Hk; auto|]. intros h2 s Hs. by eapply settled_grows.
Qed.

Lemma or_report_wp (st : UdpState) (p : AuditIO unit) (k : UdpState -> UdpStep) (P : History -> unit -> Prop) h0 h :
  grows h0 h -> inv h st ->
  wp permitted (fun h' '(_, r) => part any_op h P h' r) h p ->
  (forall h' audit, grows h h' -> inv h' (set_audit audit st) -> P h' tt ->
     wp permitted (settled h') h' (k (set_audit audit st))) ->
  wp permitted (settled h0) h (or_report st p k).
Proof.
  intros Hg Hi Hp Hk. apply wp_bind. eapply wp_post; [exact Hp|]. intros h1 [audit r] (Hr & Hg1 & H1).
  assert (inv h1 (set_audit audit st)) as Hi1 by by apply udp_inv_set_audit; eapply udp_inv_mono.
  assert (grows h0 h1) by by eapply quiet_trans.
  destruct r as [[]|e| |]; try done; [|by apply eprintln_ok].
  eapply wp_post; [apply Hk; auto|]. intros h2 s Hs. by eapply settled_grows.
Qed.

Lemma for_each_wp {A} (P : History -> A -> Prop) (f : A -> UdpState -> UdpStep) (items : list A) :
  (forall h h' x, grows h h' -> P h x -> P h' x) ->
  (forall h x st, P h x -> inv h st -> wp permitted (settled h) h (f x st)) ->
  forall h st, Forall (P h) items -> inv h st -> wp permitted (settled h) h (for_each items f st).
Proof.
  intros Hmono Hf. induction items as [|x items IH]; intros h st Hx Hi; cbn [for_each].
  - apply settled_ok; [apply quiet_refl|done].
  - apply Forall_cons in Hx as [Hx Hxs]. apply then_step_wp; [by apply Hf|apply quiet_refl|].
    intros h' st' Hg Hi'. apply IH; [|done]. eapply Forall_impl; [exact Hxs|]. intros y. by apply Hmono.
Qed.

Lemma emit_wp (event : SystemTime -> AuditEvent) (audit : AuditBuffer) h :
  wp permitted (fun h' '(_, r) => part any_op h (fun h' _ => exists time, recorded_line (event time) h') h' r) h
    (let* time := now in record_event (event time) audit).
Proof.
  apply wp_bind, wp_op; [done|]. intros time _.
  eapply wp_post; [apply (record_event_wp any_op permitted); [done|apply udp_audit]|].
  intros h' [b r] (Hr & Hg & H). split_and!; [done|eapply quiet_trans; [apply grows_step|done]|].
  intros [] E. exists time. by apply (H tt).
Qed.

Lemma send_udp_response_wp handle endpoint local_address bytes h :
  response_authorised config dns_handle h handle bytes (mkUdpMetadata endpoint (Some local_address)) ->
  wp permitted (part any_op h (fun h' _ =>
      happened (HostOp.UdpSockSendSlice handle bytes (mkUdpMetadata endpoint (Some local_address))) (Ok tt) h')) h
    (send_udp_response handle endpoint local_address bytes).
Proof.
  intros H. apply prog_map_err_wp, wp_op; [done|].
  intros [[]|e| |] Hr; try done; [apply part_ok|apply part_err]; auto using happened_last with foxprox.
Qed.

(** ** Worker results *)

Lemma cache_insert_earned h cache entry :
  cache_wf cache /\ (forall key e, cache !! key = Some e -> cache_entry_earned config dns_handle h e) ->
  cache_entry_earned config dns_handle h entry ->
  cache_wf (cache_insert cache entry) /\
  (forall key e, cache_insert cache entry !! key = Some e -> cache_entry_earned config dns_handle h e).
Proof.
  intros [Hwf Hc] He. unfold cache_insert. split.
  - intros key e [[<- <-]|[_ ?]]%lookup_insert_Some; [done|by apply Hwf].
  - intros key e [[<- <-]|[_ ?]]%lookup_insert_Some; [done|by eapply Hc].
Qed.

Lemma insert_cache_entries_wp (entries : list DnsCacheEntry) : forall cache h,
  Forall (cache_entry_earned config dns_handle h) entries ->
  cache_wf cache /\ (forall key e, cache !! key = Some e -> cache_entry_earned config dns_handle h e) ->
  wp permitted (fun h' cache' => grows h h' /\ cache_wf cache' /\
      (forall key e, cache' !! key = Some e -> cache_entry_earned config dns_handle h' e)) h
    (insert_cache_entries entries cache).
Proof.
  induction entries as [|entry entries IH]; intros cache h He Hc; cbn [insert_cache_entries].
  - split; [apply quiet_refl|done].
  - apply Forall_cons in He as [He Hes]. apply eprintln_wp. intros h1 Hg.
    assert (forall e, cache_entry_earned config dns_handle h e -> cache_entry_earned config dns_handle h1 e) as Hm
      by by intros e; apply cache_entry_earned_mono.
    destruct (cache_insert_earned h cache entry Hc He) as [Hwf Hin].
    eapply wp_post; [apply IH; [by eapply Forall_impl|split; [done|eauto]]|].
    intros h2 cache' [Hg2 H2]. split; [by eapply quiet_trans|done].
Qed.

Lemma handle_dns_result_wp metadata source response observation entries st h :
  returns response -> worker_sent (UdpWorkerResult.Dns metadata source response observation entries) h -> inv h st ->
  wp permitted (settled h) h (handle_dns_result config dns_handle metadata response observation entries st).
Proof.
  intros Hret Hsent Hi. unfold handle_dns_result.
  eapply (or_warn_wp _ _ _ (fun _ bytes => response = Ok bytes)); [apply quiet_refl|done| |].
  { cbn. split_and!; [done|apply quiet_refl|done]. }
  intros h1 bytes Hg1 Hi1 ->. eapply (happened_mono _ _ any_op) in Hsent; [|exact Hg1]. clear h Hg1 Hi.
  eapply (or_report_wp _ _ _ (fun h _ => response_recorded config observation h)); [apply quiet_refl|done| |].
  { destruct observation as [seen|].
    - eapply wp_post; [apply emit_wp|]. intros h2 [b r] (H1 & H2 & H3). split_and!; [done|done|].
      intros u E seen' [= <-]. by apply (H3 u).
    - cbn. apply part_ok; [apply quiet_refl|]. by intros seen. }
  intros h2 audit Hg2 Hi2 Hrec. eapply (happened_mono _ _ any_op) in Hsent; [|exact Hg2]. clear h1 Hg2 Hi1.
  eapply or_warn_wp; [apply quiet_refl|done|apply send_udp_response_wp|].
  { left. exists metadata, source, observation, entries. done. }
  intros h3 [] Hg3 Hi3 Hout.
  assert (Forall (cache_entry_earned config dns_handle h3) entries) as He.
  { apply Forall_forall. intros e Hin. exists metadata, source, bytes, observation, entries.
    split_and!; [by eapply happened_mono|by eapply response_recorded_mono|done|done]. }
  apply wp_bind. eapply wp_post; [apply insert_cache_entries_wp; [done|split; apply Hi3]|].
  intros h4 cache (Hg4 & Hwf & Hc). eapply wp_post; [apply (eprintln_ok h3)|]; [done| |done].
  apply udp_inv_set_cache; [by eapply udp_inv_mono|done|done].
Qed.

Lemma record_host_datagram_inv h st key bytes time :
  inv h st -> inv h (set_flows (fst (record_host_datagram (st_flows st) key bytes time)) st).
Proof.
  intros [H1 H2 H3 H4 H5]. unfold record_host_datagram. destruct (st_flows st !! key) as [r|] eqn:E; [|by destruct st].
  split; cbn [set_flows st_flows st_cache fst]; try done.
  - right. unfold flow_len. rewrite map_size_insert_Some by done. destruct H1 as [H1|H1]; [|done].
    by rewrite H1, lookup_empty in E.
  - intros k r' [[<- <-]|[_ Hk]]%lookup_insert_Some; [by apply (H2 _ _ E)|by apply H2].
  - intros k r' [[<- <-]|[_ Hk]]%lookup_insert_Some; eauto.
Qed.

Lemma handle_forward_result_wp handle metadata source destination key response st h :
  returns response -> worker_sent (UdpWorkerResult.Forward handle metadata source destination key response) h ->
  inv h st ->
  wp permitted (settled h) h (handle_forward_result handle metadata destination key response st).
Proof.
  intros Hret Hsent Hi. unfold handle_forward_result.
  eapply (or_warn_wp _ _ _ (fun _ bytes => response = Ok bytes)); [apply quiet_refl|done| |].
  { cbn. split_and!; [done|apply quiet_refl|done]. }
  intros h1 [bytes|] Hg1 Hi1 ->; [|by apply settled_ok; [apply quiet_refl|]].
  eapply (happened_mono _ _ any_op) in Hsent; [|exact Hg1]. clear h Hg1 Hi.
  apply wp_bind, wp_op; [done|]. intros time _.
  pose proof (grows_step h1 HostOp.Now time) as Hg2. set (h2 := h1 ++ _) in *. clearbody h2.
  eapply (happened_mono _ _ any_op) in Hsent; [|exact Hg2]. eapply udp_inv_mono in Hi1; [|exact Hg2].
  apply (record_host_datagram_inv _ _ key (Z.of_nat (length bytes)) time) in Hi1.
  eapply (or_warn_wp _ _ _ (fun _ ip => ep_ip destination = V4 ip)); [done|done| |].
  { destruct (ep_ip destination); cbn; split_and!; try done; try apply quiet_refl. by intros ? [= <-]. }
  intros h3 ip Hg3 Hi3 Hip. eapply (happened_mono _ _ any_op) in Hsent; [|exact Hg3].
  eapply or_warn_wp; [apply quiet_refl|done|apply send_udp_response_wp|].
  { right. exists metadata, source, destination, key, ip. done. }
  intros h4 [] Hg4 Hi4 _. apply eprintln_ok; [apply quiet_refl|done].
Qed.

Lemma handle_worker_results_wp (n : nat) : forall st h,
  (fuel <= n + deliveries h)%nat -> inv h st ->
  wp permitted (settled h) h (handle_worker_results n config dns_handle st).
Proof.
  induction n as [|n IH]; intros st h Hf Hi; cbn [handle_worker_results].
  - split_and!; [apply quiet_refl|done|exact Hf].
  - apply wp_bind, wp_op; [done|]. intros r [Hr Hw]. pose proof (grows_step h HostOp.TryRecvWorker r) as Hg.
    destruct r as [result|e| |]; try done; [|by apply settled_ok; [|by eapply udp_inv_mono]].
    pose proof (happened_last HostOp.TryRecvWorker (Ok result) h) as Hsent. specialize (Hw result eq_refl).
    pose proof (deliveries_snoc h (existT HostOp.TryRecvWorker (Ok result))) as Hd. cbn [is_delivery is_ok Nat.b2n] in Hd.
    eapply udp_inv_mono in Hi; [|exact Hg]. set (h1 := h ++ _) in *. clearbody h1.
    eapply then_step_wp; [|done|].
    + destruct result; [by eapply handle_dns_result_wp|by eapply handle_forward_result_wp].
    + intros h2 st2 Hg2 Hi2. apply IH; [|done]. apply deliveries_grow in Hg2. lia.
Qed.

(** ** Datagrams from the sandbox *)

Definition audited {A} (h0 : History) (P : History -> A -> Prop) (h : History) (s : AuditBuffer * Result A IoError)
  : Prop := part any_op h0 P h (snd s).

Lemma audit_try_part {A B} (P : History -> A -> Prop) (P' : History -> B -> Prop) (p : AuditIO A)
  (k : AuditBuffer -> A -> AuditIO B) h0 h :
  grows h0 h -> wp permitted (audited h P) h p ->
  (forall h' audit a, grows h h' -> grows h0 h' -> P h' a -> wp permitted (audited h0 P') h' (k audit a)) ->
  wp permitted (audited h0 P') h (audit_try p k).
Proof.
  intros Hg Hp Hk. apply wp_bind. eapply wp_post; [exact Hp|]. intros h1 [audit r] (Hr & Hg1 & H1). cbn in Hr, H1.
  assert (grows h0 h1) by by eapply quiet_trans.
  destruct r as [a|e| |]; try done. by apply Hk; auto.
Qed.

Lemma emit_audited (event : SystemTime -> AuditEvent) (audit : AuditBuffer) h :
  wp permitted (audited h (fun h' _ => exists time, recorded_line (event time) h')) h
    (let* time := now in record_event (event time) audit).
Proof. eapply wp_post; [apply emit_wp|]. by intros h' [b r]. Qed.

Lemma done_audited h0 h (audit : AuditBuffer) : grows h0 h -> audited h0 (fun _ _ => True) h (audit, Ok tt).
Proof. intros Hg. by apply part_ok. Qed.

(** A permit, then a worker. *)
Lemma spawn_wp {A} (Q : History -> A -> Prop) (job : UdpWorkerJob) (refused spawned_ : Prog Host A) h :
  (forall h', grows h h' -> wp permitted Q h' refused) ->
  (forall h', grows h h' -> dns_authorised config dns_handle h' job \/ forward_authorised config sockets h' job) ->
  (forall h', grows h h' -> spawned job h' -> wp permitted Q h' spawned_) ->
  wp permitted Q h (let* permit := try_acquire_permit in
                    if negb permit then refused else let* _ := spawn_worker job in spawned_).
Proof.
  intros Hr Ha Hs. apply wp_bind, wp_op; [done|]. intros permit _.
  pose proof (grows_step h HostOp.TryAcquire permit) as Hg.
  destruct permit; cbn [negb]; [|by apply Hr].
  apply wp_bind, wp_op; [split; [by eexists|by apply Ha]|]. intros [] _.
  apply Hs; [by apply grows_step_trans|apply happened_last].
Qed.

Lemma handle_dns_datagram_wp audit payload metadata h :
  received dns_handle payload metadata h ->
  wp permitted (audited h (fun _ _ => True)) h (handle_dns_datagram config audit payload metadata).
Proof.
  intros Hin. unfold handle_dns_datagram, local_destination.
  destruct (um_local_address metadata) as [ip|] eqn:Hip; cbn -[eprintln emit_udp_audit]; [|by apply part_err, quiet_refl].
  case_bool_decide as Hbroker; cbn [negb].
  - injection Hbroker as ->. pose proof (parse_dns_query_returns payload) as Hret.
    destruct (parse_dns_query payload) as [question|error| |] eqn:Hparse; try done; apply eprintln_wp; intros h1 Hg1.
    + eapply audit_try_part; [done|apply emit_audited|]. intros h2 audit2 [] Hg2 Hg02 Hrec.
      apply spawn_wp; intros h3 Hg3.
      * apply eprintln_wp. intros h4 Hg4. apply done_audited. do 2 (eapply quiet_trans; [|eassumption]). done.
      * left. exists payload, metadata, question. split_and!; try done; [|by eapply udp_recorded_mono].
        eapply (happened_mono _ _ any_op); [|exact Hin]. by eapply quiet_trans.
      * intros _. apply done_audited. by eapply quiet_trans.
    + eapply wp_post; [apply emit_audited|]. intros h2 [b r] (H1 & H2 & _).
      split_and!; [done|by eapply quiet_trans|done].
  - eapply audit_try_part; [apply quiet_refl|apply emit_audited|]. intros h1 audit1 [] Hg1 Hg01 _.
    apply eprintln_wp. intros h2 Hg2. apply done_audited. by eapply quiet_trans.
Qed.

Lemma record_sandbox_datagram_inv h st key class attribution bytes time job :
  inv h st -> spawned job h -> flow_key_of job = Some key ->
  flow_get (st_flows st) key <> None \/ Z.of_nat (flow_len (st_flows st)) < up_max_udp_flows config ->
  inv h (set_flows (record_sandbox_datagram (st_flows st) key class attribution bytes time) st).
Proof.
  intros [H1 H2 H3 H4 H5] Hj Hk Hroom. unfold record_sandbox_datagram, flow_get in *.
  split; cbn [set_flows st_flows st_cache]; try done.
  - right. unfold flow_len in *. destruct (st_flows st !! key) as [r|] eqn:E.
    + rewrite map_size_insert_Some by done. destruct H1 as [H1|H1]; [|done]. by rewrite H1, lookup_empty in E.
    + destruct Hroom as [?|Hroom]; [done|]. rewrite map_size_insert_None by done. lia.
  - intros k r [[<- <-]|[_ Hk']]%lookup_insert_Some; [|by apply H2]. cbn.
    destruct (st_flows st !! key) eqn:E; [by apply (H2 _ _ E)|done].
  - intros k r [[<- <-]|[_ Hk']]%lookup_insert_Some; eauto.
Qed.

(** Handlers of forward datagrams and of expiry return what they did to the
    state; [report] turns their errors into a diagnostic line. *)
Lemma report_wp (p : UdpStep) h : wp permitted (handled h) h p -> wp permitted (settled h) h (report p).
Proof.
  intros Hp. apply wp_bind. eapply wp_post; [exact Hp|]. intros h1 [st r] (Hg & Hi & Hr). cbn in Hi, Hr.
  destruct r as [[]|e| |]; try done. by apply eprintln_ok.
Qed.

Lemma handled_ok h0 h st : grows h0 h -> inv h st -> handled h0 h (st, Ok tt).
Proof. intros Hg Hi. split; [exact Hg|]. by split. Qed.

Lemma handled_ok_quiet h0 h1 h st : grows h0 h1 -> grows h1 h -> inv h1 st -> handled h0 h (st, Ok tt).
Proof. intros H01 H1 Hi. apply handled_ok; [by eapply quiet_trans|by eapply udp_inv_mono]. Qed.

Lemma forward_allowed_wp socket payload metadata ip attribution time st h :
  let source := mkEndpoint (V4 (se_addr (um_endpoint metadata))) (se_port (um_endpoint metadata)) in
  let destination := mkEndpoint (V4 ip) (us_port socket) in
  let event := udp_event config source destination attribution in
  let decision := evaluate (up_policy config) event in
  socket ∈ sockets -> received (us_handle socket) payload metadata h -> um_local_address metadata = Some ip ->
  is_allowed decision = true -> udp_recorded event decision h -> inv h st ->
  wp permitted (handled h) h
    (forward_allowed config (mkUdpForwardDatagram socket payload metadata) source destination attribution decision
       time st).
Proof.
  intros source destination event decision Hs Hin Hip Hal Hrec Hi. unfold forward_allowed. fold event.
  destruct (bool_decide _ && _) eqn:Hfull.
  - apply wp_bind. eapply wp_post; [apply emit_wp|]. intros h1 [audit r] (Hr & Hg & _).
    assert (inv h1 (set_audit audit st)) as Hi1 by by apply udp_inv_set_audit; eapply udp_inv_mono.
    destruct r as [[]|e| |]; try done. apply eprintln_wp. intros h2 Hg2. by eapply handled_ok_quiet.
  - apply spawn_wp; intros h1 Hg1.
    + apply eprintln_wp. intros h2 Hg2. by eapply handled_ok_quiet; [..|eapply udp_inv_mono].
    + right. exists socket, payload, metadata, ip, attribution. split_and!; try done; [|by eapply udp_recorded_mono].
      by eapply (happened_mono _ _ any_op).
    + intros Hj. apply handled_ok; [done|]. eapply record_sandbox_datagram_inv; [by eapply udp_inv_mono|exact Hj|done|].
      apply andb_false_iff in Hfull as [Hf|Hf]; [left; by apply bool_decide_eq_false in Hf|right; by apply Z.leb_gt in Hf].
Qed.

Lemma handle_udp_forward_datagram_wp socket payload metadata st h :
  socket ∈ sockets -> received (us_handle socket) payload metadata h -> inv h st ->
  wp permitted (handled h) h (handle_udp_forward_datagram config (mkUdpForwardDatagram socket payload metadata) st).
Proof.
  intros Hs Hin Hi. unfold handle_udp_forward_datagram, local_destination. cbn [ud_metadata ud_socket].
  destruct (um_local_address metadata) as [ip|] eqn:Hip; cbn -[eprintln emit_udp_audit];
    [|by split_and!; [apply quiet_refl|..]].
  split; [done|]. intros time _. pose proof (grows_step h HostOp.Now time) as Hg. set (h1 := h ++ _) in *. clearbody h1.
  set (source := mkEndpoint _ _). set (destination := mkEndpoint _ _).
  set (attribution := udp_attribution_for_destination _ _ _ _).
  set (event := udp_event _ _ _ _). set (decision := evaluate _ _).
  assert (forall h' k, grows h1 h' ->
    (forall h'', grows h' h'' -> wp permitted (handled h) h'' k) ->
    wp permitted (handled h) h' (let* _ := (if bool_decide (fst (udp_classification_for_port (us_port socket)) = Protocol.Quic)
                                  then eprintln else Ret tt) in k)) as Hquic.
  { intros h' k Hg' Hk. case_bool_decide; [by apply eprintln_wp|]. cbn. apply Hk, quiet_refl. }
  apply Hquic; [apply quiet_refl|]. clear Hquic. intros h2 Hg2. apply eprintln_wp. intros h3 Hg3.
  assert (grows h h3) as Hg03 by by do 2 (eapply quiet_trans; [|eassumption]).
  apply wp_bind. eapply wp_post; [apply emit_wp|]. intros h4 [audit r] (Hr & Hg4 & Hrec).
  assert (grows h h4) as Hg04 by by eapply quiet_trans.
  assert (inv h4 (set_audit audit st)) as Hi4 by by apply udp_inv_set_audit; eapply udp_inv_mono.
  destruct r as [[]|e| |]; try done. destruct (is_allowed decision) eqn:Hal; cbn [negb]; [|by apply handled_ok].
  eapply wp_post; [apply forward_allowed_wp|]; try done.
  - by eapply (happened_mono _ _ any_op).
  - by apply (Hrec tt).
  - intros h5 s (H1 & H2 & H3). split_and!; [by eapply quiet_trans|done|done].
Qed.

(** ** Expiry *)

(** [flows'] is [flows] without some idle flows, each recorded when it went. *)
Definition expired_from (time : SystemTime) (sandbox_id : SandboxId) (h : History) (flows flows' : UdpFlowTable) : Prop :=
  forall key, flows' !! key = flows !! key \/
    flows' !! key = None /\ exists r, flows !! key = Some r /\ flow_is_expired r time = true /\
      exists at_, recorded_line (udp_flow_expired_event at_ sandbox_id r) h.

Lemma expired_from_mono time sandbox_id h h' flows flows' :
  grows h h' -> expired_from time sandbox_id h flows flows' -> expired_from time sandbox_id h' flows flows'.
Proof.
  intros Hg H key. destruct (H key) as [?|(? & r & ? & ? & at_ & ?)]; [by left|right]. split; [done|].
  exists r. split_and!; [done|done|]. exists at_. by eapply recorded_line_mono.
Qed.

Lemma expired_from_trans time sandbox_id h flows1 flows2 flows3 :
  expired_from time sandbox_id h flows1 flows2 -> expired_from time sandbox_id h flows2 flows3 ->
  expired_from time sandbox_id h flows1 flows3.
Proof.
  intros H1 H2 key. destruct (H2 key) as [->|[E2 (r & Hr & Hx)]]; [apply H1|].
  destruct (H1 key) as [E1|[E1 _]]; [|by rewrite E1 in Hr]. right. split; [done|]. exists r. by rewrite <- E1.
Qed.

Lemma flow_remove_expired time sandbox_id h flows r at_ :
  flow_is_expired r time = true -> flows !! uf_key r = Some r \/ flows !! uf_key r = None ->
  recorded_line (udp_flow_expired_event at_ sandbox_id r) h ->
  expired_from time sandbox_id h flows (fst (flow_remove flows (uf_key r))).
Proof.
  intros Hx Hr Hrec key. cbn [flow_remove fst]. destruct (decide (uf_key r = key)) as [<-|].
  - rewrite lookup_delete_eq. destruct Hr as [Hr|Hr]; [right|left; by rewrite Hr]. eauto 7.
  - left. by rewrite lookup_delete_ne.
Qed.

Lemma flow_remove_inv h st key : inv h st -> inv h (set_flows (fst (flow_remove (st_flows st) key)) st).
Proof.
  intros [H1 H2 H3 H4 H5]. split; cbn [set_flows st_flows st_cache flow_remove fst]; try done.
  - destruct H1 as [->|H1]; [left; apply delete_empty|]. right. unfold flow_len in *.
    pose proof (map_size_delete key (st_flows st)) as Hd. destruct (st_flows st !! key); cbn in Hd; lia.
  - intros k r [_ Hk]%lookup_delete_Some. by apply H2.
  - intros k r [_ Hk]%lookup_delete_Some. eauto.
Qed.

Definition expiry (time : SystemTime) (sandbox_id : SandboxId) (expired : list UdpFlowRecord) (st : UdpState)
  (h0 h : History) (s : UdpState * Result unit IoError) : Prop :=
  handled h0 h s /\ st_cache (fst s) = st_cache st /\
  expired_from time sandbox_id h (st_flows st) (st_flows (fst s)) /\
  (snd s = Ok tt -> forall r, r ∈ expired -> st_flows (fst s) !! uf_key r = None).

Lemma expire_flows_wp (time : SystemTime) (sandbox_id : SandboxId) (expired : list UdpFlowRecord) : forall st h,
  Forall (fun r => flow_is_expired r time = true /\
                   (st_flows st !! uf_key r = Some r \/ st_flows st !! uf_key r = None)) expired ->
  inv h st ->
  wp permitted (expiry time sandbox_id expired st h) h (expire_flows sandbox_id expired st).
Proof.
  induction expired as [|r expired IH]; intros st h Hx Hi; cbn [expire_flows].
  - split; [by apply handled_ok; [apply quiet_refl|]|]. split_and!; [done|by left|]. intros _ r Hr. set_solver.
  - apply Forall_cons in Hx as [[Hr Hin] Hx]. apply wp_bind. eapply wp_post; [apply emit_wp|].
    intros h1 [audit res] (Hret & Hg1 & Hrec).
    assert (inv h1 (set_audit audit st)) as Hi1 by by apply udp_inv_set_audit; eapply udp_inv_mono.
    destruct res as [[]|e| |]; try done; [|by split; [by split|split_and!; [|by left|]]].
    destruct (Hrec tt eq_refl) as [at_ Hline]. apply (flow_remove_inv _ _ (uf_key r)) in Hi1.
    pose proof (flow_remove_expired time sandbox_id h1 (st_flows st) r at_ Hr Hin Hline) as Hex.
    set (st1 := set_flows _ _) in *. apply eprintln_wp. intros h2 Hg2.
    eapply wp_post; [apply (IH st1); [|by eapply udp_inv_mono]|].
    { eapply Forall_impl; [exact Hx|]. intros r' [Hr' Hin']. split; [done|].
      unfold st1. cbn [set_flows set_audit st_flows flow_remove fst].
      destruct (decide (uf_key r = uf_key r')) as [->|]; [right; by apply lookup_delete_eq|].
      by rewrite lookup_delete_ne. }
    intros h3 s ((Hg3 & Hi3 & Hr3) & Hc3 & Hx3 & Hok3).
    assert (grows h h3) by by do 2 (eapply quiet_trans; [|eassumption]).
    assert (grows h1 h3) as Hg13 by by eapply quiet_trans.
    split; [by split|]. split_and!; [done| |].
    + eapply expired_from_trans; [|exact Hx3]. by eapply expired_from_mono.
    + intros Hok r' [->|Hr']%elem_of_cons; [|by apply Hok3].
      destruct (Hx3 (uf_key r)) as [->|[-> _]]; [|done]. apply lookup_delete_eq.
Qed.

Lemma flow_expired_elem (flows : UdpFlowTable) (time : SystemTime) (r : UdpFlowRecord) :
  r ∈ flow_expired flows time <-> flow_is_expired r time = true /\ exists key, flows !! key = Some r.
Proof.
  unfold flow_expired. rewrite list_elem_of_In, filter_In, <- list_elem_of_In, elem_of_values. naive_solver.
Qed.

Lemma expire_udp_flows_wp time sandbox_id st h : inv h st ->
  wp permitted (expiry time sandbox_id (flow_expired (st_flows st) time) st h) h
    (expire_udp_flows_with_audit sandbox_id time st).
Proof.
  intros Hi. apply expire_flows_wp; [|done]. apply Forall_forall. intros r [Hr [key Hk]]%flow_expired_elem.
  split; [done|]. left. by rewrite (ui_wf _ _ _ _ Hi key r Hk).
Qed.

Lemma expire_step_wp st h : inv h st -> wp permitted (settled h) h (expire_step config st).
Proof.
  intros Hi. unfold expire_step. apply wp_bind, wp_op; [done|]. intros time _.
  pose proof (grows_step h HostOp.Now time) as Hg. set (h1 := h ++ _) in *. clearbody h1. cbn [cache_expire].
  set (cache := filter _ _).
  assert (inv h1 (set_cache cache st)) as Hi1.
  { eapply udp_inv_mono in Hi; [|exact Hg]. apply udp_inv_set_cache; [done| |].
    - intros key e [He _]%map_lookup_filter_Some. by apply Hi.
    - intros key e [He _]%map_lookup_filter_Some. by eapply Hi. }
  assert (forall h2, grows h1 h2 -> wp permitted (settled h) h2
    (report (expire_udp_flows_with_audit (up_sandbox_id config) time (set_cache cache st)))) as Hrest.
  { intros h2 Hg2. eapply wp_post; [apply report_wp|].
    - eapply wp_post; [apply expire_udp_flows_wp; by eapply udp_inv_mono|]. by intros h3 s [Hs _].
    - intros h3 s Hs. eapply settled_grows; [|exact Hs]. by eapply quiet_trans. }
  destruct (0 <? _)%nat; [by apply eprintln_wp|]. cbn. apply Hrest, quiet_refl.
Qed.

(** ** The loop *)

Lemma recv_datagrams_wp (socket : Z) (n : nat) : forall acc h,
  (fuel <= n + deliveries h)%nat -> Forall (fun d => received socket (fst d) (snd d) h) acc ->
  wp permitted (fun h' r => grows h h' /\
      match r with
      | Ok ds => Forall (fun d => received socket (fst d) (snd d) h') ds
      | OutOfFuel => (fuel <= deliveries h')%nat
      | _ => False
      end) h (recv_datagrams n socket acc).
Proof.
  induction n as [|n IH]; intros acc h Hf Hacc; cbn [recv_datagrams]; [by split; [apply quiet_refl|]|].
  apply wp_bind, wp_op; [done|]. intros can _.
  pose proof (grows_step h (HostOp.UdpSockCanRecv socket) can) as Hg1. set (h1 := h ++ _) in *. clearbody h1.
  assert (forall h2, grows h1 h2 -> Forall (fun d => received socket (fst d) (snd d) h2) acc) as Hacc2.
  { intros h2 Hg2. eapply Forall_impl; [exact Hacc|]. intros d. apply happened_mono with any_op. by eapply quiet_trans. }
  destruct can; cbn [negb]; [|split; [done|apply Hacc2, quiet_refl]].
  apply wp_bind, wp_op; [done|]. intros r Hr.
  pose proof (grows_step h1 (HostOp.UdpSockRecv socket) r) as Hg2.
  destruct r as [d|e| |]; try done; [|apply eprintln_wp; intros h3 Hg3; split].
  - pose proof (happened_last (HostOp.UdpSockRecv socket) (Ok d) h1) as Hin.
    pose proof (deliveries_snoc h1 (existT (HostOp.UdpSockRecv socket) (Ok d))) as Hd.
    cbn [is_delivery is_ok Nat.b2n] in Hd. set (h2 := h1 ++ _) in *. clearbody h2.
    eapply wp_post; [apply IH|].
    + apply deliveries_grow in Hg1. lia.
    + apply Forall_app_2; [by apply Hacc2|]. repeat constructor. by destruct d.
    + intros h3 r [Hg3 H3]. split; [|done]. do 2 (eapply quiet_trans; [|eassumption]). done.
  - do 2 (eapply quiet_trans; [|eassumption]). done.
  - apply Hacc2. by eapply quiet_trans.
Qed.

Definition forwarded (h : History) (d : UdpForwardDatagram) : Prop :=
  ud_socket d ∈ sockets /\ received (us_handle (ud_socket d)) (ud_payload d) (ud_metadata d) h.

Lemma forwarded_mono h h' d : grows h h' -> forwarded h d -> forwarded h' d.
Proof. intros Hg [Hs Hr]. split; [done|]. by eapply (happened_mono _ _ any_op). Qed.

Lemma recv_forward_wp (rest : list UdpForwardSocket) : forall acc h,
  (forall s, s ∈ rest -> s ∈ sockets) -> Forall (forwarded h) acc ->
  wp permitted (fun h' r => grows h h' /\
      match r with
      | Ok ds => Forall (forwarded h') ds
      | OutOfFuel => (fuel <= deliveries h')%nat
      | _ => False
      end) h (recv_forward fuel rest acc).
Proof.
  induction rest as [|socket rest IH]; intros acc h Hs Hacc; cbn [recv_forward]; [by split; [apply quiet_refl|]|].
  apply wp_try. eapply wp_post; [apply recv_datagrams_wp; [lia|constructor]|].
  intros h1 r [Hg1 H1]. destruct r as [ds|e| |]; try done.
  eapply wp_post; [apply IH; [set_solver|]|].
  - apply Forall_app_2; [eapply Forall_impl; [exact Hacc|]; intros d; by apply forwarded_mono|].
    apply Forall_map. eapply Forall_impl; [exact H1|]. intros [payload metadata] Hd. split; [set_solver|exact Hd].
  - intros h2 r [Hg2 H2]. split; [by eapply quiet_trans|done].
Qed.

Lemma with_state_wp {A} (P : History -> A -> Prop) (p : IO A) (k : A -> UdpStep) st h0 h :
  grows h0 h -> inv h st ->
  wp permitted (fun h' r => grows h h' /\
      match r with Ok a => P h' a | OutOfFuel => (fuel <= deliveries h')%nat | _ => False end) h p ->
  (forall h' a, grows h h' -> P h' a -> inv h' st -> wp permitted (settled h') h' (k a)) ->
  wp permitted (settled h0) h (with_state st p k).
Proof.
  intros Hg Hi Hp Hk. apply wp_bind. eapply wp_post; [exact Hp|]. intros h1 r [Hg1 H1].
  assert (inv h1 st) as Hi1 by by eapply udp_inv_mono. assert (grows h0 h1) by by eapply quiet_trans.
  destruct r as [a|e| |]; try done. eapply wp_post; [by apply Hk|]. intros h2 s. by apply settled_grows.
Qed.

Lemma dns_step_wp datagram st h :
  received dns_handle (fst datagram) (snd datagram) h -> inv h st ->
  wp permitted (settled h) h (dns_step config datagram st).
Proof.
  intros Hin Hi. apply report_wp, wp_bind. eapply wp_post; [by apply handle_dns_datagram_wp|].
  intros h1 [audit r] (Hr & Hg & _). split_and!; [done|by apply udp_inv_set_audit; eapply udp_inv_mono|done].
Qed.

Lemma forward_step_wp datagram st h :
  forwarded h datagram -> inv h st -> wp permitted (settled h) h (forward_step config datagram st).
Proof. destruct datagram. intros [Hs Hin] Hi. apply report_wp. by apply handle_udp_forward_datagram_wp. Qed.

Lemma udp_front_wp st h : inv h st -> wp permitted (settled h) h (udp_front fuel config dns_handle st).
Proof.
  intros Hi. unfold udp_front. apply wp_bind, wp_op; [done|]. intros [] _.
  pose proof (grows_step h HostOp.IfacePoll tt) as Hg. set (h1 := h ++ _) in *. clearbody h1.
  eapply wp_post; [apply handle_worker_results_wp; [lia|by eapply udp_inv_mono]|].
  intros h2 s. by apply settled_grows.
Qed.

Lemma udp_back_wp st h : inv h st -> wp permitted (settled h) h (udp_back fuel config dns_handle sockets st).
Proof.
  intros Hi. unfold udp_back.
  eapply with_state_wp; [apply quiet_refl|done|apply recv_datagrams_wp; [lia|constructor]|]. intros h3 ds Hg3 Hds Hi3.
  apply then_step_wp; [|apply quiet_refl|].
  { eapply (for_each_wp (fun h d => received dns_handle (fst d) (snd d) h)); [|by intros; apply dns_step_wp|exact Hds|done].
    intros h4 h5 d Hg5. by apply (happened_mono _ _ any_op). }
  intros h4 st4 Hg4 Hi4.
  eapply with_state_wp; [apply quiet_refl|done|apply recv_forward_wp; [done|constructor]|]. intros h5 fs Hg5 Hfs Hi5.
  apply then_step_wp; [|apply quiet_refl|].
  { eapply (for_each_wp forwarded); [apply forwarded_mono|by intros; apply forward_step_wp|exact Hfs|done]. }
  intros h6 st6 Hg6 Hi6.
  apply then_step_wp; [apply handle_worker_results_wp; [lia|done]|apply quiet_refl|]. intros h7 st7 Hg7 Hi7.
  apply then_step_wp; [by apply expire_step_wp|apply quiet_refl|]. intros h8 st8 Hg8 Hi8.
  apply wp_bind, wp_op; [done|]. intros [] _. apply settled_ok; [apply grows_step|]. eapply udp_inv_mono; [apply grows_step|done].
Qed.

Lemma udp_round_wp st h : inv h st ->
  wp permitted (settled h) h (udp_round fuel config dns_handle sockets st).
Proof.
  intros Hi. apply then_step_wp; [by apply udp_front_wp|apply quiet_refl|]. intros h1 st1 _ Hi1. by apply udp_back_wp.
Qed.

Lemma udp_rounds_wp (n : nat) : forall st h, inv h st ->
  wp permitted (settled h) h (udp_rounds n fuel config dns_handle sockets st).
Proof.
  induction n as [|n IH]; intros st h Hi; cbn [udp_rounds]; [by apply settled_ok; [apply quiet_refl|]|].
  apply then_step_wp; [by apply udp_round_wp|apply quiet_refl|]. intros h1 st1 Hg Hi1. by apply IH.
Qed.

Lemma udp_inv_start audit : inv [] (mkUdpState ∅ ∅ audit).
Proof. split; cbn; try by intros ?? H; rewrite lookup_empty in H. by left. Qed.

End machine.

(** ** The worker threads *)

(** The expected question of [parse_dns_response] is the observation's. *)
Lemma parse_questions_expected (count : nat) (first : bool) packet flags : forall offset q r,
  parse_questions count first packet flags offset (Some q) = Ok r -> snd r = Some q.
Proof.
  revert first. induction count as [|count IH]; intros first offset q r; cbn [parse_questions]; [by intros [= <-]|].
  destruct (parse_name packet offset) as [[hostname next]|e| |]; try done. cbn [result_bind].
  destruct (dns_read_u16 packet next); try done. cbn [result_bind].
  destruct (dns_read_u16 packet (next + 2)); try done. cbn [result_bind]. destruct first; apply IH.
Qed.

Lemma parse_dns_response_expected packet q seen :
  parse_dns_response packet (Some q) = Ok seen ->
  ro_hostname seen = Some (q_hostname q) /\ ro_query_type seen = Some (q_query_type q).
Proof.
  unfold parse_dns_response. case_match; [done|].
  destruct (dns_read_u16 packet 2) as [flags| | |]; try done. cbn [result_bind]. case_match; [done|].
  destruct (dns_read_u16 packet 4) as [qd| | |]; try done. cbn [result_bind].
  destruct (dns_read_u16 packet 6) as [an| | |]; try done. cbn [result_bind].
  destruct (parse_questions _ _ _ _ _ _) as [[offset question]| | |] eqn:Hq; try done. cbn [result_bind].
  apply parse_questions_expected in Hq. cbn in Hq. subst question.
  destruct (parse_answers _ _ _ _) as [answers| | |]; try done. cbn [result_bind].
  destruct (dns_read_u16 packet 0) as [id| | |]; try done. cbn [result_bind]. by intros [= <-].
Qed.

(** What a worker may do: the traffic of its own request, and read the clock. *)
Definition worker_permitted (job : UdpWorkerJob) (h : History) (o : HostOp) : Prop :=
  match job with
  | UdpWorkerJob.Dns request payload _ _ _ _ _ =>
      o = HostOp.Now \/
      authorised (egress_is_allowed (de_context request)) (endpoint_socket_addr (de_upstream request)) payload h o
  | UdpWorkerJob.Forward request payload _ _ _ _ _ _ =>
      authorised (egress_is_allowed (ue_context request)) (endpoint_socket_addr (ue_destination request)) payload h o
  end.

(** What a worker sends back. *)
Definition worker_result (job : UdpWorkerJob) (result : UdpWorkerResult) : Prop :=
  match job with
  | UdpWorkerJob.Dns request payload timeout question sandbox_id metadata source =>
      exists response observation entries,
        result = UdpWorkerResult.Dns metadata source response observation entries /\ returns response /\
        (egress_is_allowed (de_context request) = false -> is_ok response = false) /\
        (forall bytes, response = Ok bytes -> Z.of_nat (length bytes) <= 4096 /\
           observation = result_ok (parse_dns_response bytes (Some question))) /\
        (observation = None -> entries = []) /\
        Forall (fun entry => ce_sandbox_id entry = sandbox_id /\ ce_hostname entry = q_hostname question /\
                             ce_query_type entry = q_query_type question /\
                             exists seen, observation = Some seen /\
                               ce_addresses entry = ar_address <$> ro_answers seen) entries
  | UdpWorkerJob.Forward request payload timeout handle metadata source destination key =>
      exists response,
        result = UdpWorkerResult.Forward handle metadata source destination key response /\ returns response /\
        (egress_is_allowed (ue_context request) = false -> is_ok response = false) /\
        (forall bytes, response = Ok (Some bytes) -> Z.of_nat (length bytes) <= 65535)
  end.

Lemma cache_entries_for (sandbox_id : SandboxId) (seen : DnsResponseObservation) (time : SystemTime) host ty :
  ro_hostname seen = Some host -> ro_query_type seen = Some ty ->
  Forall (fun entry => ce_sandbox_id entry = sandbox_id /\ ce_hostname entry = host /\ ce_query_type entry = ty /\
                       ce_addresses entry = ar_address <$> ro_answers seen)
    (cache_entry_from_response sandbox_id seen time true).
Proof.
  intros Hh Ht. unfold cache_entry_from_response. rewrite Hh, Ht.
  assert (forall answers acc, fst (fold_left collect_answer answers acc) = fst acc ++ (ar_address <$> answers)) as Hf.
  { induction answers as [|a answers IH]; intros acc; cbn; [by rewrite app_nil_r|]. rewrite IH. cbn. by rewrite <- app_assoc. }
  specialize (Hf (ro_answers seen) ([], None)). destruct (fold_left _ _ _) as [addresses ttl]. cbn in Hf. subst.
  destruct ttl as [ttl|]; [|constructor]. unfold cache_entry_new. case_bool_decide; [constructor|].
  cbn [ob_observed_at]. destruct (checked_add _ _); repeat constructor.
Qed.

Lemma worker_dns_observation (response : Result (list byte) IoError) (question : DnsQuestion) seen :
  match result_ok response with
  | Some response => result_ok (parse_dns_response response (Some question))
  | None => None
  end = Some seen ->
  ro_hostname seen = Some (q_hostname question) /\ ro_query_type seen = Some (q_query_type question).
Proof.
  destruct (result_ok response); [|done]. destruct (parse_dns_response _ _) eqn:E; intros [= <-].
  by eapply parse_dns_response_expected.
Qed.

Lemma udp_worker_dns_wp request payload timeout question sandbox_id metadata source h :
  let job := UdpWorkerJob.Dns request payload timeout question sandbox_id metadata source in
  wp (worker_permitted job) (fun _ => worker_result job) h (udp_worker job).
Proof.
  intros job. unfold job. cbn [udp_worker]. apply wp_bind. unfold forward_dns_query. apply prog_map_err_wp.
  eapply (wp_mono (I := Host)); [| |apply query_dns_raw_wp]; [by right|].
  intros h1 r Hr. set (response := map_err egress_error_to_io r). set (observation := match result_ok response with
    | Some response => result_ok (parse_dns_response response (Some question)) | None => None end).
  assert (returns response /\ (egress_is_allowed (de_context request) = false -> is_ok response = false) /\
    (forall bytes, response = Ok bytes -> Z.of_nat (length bytes) <= 4096 /\
       observation = result_ok (parse_dns_response bytes (Some question)))) as (Hret & Hden & Hlen).
  { unfold observation, response, denied_or in *. destruct (egress_is_allowed _); cbn in Hr.
    - destruct Hr as [Hr1 Hr2]. destruct r as [bs|e| |]; try done. cbn in Hr2. split_and!; try done.
      intros bytes [= <-]. split; [|done]. specialize (Hr2 bs eq_refl). lia.
    - subst r. by split_and!. }
  destruct observation as [seen|] eqn:Hobs.
  - apply worker_dns_observation in Hobs as [Hh Ht]. apply wp_bind, wp_op; [by left|]. intros time _.
    eexists _, _, _. split_and!; try done. eapply Forall_impl; [by apply cache_entries_for|].
    intros entry (? & ? & ? & ?). split_and!; try done. by exists seen.
  - eexists _, _, _. by split_and!.
Qed.

Lemma udp_worker_forward_wp request payload timeout handle metadata source destination key h :
  let job := UdpWorkerJob.Forward request payload timeout handle metadata source destination key in
  wp (worker_permitted job) (fun _ => worker_result job) h (udp_worker job).
Proof.
  intros job. unfold job. cbn [udp_worker]. apply wp_bind. unfold forward_udp_datagram. apply prog_map_err_wp.
  eapply (wp_mono (I := Host)); [done| |apply forward_udp_once_wp].
  intros h1 r Hr. eexists. split; [reflexivity|]. unfold denied_or in Hr. destruct (egress_is_allowed _).
  - destruct Hr as [Hr1 Hr2]. destruct r as [bs|e| |]; try done. split_and!; try done.
    intros bytes [= ->]. specialize (Hr2 bytes eq_refl). cbn in Hr2. lia.
  - subst r. by split_and!.
Qed.

(** ** Properties *)

(** [C10] The UDP relay acts only on authorised traffic: over any number of rounds and every
    behaviour of the stack, the channel, the limiter, stderr and the clock, a worker thread
    is started only with a permit and only for a datagram that was received, whose flow
    event the policy allowed and whose decision is already in the audit log (the worker's
    request carries exactly that decision, payload and destination), or for a well-formed,
    recorded query to the broker's own address (so no query to another resolver is ever
    forwarded); a response goes back only on the socket and to the endpoint of its request,
    and a DNS response only after its own record.  The flow table never exceeds
    [max_udp_flows] and holds only flows with a worker; the DNS cache holds only entries
    of recorded, delivered responses. *)
Theorem udp_relay_acts_after_audited_allow (order : IterOrder (SandboxId * Hostname) DnsCacheEntry)
  (order' : IterOrder FlowKey UdpFlowRecord) (config : UdpDnsProofConfig) (dns_handle : Z)
  (sockets : list UdpForwardSocket) (n fuel : nat) (audit : AuditBuffer) :
  wp (udp_permitted config dns_handle sockets) (fun h '(st, _) => udp_inv config dns_handle h st) []
    (udp_rounds n fuel config dns_handle sockets (mkUdpState ∅ ∅ audit)).
Proof.
  eapply wp_post; [apply (udp_rounds_wp config dns_handle sockets fuel), udp_inv_start|].
  by intros h [st r] (_ & Hi & _).
Qed.

(** [C26] No error stops the UDP relay: whatever errors its calls return (audit records that
    cannot be written, a full audit queue, malformed datagrams, sends, workers), every
    round completes and the loop goes on; [n] rounds return [Ok], unless the environment
    handed over at least [fuel] results and datagrams (the fuel bounds the draining loops
    inside a round, so a round also ends when the channel and the sockets run dry).  What
    can stop the loop is a panic, and there are two: [eprintln!], with which the relay
    reports those errors, on a stderr that fails, and [thread::spawn] without a thread. *)
Theorem udp_relay_outlives_errors (order : IterOrder (SandboxId * Hostname) DnsCacheEntry)
  (order' : IterOrder FlowKey UdpFlowRecord) (config : UdpDnsProofConfig) (dns_handle : Z)
  (sockets : list UdpForwardSocket) (n fuel : nat) (audit : AuditBuffer) (env : Env Host) :
  env_ok env ->
  match run env [] (udp_rounds n fuel config dns_handle sockets (mkUdpState ∅ ∅ audit)) with
  | (Finished (_, r), h) => (deliveries h < fuel)%nat -> r = Ok tt
  | (PanickedIn o, _) => o = HostOp.Eprintln \/ exists job, o = HostOp.SpawnWorker job
  end.
Proof.
  intros Henv. pose proof (wp_run (I := Host) _ _ env _ [] Henv
    (udp_rounds_wp config dns_handle sockets fuel n (mkUdpState ∅ ∅ audit) [] (udp_inv_start config dns_handle audit))) as H.
  destruct (run _ _ _) as [[[st r]|o] h]; destruct H as [_ H]; cbn in H.
  - destruct H as (_ & _ & Hr). cbn in Hr. intros Hd. destruct r as [[]|e| |]; try done. lia.
  - destruct H as [Hp Ho]. destruct o; try discriminate Hp; cbn in Ho; try done; [by left|right; by eexists].
Qed.

Lemma udp_relay_outlives_errors_witness :
  let order := canonical_order (SandboxId * Hostname) DnsCacheEntry in
  let order' := canonical_order FlowKey UdpFlowRecord in
  exists st h, run (answering obliging_host) [] (udp_rounds 2 1 (udp_dns_proof_config_new (mkSandboxId (lit "s"))) 0
      [mkUdpForwardSocket 9000 1] (mkUdpState ∅ ∅ (audit_buffer_new 8))) = (Finished (st, Ok tt), h).
Proof.
  intros order order'.
  pose proof (udp_relay_outlives_errors order order' (udp_dns_proof_config_new (mkSandboxId (lit "s"))) 0
    [mkUdpForwardSocket 9000 1] 2 1 (audit_buffer_new 8) (answering obliging_host) (answering_ok _ obliging_host_ok)) as H.
  rewrite run_answering in *. destruct (replay _ _ _) as [[st r] h] eqn:E. cbn [fst snd] in *.
  exists st, h. rewrite H; [done|]. apply (f_equal snd) in E. cbn [snd] in E. rewrite <- E. vm_compute. lia.
Defined.



(** [C27] Flows end only with a record: expiry removes from the table only flows idle for
    their class's timeout, each after the line with its final byte counts is written; when
    stderr or the queue fails it stops, keeps every flow not yet recorded and returns the
    error; when it succeeds no idle flow is left; it never touches the DNS cache. *)
Theorem udp_expiry_is_audited (order : IterOrder FlowKey UdpFlowRecord) (config : UdpDnsProofConfig) (dns_handle : Z)
  (sockets : list UdpForwardSocket) (sandbox_id : SandboxId) (time : SystemTime) (st : UdpState) (h : History) :
  udp_inv config dns_handle h st ->
  wp (udp_permitted config dns_handle sockets) (fun h' '(st', r) =>
      returns r /\ st_cache st' = st_cache st /\
      expired_from time sandbox_id h' (st_flows st) (st_flows st') /\
      (r = Ok tt -> forall key flow, st_flows st' !! key = Some flow -> flow_is_expired flow time = false)) h
    (expire_udp_flows_with_audit sandbox_id time st).
Proof.
  intros Hi. eapply wp_post; [by apply (expire_udp_flows_wp config dns_handle sockets)|].
  intros h' [st' r] ((_ & _ & Hr) & Hc & Hx & Hok). cbn in *. split_and!; [done|done|done|].
  intros E key flow Hf. destruct (flow_is_expired flow time) eqn:Ex; [exfalso|done].
  destruct (Hx key) as [Hs|[Hs _]]; rewrite Hf in Hs; [|done].
  assert (flow ∈ flow_expired (st_flows st) time) as Hin by by apply flow_expired_elem; eauto.
  apply (Hok E) in Hin. rewrite (ui_wf _ _ _ _ Hi key flow (eq_sym Hs)) in Hin. by rewrite Hf in Hin.
Qed.

Lemma udp_expiry_is_audited_witness :
  let order := canonical_order FlowKey UdpFlowRecord in
  let sid := mkSandboxId (lit "s") in
  let config := udp_dns_proof_config_new sid in
  let key := flow_key_udp (V4 (ipv4_new 10 255 0 2)) 5555 (V4 (ipv4_new 9 9 9 9)) 9000 in
  let flow := mkUdpFlowRecord key FlowTimeoutClass.GenericUdp attribution_ip_only 0 0 5 7 in
  let st := mkUdpState ∅ {[key := flow]} (audit_buffer_new 8) in
  let job := UdpWorkerJob.Forward (mkUdpEgressRequest (mkEgressContext sid Frontend.Tun broker_dns_decision attribution_ip_only)
      (mkEndpoint (fk_source_ip key) 5555) (mkEndpoint (fk_destination_ip key) 9000) FlowTimeoutClass.GenericUdp)
    [] 0 1 (mkUdpMetadata (mkSmolEndpoint 0 0) None) (mkEndpoint (fk_source_ip key) 5555)
    (mkEndpoint (fk_destination_ip key) 9000) key in
  wp (udp_permitted config 0 []) (fun h' '(st', r) => r = Ok tt -> st_flows st' = ∅)
    [existT (HostOp.SpawnWorker job) tt : Action Host] (expire_udp_flows_with_audit sid (from_secs 61) st).
Proof.
  intros order sid config key flow st job. eapply wp_post; [apply udp_expiry_is_audited|].
  - split; cbn [st st_flows st_cache].
    + right. vm_compute. done.
    + by intros k r [<- <-]%lookup_singleton_Some.
    + intros k r [<- <-]%lookup_singleton_Some. exists job. split; [by left|done].
    + by intros k e.
    + by intros k e.
  - intros h' [st' r] (_ & _ & Hx & Hok) E. apply map_empty. intros k. destruct (st_flows st' !! k) as [f|] eqn:Ef; [|done].
    pose proof (Hok E k f Ef) as Hf. destruct (Hx k) as [Hk|[Hk _]]; rewrite Ef in Hk; [|done].
    symmetry in Hk. unfold st in Hk. cbn [st_flows] in Hk. apply lookup_singleton_Some in Hk as [<- <-]. vm_compute in Hf. done.
Defined.

(** [C11] A worker thread does exactly its job: for every host behaviour it touches the
    network only for an allowed request, and then only by sending the datagram it was
    given to the destination of its request; it answers to the sandbox endpoint of the
    request; a DNS worker's cache entries are for the sandbox, the hostname and the type
    that were asked, with the addresses of the response it returns, which is at most 4096
    bytes (65535 for a forwarded datagram). *)
Theorem udp_worker_does_its_job (job : UdpWorkerJob) (h : History) :
  wp (worker_permitted job) (fun _ => worker_result job) h (udp_worker job).
Proof. destruct job; [apply udp_worker_dns_wp|apply udp_worker_forward_wp]. Qed.
