(* ===== verification/Combined.v ===== *)
(** * The combined runtime ([crates/foxprox-net/src/combined.rs])

    One loop over the packet interface drives the transparent TCP relays of
    several ports, the bridges of the explicit proxies and the UDP and DNS relay;
    they share the audit buffer and the DNS cache.  [Tcp] and [Udp] hold the
    parts; this file holds their configuration, its validation and the loop. *)

From S2P Require Import Prelude Text NetAddr Event Policy Flow Dns Inspection AuditLog Config.
From S2P Require Import Effects AuditIo Limiter Tcp Udp.

Record ExplicitProxyBridgeConfig : Type := mkExplicitProxyBridgeConfig {
  pb_sandbox_port : Z;
  pb_backend_addr : SocketAddr
}.

Record CombinedTransparentProofConfig : Type := mkCombinedTransparentProofConfig {
  cp_sandbox_id : SandboxId;
  cp_broker_ip : Z;
  cp_prefix_len : Z;
  cp_mtu : Z;
  cp_tcp_port : Z;
  cp_additional_tcp_ports : list Z;
  cp_connect_timeout : Duration;
  cp_pending_buffer_limit : Z;
  cp_idle_timeout : Duration;
  cp_dns_port : Z;
  cp_upstream_dns : SocketAddr;
  cp_udp_packet_capacity : Z;
  cp_udp_payload_capacity : Z;
  cp_upstream_timeout : Duration;
  cp_udp_forward_ports : list Z;
  cp_udp_forward_timeout : Duration;
  cp_policy : PolicyRuleSet;
  cp_audit_queue_capacity : Z;
  cp_max_worker_threads : Z;
  cp_max_udp_flows : Z;
  cp_http_proxy_bridge : option ExplicitProxyBridgeConfig;
  cp_socks5_proxy_bridge : option ExplicitProxyBridgeConfig
}.

Definition combined_config_new (sandbox_id : SandboxId) : CombinedTransparentProofConfig :=
  let tcp := tcp_proof_config_new sandbox_id in
  let udp := udp_dns_proof_config_new sandbox_id in
  {| cp_sandbox_id := sandbox_id;
     cp_broker_ip := tp_broker_ip tcp;
     cp_prefix_len := tp_prefix_len tcp;
     cp_mtu := tp_mtu tcp;
     cp_tcp_port := tp_tcp_port tcp;
     cp_additional_tcp_ports := [];
     cp_connect_timeout := tp_connect_timeout tcp;
     cp_pending_buffer_limit := tp_pending_buffer_limit tcp;
     cp_idle_timeout := tp_idle_timeout tcp;
     cp_dns_port := up_dns_port udp;
     cp_upstream_dns := up_upstream_dns udp;
     cp_udp_packet_capacity := up_udp_packet_capacity udp;
     cp_udp_payload_capacity := up_udp_payload_capacity udp;
     cp_upstream_timeout := up_upstream_timeout udp;
     cp_udp_forward_ports := up_udp_forward_ports udp;
     cp_udp_forward_timeout := up_udp_forward_timeout udp;
     cp_policy := policy_rule_set_default;
     cp_audit_queue_capacity := up_audit_queue_capacity udp;
     cp_max_worker_threads := up_max_worker_threads udp;
     cp_max_udp_flows := up_max_udp_flows udp;
     cp_http_proxy_bridge := None;
     cp_socks5_proxy_bridge := None |}.

(** The additional ports, each once, behind the primary one. *)
Definition push_port (ports : list Z) (port : Z) : list Z :=
  if bool_decide (port ∈ ports) then ports else ports ++ [port].

Definition tcp_ports (self : CombinedTransparentProofConfig) : list Z :=
  fold_left push_port (cp_additional_tcp_ports self) [cp_tcp_port self].

Definition tcp_config_for_port (self : CombinedTransparentProofConfig) (tcp_port : Z) : TcpProofConfig :=
  mkTcpProofConfig (cp_sandbox_id self) (cp_broker_ip self) (cp_prefix_len self) (cp_mtu self) tcp_port
    (cp_connect_timeout self) (cp_pending_buffer_limit self) (cp_idle_timeout self) (cp_policy self)
    (cp_audit_queue_capacity self) None.

Definition tcp_config (self : CombinedTransparentProofConfig) : TcpProofConfig :=
  tcp_config_for_port self (cp_tcp_port self).

Definition udp_config (self : CombinedTransparentProofConfig) : UdpDnsProofConfig :=
  mkUdpDnsProofConfig (cp_sandbox_id self) (cp_broker_ip self) (cp_prefix_len self) (cp_mtu self)
    (cp_dns_port self) (cp_upstream_dns self) (cp_udp_packet_capacity self) (cp_udp_payload_capacity self)
    (cp_upstream_timeout self) (cp_udp_forward_ports self) (cp_udp_forward_timeout self) (cp_policy self)
    (cp_audit_queue_capacity self) (cp_max_worker_threads self) (cp_max_udp_flows self).

Definition proxy_bridge_tcp_config (self : CombinedTransparentProofConfig) (bridge : ExplicitProxyBridgeConfig)
  : TcpProofConfig :=
  let config := tcp_config self in
  mkTcpProofConfig (tp_sandbox_id config) (tp_broker_ip config) (tp_prefix_len config) (tp_mtu config)
    (pb_sandbox_port bridge) (tp_connect_timeout config) (tp_pending_buffer_limit config) (tp_idle_timeout config)
    (tp_policy config) (tp_audit_queue_capacity config) (Some (pb_backend_addr bridge)).

(** ** Validation *)

Definition invalid_input (message : str) : IoError := mkIoError IoErrorKind.InvalidInput message.

Definition validate_one_proxy_bridge (transparent_tcp_ports : list Z) (bridge : ExplicitProxyBridgeConfig)
  : Result unit IoError :=
  if pb_sandbox_port bridge =? 0 then Err (invalid_input (lit "HTTP proxy bridge port must be non-zero"))
  else if bool_decide (pb_sandbox_port bridge ∈ transparent_tcp_ports) then
    Err (invalid_input (lit "explicit proxy bridge port must differ from transparent TCP ports"))
  else if sa_port (pb_backend_addr bridge) =? 0 then
    Err (invalid_input (lit "HTTP proxy bridge backend port must be non-zero"))
  else Ok tt.

(** [[http, socks5].into_iter().flatten()]. *)
Definition proxy_bridges (config : CombinedTransparentProofConfig) : list ExplicitProxyBridgeConfig :=
  option_list (cp_http_proxy_bridge config) ++ option_list (cp_socks5_proxy_bridge config).

Definition validate_http_proxy_bridge (config : CombinedTransparentProofConfig) : Result unit IoError :=
  let ports := tcp_ports config in
  let? _ := result_traverse (fun port =>
              if port =? 0 then Err (invalid_input (lit "transparent TCP ports must be non-zero")) else Ok tt) ports in
  let? _ := match cp_http_proxy_bridge config, cp_socks5_proxy_bridge config with
            | Some http, Some socks =>
                if pb_sandbox_port http =? pb_sandbox_port socks then
                  Err (invalid_input (lit "explicit proxy bridge ports must be unique"))
                else Ok tt
            | _, _ => Ok tt
            end in
  let? _ := result_traverse (validate_one_proxy_bridge ports) (proxy_bridges config) in
  Ok tt.

(** ** Lifecycle records *)

Definition combined_lifecycle_event (now : SystemTime) (config : CombinedTransparentProofConfig) (kind : AuditEventKind)
  (proxy : option (str * ExplicitProxyBridgeConfig)) : AuditEvent :=
  let event := with_sandbox_id (audit_event_new now Frontend.Tun kind) (cp_sandbox_id config) in
  let event := set_ae_protocol (Some Protocol.Tcp) event in
  match proxy with
  | None =>
      set_ae_detail (Some
        (lit "tcp_ports=" ++ debug_ports (tcp_ports config) ++ lit " dns=" ++ ipv4_display (cp_broker_ip config)
         ++ lit ":" ++ dec (cp_dns_port config) ++ lit " mtu=" ++ dec (cp_mtu config)
         ++ lit " prefix_len=" ++ dec (cp_prefix_len config)))
        (set_ae_destination (Some (mkEndpoint (V4 (cp_broker_ip config)) (cp_tcp_port config))) event)
  | Some (kind, bridge) =>
      set_ae_detail (Some
        (kind ++ lit " proxy listener " ++ ipv4_display (cp_broker_ip config) ++ lit ":"
         ++ dec (pb_sandbox_port bridge) ++ lit " backend=" ++ socket_addr_display (pb_backend_addr bridge)))
        (set_ae_destination (Some (mkEndpoint (V4 (cp_broker_ip config)) (pb_sandbox_port bridge))) event)
  end.

Definition emit_combined_lifecycle_audit (audit : AuditBuffer) (config : CombinedTransparentProofConfig)
  (kind : AuditEventKind) (proxy : option (str * ExplicitProxyBridgeConfig)) : AuditIO unit :=
  let* time := now in
  emit_raw_audit audit (combined_lifecycle_event time config kind proxy).

(** ** The loop *)

(** One TCP socket of the loop: a transparent port or a proxy bridge. *)
Record TcpRelay : Type := mkTcpRelay {
  tr_config : TcpProofConfig;
  tr_socket : Z;
  tr_flow : TransparentTcpState
}.

Record CombinedState : Type := mkCombinedState {
  cs_relays : list TcpRelay;
  cs_udp : UdpState
}.

Abbreviation CombinedStep := (Prog Host (CombinedState * Result unit IoError)).

Definition set_flow (flow : TransparentTcpState) (relay : TcpRelay) : TcpRelay :=
  mkTcpRelay (tr_config relay) (tr_socket relay) flow.

(** A part of the loop body that concerns the UDP relay only. *)
Definition udp_part (p : UdpState -> UdpStep) (st : CombinedState) (k : CombinedState -> CombinedStep) : CombinedStep :=
  let* (udp, r) := p (cs_udp st) in
  let st := mkCombinedState (cs_relays st) udp in
  match r with
  | Ok _ => k st
  | r => Ret (st, r)
  end.

Section runtime.
Context `{!IterOrder (SandboxId * Hostname) DnsCacheEntry, !IterOrder FlowKey UdpFlowRecord}.

(** [state.poll(socket, config, &mut audit, Some(&cache))?] for each socket in
    turn; [done] are those already polled in this round. *)
Fixpoint poll_relays (polled rest : list TcpRelay) (udp : UdpState) : CombinedStep :=
  match rest with
  | [] => Ret (mkCombinedState polled udp, Ok tt)
  | relay :: rest =>
      let* (flow, audit, r) :=
        tcp_poll (tr_flow relay) (tr_socket relay) (tr_config relay) (st_audit udp) (Some (st_cache udp)) in
      let relay := set_flow flow relay in
      let udp := set_audit audit udp in
      match r with
      | Ok _ => poll_relays (polled ++ [relay]) rest udp
      | r => Ret (mkCombinedState (polled ++ relay :: rest) udp, r)
      end
  end.

Definition combined_round (fuel : nat) (config : UdpDnsProofConfig) (dns_handle : Z)
  (forward_sockets : list UdpForwardSocket) (st : CombinedState) : CombinedStep :=
  udp_part (udp_front fuel config dns_handle) st (fun st =>
  let* (st, r) := poll_relays [] (cs_relays st) (cs_udp st) in
  match r with
  | Ok _ => udp_part (udp_back fuel config dns_handle forward_sockets) st (fun st => Ret (st, Ok tt))
  | r => Ret (st, r)
  end).

Fixpoint combined_rounds (n fuel : nat) (config : UdpDnsProofConfig) (dns_handle : Z)
  (forward_sockets : list UdpForwardSocket) (st : CombinedState) : CombinedStep :=
  match n with
  | O => Ret (st, Ok tt)
  | S n =>
      let* (st, r) := combined_round fuel config dns_handle forward_sockets st in
      match r with
      | Ok _ => combined_rounds n fuel config dns_handle forward_sockets st
      | r => Ret (st, r)
      end
  end.

(** ** Start-up *)

Fixpoint new_relays (configs : list TcpProofConfig) : Prog Host (list TcpRelay) :=
  match configs with
  | [] => Ret []
  | config :: configs =>
      let* socket := sock_new in
      let* relays := new_relays configs in
      Ret (mkTcpRelay config socket transparent_tcp_state_new :: relays)
  end.

Definition install_tcp_listener (socket tcp_port : Z) : IO unit :=
  prog_map_err (fun error => other_error (lit "listen failed: " ++ error)) (sock_listen socket tcp_port).

Fixpoint install_listeners (relays : list TcpRelay) : IO unit :=
  match relays with
  | [] => Ret (Ok tt)
  | relay :: relays =>
      let! _ := install_tcp_listener (tr_socket relay) (tp_tcp_port (tr_config relay)) in
      install_listeners relays
  end.

(** The TCP sockets: the transparent ports, then the HTTP and SOCKS5 bridges. *)
Definition relay_configs (config : CombinedTransparentProofConfig) : list TcpProofConfig :=
  map (tcp_config_for_port config) (tcp_ports config) ++ map (proxy_bridge_tcp_config config) (proxy_bridges config).

Fixpoint emit_bridges (audit : AuditBuffer) (config : CombinedTransparentProofConfig)
  (bridges : list (str * ExplicitProxyBridgeConfig)) : AuditIO unit :=
  match bridges with
  | [] => Ret (audit, Ok tt)
  | bridge :: bridges =>
      audit_try (emit_combined_lifecycle_audit audit config AuditEventKind.ProxyListenerConfigured (Some bridge))
        (fun audit _ => emit_bridges audit config bridges)
  end.

Definition emit_startup (audit : AuditBuffer) (config : CombinedTransparentProofConfig) : AuditIO unit :=
  audit_try (emit_combined_lifecycle_audit audit config AuditEventKind.SessionStarted None) (fun audit _ =>
  audit_try (emit_combined_lifecycle_audit audit config AuditEventKind.BrokerStarted None) (fun audit _ =>
  audit_try (emit_combined_lifecycle_audit audit config AuditEventKind.TunConfigured None) (fun audit _ =>
  emit_bridges audit config
    (map (pair (lit "http")) (option_list (cp_http_proxy_bridge config))
     ++ map (pair (lit "socks5")) (option_list (cp_socks5_proxy_bridge config)))))).

(** Validation, the packet interface ([setup]), the sockets and listeners, the
    lifecycle records, and [n] rounds of the loop. *)
Definition run_combined_transparent_proof (n fuel : nat) (config : CombinedTransparentProofConfig)
  (setup ready : IO unit) : IO unit :=
  let! audit := Ret (net_audit_buffer (cp_audit_queue_capacity config)) in
  let! _ := Ret (worker_limiter_new (cp_max_worker_threads config)) in
  let! _ := Ret (validate_max_udp_flows (cp_max_udp_flows config)) in
  let! _ := Ret (validate_http_proxy_bridge config) in
  let! _ := setup in
  let udp := udp_config config in
  let! dns_handle := bound_socket udp (lit "udp dns bind failed: ") (cp_dns_port config) in
  let* relays := new_relays (relay_configs config) in
  let! forward_sockets := bind_forward_sockets udp (cp_udp_forward_ports config) in
  let! _ := install_listeners relays in
  let* (audit, r) := emit_startup audit config in
  let! _ := Ret r in
  let* _ := eprintln in
  let! _ := ready in
  let* (_, r) := combined_rounds n fuel udp dns_handle forward_sockets
                   (mkCombinedState relays (mkUdpState ∅ ∅ audit)) in
  Ret r.

End runtime.

(** ** Validation: which configurations start *)

Lemma push_port_spec (ports : list Z) (port : Z) :
  NoDup ports -> NoDup (push_port ports port) /\ forall p, p ∈ push_port ports port <-> p ∈ ports \/ p = port.
Proof.
  intros Hn. unfold push_port. case_bool_decide as Hin.
  - split; [done|]. intros p. split; [by left|]. by intros [?| ->].
  - split; [|intros p; rewrite elem_of_app, list_elem_of_singleton; done].
    apply NoDup_app. split_and!; [done| |apply NoDup_singleton]. intros x Hx ->%list_elem_of_singleton. done.
Qed.

Lemma push_ports_spec (more : list Z) : forall ports,
  NoDup ports ->
  NoDup (fold_left push_port more ports) /\ forall p, p ∈ fold_left push_port more ports <-> p ∈ ports \/ p ∈ more.
Proof.
  induction more as [|port more IH]; intros ports Hn; cbn [fold_left]; [split; [done|set_solver]|].
  destruct (push_port_spec ports port Hn) as [Hn1 H1]. destruct (IH _ Hn1) as [Hn2 H2]. split; [done|].
  intros p. rewrite H2, H1, elem_of_cons. tauto.
Qed.

Lemma tcp_ports_spec (config : CombinedTransparentProofConfig) :
  NoDup (tcp_ports config) /\
  forall p, p ∈ tcp_ports config <-> p = cp_tcp_port config \/ p ∈ cp_additional_tcp_ports config.
Proof.
  destruct (push_ports_spec (cp_additional_tcp_ports config) [cp_tcp_port config]) as [H1 H2]; [apply NoDup_singleton|].
  split; [done|]. intros p. rewrite (H2 p), list_elem_of_singleton. done.
Qed.

Lemma traverse_checks {A} (f : A -> Result unit IoError) (l : list A) :
  (forall x, returns (f x)) ->
  returns (result_traverse f l) /\ (is_ok (result_traverse f l) = true <-> Forall (fun x => is_ok (f x) = true) l).
Proof.
  intros Hf. induction l as [|x l [IH1 IH2]]; cbn [result_traverse]; [by split; [|split; [constructor|]]|].
  specialize (Hf x). rewrite Forall_cons. destruct (f x) as [[]|e| |]; try done; cbn [result_bind is_ok].
  - destruct (result_traverse f l); try done; cbn in *; tauto.
  - split; [done|]. split; [done|]. by intros [? _].
Qed.

Lemma validate_one_spec (ports : list Z) (bridge : ExplicitProxyBridgeConfig) :
  returns (validate_one_proxy_bridge ports bridge) /\
  (is_ok (validate_one_proxy_bridge ports bridge) = true <->
   pb_sandbox_port bridge <> 0 /\ pb_sandbox_port bridge ∉ ports /\ sa_port (pb_backend_addr bridge) <> 0).
Proof.
  unfold validate_one_proxy_bridge. destruct (Z.eqb_spec (pb_sandbox_port bridge) 0) as [->|]; [split; [done|naive_solver]|].
  case_bool_decide; [split; [done|naive_solver]|].
  destruct (Z.eqb_spec (sa_port (pb_backend_addr bridge)) 0); split; try done; naive_solver.
Qed.

(** The ports the runtime listens on. *)
Definition listening_ports (config : CombinedTransparentProofConfig) : list Z :=
  tp_tcp_port <$> relay_configs config.

Lemma listening_ports_eq (config : CombinedTransparentProofConfig) :
  listening_ports config = tcp_ports config ++ (pb_sandbox_port <$> proxy_bridges config).
Proof.
  unfold listening_ports, relay_configs. change (@map) with (@list_fmap). rewrite fmap_app. f_equal.
  - rewrite <- (list_fmap_id (tcp_ports config)) at 2. by rewrite <- list_fmap_compose.
  - by rewrite <- list_fmap_compose.
Qed.

Lemma bridges_unique (config : CombinedTransparentProofConfig) :
  NoDup (pb_sandbox_port <$> proxy_bridges config) <->
  match cp_http_proxy_bridge config, cp_socks5_proxy_bridge config with
  | Some http, Some socks => pb_sandbox_port http <> pb_sandbox_port socks
  | _, _ => True
  end.
Proof.
  unfold proxy_bridges. destruct (cp_http_proxy_bridge config) as [a|], (cp_socks5_proxy_bridge config) as [b|]; cbn;
    rewrite ?NoDup_cons, ?list_elem_of_singleton; pose proof (NoDup_nil_2 (A := Z)); set_solver.
Qed.

(** ** Composition *)

Section composition.
Context `{!IterOrder (SandboxId * Hostname) DnsCacheEntry, !IterOrder FlowKey UdpFlowRecord}.
Context (udp : UdpDnsProofConfig) (dns_handle : Z) (forward_sockets : list UdpForwardSocket).
Context (ids : list (TcpProofConfig * Z)).

(** Component 0 is the UDP relay, component [S i] the [i]-th TCP socket. *)
Definition component_permitted (i : nat) (own : History) (o : HostOp) : Prop :=
  match i with
  | O => udp_permitted udp dns_handle forward_sockets own o
  | S i => exists config socket, ids !! i = Some (config, socket) /\ relay_permitted config socket own o
  end.

(** The histories of the components, each with permitted steps only. *)
Definition split_into (all : History) (owns : list History) : Prop :=
  Interleaves (I := Host) owns all /\
  forall i own, owns !! i = Some own -> steps_ok (I := Host) (component_permitted i) [] own.

(** An operation of the runtime is one that a component may do after what it
    has done itself. *)
Definition combined_permitted (all : History) (o : HostOp) : Prop :=
  exists owns i own, split_into all owns /\ owns !! i = Some own /\ component_permitted i own o.

Definition relay_holds (relay : TcpRelay) (own : History) : Prop :=
  relay_state (tr_config relay) (tr_socket relay) own (tr_flow relay).

Definition relay_id (relay : TcpRelay) : TcpProofConfig * Z := (tr_config relay, tr_socket relay).

(** Each component is in a state of its own history. *)
Definition combined_inv (all : History) (st : CombinedState) : Prop :=
  exists own_udp owns, split_into all (own_udp :: owns) /\ udp_inv udp dns_handle own_udp (cs_udp st) /\
    Forall2 relay_holds (cs_relays st) owns /\ relay_id <$> cs_relays st = ids.

(** One component's turn. *)
Lemma turn_wp {A} (i : nat) (Q : History -> A -> Prop) (p : Prog Host A) owns own all :
  split_into all owns -> owns !! i = Some own -> wp (component_permitted i) Q own p ->
  wp combined_permitted (fun all' a => exists own', split_into all' (<[i := own']> owns) /\ Q own' a) all p.
Proof.
  intros [Hint Hok] Hi Hp. assert (i < length owns)%nat as Hlen by by eapply lookup_lt_Some.
  assert (forall t, steps_ok (I := Host) (component_permitted i) [] (own ++ t) ->
    split_into (all ++ t) (<[i := own ++ t]> owns)) as Hsplit.
  { intros t Ht. split; [by apply interleaves_turn|]. intros j own' Hj.
    destruct (decide (i = j)) as [<-|Hne].
    - rewrite list_lookup_insert_eq in Hj by done. by injection Hj as <-.
    - rewrite list_lookup_insert_ne in Hj by done. by apply Hok. }
  eapply (wp_mono (I := Host)); [| |apply (wp_local (I := Host) _ _ _ own all (Hok i own Hi) Hp)].
  - intros all' o (t & -> & Ht & Ho). exists (<[i := own ++ t]> owns), i, (own ++ t).
    split_and!; [by apply Hsplit|by apply list_lookup_insert_eq|done].
  - intros all' a (t & -> & Ht & HQ). exists (own ++ t). split; [by apply Hsplit|done].
Qed.

Definition combined_post (all : History) (s : CombinedState * Result unit IoError) : Prop :=
  combined_inv all (fst s) /\ snd s <> Panic.

Lemma udp_part_wp (p : UdpState -> UdpStep) (fuel : nat) st (k : CombinedState -> CombinedStep) all :
  (forall udp_st own, udp_inv udp dns_handle own udp_st ->
     wp (udp_permitted udp dns_handle forward_sockets) (settled udp dns_handle fuel own) own (p udp_st)) ->
  combined_inv all st ->
  (forall all' st', combined_inv all' st' -> wp combined_permitted combined_post all' (k st')) ->
  wp combined_permitted combined_post all (udp_part p st k).
Proof.
  intros Hp (own & owns & Hs & Hu & Hr & Hids) Hk. apply wp_bind.
  eapply wp_post; [apply (turn_wp 0 (settled udp dns_handle fuel own) _ _ own _ Hs); [done|by apply Hp]|].
  intros all1 [udp_st r] (own1 & Hs1 & _ & Hu1 & Hres). cbn [fst snd] in *.
  assert (combined_inv all1 (mkCombinedState (cs_relays st) udp_st)) as Hinv by by exists own1, owns.
  destruct r as [[]|e| |]; try done. by apply Hk.
Qed.

Lemma combined_inv_set_flow all polled relay rest udp_st own_udp owns own flow audit :
  split_into all (<[S (length polled) := own]> (own_udp :: owns)) ->
  udp_inv udp dns_handle own_udp udp_st ->
  Forall2 relay_holds (polled ++ relay :: rest) owns ->
  relay_id <$> (polled ++ relay :: rest) = ids ->
  relay_state (tr_config relay) (tr_socket relay) own flow ->
  combined_inv all (mkCombinedState (polled ++ set_flow flow relay :: rest) (set_audit audit udp_st)).
Proof.
  intros Hs Hu Hr Hids Hst. exists own_udp, (<[length polled := own]> owns).
  assert (polled ++ set_flow flow relay :: rest = <[length polled := set_flow flow relay]> (polled ++ relay :: rest)) as ->.
  { by rewrite <- (Nat.add_0_r (length polled)), insert_app_r. }
  cbn [cs_relays cs_udp]. split_and!; [done|by apply udp_inv_set_audit|by apply Forall2_insert|].
  rewrite list_fmap_insert, Hids. apply list_insert_id. rewrite <- Hids, list_lookup_fmap, list_lookup_middle by done. done.
Qed.

Lemma poll_relays_wp (rest : list TcpRelay) : forall polled udp_st all,
  combined_inv all (mkCombinedState (polled ++ rest) udp_st) ->
  wp combined_permitted combined_post all (poll_relays polled rest udp_st).
Proof.
  induction rest as [|relay rest IH]; intros polled udp_st all Hinv; cbn [poll_relays].
  - rewrite app_nil_r in Hinv. by split.
  - destruct Hinv as (own_udp & owns & Hs & Hu & Hr & Hids). cbn [cs_relays cs_udp] in *.
    destruct (Forall2_lookup_l _ _ _ (length polled) relay Hr) as (own & Ho & Hst); [by apply list_lookup_middle|].
    apply wp_bind. eapply wp_post.
    { apply (turn_wp (S (length polled)) (stepped (tr_config relay) (tr_socket relay)) _ _ own _ Hs); [done|].
      eapply (wp_mono (I := Host)); [|done|by apply tcp_poll_wp].
      intros h o Hp. exists (tr_config relay), (tr_socket relay). split; [|done].
      rewrite <- Hids, list_lookup_fmap, list_lookup_middle by done. done. }
    intros all1 [[flow audit] r] (own1 & Hs1 & Hret & Hst1).
    pose proof (combined_inv_set_flow _ _ _ _ _ _ _ _ flow audit Hs1 Hu Hr Hids Hst1) as Hinv.
    destruct r as [[]|e| |]; try done. apply IH. by rewrite <- app_assoc.
Qed.

Lemma combined_round_wp fuel st all : combined_inv all st ->
  wp combined_permitted combined_post all (combined_round fuel udp dns_handle forward_sockets st).
Proof.
  intros Hi. apply (udp_part_wp _ fuel); [by intros; apply udp_front_wp|done|]. clear all st Hi. intros all st Hi.
  apply wp_bind. eapply wp_post; [apply poll_relays_wp; by destruct st|]. intros all1 [st1 r] [Hi1 Hr].
  destruct r as [[]|e| |]; try done. apply (udp_part_wp _ fuel); [by intros; apply udp_back_wp|done|].
  intros all2 st2 Hi2. by split.
Qed.

Lemma combined_rounds_wp n fuel : forall st all, combined_inv all st ->
  wp combined_permitted combined_post all (combined_rounds n fuel udp dns_handle forward_sockets st).
Proof.
  induction n as [|n IH]; intros st all Hi; cbn [combined_rounds]; [by split|].
  apply wp_bind. eapply wp_post; [by apply combined_round_wp|]. intros all1 [st1 r] [Hi1 Hr].
  destruct r as [[]|e| |]; try done. by apply IH.
Qed.

End composition.

(** The sockets of the loop when it starts. *)
Definition start_relays (config : CombinedTransparentProofConfig) (sockets : list Z) : list TcpRelay :=
  zip_with (fun c s => mkTcpRelay c s transparent_tcp_state_new) (relay_configs config) sockets.

Lemma combined_inv_start config dns_handle forward_sockets sockets audit :
  combined_inv (udp_config config) dns_handle forward_sockets (zip (relay_configs config) sockets) []
    (mkCombinedState (start_relays config sockets) (mkUdpState ∅ ∅ audit)).
Proof.
  unfold start_relays. exists [], (replicate (length (zip (relay_configs config) sockets)) []).
  split; [split|].
  - apply interleaves_nil. constructor; [done|]. by apply Forall_replicate.
  - intros i own Hi. assert (own = []) as ->; [|by intros [|] ? ?].
    destruct i; [by injection Hi as <-|]. by apply lookup_replicate in Hi as [-> _].
  - cbn [cs_udp cs_relays]. split; [apply udp_inv_start|].
    generalize (relay_configs config) as cs. intros cs. revert sockets.
    induction cs as [|c cs IH]; intros [|s sockets]; cbn; try (split; [constructor|done]).
    destruct (IH sockets) as [H1 H2]. split; [by constructor|]. cbn. by rewrite H2.
Qed.

(** ** Properties *)

(** The event of a datagram on a forward socket, sent to [ip]. *)
Definition datagram_event (config : UdpDnsProofConfig) (socket : UdpForwardSocket) (metadata : UdpMetadata) (ip : Z)
  (attribution : Attribution) : NetworkEvent :=
  udp_event config (mkEndpoint (V4 (se_addr (um_endpoint metadata))) (se_port (um_endpoint metadata)))
    (mkEndpoint (V4 ip) (us_port socket)) attribution.

Section gate.
Context (config : CombinedTransparentProofConfig) (dns_handle : Z) (forward_sockets : list UdpForwardSocket).
Context (sockets : list Z).
(** What the verdict of a flow and of a datagram must satisfy, beside being recorded. *)
Context (judged datagram_judged : NetworkEvent -> Decision -> Prop).

#[local] Abbreviation verdict event := (evaluate (cp_policy config) event).

(** The flow of one of the relays, from the source and to the destination that its
    stack answered: judged as a connection and by the event that decides it, both with
    their lines in the log. *)
Definition judged_flow (all : History) (relay : TcpProofConfig) (socket : Z) (source : TransportEndpoint)
  (destination : SocketAddr) (event : NetworkEvent) : Prop :=
  (relay, socket) ∈ zip (relay_configs config) sockets /\
  (exists own, own `sublist_of` all /\ cleared relay socket source destination event own) /\
  (judged event (verdict event) /\ tcp_recorded event (verdict event) all) /\
  exists attribution, let attempt := connect_event relay source destination attribution in
    judged attempt (verdict attempt) /\ tcp_recorded attempt (verdict attempt) all.

(** What leaves the runtime for the host network.  A connection is that of a judged
    flow: to the destination of the flow (or to the backend of the bridge), with the
    verdict of its event; bytes are written for judged flows only.  A datagram is one
    received on a forward socket: its own payload, to the address it was sent to, with
    the verdict of its own event, which is judged and recorded.  A query is one received
    on the DNS socket for the broker's address; it does not depend on the policy, but
    leaves under the fixed decision [broker_dns_decision], recorded, for the configured
    resolver only. *)
Definition egress_gate (all : History) (o : HostOp) : Prop :=
  match o with
  | HostOp.SpawnConnect request => exists relay socket source destination event,
      judged_flow all relay socket source destination event /\
      request = mkTcpEgressRequest (egress_context (cp_sandbox_id config) event (verdict event)) (Some source)
        (endpoint_of_socket_addr (host_destination relay destination)) (Some (tp_connect_timeout relay))
  | HostOp.TcpWrite _ _ => exists relay socket source destination event,
      judged_flow all relay socket source destination event
  | HostOp.SpawnWorker (UdpWorkerJob.Forward request payload timeout handle metadata source destination key) =>
      exists socket ip attribution,
        let event := datagram_event (udp_config config) socket metadata ip attribution in
        socket ∈ forward_sockets /\ received (us_handle socket) payload metadata all /\
        um_local_address metadata = Some ip /\ destination = mkEndpoint (V4 ip) (us_port socket) /\
        ue_destination request = destination /\ ue_source request = source /\
        ec_sandbox_id (ue_context request) = cp_sandbox_id config /\
        ec_decision (ue_context request) = verdict event /\ datagram_judged event (verdict event) /\
        event_protocol event <> Protocol.Tcp /\ udp_recorded event (verdict event) all
  | HostOp.SpawnWorker (UdpWorkerJob.Dns request payload timeout question sandbox_id metadata source) =>
      received dns_handle payload metadata all /\ um_local_address metadata = Some (cp_broker_ip config) /\
      parse_dns_query payload = Ok question /\
      de_upstream request = endpoint_of_socket_addr (cp_upstream_dns config) /\
      de_hostname request = q_hostname question /\
      ec_decision (de_context request) = broker_dns_decision /\
      udp_recorded (dns_query_event (udp_config config) question) broker_dns_decision all
  | HostOp.TcpConnect _ _ | HostOp.UdpBind _ | HostOp.UdpSendTo _ _ _ | HostOp.ResolveHost _ _
  | HostOp.TcpWriteAll _ _ => False
  | _ => True
  end.

End gate.

Lemma tcp_recorded_sublist event decision own all :
  own `sublist_of` all -> tcp_recorded event decision own -> tcp_recorded event decision all.
Proof. intros Hs [time H]. exists time. by eapply sublist_In. Qed.

Lemma udp_recorded_sublist event decision own all :
  own `sublist_of` all -> udp_recorded event decision own -> udp_recorded event decision all.
Proof. intros Hs [time H]. exists time. by eapply sublist_In. Qed.

(** A gate lets through more when it accepts more verdicts, and after more happened. *)
Lemma judged_flow_weaken config sockets (J J' : NetworkEvent -> Decision -> Prop) all all' relay socket source destination event :
  all `sublist_of` all' ->
  (forall event, J event (evaluate (cp_policy config) event) -> J' event (evaluate (cp_policy config) event)) ->
  judged_flow config sockets J all relay socket source destination event ->
  judged_flow config sockets J' all' relay socket source destination event.
Proof.
  intros Hs HJ (Hi & (own & Ho & Hc) & (He & Hre) & attribution & Ha & Hra).
  split_and!; [done| |by apply HJ|by eapply tcp_recorded_sublist|].
  - exists own. split; [by etransitivity|done].
  - exists attribution. split; [by apply HJ|by eapply tcp_recorded_sublist].
Qed.

Lemma egress_gate_weaken config dns_handle forward_sockets sockets (J J' D D' : NetworkEvent -> Decision -> Prop) all all' o :
  all `sublist_of` all' ->
  (forall event, J event (evaluate (cp_policy config) event) -> J' event (evaluate (cp_policy config) event)) ->
  (forall event, event_protocol event <> Protocol.Tcp ->
     D event (evaluate (cp_policy config) event) -> D' event (evaluate (cp_policy config) event)) ->
  egress_gate config dns_handle forward_sockets sockets J D all o ->
  egress_gate config dns_handle forward_sockets sockets J' D' all' o.
Proof.
  intros Hs HJ HD. destruct o; try done; cbn [egress_gate].
  - intros (relay & socket & source & destination & event & H). exists relay, socket, source, destination, event.
    by eapply judged_flow_weaken.
  - intros (relay & socket & source & destination & event & H & E). exists relay, socket, source, destination, event.
    split; [by eapply judged_flow_weaken|exact E].
  - destruct job as [request payload ? question|request].
    + intros (Hr & H1 & H2 & H3 & H4 & H5 & H6). split_and!; try done; [by eapply sublist_In|by eapply udp_recorded_sublist].
    + intros (s & ip & attribution & Hin & Hr & H1 & H2 & H3 & H4 & H5 & H6 & H7 & H8 & H9).
      exists s, ip, attribution. split_and!; try done; [by eapply sublist_In|by apply HD|by eapply udp_recorded_sublist].
Qed.

(** Under the policy of the runtime. *)
Definition combined_gate (config : CombinedTransparentProofConfig) (dns_handle : Z)
  (forward_sockets : list UdpForwardSocket) (sockets : list Z) : History -> HostOp -> Prop :=
  let allowed _ decision := is_allowed decision = true in
  egress_gate config dns_handle forward_sockets sockets allowed allowed.

Lemma relay_config_shared config c : c ∈ relay_configs config ->
  tp_policy c = cp_policy config /\ tp_sandbox_id c = cp_sandbox_id config.
Proof.
  unfold relay_configs. rewrite elem_of_app. change (@map) with (@list_fmap).
  intros [(p & -> & _)%list_elem_of_fmap|(b & -> & _)%list_elem_of_fmap]; done.
Qed.

(** A flow that its relay may serve is judged by the policy of the runtime. *)
Lemma cleared_judged config sockets all own i relay socket source destination event :
  own `sublist_of` all -> zip (relay_configs config) sockets !! i = Some (relay, socket) ->
  cleared relay socket source destination event own ->
  judged_flow config sockets (fun _ decision => is_allowed decision = true) all relay socket source destination event.
Proof.
  intros Hs Hi%list_elem_of_lookup_2 Hc.
  destruct (relay_config_shared config relay) as [E _]; [by eapply elem_of_zip_l|].
  pose proof Hc as ((_ & attribution & Ha1 & Ha2) & _ & _ & _ & _ & He1 & He2). rewrite E in *.
  split_and!; [done|by exists own|done|by eapply tcp_recorded_sublist|].
  exists attribution. split; [done|by eapply tcp_recorded_sublist].
Qed.

Lemma combined_permitted_gate config dns_handle forward_sockets sockets all o :
  combined_permitted (udp_config config) dns_handle forward_sockets (zip (relay_configs config) sockets) all o ->
  combined_gate config dns_handle forward_sockets sockets all o.
Proof.
  intros (owns & i & own & [Hint _] & Hi & Hp).
  pose proof (interleaves_sublist (I := Host) owns all i own Hint Hi) as Hs.
  destruct i as [|i]; cbn [component_permitted] in Hp.
  - destruct o; try done. destruct Hp as [_ [Hd|Hf]].
    + destruct Hd as (payload & metadata & question & Hr & Hl & Hq & Hrec & ->). cbn.
      split_and!; try done; [by eapply sublist_In|by eapply udp_recorded_sublist].
    + destruct Hf as (socket & payload & metadata & ip & attribution & Hin & Hr & Hl & Hal & Hrec & ->). cbn.
      exists socket, ip, attribution. split_and!; try done; [by eapply sublist_In| |by eapply udp_recorded_sublist].
      unfold classify_udp_candidate. by case_match.
  - destruct Hp as (c & s & Hc & Hp). unfold combined_gate. destruct o; try done; cbn [egress_gate relay_permitted] in *.
    + destruct Hp as [(source & destination & event & Hcl) _]. exists c, s, source, destination, event.
      by eapply cleared_judged.
    + destruct Hp as (source & destination & event & Hcl & ->). exists c, s, source, destination, event.
      split; [by eapply cleared_judged|].
      destruct (relay_config_shared config c) as [-> ->]; [|done].
      by eapply elem_of_zip_l, list_elem_of_lookup_2.
Qed.

Lemma validate_http_proxy_bridge_spec (config : CombinedTransparentProofConfig) :
  returns (validate_http_proxy_bridge config) /\
  (is_ok (validate_http_proxy_bridge config) = true <->
   NoDup (listening_ports config) /\ 0 ∉ listening_ports config /\
   Forall (fun bridge => sa_port (pb_backend_addr bridge) <> 0) (proxy_bridges config)) /\
  (forall p, p ∈ tcp_ports config <-> p = cp_tcp_port config \/ p ∈ cp_additional_tcp_ports config).
Proof.
  destruct (tcp_ports_spec config) as [Hn Hports]. pose proof (bridges_unique config) as Hu.
  unfold validate_http_proxy_bridge. set (check := fun port => if port =? 0 then _ else _).
  destruct (traverse_checks check (tcp_ports config)) as [R1 S1]; [intros x; unfold check; by destruct (x =? 0)|].
  destruct (traverse_checks (validate_one_proxy_bridge (tcp_ports config)) (proxy_bridges config)) as [R2 S2];
    [intros b; apply validate_one_spec|].
  set (unique := match cp_http_proxy_bridge config with Some http => _ | None => _ end).
  assert (returns unique /\ (is_ok unique = true <-> NoDup (pb_sandbox_port <$> proxy_bridges config))) as [R3 S3].
  { rewrite Hu. unfold unique. destruct (cp_http_proxy_bridge config) as [a|], (cp_socks5_proxy_bridge config) as [b|]; try done.
    destruct (Z.eqb_spec (pb_sandbox_port a) (pb_sandbox_port b)); split; done. }
  assert (is_ok (let? _ := result_traverse check (tcp_ports config) in let? _ := unique in
                 let? _ := result_traverse (validate_one_proxy_bridge (tcp_ports config)) (proxy_bridges config) in
                 Ok (E := IoError) tt) = true <->
          is_ok (result_traverse check (tcp_ports config)) = true /\ is_ok unique = true /\
          is_ok (result_traverse (validate_one_proxy_bridge (tcp_ports config)) (proxy_bridges config)) = true) as Hok.
  { clear. destruct (result_traverse check _); cbn; [|by split; [|intros [? _]]..].
    destruct unique; cbn; [|by split; [|intros (_ & ? & _)]..].
    destruct (result_traverse _ _); cbn; [by split|by split; [|intros (_ & _ & ?)]..]. }
  split_and!; [|rewrite Hok, S1, S2, S3; clear -Hn|done].
  - destruct (result_traverse check _); try done; cbn. destruct unique; try done; cbn. by destruct (result_traverse _ _).
  - rewrite listening_ports_eq, NoDup_app, not_elem_of_app, !Forall_forall.
    assert (forall port, is_ok (check port) = true <-> port <> 0) as Hcheck.
    { intros port. unfold check. destruct (Z.eqb_spec port 0); split; done. }
    setoid_rewrite Hcheck. setoid_rewrite (fun b => proj2 (validate_one_spec (tcp_ports config) b)).
    split.
    + intros (H1 & H2 & H3). split_and!; [done| |done| | |].
      * intros p Hp (b & -> & Hb)%list_elem_of_fmap. by destruct (H3 b Hb) as (_ & [] & _).
      * intros Hp. by apply (H1 0 Hp).
      * intros (b & E & Hb)%list_elem_of_fmap. by destruct (H3 b Hb) as [[] _].
      * intros b Hb. by apply (H3 b Hb).
    + intros ((_ & H2 & H3) & (H4 & H5) & H6). split_and!; [intros p Hp E; apply H4; by rewrite <- E|done|].
      intros b Hb. split_and!; [|intros Hp; apply (H2 _ Hp); by apply list_elem_of_fmap_2|by apply H6].
      intros E. apply H5. rewrite <- E. by apply list_elem_of_fmap_2.
Qed.

(** Validation accepts exactly the configurations that can listen: [validate_http_proxy_bridge]
    returns [Ok] if and only if the ports of the runtime's listening sockets (transparent
    ports, deduplicated, and bridges) are pairwise distinct and non-zero and every bridge
    has a non-zero backend port; otherwise it returns an error.  Deduplication keeps
    exactly the primary and the additional ports. *)
Theorem validation_accepts_distinct_ports (config : CombinedTransparentProofConfig) :
  returns (validate_http_proxy_bridge config) /\
  (is_ok (validate_http_proxy_bridge config) = true <->
   NoDup (listening_ports config) /\ 0 ∉ listening_ports config /\
   Forall (fun bridge => sa_port (pb_backend_addr bridge) <> 0) (proxy_bridges config)) /\
  (forall p, p ∈ tcp_ports config <-> p = cp_tcp_port config \/ p ∈ cp_additional_tcp_ports config).
Proof. apply validate_http_proxy_bridge_spec. Qed.

(** [C12] The parts of the combined runtime keep their contracts: over any number of rounds,
    with every behaviour of the stack, the host, the channels and the clocks, the common
    history is an interleaving of one history per component (the UDP relay and each TCP
    socket), and each component's history is one its own specification permits
    step by step: what [Tcp] and [Udp] prove of a relay alone holds of it here, with the
    shared audit buffer and DNS cache; in the end each component satisfies its invariant
    on its own history, and the code of the loop never panics. *)
Theorem combined_components_keep_contracts (order : IterOrder (SandboxId * Hostname) DnsCacheEntry)
  (order' : IterOrder FlowKey UdpFlowRecord) (config : CombinedTransparentProofConfig) (dns_handle : Z)
  (forward_sockets : list UdpForwardSocket) (sockets : list Z) (n fuel : nat) (audit : AuditBuffer) :
  let udp := udp_config config in
  let ids := zip (relay_configs config) sockets in
  wp (combined_permitted udp dns_handle forward_sockets ids)
    (fun all '(st, r) => combined_inv udp dns_handle forward_sockets ids all st /\ r <> Panic) []
    (combined_rounds n fuel udp dns_handle forward_sockets
       (mkCombinedState (start_relays config sockets) (mkUdpState ∅ ∅ audit))).
Proof.
  intros udp ids. eapply wp_post; [apply combined_rounds_wp, combined_inv_start|]. by intros all [st r].
Qed.

(** [C3] One policy governs the connections and datagrams that the combined runtime sends to
    the host: whatever the components do in turns, a connection starts (and bytes are
    written) only for a flow of one of its relays, to the destination the sandbox dialled
    or the backend of the bridge it dialled, with the verdict of the configured policy on
    the event that decides the flow; that verdict and the one on the connection attempt
    allow it and are already in the audit log.  A datagram leaves with its own payload
    for the address it was sent to, under the allowing, recorded verdict on its own event.
    The exception is DNS: a query to the broker is not put to the policy; it leaves under
    a fixed decision, which is recorded first, and for the configured resolver only. *)
Theorem combined_egress_follows_one_policy (order : IterOrder (SandboxId * Hostname) DnsCacheEntry)
  (order' : IterOrder FlowKey UdpFlowRecord) (config : CombinedTransparentProofConfig) (dns_handle : Z)
  (forward_sockets : list UdpForwardSocket) (sockets : list Z) (n fuel : nat) (audit : AuditBuffer) :
  wp (combined_gate config dns_handle forward_sockets sockets) (fun _ _ => True) []
    (combined_rounds n fuel (udp_config config) dns_handle forward_sockets
       (mkCombinedState (start_relays config sockets) (mkUdpState ∅ ∅ audit))).
Proof.
  eapply (wp_mono (I := Host)); [| |apply combined_rounds_wp, combined_inv_start]; [|done].
  intros all o. apply combined_permitted_gate.
Qed.
