(* ===== verification/Bounds.v ===== *)
(** * Resource bounds of the combined runtime

    What a sandbox can make the broker hold: the audit queue, the UDP flow table and
    the buffers of the TCP flows stay within the limits of the configuration, whatever
    the sandbox, the stack and the host do.  The audit buffer is threaded through all
    handlers of [Tcp], [Udp] and [Combined]; this file follows it. *)

From S2P Require Import Prelude Text NetAddr Event Policy Flow Dns Inspection AuditLog Config.
From S2P Require Import Effects AuditIo Limiter Tcp Udp Combined.

(** ** Results of every run *)

(** Every run of [p] ends in a result that satisfies [Q]. *)
Definition always {A} (Q : A -> Prop) (p : Prog Host A) : Prop :=
  forall h, wp (I := Host) (fun _ _ => True) (fun _ a => Q a) h p.

Lemma always_ret {A} (Q : A -> Prop) a : Q a -> always Q (Ret a).
Proof. by intros H h. Qed.

Lemma always_bind {A B} (P : A -> Prop) (Q : B -> Prop) (p : Prog Host A) (k : A -> Prog Host B) :
  always P p -> (forall a, P a -> always Q (k a)) -> always Q (prog_bind p k).
Proof.
  intros Hp Hk h. apply wp_bind. eapply (wp_mono (I := Host)); [done| |apply Hp]. intros h' a Ha. by apply Hk.
Qed.

Lemma always_true {A} (p : Prog Host A) : always (fun _ => True) p.
Proof. induction p as [a|o k IH]; intros h; [done|]. split; [done|]. intros r _. apply IH. Qed.

(** A part that does not touch what [Q] is about. *)
Lemma always_skip {A B} (Q : B -> Prop) (p : Prog Host A) (k : A -> Prog Host B) :
  (forall a, always Q (k a)) -> always Q (prog_bind p k).
Proof. intros Hk. by apply (always_bind (fun _ => True)); [apply always_true|]. Qed.

Lemma always_weaken {A} (P Q : A -> Prop) (p : Prog Host A) :
  always P p -> (forall a, P a -> Q a) -> always Q p.
Proof. intros Hp HQ h. by eapply (wp_mono (I := Host)); [done| |apply Hp]; auto. Qed.

Create HintDb bounds.
#[export] Hint Resolve always_ret : bounds.

(** ** The audit queue *)

(** The queue is within a capacity that never changes, and the counter of refused
    events is a [u64]. *)
Record fits (cap : Z) (audit : AuditBuffer) : Prop := mkFits {
  fi_capacity : ab_capacity audit = cap;
  fi_queue : Z.of_nat (length (ab_queue audit)) <= cap;
  fi_dropped : 0 <= ab_dropped_events audit < 2 ^ 64
}.

Lemma fits_new cap : 0 <= cap -> fits cap (audit_buffer_new cap).
Proof. by split. Qed.

Lemma try_push_fits cap audit event : fits cap audit -> fits cap (fst (try_push audit event)).
Proof.
  intros [Hc Hq Hd]. unfold try_push. assert (fits cap (count_drop audit)) as Hdrop.
  { split; [done|done|]. cbn. by apply Z.mod_pos_bound. }
  destruct (_ =? _); [done|]. destruct (Z.leb_spec (ab_capacity audit) (Z.of_nat (length (ab_queue audit)))); [done|].
  split; [done| |done]. cbn [fst ab_queue]. rewrite length_app. cbn [length]. lia.
Qed.

Lemma drain_queue_shrinks (queue : list AuditEvent) :
  always (fun s => (length (fst s) <= length queue)%nat) (drain_queue_to_stderr queue).
Proof.
  induction queue as [|event queue IH]; cbn [drain_queue_to_stderr]; [by apply always_ret|].
  apply always_skip. intros [[]|e| |]; [|by apply always_ret..].
  eapply always_weaken; [exact IH|]. cbn. lia.
Qed.

Section audit.
Context (cap : Z).

(** A program that keeps the buffer it is given within its capacity. *)
Abbreviation keeps p := (always (fun s => fits cap (fst s)) p).

Lemma drain_audit_fits audit : fits cap audit -> keeps (drain_audit_to_stderr audit).
Proof.
  intros [Hc Hq Hd]. eapply always_bind; [apply drain_queue_shrinks|]. intros [queue r] Hl.
  apply always_ret. split; [done| |done]. cbn in *. lia.
Qed.

Lemma record_event_fits event audit : fits cap audit -> keeps (record_event event audit).
Proof.
  intros Hf. eapply always_bind; [by apply drain_audit_fits|]. intros [b r] Hb. cbn [fst] in Hb.
  destruct r as [[]|e| |]; [|by apply always_ret..].
  pose proof (try_push_fits cap b event Hb) as Hp. destruct (try_push b event) as [b' pushed]. cbn [fst] in Hp.
  destruct pushed as [[]|e| |]; cbn [map_err]; [|by apply always_ret..].
  eapply always_bind; [by apply drain_audit_fits|]. intros [b2 r2] Hb2.
  destruct r2 as [[]|e| |]; [|by apply always_ret..]. apply always_skip. intros _. by apply always_ret.
Qed.

Lemma audit_try_fits {A B} (p : AuditIO A) (k : AuditBuffer -> A -> AuditIO B) :
  keeps p -> (forall audit a, fits cap audit -> keeps (k audit a)) -> keeps (audit_try p k).
Proof.
  intros Hp Hk. eapply always_bind; [exact Hp|]. intros [audit [a|e| |]] Hf; cbn [fst] in Hf; auto with bounds.
Qed.

Lemma keep_audit_fits {A} audit (p : IO A) : fits cap audit -> keeps (keep_audit audit p).
Proof. intros Hf. apply always_skip. intros r. by apply always_ret. Qed.

End audit.

#[export] Hint Resolve record_event_fits audit_try_fits keep_audit_fits : bounds.

(** One case of the program in the goal: return, branch, or a call whose answer the
    goal does not depend on.  Parts that thread the buffer have lemmas. *)
Ltac bounded :=
  cbv beta iota zeta;
  repeat match goal with
  | |- forall _, _ => intro
  | |- always _ (Ret _) => apply always_ret; by cbn in *
  | |- always _ (match ?x with _ => _ end) => destruct x
  | |- always _ (if ?x then _ else _) => destruct x
  | |- always _ (prog_bind _ _) => apply always_skip
  end.

(** ** The TCP relay *)

Section tcp.
Context `{!IterOrder (SandboxId * Hostname) DnsCacheEntry}.
Context (cap : Z).

Abbreviation keeps p := (always (fun s => fits cap (fst s)) p).

Lemma emit_tcp_audit_fits audit event decision : fits cap audit -> keeps (emit_tcp_audit audit event decision).
Proof. intros Hf. apply always_skip. intros time. by apply record_event_fits. Qed.

Lemma emit_tcp_flow_closed_audit_fits audit sandbox_id active :
  fits cap audit -> keeps (emit_tcp_flow_closed_audit audit sandbox_id active).
Proof. intros Hf. apply always_skip. intros time. apply always_skip. intros instant. by apply record_event_fits. Qed.

Lemma judge_inspected_fits config audit flow event denied :
  fits cap audit -> keeps (judge_inspected config audit flow event denied).
Proof.
  intros Hf. apply always_skip. intros _. apply audit_try_fits; [by apply emit_tcp_audit_fits|]. bounded.
Qed.

Lemma reject_inspected_fits config audit flow what error :
  fits cap audit -> keeps (reject_inspected config audit flow what error).
Proof. intros Hf. apply audit_try_fits; [by apply emit_tcp_audit_fits|]. bounded. Qed.

Lemma http_pump_fits config socket audit flow : fits cap audit -> keeps (http_pump config socket audit flow).
Proof.
  intros Hf. apply audit_try_fits; [by apply keep_audit_fits|]. intros audit' [pending last] Hf'. cbv zeta.
  destruct (parse_http_request_head _ _) as [i|[]| |];
    auto using judge_inspected_fits, reject_inspected_fits with bounds.
Qed.

Lemma tls_pump_fits config socket cache audit flow : fits cap audit -> keeps (tls_pump config socket cache audit flow).
Proof.
  intros Hf. apply audit_try_fits; [by apply keep_audit_fits|]. intros audit' [pending last] Hf'. cbv zeta.
  destruct (parse_tls_client_hello _) as [i|[]| |];
    [apply always_skip; intros name|..]; auto using judge_inspected_fits, reject_inspected_fits with bounds.
Qed.

Lemma accept_flow_fits config socket cache flow audit :
  fits cap audit -> always (fun s => fits cap (snd s)) (accept_flow socket config cache flow audit).
Proof.
  intros Hf. destruct flow as [flow|]; [by apply always_ret|]. cbn [accept_flow].
  apply always_skip. intros is_active. destruct (negb _); [by apply always_ret|].
  apply always_skip. intros local. apply always_skip. intros remote.
  destruct local; [|by apply always_ret]. destruct remote; [|by apply always_ret].
  do 3 (apply always_skip; intros ?).
  eapply always_bind; [by apply emit_tcp_audit_fits|]. intros [audit' r] Hf'. cbn [fst] in Hf'. bounded.
Qed.

(** The steps of a flow: the buffer is the second component of the result. *)
Abbreviation steps p := (always (fun s : Stepped => fits cap (snd (fst s))) p).

Lemma abort_flow_fits socket audit : fits cap audit -> steps (abort_flow socket audit).
Proof. intros Hf. unfold abort_flow. bounded. Qed.

Lemma step_inspecting_fits socket config wrap pump : keeps pump -> steps (step_inspecting socket config wrap pump).
Proof.
  intros Hp. eapply always_bind; [exact Hp|]. intros [audit r] Hf. cbn [fst] in Hf.
  destruct r as [[flow [c|]]|e| |]; auto using abort_flow_fits with bounds.
  do 2 (apply always_skip; intros ?). destruct a0; auto using abort_flow_fits with bounds.
Qed.

Lemma step_connecting_fits socket config audit flow : fits cap audit -> steps (step_connecting socket config audit flow).
Proof.
  intros Hf. apply always_skip. intros [[c [a|]]|e| |]; auto using abort_flow_fits with bounds.
  apply always_skip. intros is_active. apply always_skip. intros [|]; auto using abort_flow_fits with bounds.
Qed.

Lemma step_active_fits socket config audit flow : fits cap audit -> steps (step_active socket config audit flow).
Proof.
  intros Hf. apply always_skip. intros [a|e| |]; auto using abort_flow_fits with bounds.
  apply always_skip. intros [|]; [by apply abort_flow_fits|]. apply always_skip. intros is_active.
  destruct (_ && _ && _); [|by apply always_ret].
  eapply always_bind; [by apply emit_tcp_flow_closed_audit_fits|]. intros [audit' r] Hf'. cbn [fst] in Hf'. bounded.
Qed.

Lemma tcp_poll_fits flow socket config audit cache : fits cap audit -> steps (tcp_poll flow socket config audit cache).
Proof.
  intros Hf. apply always_skip. intros [[]|e| |]; auto with bounds.
  eapply always_bind; [by apply accept_flow_fits|]. intros [flow' audit'] Hf'. cbn [snd] in Hf'.
  destruct flow' as [[f|f|c|a]|]; cbn [step_flow];
    auto using step_inspecting_fits, http_pump_fits, tls_pump_fits, step_connecting_fits, step_active_fits with bounds.
Qed.

End tcp.

(** ** The UDP relay *)

Section udp.
Context `{!IterOrder (SandboxId * Hostname) DnsCacheEntry, !IterOrder FlowKey UdpFlowRecord}.
Context (cap : Z).

Abbreviation keeps p := (always (fun s => fits cap (fst s)) p).

(** The buffer of the state of the loop. *)
Definition state_fits (st : UdpState) : Prop := fits cap (st_audit st).

Abbreviation steps p := (always (fun s => state_fits (fst s)) p).

Lemma emit_udp_audit_fits audit event decision : fits cap audit -> keeps (emit_udp_audit audit event decision).
Proof. intros Hf. apply always_skip. intros time. by apply record_event_fits. Qed.

Lemma emit_dns_response_audit_fits audit config observation :
  fits cap audit -> keeps (emit_dns_response_audit audit config observation).
Proof. intros Hf. apply always_skip. intros time. by apply record_event_fits. Qed.

Lemma emit_udp_flow_expired_audit_fits audit sandbox_id flow :
  fits cap audit -> keeps (emit_udp_flow_expired_audit audit sandbox_id flow).
Proof. intros Hf. apply always_skip. intros time. by apply record_event_fits. Qed.

Lemma or_report_fits st (p : AuditIO unit) k :
  keeps p -> (forall st', state_fits st' -> steps (k st')) -> steps (or_report st p k).
Proof.
  intros Hp Hk. eapply always_bind; [exact Hp|]. intros [audit r] Hf. cbn [fst] in Hf.
  destruct r as [[]|e| |]; [by apply Hk|bounded..].
Qed.

Lemma or_warn_fits {A} st (p : IO A) k : state_fits st -> (forall a, steps (k a)) -> steps (or_warn st p k).
Proof. intros Hf Hk. apply always_skip. intros [a|e| |]; [apply Hk|bounded..]. Qed.

Lemma then_step_fits (p : UdpStep) k :
  steps p -> (forall st', state_fits st' -> steps (k st')) -> steps (then_step p k).
Proof.
  intros Hp Hk. eapply always_bind; [exact Hp|]. intros [st [[]|e| |]] Hf; cbn [fst] in Hf; auto with bounds.
Qed.

Lemma with_state_fits {A} st (p : IO A) k : state_fits st -> (forall a, steps (k a)) -> steps (with_state st p k).
Proof. intros Hf Hk. apply always_skip. intros [a|e| |]; [apply Hk|bounded..]. Qed.

Lemma for_each_fits {A} (items : list A) (f : A -> UdpState -> UdpStep) :
  (forall x st, state_fits st -> steps (f x st)) -> forall st, state_fits st -> steps (for_each items f st).
Proof.
  intros Hstep. induction items as [|x items IH]; intros st Hf; cbn [for_each]; [by apply always_ret|].
  apply then_step_fits; [by apply Hstep|exact IH].
Qed.

Lemma report_fits (p : UdpStep) : steps p -> steps (report p).
Proof. intros Hp. eapply always_bind; [exact Hp|]. intros [st r] Hf. cbn [fst] in Hf. bounded. Qed.

Lemma handle_worker_result_fits config dns_handle result st :
  state_fits st -> steps (handle_worker_result config dns_handle result st).
Proof.
  intros Hf. destruct result as [metadata ? response observation entries|handle metadata ? destination key response];
    apply or_warn_fits; try done.
  - intros bytes. apply or_report_fits.
    { destruct observation; [by apply emit_dns_response_audit_fits|by apply always_ret]. }
    intros st' Hf'. apply or_warn_fits; [done|]. bounded.
  - intros [bytes|]; [|by apply always_ret]. apply always_skip. intros time.
    apply or_warn_fits; [done|]. intros local. apply or_warn_fits; [done|]. bounded.
Qed.

Lemma handle_worker_results_fits fuel config dns_handle : forall st,
  state_fits st -> steps (handle_worker_results fuel config dns_handle st).
Proof.
  induction fuel as [|fuel IH]; intros st Hf; cbn [handle_worker_results]; [by apply always_ret|].
  apply always_skip. intros [result|e| |]; [|by apply always_ret..].
  apply then_step_fits; [by apply handle_worker_result_fits|exact IH].
Qed.

Lemma handle_dns_datagram_fits config audit payload metadata :
  fits cap audit -> keeps (handle_dns_datagram config audit payload metadata).
Proof.
  intros Hf. apply audit_try_fits; [by apply always_ret|]. intros audit1 ip Hf1.
  apply audit_try_fits; [by apply always_ret|]. intros audit2 source Hf2. cbv zeta.
  destruct (negb _).
  - apply audit_try_fits; [by apply emit_udp_audit_fits|]. bounded.
  - destruct (parse_dns_query payload) as [question|e| |]; [| |by apply always_ret..]; apply always_skip; intros _.
    + apply audit_try_fits; [by apply emit_udp_audit_fits|]. bounded.
    + by apply emit_udp_audit_fits.
Qed.

Lemma dns_step_fits config datagram st : state_fits st -> steps (dns_step config datagram st).
Proof.
  intros Hf. apply report_fits. eapply always_bind; [by apply handle_dns_datagram_fits|].
  intros [audit r] Hf'. by apply always_ret.
Qed.

Lemma handle_udp_forward_datagram_fits config datagram st :
  state_fits st -> steps (handle_udp_forward_datagram config datagram st).
Proof.
  intros Hf. unfold handle_udp_forward_datagram.
  destruct (local_destination _) as [ip|e| |], (udp_endpoint_to_transport (um_endpoint (ud_metadata datagram))) as [source|e'| |];
    try by apply always_ret.
  cbv zeta. do 3 (apply always_skip; intros ?).
  eapply always_bind; [by apply emit_udp_audit_fits|]. intros [audit r] Hf'. cbn [fst] in Hf'.
  destruct r as [[]|e| |]; [|by apply always_ret..]. destruct (negb _); [by apply always_ret|].
  unfold forward_allowed. destruct (_ && _); [|bounded].
  eapply always_bind; [by apply emit_udp_audit_fits|]. intros [audit2 r] Hf2. cbn [fst] in Hf2. bounded.
Qed.

Lemma expire_flows_fits sandbox_id expired : forall st, state_fits st -> steps (expire_flows sandbox_id expired st).
Proof.
  induction expired as [|flow expired IH]; intros st Hf; cbn [expire_flows]; [by apply always_ret|].
  eapply always_bind; [by apply emit_udp_flow_expired_audit_fits|]. intros [audit r] Hf'. cbn [fst] in Hf'.
  destruct r as [[]|e| |]; [|by apply always_ret..]. apply always_skip. intros _. by apply IH.
Qed.

Lemma expire_step_fits config st : state_fits st -> steps (expire_step config st).
Proof.
  intros Hf. apply always_skip. intros time. destruct (cache_expire _ _) as [cache expired].
  apply always_skip. intros _. by apply report_fits, expire_flows_fits.
Qed.

Lemma udp_front_fits fuel config dns_handle st : state_fits st -> steps (udp_front fuel config dns_handle st).
Proof. intros Hf. apply always_skip. intros _. by apply handle_worker_results_fits. Qed.

Lemma udp_back_fits fuel config dns_handle sockets st :
  state_fits st -> steps (udp_back fuel config dns_handle sockets st).
Proof.
  intros Hf. apply with_state_fits; [done|]. intros received.
  apply then_step_fits; [apply for_each_fits; [apply dns_step_fits|done]|]. intros st1 Hf1.
  apply with_state_fits; [done|]. intros forwards.
  apply then_step_fits.
  { apply for_each_fits; [|done]. intros datagram st2 Hf2. by apply report_fits, handle_udp_forward_datagram_fits. }
  intros st2 Hf2. apply then_step_fits; [by apply handle_worker_results_fits|]. intros st3 Hf3.
  apply then_step_fits; [by apply expire_step_fits|]. bounded.
Qed.

(** ** The combined runtime *)

Lemma udp_part_fits (p : UdpState -> UdpStep) st (k : CombinedState -> CombinedStep) :
  state_fits (cs_udp st) -> (forall udp, state_fits udp -> steps (p udp)) ->
  (forall st', state_fits (cs_udp st') -> always (fun s => state_fits (cs_udp (fst s))) (k st')) ->
  always (fun s => state_fits (cs_udp (fst s))) (udp_part p st k).
Proof.
  intros Hf Hp Hk. eapply always_bind; [by apply Hp|]. intros [udp r] Hf'. cbn [fst] in Hf'.
  destruct r as [[]|e| |]; [by apply Hk|by apply always_ret..].
Qed.

Lemma poll_relays_fits rest : forall polled udp,
  state_fits udp -> always (fun s => state_fits (cs_udp (fst s))) (poll_relays polled rest udp).
Proof.
  induction rest as [|relay rest IH]; intros polled udp Hf; cbn [poll_relays]; [by apply always_ret|].
  eapply always_bind; [by apply tcp_poll_fits|]. intros [[flow audit] r] Hf'. cbn [fst snd] in Hf'. cbv zeta.
  destruct r as [[]|e| |]; [by apply IH|by apply always_ret..].
Qed.

Lemma combined_rounds_fits n fuel config dns_handle sockets : forall st,
  state_fits (cs_udp st) ->
  always (fun s => state_fits (cs_udp (fst s))) (combined_rounds n fuel config dns_handle sockets st).
Proof.
  induction n as [|n IH]; intros st Hf; cbn [combined_rounds]; [by apply always_ret|].
  eapply (always_bind (fun s => state_fits (cs_udp (fst s)))).
  - apply udp_part_fits; [done|by intros; apply udp_front_fits|]. intros st1 Hf1.
    eapply (always_bind (fun s => state_fits (cs_udp (fst s)))); [by apply poll_relays_fits|].
    intros [st2 r] Hf2. cbn [fst] in Hf2. destruct r as [[]|e| |]; [|by apply always_ret..].
    apply udp_part_fits; [done|by intros; apply udp_back_fits|]. intros st3 Hf3. by apply always_ret.
  - intros [st1 r] Hf1. cbn [fst] in Hf1. destruct r as [[]|e| |]; [by apply IH|by apply always_ret..].
Qed.

End udp.

Lemma emit_startup_fits cap audit config :
  fits cap audit -> always (fun s => fits cap (fst s)) (emit_startup audit config).
Proof.
  intros Hf. assert (forall audit kind proxy, fits cap audit ->
    always (fun s => fits cap (fst s)) (emit_combined_lifecycle_audit audit config kind proxy)) as Hemit.
  { intros a kind proxy Ha. apply always_skip. intros time. by apply record_event_fits. }
  unfold emit_startup. do 3 (apply audit_try_fits; [by apply Hemit|]; clear audit Hf; intros audit _ Hf).
  generalize (map (pair (lit "http")) (option_list (cp_http_proxy_bridge config))
     ++ map (pair (lit "socks5")) (option_list (cp_socks5_proxy_bridge config))) as bridges.
  intros bridges. revert audit Hf. induction bridges as [|bridge bridges IH]; intros audit Hf; cbn [emit_bridges];
    [by apply always_ret|]. apply audit_try_fits; [by apply Hemit|]. intros audit' _ Hf'. by apply IH.
Qed.

(** ** Property *)

(** The bytes a flow holds for either side. *)
Definition held (flow : TransparentTcpState) : nat :=
  match flow with
  | None => 0
  | Some (FlowState.InspectingHttp f) | Some (FlowState.InspectingTls f) => length (if_pending_to_host f)
  | Some (FlowState.Connecting c) => length (cf_pending_to_host c)
  | Some (FlowState.Active a) => length (af_pending_to_host a) + length (af_pending_to_sandbox a)
  end.

(** The limits of the configuration. *)
Record within_limits (config : CombinedTransparentProofConfig) (st : CombinedState) : Prop := mkWithinLimits {
  wl_audit : fits (cp_audit_queue_capacity config) (st_audit (cs_udp st));
  wl_udp_flows : Z.of_nat (flow_len (st_flows (cs_udp st))) <= cp_max_udp_flows config;
  wl_sockets : (length (cs_relays st) <= length (relay_configs config))%nat;
  wl_flows : Forall (fun relay =>
    (held (tr_flow relay) <= 2 * Z.to_nat (cp_pending_buffer_limit config) + CHUNK_LEN)%nat) (cs_relays st);
  wl_bytes : (sum_list (held <$> (tr_flow <$> cs_relays st)) <=
    length (relay_configs config) * (2 * Z.to_nat (cp_pending_buffer_limit config) + CHUNK_LEN))%nat
}.

Lemma relay_limit_shared config c :
  c ∈ relay_configs config -> tp_pending_buffer_limit c = cp_pending_buffer_limit config.
Proof.
  unfold relay_configs. rewrite elem_of_app. change (@map) with (@list_fmap).
  by intros [(p & -> & _)%list_elem_of_fmap|(b & -> & _)%list_elem_of_fmap].
Qed.

Lemma held_limit relay own :
  relay_holds relay own -> (held (tr_flow relay) <= 2 * buffer_limit (tr_config relay) + CHUNK_LEN)%nat.
Proof.
  unfold relay_holds. destruct (tr_flow relay) as [[f|f|c|a]|]; cbn [relay_state held].
  - intros (_ & _ & _ & [_ _ H]). lia.
  - intros (_ & _ & _ & [_ _ H]). lia.
  - intros (_ & [_ _ H]). lia.
  - intros [_ _ _ _ _ H1 H2]. lia.
  - lia.
Qed.

Lemma sum_list_bound (ns : list nat) (b : nat) : Forall (fun n => (n <= b)%nat) ns -> (sum_list ns <= length ns * b)%nat.
Proof. induction 1 as [|n ns Hn H IH]; cbn; lia. Qed.

(** A state of the runtime's invariant is within its limits. *)
Lemma combined_inv_within config dns_handle forward_sockets sockets all st :
  0 <= cp_max_udp_flows config -> fits (cp_audit_queue_capacity config) (st_audit (cs_udp st)) ->
  combined_inv (udp_config config) dns_handle forward_sockets (zip (relay_configs config) sockets) all st ->
  within_limits config st.
Proof.
  intros Hmax Hf (own & owns & _ & Hu & Hr & Hids).
  assert (length (cs_relays st) <= length (relay_configs config))%nat as Hlen.
  { rewrite <- (length_fmap relay_id), Hids, length_zip_with. lia. }
  assert (Forall (fun relay =>
    (held (tr_flow relay) <= 2 * Z.to_nat (cp_pending_buffer_limit config) + CHUNK_LEN)%nat) (cs_relays st)) as Hheld.
  { apply Forall_forall. intros relay Hin. apply list_elem_of_lookup in Hin as [i Hi].
    destruct (Forall2_lookup_l _ _ _ _ _ Hr Hi) as (own' & _ & Hh). apply held_limit in Hh.
    assert (relay_id relay ∈ zip (relay_configs config) sockets) as Hz.
    { rewrite <- Hids. apply list_elem_of_fmap_2, list_elem_of_lookup. by exists i. }
    apply elem_of_zip_l, relay_limit_shared in Hz. unfold buffer_limit in Hh. cbn in Hz. rewrite Hz in Hh. exact Hh. }
  split; [done| |done|done|].
  - destruct (ui_bound _ _ _ _ Hu) as [->|Hb]; [exact Hmax|exact Hb].
  - etransitivity; [apply sum_list_bound; do 2 apply Forall_fmap; exact Hheld|].
    rewrite !length_fmap. by apply Nat.mul_le_mono_r.
Qed.

(** A result that does not depend on the history. *)
Lemma always_from {A} (Q : A -> Prop) (p : Prog Host A) h0 :
  wp (I := Host) (fun _ _ => True) (fun _ a => Q a) h0 p -> always Q p.
Proof.
  revert h0. induction p as [a|o k IH]; intros h0 H h; [exact H|]. split; [done|]. intros r Hr.
  eapply IH, H, Hr.
Qed.

Lemma combined_rounds_within `{!IterOrder (SandboxId * Hostname) DnsCacheEntry, !IterOrder FlowKey UdpFlowRecord}
  config dns_handle forward_sockets sockets n fuel audit :
  0 <= cp_max_udp_flows config -> fits (cp_audit_queue_capacity config) audit ->
  always (fun s => within_limits config (fst s))
    (combined_rounds n fuel (udp_config config) dns_handle forward_sockets
       (mkCombinedState (start_relays config sockets) (mkUdpState ∅ ∅ audit))).
Proof.
  intros Hmax Hf. apply (always_from _ _ []).
  set (p := combined_rounds _ _ _ _ _ _).
  assert (wp (I := Host) (fun _ _ => True) (fun all s =>
    combined_inv (udp_config config) dns_handle forward_sockets (zip (relay_configs config) sockets) all (fst s)) [] p) as Hinv.
  { eapply (wp_mono (I := Host)); [| |apply combined_rounds_wp, combined_inv_start]; [done|]. by intros all s []. }
  assert (always (fun s => state_fits (cp_audit_queue_capacity config) (cs_udp (fst s))) p) as Hfits
    by by apply combined_rounds_fits.
  clearbody p. specialize (Hfits []). revert Hinv Hfits. generalize ([] : History) as h.
  induction p as [s|o k IH]; intros h Hinv Hfits; [by eapply combined_inv_within|].
  split; [done|]. intros r Hr. apply IH; [by apply Hinv|by apply Hfits].
Qed.

(** [C13] The broker's memory is bounded by its configuration: after the start-up and any
    number of rounds, whatever sandbox, stack, channels and host do (an audit sink that
    stops included), at most [audit_queue_capacity] records wait for the sink and the
    counter of refused records is a [u64]; the UDP flow table holds at most
    [max_udp_flows] records; there is at most one TCP flow for each configured port and
    bridge, each with at most its two limits and one chunk of pending bytes, and so is
    their sum. *)
Theorem combined_runtime_is_bounded (order : IterOrder (SandboxId * Hostname) DnsCacheEntry)
  (order' : IterOrder FlowKey UdpFlowRecord) (config : CombinedTransparentProofConfig) (dns_handle : Z)
  (forward_sockets : list UdpForwardSocket) (sockets : list Z) (n fuel : nat) :
  0 <= cp_audit_queue_capacity config -> 0 <= cp_max_udp_flows config ->
  always (fun '(st, _) => within_limits config st)
    (let* (audit, _) := emit_startup (audit_buffer_new (cp_audit_queue_capacity config)) config in
     combined_rounds n fuel (udp_config config) dns_handle forward_sockets
       (mkCombinedState (start_relays config sockets) (mkUdpState ∅ ∅ audit))).
Proof.
  intros Hcap Hmax. eapply always_bind; [by apply emit_startup_fits, fits_new|]. intros [audit r] Hf.
  eapply always_weaken; [by apply combined_rounds_within|]. by intros [st r'].
Qed.

(** A sink that fails at once: the records wait, within the capacity. *)
Lemma combined_runtime_is_bounded_witness :
  let order := canonical_order (SandboxId * Hostname) DnsCacheEntry in
  let order' := canonical_order FlowKey UdpFlowRecord in
  let config := combined_config_new (mkSandboxId (lit "s")) in
  let blocked : Answers Host := fun h o =>
    match o return host_answer o with
    | HostOp.StderrWriteAll _ => Err (mkIoError IoErrorKind.BrokenPipe [])
    | o => obliging_host h o
    end in
  let '((st, _), _) := replay blocked []
    (let* (audit, _) := emit_startup (audit_buffer_new (cp_audit_queue_capacity config)) config in
     combined_rounds 2 1 (udp_config config) 0 [] (mkCombinedState (start_relays config [1]) (mkUdpState ∅ ∅ audit))) in
  within_limits config st /\ ab_queue (st_audit (cs_udp st)) <> [].
Proof.
  intros order order' config blocked.
  assert (answers_ok blocked) as Henv.
  { intros h o. pose proof (obliging_host_ok h o) as H. destruct o; exact H || exact I. }
  pose proof (executes_finished (I := Host) _ _ blocked _ _ (wp_run _ _ _ _ [] (answering_ok _ Henv)
    (combined_runtime_is_bounded order order' config 0 [] [1] 2 1 ltac:(done) ltac:(done) []))) as H.
  match type of H with let '(_, _) := ?x in _ =>
    assert (ab_queue (st_audit (cs_udp (fst (fst x)))) <> []) as Hq; [vm_compute; discriminate|] end.
  destruct (replay blocked [] _) as [[st r] h]. split; [exact (proj1 H)|exact Hq].
Defined.
