(* ===== verification/Args.v ===== *)
(** * Command lines ([crates/foxprox-cli/src/main.rs], [foxprox-setup/src/main.rs])

    What the option loops of both binaries share: the loop over the argument
    iterator, the value of an option, and [FromStr] of the types options have. *)

From S2P Require Import Prelude Text NetAddr Flow Effects.

(** ** Errors *)

Definition invalid_input_error (message : str) : IoError := mkIoError IoErrorKind.InvalidInput message.

(** [impl Display for ParseIntError]. *)
Definition int_error_display (e : IntErrorKind) : str :=
  match e with
  | IntEmpty => lit "cannot parse integer from empty string"
  | IntInvalidDigit => lit "invalid digit found in string"
  | IntPosOverflow => lit "number too large to fit in target type"
  end.

(** [impl Display for AddrParseError]. *)
Definition ip_syntax_error : str := lit "invalid IP address syntax".
Definition ipv4_syntax_error : str := lit "invalid IPv4 address syntax".
Definition socket_syntax_error : str := lit "invalid socket address syntax".

(** ** [String::from_utf8_lossy] *)

(** The bytes after [b0] that a character starting with it needs: the range of
    the first continuation byte, and how many plain ones follow. *)
Definition utf8_tail (b0 : byte) : option (option (Z * Z) * nat) :=
  if in_range 0 127 b0 then Some (None, 0%nat)
  else if in_range 194 223 b0 then Some (Some (128, 191), 0%nat)
  else if in_range 224 239 b0 then
    Some (Some (if u8_val b0 =? 224 then (160, 191) else if u8_val b0 =? 237 then (128, 159) else (128, 191)), 1%nat)
  else if in_range 240 244 b0 then
    Some (Some (if u8_val b0 =? 240 then (144, 191) else if u8_val b0 =? 244 then (128, 143) else (128, 191)), 2%nat)
  else None.

(** [n] plain continuation bytes: whether they are there, and how many are. *)
Fixpoint conts (n : nat) (bs : list byte) : bool * nat :=
  match n with
  | O => (true, 0%nat)
  | S n =>
      match bs with
      | b :: bs => if is_cont b then let (ok, k) := conts n bs in (ok, S k) else (false, 0%nat)
      | [] => (false, 0%nat)
      end
  end.

(** The character [b0 :: bs] starts with: whether it is whole, and its length,
    or the length of the part that cannot be continued. *)
Definition utf8_char (b0 : byte) (bs : list byte) : bool * nat :=
  match utf8_tail b0 with
  | None => (false, 1%nat)
  | Some (None, _) => (true, 1%nat)
  | Some (Some (lo, hi), n) =>
      match bs with
      | b1 :: bs => if in_range lo hi b1 then let (ok, k) := conts n bs in (ok, S (S k)) else (false, 1%nat)
      | [] => (false, 1%nat)
      end
  end.

(** Every character has a byte, so the length is enough fuel. *)
Fixpoint lossy_loop (fuel : nat) (bs : list byte) : str :=
  match fuel, bs with
  | S fuel, b0 :: r =>
      let (ok, n) := utf8_char b0 r in
      (if ok then take n bs else [xef; xbf; xbd]) ++ lossy_loop fuel (drop n bs)
  | _, _ => []
  end.

Definition from_utf8_lossy (bs : list byte) : str := lossy_loop (length bs) bs.

Example from_utf8_lossy_cut : from_utf8_lossy [x61; xe2; x82; x62; xf0; x9f; xc3; xa9] =
  [x61; xef; xbf; xbd; x62; xef; xbf; xbd; xc3; xa9].
Proof. reflexivity. Qed.

(** ** [FromStr]

    An error is the text it displays. *)

Definition uint_from_str (max : Z) (s : str) : Result Z str := map_err int_error_display (parse_uint max s).

Definition ipv4_from_str (s : str) : Result Z str := ok_or (parse_ipv4 s) ipv4_syntax_error.

(** [:] and a decimal [u16], of any number of digits. *)
Definition read_port (s : str) : option (Z * str) :=
  read_separator x3a 1 (read_number 10 (length s) u16_max true) s.

(** [%] and a decimal [u32], if there is one. *)
Definition skip_scope_id (s : str) : str :=
  match read_separator x25 1 (read_number 10 (length s) u32_max true) s with
  | Some (_, rest) => rest
  | None => s
  end.

Definition read_socket_addr_v4 (s : str) : option (SocketAddr * str) :=
  '(ip, s) ← read_ipv4_addr s; '(port, s) ← read_port s; Some (mkSocketAddr (V4 ip) port, s).

(** The scope id of an IPv6 address is read and not kept. *)
Definition read_socket_addr_v6 (s : str) : option (SocketAddr * str) :=
  '(ip, s) ← read_separator x5b 1 read_ipv6_addr s;
  '(port, s) ← read_separator x5d 1 read_port (skip_scope_id s);
  Some (mkSocketAddr (V6 ip) port, s).

Definition socket_addr_from_str (s : str) : Result SocketAddr str :=
  match (match read_socket_addr_v4 s with
         | Some r => Some r
         | None => read_socket_addr_v6 s
         end) with
  | Some (addr, []) => Ok addr
  | _ => Err socket_syntax_error
  end.

(** ** Values of options *)

Definition parse_value {T} (from_str : str -> Result T str) (value : str) : Result T IoError :=
  map_err (fun error => invalid_input_error (lit "invalid value " ++ debug_str value ++ lit ": " ++ error))
    (from_str value).

Definition parse_socket_addr (value : str) : Result SocketAddr IoError :=
  map_err (fun error =>
    invalid_input_error (lit "invalid socket address " ++ debug_str value ++ lit ": " ++ error))
    (socket_addr_from_str value).

Definition parse_millis (value : str) : Result Duration IoError :=
  let? millis := parse_value (uint_from_str u64_max) value in Ok (from_millis millis).

Definition nonzero (parsed : Z) : Result Z IoError :=
  if parsed =? 0 then Err (invalid_input_error (lit "value must be greater than zero")) else Ok parsed.

(** [usize] has 64 bits. *)
Definition parse_nonzero_usize (value : str) : Result Z IoError :=
  let? parsed := parse_value (uint_from_str u64_max) value in nonzero parsed.

Definition parse_nonzero_u16 (value : str) : Result Z IoError :=
  let? parsed := parse_value (uint_from_str u16_max) value in nonzero parsed.

(** ** The option loop

    [while let Some(arg) = args.next() { match arg.as_str() { .. } }]: what an
    arm of the match does with the settings read so far. *)

Inductive Arm (S : Type) : Type :=
| Value (flag : str) (set : str -> Result S IoError)
| Switch (settings : S)
| Rest (settings : list str -> S)
| Reject (error : IoError).

Arguments Value {S} flag set.
Arguments Switch {S} settings.
Arguments Rest {S} settings.
Arguments Reject {S} error.

(** [args.next()] for the value of [flag]; [k] goes on with what is left. *)
Definition required_value {A} (args : list str) (flag : str) (k : str -> list str -> Result A IoError)
  : Result A IoError :=
  match args with
  | value :: args => k value args
  | [] => Err (invalid_input_error (lit "missing value for " ++ flag))
  end.

Fixpoint parse_options {S} (arm : S -> str -> Arm S) (settings : S) (args : list str) : Result S IoError :=
  match args with
  | [] => Ok settings
  | arg :: args =>
      match arm settings arg with
      | Value flag set =>
          required_value args flag (fun value args =>
            let? settings := set value in parse_options arm settings args)
      | Switch settings => parse_options arm settings args
      | Rest finish => Ok (finish args)
      | Reject error => Err error
      end
  end.

(** The arms every command ends with. *)
Definition other_argument {S} (usage other : str) : Arm S :=
  Reject (invalid_input_error
    (if bool_decide (other ∈ [lit "--help"; lit "-h"]) then usage
     else lit "unexpected argument " ++ debug_str other ++ [x0a] ++ usage)).

(** An option whose value is set by [set]. *)
Definition valued {S T} (flag : str) (parse : str -> Result T IoError) (set : T -> S) : Arm S :=
  Value flag (fun value => let? parsed := parse value in Ok (set parsed)).

(** The value as it is. *)
Definition as_given (value : str) : Result str IoError := Ok value.

(** ** Lemmas *)

Lemma parse_options_value {S T} (arm : S -> str -> Arm S) (st : S) (flag value : str) (args : list str)
  (parse : str -> Result T IoError) (set : T -> S) (v : T) :
  arm st flag = valued flag parse set -> parse value = Ok v ->
  parse_options arm st (flag :: value :: args) = parse_options arm (set v) args.
Proof. intros Ha Hp. cbn [parse_options]. rewrite Ha. cbn. by rewrite Hp. Qed.

Lemma parse_options_switch {S} (arm : S -> str -> Arm S) (st st' : S) (flag : str) (args : list str) :
  arm st flag = Switch st' -> parse_options arm st (flag :: args) = parse_options arm st' args.
Proof. intros Ha. cbn [parse_options]. by rewrite Ha. Qed.

Lemma parse_options_rest {S} (arm : S -> str -> Arm S) (st : S) (flag : str) (args : list str) (finish : list str -> S) :
  arm st flag = Rest finish -> parse_options arm st (flag :: args) = Ok (finish args).
Proof. intros Ha. cbn [parse_options]. by rewrite Ha. Qed.

(** What every arm keeps, the loop keeps. *)
Lemma parse_options_ind {S} (P : S -> Prop) (arm : S -> str -> Arm S) :
  (forall st arg, P st ->
     match arm st arg with
     | Value _ set => forall value st', set value = Ok st' -> P st'
     | Switch st' => P st'
     | Rest finish => forall args, P (finish args)
     | Reject _ => True
     end) ->
  forall args st st', P st -> parse_options arm st args = Ok st' -> P st'.
Proof.
  intros Harm. assert (forall n args st st', (length args <= n)%nat ->
    P st -> parse_options arm st args = Ok st' -> P st') as H; [|by eauto].
  induction n as [|n IH]; intros [|arg args] st st' Hn HP H; cbn [parse_options length] in *; try lia;
    try by simplify_eq.
  specialize (Harm st arg HP). destruct (arm st arg) as [flag set|st1|finish|e]; try done.
  - unfold required_value in H. destruct args as [|value args]; [done|].
    destruct (set value) as [st1| | |] eqn:E; cbn [result_bind] in H; try done.
    eapply IH; [|by eapply Harm|exact H]. cbn in Hn. lia.
  - eapply IH; [|exact Harm|exact H]. lia.
  - simplify_eq. apply Harm.
Qed.

(** The loop returns when the values do. *)
Definition arm_returns {S} (a : Arm S) : Prop :=
  match a with Value _ set => forall value, returns (set value) | _ => True end.

Lemma parse_options_returns {S} (arm : S -> str -> Arm S) :
  (forall st arg, arm_returns (arm st arg)) -> forall args st, returns (parse_options arm st args).
Proof.
  intros Harm. assert (forall n args st, (length args <= n)%nat -> returns (parse_options arm st args)) as H;
    [|by eauto].
  induction n as [|n IH]; intros [|arg args] st Hn; cbn [parse_options length] in *; try lia; try done.
  specialize (Harm st arg). destruct (arm st arg) as [flag set|st1|finish|e]; try done; [|apply IH; lia].
  unfold required_value. destruct args as [|value args]; [done|]. specialize (Harm value). cbn in Hn.
  destruct (set value); cbn; try done. apply IH. lia.
Qed.

Lemma parse_value_returns {T} (from_str : str -> Result T str) (value : str) :
  (forall s, returns (from_str s)) -> returns (parse_value from_str value).
Proof. intros H. unfold parse_value. specialize (H value). by destruct (from_str value). Qed.

Lemma uint_from_str_returns (max : Z) (s : str) : returns (uint_from_str max s).
Proof. unfold uint_from_str. pose proof (parse_uint_returns max s). by destruct (parse_uint max s). Qed.

Lemma ipv4_from_str_returns (s : str) : returns (ipv4_from_str s).
Proof. unfold ipv4_from_str. by destruct (parse_ipv4 s). Qed.

Lemma socket_addr_from_str_returns (s : str) : returns (socket_addr_from_str s).
Proof. unfold socket_addr_from_str. by repeat case_match. Qed.

Lemma parse_socket_addr_returns (s : str) : returns (parse_socket_addr s).
Proof. unfold parse_socket_addr. pose proof (socket_addr_from_str_returns s). by destruct (socket_addr_from_str s). Qed.

Lemma parse_uint_value_returns (max : Z) (s : str) : returns (parse_value (uint_from_str max) s).
Proof. apply parse_value_returns, uint_from_str_returns. Qed.

Lemma parse_ipv4_value_returns (s : str) : returns (parse_value ipv4_from_str s).
Proof. apply parse_value_returns, ipv4_from_str_returns. Qed.

Lemma nonzero_returns (r : Result Z IoError) : returns r -> returns (result_bind r nonzero).
Proof. destruct r as [v| | |]; cbn; try done. unfold nonzero. by destruct (v =? 0). Qed.

Lemma parse_nonzero_returns (s : str) : returns (parse_nonzero_usize s) /\ returns (parse_nonzero_u16 s).
Proof. split; apply nonzero_returns, parse_uint_value_returns. Qed.

Lemma parse_millis_returns (s : str) : returns (parse_millis s).
Proof. unfold parse_millis. pose proof (parse_uint_value_returns u64_max s). by destruct (parse_value _ s). Qed.

Lemma valued_returns {S T} (flag : str) (parse : str -> Result T IoError) (set : T -> S) :
  (forall s, returns (parse s)) -> arm_returns (valued flag parse set).
Proof. intros H value. specialize (H value). by destruct (parse value). Qed.

Lemma other_argument_returns {S} (usage other : str) : arm_returns (@other_argument S usage other).
Proof. done. Qed.

#[export] Hint Resolve parse_uint_value_returns parse_ipv4_value_returns parse_socket_addr_returns
  parse_millis_returns valued_returns other_argument_returns : foxprox.

(** The arms of a command, one by one. *)
Ltac arms := repeat case_bool_decide; first [exact I | apply valued_returns; intros ?; first
  [exact I | apply parse_nonzero_returns | by auto with foxprox]].
