(* ===== verification/Os.v ===== *)
(** * The operating system, as the command-line binaries use it
      ([crates/foxprox-cli/src/main.rs], [crates/foxprox-setup/src/main.rs])

    The interface of the launcher and of the setup helper: files, Unix sockets,
    child processes, capabilities and threads, with the paths they are given.
    Descriptors, children and channels are numbers; paths and arguments are
    UTF-8 strings.  [Effects] holds programs and their preconditions. *)

From S2P Require Import Prelude Text NetAddr Event Policy AuditLog Config.
From S2P Require Import Effects Tcp Udp Combined Proxy.

(** ** Data of the calls *)

(** [caps::CapSet]; a [Capability] is its kernel number. *)
Inductive CapSet : Type := Effective | Permitted | Inheritable | Ambient | Bounding.

Definition CAP_NET_RAW : Z := 13.

(** [std::process::ExitStatus]: [success()] and what it displays. *)
Record ExitStatus : Type := mkExitStatus { es_success : bool; es_display : str }.

(** The part of [fs::Metadata] that is read. *)
Record FileMetadata : Type := mkFileMetadata { fm_is_socket : bool; fm_dev : Z; fm_ino : Z }.

(** A control message of [recvmsg]: the descriptors of [ScmRights], or another. *)
Inductive ControlMessage : Type := ScmRights (fds : list Z) | OtherControl.

(** What the threads of the launcher capture, and what the proof commands run on
    the main thread: the brokers, which write [ready] to [stream] when they have
    started, and the proxy listeners. *)
Inductive ThreadJob : Type :=
| BrokerThread (tun_fd stream : Z) (config : CombinedTransparentProofConfig)
| HttpBackendThread (config : HttpProxyProofConfig)
| TcpProofJob (tun_fd stream : Z) (config : TcpProofConfig)
| UdpDnsProofJob (tun_fd stream : Z) (config : UdpDnsProofConfig)
| HttpProxyJob (config : HttpProxyProofConfig)
| Socks5ProxyJob (config : Socks5ProxyProofConfig)
| Socks5BackendThread (config : Socks5ProxyProofConfig).

#[export] Instance CapSet_eq_dec : EqDecision CapSet.
Proof. solve_decision. Defined.
#[export] Instance ControlMessage_eq_dec : EqDecision ControlMessage.
Proof. solve_decision. Defined.

(** ** The interface

    An error of the [nix] and [caps] crates is the text it displays.  [RecvMsg]
    answers the outer error of [recvmsg] or of [cmsgs].  [Exec] replaces the
    process: it has an answer only when it fails.  [SpawnThread] starts a thread
    and answers the channel its result arrives on; [RunHere] runs a job to its end.
    [OnHost] is a call of the broker interface, for the audit records that the
    main thread writes itself. *)

Module OsOp.
Inductive OsOp : Type :=
| EnvVar (name : str)
| TempDir
| ProcessId
| CurrentExe
| ReadToString (path : str)
| CreateDirAll (path : str)
| RemoveFile (path : str)
| SetPermissions (path : str) (mode : Z)
| SymlinkMetadata (path : str)
| OpenReadWrite (path : str)
| OpenTruncate (path : str)
| WriteAll (fd : Z) (bytes : list byte)
| Read (fd : Z) (max : nat)
| ReadExact (fd : Z) (len : nat)
| CloseFd (fd : Z)
| UnixBind (path : str)
| UnixAccept (listener : Z)
| UnixConnect (path : str)
| PeerCredentials (stream : Z)
| GetEuid
| RecvMsg (stream : Z)
| SendMsg (stream : Z) (bytes : list byte) (fds : list Z)
| TunSetIff (fd : Z) (name : list byte)
| CommandStatus (program : str) (args : list str)
| SpawnCommand (program : str) (args : list str)
| ChildTryWait (child : Z)
| ChildKill (child : Z)
| ChildWait (child : Z)
| CapsRead (set : CapSet)
| CapsDrop (set : CapSet) (capability : Z)
| NoNewPrivs
| Exec (program : str) (args : list str) (env : list (str * str))
| SpawnThread (job : ThreadJob)
| RecvBackend (channel : Z)
| TryRecvBroker (channel : Z)
| RunHere (job : ThreadJob)
| SleepFor (duration : Z)
| Message
| OnHost (o : HostOp).
End OsOp.
Abbreviation OsOp := OsOp.OsOp.

Definition os_answer (o : OsOp) : Type :=
  match o with
  | OsOp.EnvVar _ => option str
  | OsOp.TempDir => str
  | OsOp.ProcessId | OsOp.GetEuid | OsOp.SpawnThread _ => Z
  | OsOp.CurrentExe | OsOp.ReadToString _ => Result str IoError
  | OsOp.SymlinkMetadata _ => Result FileMetadata IoError
  | OsOp.CreateDirAll _ | OsOp.RemoveFile _ | OsOp.SetPermissions _ _ | OsOp.WriteAll _ _
  | OsOp.TunSetIff _ _ | OsOp.NoNewPrivs | OsOp.ChildKill _ | OsOp.RunHere _ => Result unit IoError
  | OsOp.OpenReadWrite _ | OsOp.OpenTruncate _ | OsOp.UnixBind _ | OsOp.UnixAccept _
  | OsOp.UnixConnect _ | OsOp.PeerCredentials _ | OsOp.SpawnCommand _ _ => Result Z IoError
  | OsOp.Read _ _ | OsOp.ReadExact _ _ => Result (list byte) IoError
  | OsOp.CloseFd _ | OsOp.SleepFor _ | OsOp.Message => unit
  | OsOp.RecvMsg _ => Result (list ControlMessage) str
  | OsOp.SendMsg _ _ _ | OsOp.CapsDrop _ _ => Result unit str
  | OsOp.CommandStatus _ _ | OsOp.ChildWait _ => Result ExitStatus IoError
  | OsOp.ChildTryWait _ => Result (option ExitStatus) IoError
  | OsOp.CapsRead _ => Result (list Z) str
  | OsOp.Exec _ _ _ => IoError
  | OsOp.RecvBackend _ => Result (Result SocketAddr IoError) str
  | OsOp.TryRecvBroker _ => Result (Result unit IoError) TryRecvError
  | OsOp.OnHost o => host_answer o
  end.

(** Calls answer values or errors; reads respect the buffer. *)
Definition os_valid (o : OsOp) : os_answer o -> Prop :=
  match o return os_answer o -> Prop with
  | OsOp.EnvVar _ | OsOp.TempDir | OsOp.ProcessId | OsOp.GetEuid | OsOp.SpawnThread _ | OsOp.CloseFd _
  | OsOp.SleepFor _ | OsOp.Message | OsOp.Exec _ _ _ => fun _ => True
  | OsOp.CurrentExe | OsOp.ReadToString _ => fun r => returns r
  | OsOp.SymlinkMetadata _ => fun r => returns r
  | OsOp.CreateDirAll _ | OsOp.RemoveFile _ | OsOp.SetPermissions _ _ | OsOp.WriteAll _ _
  | OsOp.TunSetIff _ _ | OsOp.NoNewPrivs | OsOp.ChildKill _ | OsOp.RunHere _ => fun r => returns r
  | OsOp.OpenReadWrite _ | OsOp.OpenTruncate _ | OsOp.UnixBind _ | OsOp.UnixAccept _
  | OsOp.UnixConnect _ | OsOp.PeerCredentials _ | OsOp.SpawnCommand _ _ => fun r => returns r
  | OsOp.Read _ max => fun r => returns r /\ forall bs, r = Ok bs -> (length bs <= max)%nat
  | OsOp.ReadExact _ len => fun r => returns r /\ forall bs, r = Ok bs -> length bs = len
  | OsOp.RecvMsg _ => fun r => returns r
  | OsOp.SendMsg _ _ _ | OsOp.CapsDrop _ _ => fun r => returns r
  | OsOp.CommandStatus _ _ | OsOp.ChildWait _ => fun r => returns r
  | OsOp.ChildTryWait _ => fun r => returns r
  | OsOp.CapsRead _ => fun r => returns r
  | OsOp.RecvBackend _ => fun r => returns r /\ forall x, r = Ok x -> returns x
  | OsOp.TryRecvBroker _ => fun r => returns r /\ forall x, r = Ok x -> returns x
  | OsOp.OnHost o => host_valid o
  end.

(** A job run on the calling thread panics when one of its own calls does. *)
Definition os_may_panic (o : OsOp) : bool :=
  match o with
  | OsOp.Message | OsOp.SpawnThread _ | OsOp.RunHere _ => true
  | OsOp.OnHost o => host_may_panic o
  | _ => false
  end.

Definition Os : Interface := mkInterface OsOp os_answer os_valid os_may_panic.

Abbreviation Sys A := (Prog Os A).
Abbreviation SysIO A := (Prog Os (Result A IoError)).

(** A call, at its type. *)
Definition os (o : OsOp) : Prog Os (os_answer o) := @perform Os o.

(** A program of the broker interface, on the main thread. *)
Fixpoint on_host {A} (p : Prog Host A) : Sys A :=
  match p with
  | Ret a => Ret a
  | Do o k => Do (I := Os) (OsOp.OnHost o) (fun r => on_host (k r))
  end.

(** [.map_err(io::Error::other)]. *)
Definition other {A} (p : Prog Os (Result A str)) : SysIO A :=
  let* r := p in Ret (map_err (fun error => mkIoError IoErrorKind.Other error) r).

(** ** Paths ([std::path]) *)

(** Trailing separators and current-directory components. *)
Fixpoint trim_path_loop (fuel : nat) (rev_path : str) : str :=
  match fuel with
  | O => rev_path
  | S fuel =>
      match rev_path with
      | x2f :: r => trim_path_loop fuel r
      | x2e :: x2f :: r => trim_path_loop fuel (x2f :: r)
      | _ => rev_path
      end
  end.

(** Each step removes a byte, so the length is enough fuel. *)
Definition trim_path (path : str) : str := rev (trim_path_loop (length path) (rev path)).

(** [Path::parent]. *)
Definition path_parent (path : str) : option str :=
  let path' := trim_path path in
  if bool_decide (path' = []) then None
  else match rsplit_once x2f path' with
       | None => Some []
       | Some (dir, _) =>
           let dir := trim_path dir in
           Some (if bool_decide (dir = []) then [x2f] else dir)
       end.

(** [PathBuf::push]. *)
Definition path_push (path name : str) : str :=
  if starts_with [x2f] name then name
  else if bool_decide (path = []) || ends_with [x2f] path then path ++ name
  else path ++ [x2f] ++ name.

(** [PathBuf::set_file_name]: the last component, unless it is [..], goes. *)
Definition path_set_file_name (path name : str) : str :=
  match path_parent path with
  | Some dir =>
      if ends_with (lit "/..") (trim_path path) || bool_decide (trim_path path = lit "..") then path_push path name
      else path_push dir name
  | None => path_push path name
  end.

(** ** Histories *)

(** The call [o] was made and answered [r]. *)
Definition answered (o : OsOp) (r : os_answer o) (h : list (Action Os)) : Prop :=
  List.In (existT o r : Action Os) h.

(** [h'] continues [h]. *)
Definition continues (h h' : list (Action Os)) : Prop := exists t, h' = h ++ t.

#[export] Instance continues_preorder : PreOrder continues.
Proof.
  split; [intros h; exists []; by rewrite app_nil_r|].
  intros h1 h2 h3 [t1 ->] [t2 ->]. exists (t1 ++ t2). by rewrite <- app_assoc.
Qed.

Lemma continues_snoc (h : list (Action Os)) e : continues h (h ++ [e]).
Proof. by exists [e]. Qed.

Lemma continues_step (h h' : list (Action Os)) e : continues h h' -> continues h (h' ++ [e]).
Proof. intros H. etransitivity; [exact H|apply continues_snoc]. Qed.

Lemma answered_later (o : OsOp) (r : os_answer o) (h h' : list (Action Os)) :
  continues h h' -> answered o r h -> answered o r h'.
Proof. intros [t ->] H. apply in_or_app. by left. Qed.

Lemma answered_last (o : OsOp) (r : os_answer o) (h : list (Action Os)) :
  answered o r (h ++ [existT o r : Action Os]).
Proof. apply in_or_app. right. by left. Qed.

#[export] Hint Resolve continues_snoc continues_step answered_last : foxprox.
#[export] Hint Extern 2 (continues ?h ?h) => reflexivity : foxprox.

(** Facts about a history that stay true when it goes on. *)
Class Later (P : list (Action Os) -> Prop) : Prop := later : forall h h', continues h h' -> P h -> P h'.

#[export] Instance later_answered (o : OsOp) (r : os_answer o) : Later (answered o r).
Proof. intros h h'. apply answered_later. Qed.
#[export] Instance later_const (Q : Prop) : Later (fun _ => Q) | 10.
Proof. by intros h h' _. Qed.
#[export] Instance later_and P Q : Later P -> Later Q -> Later (fun h => P h /\ Q h).
Proof. intros HP HQ h h' Hc [H1 H2]. split; [by eapply HP|by eapply HQ]. Qed.
#[export] Instance later_or P Q : Later P -> Later Q -> Later (fun h => P h \/ Q h).
Proof. intros HP HQ h h' Hc [H|H]; [left; by eapply HP|right; by eapply HQ]. Qed.
#[export] Instance later_exists {A} (P : A -> list (Action Os) -> Prop) :
  (forall x, Later (P x)) -> Later (fun h => exists x, P x h).
Proof. intros HP h h' Hc [x H]. exists x. by eapply HP. Qed.
#[export] Instance later_forall {A} (P : A -> list (Action Os) -> Prop) :
  (forall x, Later (P x)) -> Later (fun h => forall x, P x h).
Proof. intros HP h h' Hc H x. by eapply HP. Qed.
#[export] Instance later_impl (Q : Prop) P : Later P -> Later (fun h => Q -> P h).
Proof. intros HP h h' Hc H HQ. eapply HP; [done|auto]. Qed.
#[export] Instance later_Forall {A} (P : A -> list (Action Os) -> Prop) (l : list A) :
  (forall x, Later (P x)) -> Later (fun h => Forall (fun x => P x h) l).
Proof. intros HP h h' Hc H. eapply Forall_impl; [exact H|]. intros x. by apply HP. Qed.

(** A fact carried along a history. *)
Lemma carry {P : list (Action Os) -> Prop} {HP : Later P} {h : list (Action Os)} (h' : list (Action Os)) :
  P h -> continues h h' -> P h'.
Proof. intros H Hc. by eapply HP. Qed.

(** A program extends the history it starts from. *)
Lemma wp_continues {A} (step : list (Action Os) -> OsOp -> Prop) (Q : list (Action Os) -> A -> Prop) (p : Sys A) :
  forall h, wp step Q h p ->
  wp (fun h' o => continues h h' /\ step h' o) (fun h' a => continues h h' /\ Q h' a) h p.
Proof.
  induction p as [a|o k IH]; intros h; cbn; [done|]. intros [Hs Hk]. split; [by split|].
  intros r Hr. eapply wp_mono; [| |by apply IH, Hk];
    (intros h' x [Hc Hx]; split; [etransitivity; [apply continues_snoc|exact Hc]|exact Hx]).
Qed.

(** A part of a program: it continues the history, and a success establishes [P]. *)
Definition part {A} (P : A -> list (Action Os) -> Prop) (h h' : list (Action Os)) (r : Result A IoError) : Prop :=
  continues h h' /\ match r with Ok x => P x h' | Err _ => True | Panic | OutOfFuel => False end.

Lemma sys_part_try {A B} (step : list (Action Os) -> OsOp -> Prop) (P : A -> list (Action Os) -> Prop)
  (Q : B -> list (Action Os) -> Prop) (p : SysIO A) (k : A -> SysIO B) h0 h :
  continues h0 h -> wp step (part P h) h p ->
  (forall x h', continues h h' -> P x h' -> wp step (part Q h0) h' (k x)) ->
  wp step (part Q h0) h (prog_try p k).
Proof.
  intros Hc Hp Hk. apply wp_try. eapply wp_mono; [done| |exact Hp].
  intros h' [x|e| |] [Hc' HP]; cbn; try done; [by apply Hk|]. split; [by etransitivity|done].
Qed.

(** ** Programs of the broker interface *)

Definition host_action (e : Action Host) : Action Os := existT (OsOp.OnHost (projT1 e)) (projT2 e).

Lemma host_action_In (o : HostOp) (r : host_answer o) (t : list (Action Host)) :
  List.In (existT o r : Action Host) t -> answered (OsOp.OnHost o) r (map host_action t).
Proof. intros H. apply (in_map host_action _ _ H). Qed.

(** A precondition over the broker interface, of the program's own history,
    describes what the program adds to the history of the main thread. *)
Lemma on_host_wp {A} (host_step : list (Action Host) -> HostOp -> Prop) (step : list (Action Os) -> OsOp -> Prop)
  (Q : list (Action Host) -> A -> Prop) (p : Prog Host A) : forall own h,
  (forall t o, host_step (own ++ t) o -> step (h ++ map host_action t) (OsOp.OnHost o)) ->
  wp host_step Q own p ->
  wp step (fun h' a => exists t, h' = h ++ map host_action t /\ Q (own ++ t) a) h (on_host p).
Proof.
  induction p as [a|o k IH]; intros own h Hs; cbn [on_host wp].
  - intros HQ. exists []. by rewrite !app_nil_r.
  - intros [Ho Hk]. split; [rewrite <- (app_nil_r h); apply (Hs []); by rewrite app_nil_r|]. intros r Hr.
    eapply wp_mono; [done| |apply (IH r (own ++ [existT o r])); [|by apply Hk]].
    + intros h' a (t & -> & HQ). exists (existT o r :: t). by rewrite <- !app_assoc in *.
    + intros t o' Ho'. rewrite <- !app_assoc in *. by apply (Hs (existT o r :: t)).
Qed.

(** ** An example system

    Every call succeeds; files and children are number 0, a process holds
    [CAP_NET_ADMIN] and [CAP_NET_RAW], peers have the same user, the broker
    answers [ready] and threads report success. *)
Definition obliging_os : Answers Os := fun _ o =>
  match o return os_answer o with
  | OsOp.EnvVar _ => None
  | OsOp.TempDir => lit "/tmp"
  | OsOp.ProcessId | OsOp.GetEuid | OsOp.SpawnThread _ => 0
  | OsOp.CurrentExe => Ok (lit "/usr/bin/foxprox")
  | OsOp.ReadToString _ => Ok []
  | OsOp.SymlinkMetadata _ => Ok (mkFileMetadata true 0 0)
  | OsOp.CreateDirAll _ | OsOp.RemoveFile _ | OsOp.SetPermissions _ _ | OsOp.WriteAll _ _
  | OsOp.TunSetIff _ _ | OsOp.NoNewPrivs | OsOp.ChildKill _ | OsOp.RunHere _ => Ok tt
  | OsOp.OpenReadWrite _ | OsOp.OpenTruncate _ | OsOp.UnixBind _ | OsOp.UnixAccept _
  | OsOp.UnixConnect _ | OsOp.PeerCredentials _ | OsOp.SpawnCommand _ _ => Ok 0
  | OsOp.Read _ _ => Ok []
  | OsOp.ReadExact _ len => Ok (take len (lit "ready" ++ [x0a] ++ replicate len x00))
  | OsOp.CloseFd _ | OsOp.SleepFor _ | OsOp.Message => tt
  | OsOp.RecvMsg _ => Ok [ScmRights [0]]
  | OsOp.SendMsg _ _ _ | OsOp.CapsDrop _ _ => Ok tt
  | OsOp.CommandStatus _ _ | OsOp.ChildWait _ => Ok (mkExitStatus true (lit "exit status: 0"))
  | OsOp.ChildTryWait _ => Ok (Some (mkExitStatus true (lit "exit status: 0")))
  | OsOp.CapsRead _ => Ok [12; CAP_NET_RAW]
  | OsOp.Exec _ _ _ => mkIoError IoErrorKind.NotFound []
  | OsOp.RecvBackend _ => Ok (Ok (mkSocketAddr (V4 (ipv4_new 127 0 0 1)) 4000))
  | OsOp.TryRecvBroker _ => Ok (Ok tt)
  | OsOp.OnHost o => obliging_host [] o
  end.

Lemma obliging_os_ok : answers_ok obliging_os.
Proof.
  intros h o. destruct o; try (exact (obliging_host_ok [] _)); cbn; try done; (split; [done|]); intros ? [= <-]; cbn; try lia; try done.
  rewrite length_take. cbn. rewrite length_replicate. lia.
Qed.
