(* ===== verification/Setup.v ===== *)
(** * The privileged setup helper ([crates/foxprox-setup/src/main.rs])

    [foxproxsetup] runs first inside the sandbox with [CAP_NET_ADMIN]: it makes
    the TUN interface, hands its descriptor to the broker, gives up its
    capabilities and becomes the target command.  A program over [Os]; an error
    of [run] ends the process, which closes its descriptors. *)

From S2P Require Import Prelude Text NetAddr Effects Args Os.

Definition IFNAMSIZ : nat := 16.

Record ProxyEnv : Type := mkProxyEnv {
  xe_http_proxy : option str;
  xe_https_proxy : option str;
  xe_all_proxy : option str;
  xe_no_proxy : option str
}.

Record SetupArgs : Type := mkSetupArgs {
  su_setup_socket : str;
  su_ifname : str;
  su_sandbox_ip : Z;
  su_prefix_len : Z;
  su_broker_ip : Z;
  su_mtu : Z;
  su_resolv_conf : str;
  su_keep_cap_net_raw : bool;
  su_proxy_env : ProxyEnv;
  su_target : list str
}.

(** ** Arguments *)

(** The local variables of [parse_args]. *)
Record SetupOptions : Type := mkSetupOptions {
  so_setup_socket : option str;
  so_ifname : str;
  so_sandbox_ip : Z;
  so_prefix_len : Z;
  so_broker_ip : Z;
  so_mtu : Z;
  so_resolv_conf : str;
  so_keep_cap_net_raw : bool;
  so_proxy_env : ProxyEnv;
  so_target : list str
}.

Definition setup_options_new (socket_env : option str) : SetupOptions :=
  mkSetupOptions socket_env (lit "foxprox0") (ipv4_new 10 255 0 2) 24 (ipv4_new 10 255 0 1) 1500
    (lit "/etc/resolv.conf") false (mkProxyEnv None None None None) [].

Definition setup_usage : str :=
  lit "usage: foxproxsetup --setup-socket PATH [--ifname foxprox0] [--sandbox-ip 10.255.0.2] [--prefix-len 24] [--broker-ip 10.255.0.1] [--mtu 1500] [--resolv-conf /etc/resolv.conf] [--http-proxy URL] [--https-proxy URL] [--all-proxy URL] [--no-proxy LIST] [--keep-cap-net-raw-for-ping] -- target args...".

Definition setup_arm (st : SetupOptions) (arg : str) : Arm SetupOptions :=
  let '(mkSetupOptions socket ifname ip prefix broker mtu resolv keep env target) := st in
  let '(mkProxyEnv http https all no) := env in
  if bool_decide (arg = lit "--setup-socket") then
    valued arg as_given (fun v => mkSetupOptions (Some v) ifname ip prefix broker mtu resolv keep env target)
  else if bool_decide (arg = lit "--ifname") then
    valued arg as_given (fun v => mkSetupOptions socket v ip prefix broker mtu resolv keep env target)
  else if bool_decide (arg = lit "--sandbox-ip") then
    valued arg (parse_value ipv4_from_str) (fun v => mkSetupOptions socket ifname v prefix broker mtu resolv keep env target)
  else if bool_decide (arg = lit "--prefix-len") then
    valued arg (parse_value (uint_from_str 255)) (fun v => mkSetupOptions socket ifname ip v broker mtu resolv keep env target)
  else if bool_decide (arg = lit "--broker-ip") then
    valued arg (parse_value ipv4_from_str) (fun v => mkSetupOptions socket ifname ip prefix v mtu resolv keep env target)
  else if bool_decide (arg = lit "--mtu") then
    valued arg (parse_value (uint_from_str u16_max)) (fun v => mkSetupOptions socket ifname ip prefix broker v resolv keep env target)
  else if bool_decide (arg = lit "--resolv-conf") then
    valued arg as_given (fun v => mkSetupOptions socket ifname ip prefix broker mtu v keep env target)
  else if bool_decide (arg = lit "--http-proxy") then
    valued arg as_given (fun v => mkSetupOptions socket ifname ip prefix broker mtu resolv keep (mkProxyEnv (Some v) https all no) target)
  else if bool_decide (arg = lit "--https-proxy") then
    valued arg as_given (fun v => mkSetupOptions socket ifname ip prefix broker mtu resolv keep (mkProxyEnv http (Some v) all no) target)
  else if bool_decide (arg = lit "--all-proxy") then
    valued arg as_given (fun v => mkSetupOptions socket ifname ip prefix broker mtu resolv keep (mkProxyEnv http https (Some v) no) target)
  else if bool_decide (arg = lit "--no-proxy") then
    valued arg as_given (fun v => mkSetupOptions socket ifname ip prefix broker mtu resolv keep (mkProxyEnv http https all (Some v)) target)
  else if bool_decide (arg = lit "--keep-cap-net-raw-for-ping") then
    Switch (mkSetupOptions socket ifname ip prefix broker mtu resolv true env target)
  else if bool_decide (arg = lit "--") then
    Rest (fun args => mkSetupOptions socket ifname ip prefix broker mtu resolv keep env (target ++ args))
  else other_argument setup_usage arg.

(** [socket_env] is the variable [FOXPROX_SETUP_SOCKET]. *)
Definition setup_parse_args (socket_env : option str) (args : list str) : Result SetupArgs IoError :=
  let? st := parse_options setup_arm (setup_options_new socket_env) args in
  if bool_decide (so_target st = []) then
    Err (invalid_input_error (lit "missing target command" ++ [x0a] ++ setup_usage))
  else
    let? setup_socket := ok_or (so_setup_socket st)
      (invalid_input_error (lit "missing --setup-socket or FOXPROX_SETUP_SOCKET" ++ [x0a] ++ setup_usage)) in
    Ok (mkSetupArgs setup_socket (so_ifname st) (so_sandbox_ip st) (so_prefix_len st) (so_broker_ip st) (so_mtu st)
          (so_resolv_conf st) (so_keep_cap_net_raw st) (so_proxy_env st) (so_target st)).

Definition validate_ifname (ifname : str) : Result unit IoError :=
  if bool_decide (ifname = []) || (IFNAMSIZ <=? length ifname)%nat || bool_decide (x00 ∈ ifname) then
    Err (invalid_input_error (lit "invalid TUN interface name " ++ debug_str ifname))
  else Ok tt.

(** ** The interface *)

(** The [name] field of [ifreq]: the bytes that fit, padded with zeros. *)
Definition ifreq_name (ifname : str) : list byte := take IFNAMSIZ (ifname ++ replicate IFNAMSIZ x00).

Definition create_tun (ifname : str) : SysIO Z :=
  let! fd := os (OsOp.OpenReadWrite (lit "/dev/net/tun")) in
  let! _ := os (OsOp.TunSetIff fd (ifreq_name ifname)) in
  Ret (Ok fd).

Definition run_ip (args : list str) : SysIO unit :=
  let! status := os (OsOp.CommandStatus (lit "/usr/bin/ip") args) in
  Ret (if es_success status then Ok tt
       else Err (mkIoError IoErrorKind.Other (lit "ip command failed with " ++ es_display status))).

Definition resolv_conf_text (broker_ip : Z) : str :=
  lit "# Generated by foxproxsetup; sandbox DNS is broker-controlled." ++ [x0a]
  ++ lit "nameserver " ++ ipv4_display broker_ip ++ [x0a] ++ lit "options edns0 trust-ad" ++ [x0a].

Definition write_resolv_conf (path : str) (broker_ip : Z) : SysIO unit :=
  let! fd := os (OsOp.OpenTruncate path) in
  os (OsOp.WriteAll fd (resolv_conf_text broker_ip)).

Definition configure_network (args : SetupArgs) : SysIO unit :=
  let ifname := su_ifname args in
  let! _ := run_ip [lit "link"; lit "set"; lit "lo"; lit "up"] in
  let! _ := run_ip [lit "addr"; lit "add";
                    ipv4_display (su_sandbox_ip args) ++ lit "/" ++ dec (su_prefix_len args); lit "dev"; ifname] in
  let! _ := run_ip [lit "link"; lit "set"; lit "dev"; ifname; lit "mtu"; dec (su_mtu args)] in
  let! _ := run_ip [lit "link"; lit "set"; lit "dev"; ifname; lit "up"] in
  let! _ := run_ip [lit "route"; lit "add"; lit "default"; lit "dev"; ifname] in
  write_resolv_conf (su_resolv_conf args) (su_broker_ip args).

(** ** The broker *)

Definition send_fd (stream fd_to_send : Z) : SysIO unit :=
  other (os (OsOp.SendMsg stream (lit "tun-fd") [fd_to_send])).

Definition ready_line : list byte := lit "ready" ++ [x0a].

Definition wait_for_broker_ready (stream : Z) : SysIO unit :=
  let! ack := os (OsOp.ReadExact stream 6) in
  Ret (if bool_decide (ack = ready_line) then Ok tt
       else Err (mkIoError IoErrorKind.InvalidData (lit "unexpected broker ack: " ++ debug_str (from_utf8_lossy ack)))).

(** ** Privileges *)

Definition kept (keep_cap_net_raw : bool) (capability : Z) : bool :=
  keep_cap_net_raw && (capability =? CAP_NET_RAW).

Fixpoint drop_capabilities (keep_cap_net_raw : bool) (set : CapSet) (capabilities : list Z) : SysIO unit :=
  match capabilities with
  | [] => Ret (Ok tt)
  | capability :: capabilities =>
      if kept keep_cap_net_raw capability then drop_capabilities keep_cap_net_raw set capabilities
      else
        let! _ := other (os (OsOp.CapsDrop set capability)) in
        drop_capabilities keep_cap_net_raw set capabilities
  end.

Fixpoint drop_sets (keep_cap_net_raw : bool) (sets : list CapSet) : SysIO unit :=
  match sets with
  | [] => Ret (Ok tt)
  | set :: sets =>
      let! capabilities := other (os (OsOp.CapsRead set)) in
      let! _ := drop_capabilities keep_cap_net_raw set capabilities in
      drop_sets keep_cap_net_raw sets
  end.

(** Errors of the bounding set are ignored. *)
Fixpoint drop_bounding (keep_cap_net_raw : bool) (capabilities : list Z) : Sys unit :=
  match capabilities with
  | [] => Ret tt
  | capability :: capabilities =>
      if kept keep_cap_net_raw capability then drop_bounding keep_cap_net_raw capabilities
      else
        let* _ := os (OsOp.CapsDrop Bounding capability) in
        drop_bounding keep_cap_net_raw capabilities
  end.

Definition drop_setup_capabilities (keep_cap_net_raw : bool) : SysIO unit :=
  let! _ := drop_sets keep_cap_net_raw [Effective; Permitted; Inheritable; Ambient] in
  let* bounding := os (OsOp.CapsRead Bounding) in
  let* _ := match bounding with
            | Ok capabilities => drop_bounding keep_cap_net_raw capabilities
            | _ => Ret tt
            end in
  os OsOp.NoNewPrivs.

(** ** The target *)

(** The variables of one proxy setting: upper case, then lower case. *)
Definition proxy_variables (upper lower : str) (value : option str) : list (str * str) :=
  match value with
  | Some value => [(upper, value); (lower, value)]
  | None => []
  end.

Definition apply_proxy_env (proxy_env : ProxyEnv) : list (str * str) :=
  proxy_variables (lit "HTTP_PROXY") (lit "http_proxy") (xe_http_proxy proxy_env)
  ++ proxy_variables (lit "HTTPS_PROXY") (lit "https_proxy") (xe_https_proxy proxy_env)
  ++ proxy_variables (lit "ALL_PROXY") (lit "all_proxy") (xe_all_proxy proxy_env)
  ++ proxy_variables (lit "NO_PROXY") (lit "no_proxy") (xe_no_proxy proxy_env).

(** [n] descriptors from [fd] on. *)
Fixpoint close_fds (n : nat) (fd : Z) : Sys unit :=
  match n with
  | O => Ret tt
  | S n => let* _ := os (OsOp.CloseFd fd) in close_fds n (fd + 1)
  end.

(** [3..1024]. *)
Definition close_unneeded_fds : Sys unit := close_fds 1021 3.

Definition exec_target (target : list str) (proxy_env : ProxyEnv) : SysIO unit :=
  match target with
  | [] => Ret Panic
  | program :: args =>
      let* _ := close_unneeded_fds in
      let* error := os (OsOp.Exec program args (apply_proxy_env proxy_env)) in
      Ret (Err error)
  end.

(** [args] are the arguments after the program name. *)
Definition run_setup (args : list str) : SysIO unit :=
  let* socket_env := os (OsOp.EnvVar (lit "FOXPROX_SETUP_SOCKET")) in
  let! args := Ret (setup_parse_args socket_env args) in
  let! _ := Ret (validate_ifname (su_ifname args)) in
  let! tun := create_tun (su_ifname args) in
  let! _ := configure_network args in
  let! stream := os (OsOp.UnixConnect (su_setup_socket args)) in
  let! _ := send_fd stream tun in
  let! _ := os (OsOp.WriteAll stream
    (lit "ok ifname=" ++ su_ifname args ++ lit " sandbox_ip=" ++ ipv4_display (su_sandbox_ip args) ++ lit "/"
     ++ dec (su_prefix_len args) ++ lit " broker_ip=" ++ ipv4_display (su_broker_ip args)
     ++ lit " mtu=" ++ dec (su_mtu args) ++ [x0a])) in
  let! _ := wait_for_broker_ready stream in
  let* _ := os (OsOp.CloseFd tun) in
  let* _ := os (OsOp.CloseFd stream) in
  let! _ := drop_setup_capabilities (su_keep_cap_net_raw args) in
  exec_target (su_target args) (su_proxy_env args).

(** [main]: an error is printed and the exit status is 1. *)
Definition setup_main (args : list str) : Sys Z :=
  let* r := run_setup args in
  match r with
  | Err _ => let* _ := os OsOp.Message in Ret 1
  | _ => Ret 0
  end.

(** ** Specification: what the helper may do *)

(** The arguments in force: those [run_setup] parsed. *)
Definition setup_started (argv : list str) (a : SetupArgs) (h : list (Action Os)) : Prop :=
  exists socket_env, answered (OsOp.EnvVar (lit "FOXPROX_SETUP_SOCKET")) socket_env h /\
    setup_parse_args socket_env argv = Ok a.

(** The interface name fits its field, zero-terminated. *)
Definition name_field (ifname : str) (name : list byte) : Prop :=
  ifname <> [] /\ (length ifname < IFNAMSIZ)%nat /\ (x00 ∉ ifname) /\
  name = ifname ++ replicate (IFNAMSIZ - length ifname) x00.

(** [tun] is the descriptor of the named interface. *)
Definition tun_made (a : SetupArgs) (tun : Z) (h : list (Action Os)) : Prop :=
  answered (OsOp.OpenReadWrite (lit "/dev/net/tun")) (Ok tun) h /\
  exists name, name_field (su_ifname a) name /\ answered (OsOp.TunSetIff tun name) (Ok tt) h.

Definition ip_commands (a : SetupArgs) : list (list str) :=
  [ [lit "link"; lit "set"; lit "lo"; lit "up"];
    [lit "addr"; lit "add"; ipv4_display (su_sandbox_ip a) ++ lit "/" ++ dec (su_prefix_len a); lit "dev"; su_ifname a];
    [lit "link"; lit "set"; lit "dev"; su_ifname a; lit "mtu"; dec (su_mtu a)];
    [lit "link"; lit "set"; lit "dev"; su_ifname a; lit "up"];
    [lit "route"; lit "add"; lit "default"; lit "dev"; su_ifname a] ].

Definition ip_succeeded (args : list str) (h : list (Action Os)) : Prop :=
  exists status, answered (OsOp.CommandStatus (lit "/usr/bin/ip") args) (Ok status) h /\ es_success status = true.

(** Address, link and route are set, and only the broker resolves names. *)
Definition network_configured (a : SetupArgs) (h : list (Action Os)) : Prop :=
  Forall (fun args => ip_succeeded args h) (ip_commands a) /\
  exists fd, answered (OsOp.OpenTruncate (su_resolv_conf a)) (Ok fd) h /\
    answered (OsOp.WriteAll fd (resolv_conf_text (su_broker_ip a))) (Ok tt) h.

(** The broker has the descriptor and said so. *)
Definition handed_over (a : SetupArgs) (h : list (Action Os)) : Prop :=
  exists tun stream, tun_made a tun h /\
    answered (OsOp.UnixConnect (su_setup_socket a)) (Ok stream) h /\
    answered (OsOp.SendMsg stream (lit "tun-fd") [tun]) (Ok tt) h /\
    answered (OsOp.ReadExact stream 6) (Ok ready_line) h.

(** Of the capabilities a set held, those that are not kept were dropped. *)
Definition set_dropped (keep : bool) (set : CapSet) (h : list (Action Os)) : Prop :=
  exists capabilities, answered (OsOp.CapsRead set) (Ok capabilities) h /\
    forall c, c ∈ capabilities -> kept keep c = false -> answered (OsOp.CapsDrop set c) (Ok tt) h.

Definition unprivileged (keep : bool) (h : list (Action Os)) : Prop :=
  Forall (fun set => set_dropped keep set h) [Effective; Permitted; Inheritable; Ambient] /\
  answered OsOp.NoNewPrivs (Ok tt) h.

Definition setup_acts (a : SetupArgs) (h : list (Action Os)) (o : OsOp) : Prop :=
  match o with
  | OsOp.OpenReadWrite path => path = lit "/dev/net/tun"
  | OsOp.TunSetIff fd name =>
      answered (OsOp.OpenReadWrite (lit "/dev/net/tun")) (Ok fd) h /\ name_field (su_ifname a) name
  | OsOp.CommandStatus program args => program = lit "/usr/bin/ip" /\ args ∈ ip_commands a
  | OsOp.OpenTruncate path => path = su_resolv_conf a
  | OsOp.UnixConnect path => path = su_setup_socket a /\ network_configured a h
  | OsOp.SendMsg stream bytes fds =>
      answered (OsOp.UnixConnect (su_setup_socket a)) (Ok stream) h /\ exists tun, fds = [tun] /\ tun_made a tun h
  | OsOp.WriteAll fd bytes =>
      (answered (OsOp.OpenTruncate (su_resolv_conf a)) (Ok fd) h /\ bytes = resolv_conf_text (su_broker_ip a)) \/
      answered (OsOp.UnixConnect (su_setup_socket a)) (Ok fd) h
  | OsOp.ReadExact fd _ => answered (OsOp.UnixConnect (su_setup_socket a)) (Ok fd) h
  | OsOp.CloseFd _ | OsOp.CapsRead _ | OsOp.NoNewPrivs => True
  | OsOp.CapsDrop _ c => kept (su_keep_cap_net_raw a) c = false
  | OsOp.Exec program args env =>
      su_target a = program :: args /\ env = apply_proxy_env (su_proxy_env a) /\
      network_configured a h /\ handed_over a h /\ unprivileged (su_keep_cap_net_raw a) h /\
      forall fd, 3 <= fd < 1024 -> answered (OsOp.CloseFd fd) tt h
  | _ => False
  end.

Definition setup_permitted (argv : list str) (h : list (Action Os)) (o : OsOp) : Prop :=
  match o with
  | OsOp.EnvVar name => name = lit "FOXPROX_SETUP_SOCKET"
  | _ => exists a, setup_started argv a h /\ setup_acts a h o
  end.

(** ** Lemmas *)

#[export] Instance setup_started_stays argv a : Later (setup_started argv a).
Proof. unfold setup_started. apply _. Qed.
#[export] Instance tun_made_stays a tun : Later (tun_made a tun).
Proof. unfold tun_made. apply _. Qed.
#[export] Instance ip_succeeded_stays args : Later (ip_succeeded args).
Proof. unfold ip_succeeded. apply _. Qed.
#[export] Instance network_configured_stays a : Later (network_configured a).
Proof. unfold network_configured. apply _. Qed.
#[export] Instance handed_over_stays a : Later (handed_over a).
Proof. unfold handed_over. apply _. Qed.
#[export] Instance set_dropped_stays keep set : Later (set_dropped keep set).
Proof. unfold set_dropped. apply _. Qed.
#[export] Instance unprivileged_stays keep : Later (unprivileged keep).
Proof. unfold unprivileged. apply _. Qed.

Lemma validate_ifname_Ok (ifname : str) (u : unit) :
  validate_ifname ifname = Ok u -> name_field ifname (ifreq_name ifname).
Proof.
  unfold validate_ifname. case_match eqn:E; [done|]. intros _. to_prop. unfold name_field, ifreq_name.
  split_and!; try done. rewrite take_app_ge by lia. rewrite take_replicate. do 2 f_equal. lia.
Qed.

#[local] Arguments setup_permitted : simpl never.
#[local] Arguments lit : simpl never.
#[local] Arguments resolv_conf_text : simpl never.
#[local] Arguments ifreq_name : simpl never.
#[local] Arguments drop_setup_capabilities : simpl never.
#[local] Arguments exec_target : simpl never.

(** ** The parts of the run

    Each keeps to the specification and gives the facts the next ones need. *)

Section parts.
Context (argv : list str) (a : SetupArgs).

Abbreviation permitted := (setup_permitted argv).

Lemma permitted_acts h o : setup_started argv a h -> setup_acts a h o -> permitted h o.
Proof. intros Hs Ha. destruct o; try (exists a; done). destruct Ha. Qed.

Hypothesis Hname : name_field (su_ifname a) (ifreq_name (su_ifname a)).

Lemma create_tun_wp h : setup_started argv a h ->
  wp permitted (part (tun_made a) h) h (create_tun (su_ifname a)).
Proof using Hname.
  intros Hs. unfold create_tun. cbn. split; [by apply permitted_acts|].
  intros [fd|e| |] Hr; try done; [|split; [auto with foxprox|done]].
  cbn. split; [apply permitted_acts; [by eapply (later (P := setup_started _ _)); [|exact Hs]; auto with foxprox|]|].
  { split; [apply answered_last|done]. }
  intros [[]|e| |] Hr'; try done; cbn; (split; [auto with foxprox|]); try done.
  split; [eapply answered_later; [|apply answered_last]; auto with foxprox|].
  exists (ifreq_name (su_ifname a)). split; [done|apply answered_last].
Qed.

Lemma run_ip_wp args h : setup_started argv a h -> args ∈ ip_commands a ->
  wp permitted (part (fun _ => ip_succeeded args) h) h (run_ip args).
Proof.
  intros Hs Hin. unfold run_ip. cbn. split; [by apply permitted_acts|].
  intros [status|e| |] Hr; try done; cbn; (split; [auto with foxprox|]); try done.
  destruct (es_success status) eqn:E; [|done]. exists status. split; [apply answered_last|done].
Qed.

Lemma write_resolv_conf_wp h : setup_started argv a h ->
  wp permitted (part (fun _ h' => exists fd, answered (OsOp.OpenTruncate (su_resolv_conf a)) (Ok fd) h' /\
      answered (OsOp.WriteAll fd (resolv_conf_text (su_broker_ip a))) (Ok tt) h') h) h
    (write_resolv_conf (su_resolv_conf a) (su_broker_ip a)).
Proof.
  intros Hs. unfold write_resolv_conf. cbn. split; [by apply permitted_acts|].
  intros [fd|e| |] Hr; try done; [|split; [auto with foxprox|done]].
  cbn. split; [apply permitted_acts; [by eapply (later (P := setup_started _ _)); [|exact Hs]; auto with foxprox|]|].
  { left. split; [apply answered_last|done]. }
  intros [[]|e| |] Hr'; try done; cbn; (split; [auto with foxprox|]); try done.
  exists fd. split; [|apply answered_last]. eapply answered_later; [|apply answered_last]; auto with foxprox.
Qed.

Lemma configure_network_wp h : setup_started argv a h ->
  wp permitted (part (fun _ => network_configured a) h) h (configure_network a).
Proof.
  intros Hs.
  (* the commands already run stay run *)
  assert (forall args h0 h1 done_ (k : SysIO unit), continues h h1 -> args ∈ ip_commands a ->
    h0 = h -> Forall (fun x => ip_succeeded x h1) done_ ->
    (forall h2, continues h h2 -> Forall (fun x => ip_succeeded x h2) (done_ ++ [args]) ->
       wp permitted (part (fun _ => network_configured a) h) h2 k) ->
    wp permitted (part (fun _ => network_configured a) h) h1 (prog_try (run_ip args) (fun _ => k))) as step.
  { intros args h0 h1 done_ k Hc Hin _ Hd Hk. eapply sys_part_try; [exact Hc|apply run_ip_wp; [|done]|].
    - by eapply (later (P := setup_started _ _)).
    - intros [] h2 Hc2 Hok. apply Hk; [by etransitivity|]. apply Forall_app_2; [|by constructor].
      eapply Forall_impl; [exact Hd|]. intros x. by apply (later (P := ip_succeeded _)). }
  unfold configure_network.
  eapply (step _ _ _ []); [done|by apply (list_elem_of_lookup_2 _ 0)|done|constructor|]. intros h1 H1 D1. cbn [app] in D1.
  eapply (step _ _ _ [_]); [done|by apply (list_elem_of_lookup_2 _ 1)|done|exact D1|]. intros h2 H2 D2. cbn [app] in D2.
  eapply (step _ _ _ [_; _]); [done|by apply (list_elem_of_lookup_2 _ 2)|done|exact D2|]. intros h3 H3 D3. cbn [app] in D3.
  eapply (step _ _ _ [_; _; _]); [done|by apply (list_elem_of_lookup_2 _ 3)|done|exact D3|]. intros h4 H4 D4. cbn [app] in D4.
  eapply (step _ _ _ [_; _; _; _]); [done|by apply (list_elem_of_lookup_2 _ 4)|done|exact D4|]. intros h5 H5 D5. cbn [app] in D5.
  eapply wp_mono; [done| |apply write_resolv_conf_wp; by eapply (later (P := setup_started _ _))].
  intros h6 [[]|e| |] [Hc Hw]; try done; (split; [by etransitivity|]); try done.
  split; [|done]. eapply Forall_impl; [exact D5|]. intros x. by apply (later (P := ip_succeeded _)).
Qed.

(** ** Capabilities *)

Abbreviation keep := (su_keep_cap_net_raw a).

Lemma drop_capabilities_wp set cs : forall h, setup_started argv a h ->
  wp permitted (part (fun _ h' => forall c, c ∈ cs -> kept keep c = false -> answered (OsOp.CapsDrop set c) (Ok tt) h') h)
    h (drop_capabilities keep set cs).
Proof.
  induction cs as [|c cs IH]; intros h Hs; cbn [drop_capabilities].
  - cbn. split; [auto with foxprox|]. intros c Hc. by apply not_elem_of_nil in Hc.
  - destruct (kept keep c) eqn:Hk.
    + eapply wp_mono; [done| |by apply IH]. intros h' [u|e| |] [Hc HP]; try done; (split; [done|]); try done.
      intros c' [->|Hin]%elem_of_cons Hk'; [congruence|by apply HP].
    + cbn. split; [by apply permitted_acts|]. intros [[]|e| |] Hr; try done; cbn; try (by split; [auto with foxprox|]).
      eapply wp_mono; [done| |apply IH; eapply (later (P := setup_started _ _)); [|exact Hs]; auto with foxprox].
      intros h' [u|e| |] [Hc HP]; try done;
        (split; [etransitivity; [|exact Hc]; auto with foxprox|]); try done.
      intros c' [->|Hin]%elem_of_cons Hk'; [|by apply HP]. eapply answered_later; [exact Hc|apply answered_last].
Qed.

Lemma drop_sets_wp sets : forall h, setup_started argv a h ->
  wp permitted (part (fun _ h' => Forall (fun set => set_dropped keep set h') sets) h) h (drop_sets keep sets).
Proof.
  induction sets as [|set sets IH]; intros h Hs; cbn [drop_sets].
  { cbn. split; [auto with foxprox|constructor]. }
  cbn. split; [by apply permitted_acts|]. intros [cs|e| |] Hr; try done; cbn; try (by split; [auto with foxprox|]).
  set (h1 := h ++ _). assert (continues h h1) as H1 by apply continues_snoc.
  eapply sys_part_try; [exact H1|apply drop_capabilities_wp; by eapply (later (P := setup_started _ _))|].
  intros [] h2 H2 Hd. eapply wp_mono; [done| |apply IH; eapply (later (P := setup_started _ _)); [|exact Hs]; by etransitivity].
  intros h3 [[]|e| |] [H3 HP]; try done;
    (split; [etransitivity; [exact H1|]; by etransitivity|]); try done.
  constructor; [|done]. exists cs. split.
  - eapply answered_later; [|apply answered_last]. by etransitivity.
  - intros c Hin Hk. eapply answered_later; [exact H3|by apply Hd].
Qed.

Lemma drop_bounding_wp cs : forall h, setup_started argv a h ->
  wp permitted (fun h' _ => continues h h') h (drop_bounding keep cs).
Proof.
  induction cs as [|c cs IH]; intros h Hs; cbn [drop_bounding]; [cbn; auto with foxprox|].
  destruct (kept keep c) eqn:Hk; [by apply IH|]. cbn. split; [by apply permitted_acts|]. intros r Hr.
  eapply wp_mono; [done| |apply IH; eapply (later (P := setup_started _ _)); [|exact Hs]; auto with foxprox].
  intros h' u Hc. etransitivity; [|exact Hc]. auto with foxprox.
Qed.

Lemma drop_setup_capabilities_wp h : setup_started argv a h ->
  wp permitted (part (fun _ => unprivileged keep) h) h (drop_setup_capabilities keep).
Proof.
  intros Hs. unfold drop_setup_capabilities. eapply sys_part_try; [reflexivity|by apply drop_sets_wp|].
  intros [] h1 H1 Hd. assert (setup_started argv a h1) as Hs1 by by eapply (later (P := setup_started _ _)).
  cbn. split; [by apply permitted_acts|]. intros r Hr. set (h2 := h1 ++ _).
  assert (continues h1 h2) as H2 by apply continues_snoc.
  assert (setup_started argv a h2) as Hs2 by by eapply (later (P := setup_started _ _)).
  apply wp_bind. eapply (wp_mono permitted _ (fun h' _ => continues h2 h')); [done| |].
  - intros h3 u H3. cbn. split; [apply permitted_acts; [by eapply (later (P := setup_started _ _))|done]|].
    assert (continues h h3) as Hc by (etransitivity; [exact H1|]; by etransitivity).
    intros [[]|e| |] Hr'; try done; (split; [auto with foxprox|]); try done. split; [|apply answered_last].
    eapply Forall_impl; [exact Hd|]. intros set. apply (later (P := set_dropped _ _)).
    etransitivity; [exact H2|]. auto with foxprox.
  - destruct r; try (cbn; auto with foxprox). by apply drop_bounding_wp.
Qed.

Lemma close_fds_wp n : forall fd h, setup_started argv a h ->
  wp permitted (fun h' _ => continues h h' /\ forall x, fd <= x < fd + Z.of_nat n -> answered (OsOp.CloseFd x) tt h')
    h (close_fds n fd).
Proof.
  induction n as [|n IH]; intros fd h Hs; cbn [close_fds]; [cbn; split; [auto with foxprox|lia]|].
  cbn. split; [by apply permitted_acts|]. intros [] _.
  eapply wp_mono; [done| |apply IH; eapply (later (P := setup_started _ _)); [|exact Hs]; auto with foxprox].
  intros h' u [Hc Hf]. split; [etransitivity; [|exact Hc]; auto with foxprox|].
  intros x Hx. destruct (decide (x = fd)) as [->|Hne]; [|apply Hf; lia].
  eapply answered_later; [exact Hc|apply answered_last].
Qed.
End parts.

Lemma setup_parse_args_returns socket_env argv : returns (setup_parse_args socket_env argv).
Proof.
  unfold setup_parse_args. assert (returns (parse_options setup_arm (setup_options_new socket_env) argv)) as H.
  { apply parse_options_returns. intros [] arg. unfold setup_arm. destruct so_proxy_env0. arms. }
  destruct (parse_options _ _ _) as [st| | |]; cbn [result_bind]; try done.
  case_bool_decide; [done|]. by destruct (so_setup_socket st).
Qed.

Lemma setup_target_nonempty socket_env argv a : setup_parse_args socket_env argv = Ok a -> su_target a <> [].
Proof.
  unfold setup_parse_args. destruct (parse_options _ _ _) as [st| | |]; cbn [result_bind]; try done.
  case_bool_decide; [done|]. destruct (so_setup_socket st); cbn; intros; by simplify_eq.
Qed.

Lemma exec_target_wp argv a h : setup_started argv a h -> su_target a <> [] ->
  network_configured a h -> handed_over a h -> unprivileged (su_keep_cap_net_raw a) h ->
  wp (setup_permitted argv) (fun _ r => exists e, r = Err e) h (exec_target (su_target a) (su_proxy_env a)).
Proof.
  intros Hs Ht Hn Hh Hu. unfold exec_target. destruct (su_target a) as [|program args] eqn:Et; [done|].
  apply wp_bind. eapply wp_mono; [done| |by eapply close_fds_wp].
  intros h1 u [Hc Hf]. cbn. split; [|intros e _; by exists e].
  eapply permitted_acts; [by eapply (later (P := setup_started _ _))|]. split_and!; try done.
  - by eapply (later (P := network_configured _)).
  - by eapply (later (P := handed_over _)).
  - by eapply (later (P := unprivileged _)).
Qed.

(** Names the history the goal has reached. *)
Ltac name_history h :=
  match goal with
  | |- wp _ _ ?h' _ => set (h := h')
  | |- setup_permitted _ ?h' _ /\ _ => set (h := h')
  end.

(** After the descriptor is sent. *)
Lemma setup_tail_wp argv a h (tun stream : Z) line : setup_started argv a h -> su_target a <> [] ->
  network_configured a h -> tun_made a tun h ->
  answered (OsOp.UnixConnect (su_setup_socket a)) (Ok stream) h ->
  answered (OsOp.SendMsg stream (lit "tun-fd") [tun]) (Ok tt) h ->
  wp (setup_permitted argv) (fun _ r => exists e, r = Err e) h
    (let! _ := os (OsOp.WriteAll stream line) in
     let! _ := wait_for_broker_ready stream in
     let* _ := os (OsOp.CloseFd tun) in
     let* _ := os (OsOp.CloseFd stream) in
     let! _ := drop_setup_capabilities (su_keep_cap_net_raw a) in
     exec_target (su_target a) (su_proxy_env a)).
Proof.
  intros Hs Ht Hn Htun Hu Hsend. cbn. split; [eapply permitted_acts; [done|by right]|].
  intros [[]|e| |] Hv; [clear Hv|by eexists|by destruct Hv..]. name_history h1. assert (continues h h1) as H1 by apply continues_snoc.
  cbn. split; [eapply permitted_acts; [by eapply (later (P := setup_started _ _))|by eapply answered_later]|].
  intros [ack|e| |] Hv; [clear Hv|by eexists|by destruct Hv..]. name_history h2. assert (continues h1 h2) as H2 by apply continues_snoc.
  cbn. case_bool_decide as Hack; cbn; [|by eexists].
  split; [eapply permitted_acts; [|done]; eapply (later (P := setup_started _ _)); [|exact Hs]; by etransitivity|].
  intros [] _. name_history h3. assert (continues h2 h3) as H3 by apply continues_snoc.
  split; [eapply permitted_acts; [|done]; eapply (later (P := setup_started _ _)); [|exact Hs]; etransitivity; [exact H1|]; by etransitivity|].
  intros [] _. name_history h4. assert (continues h3 h4) as H4 by apply continues_snoc.
  assert (continues h h4) as Hc by (etransitivity; [exact H1|]; etransitivity; [exact H2|]; by etransitivity).
  apply wp_try. eapply wp_mono; [done| |eapply drop_setup_capabilities_wp; by eapply (later (P := setup_started _ _))].
  intros h5 [[]|e| |] [H5 Hp]; try done; [|by eexists].
  assert (continues h h5) as Hc5 by by etransitivity.
  eapply exec_target_wp; [by eapply (later (P := setup_started _ _))|done|by eapply (later (P := network_configured _))| |done].
  exists tun, stream. split_and!; [by eapply (later (P := tun_made _ _))|by eapply answered_later..|].
  eapply answered_later; [|rewrite <- Hack; apply answered_last]. etransitivity; [exact H3|]. by etransitivity.
Qed.

(** ** Properties *)

(** [C16] The setup helper only acts on its own arguments: it makes and names the
    TUN interface, runs the [ip] commands of its configuration, rewrites its
    resolver file and gives the descriptor to its setup socket alone.  It becomes
    the target command only after the network is configured, the broker has the
    descriptor and answered [ready], every capability of the four sets was
    dropped (but [CAP_NET_RAW] when asked), new privileges are disabled and the
    descriptors from 3 to 1023 are closed, whatever the system answers.  Its run (whose
    error [main] prints) returns only with an error, and never panics on the strings that
    [env::args] yields. *)
Theorem setup_execs_unprivileged (argv : list str) (env : Env Os) :
  env_ok env ->
  let '(r, h) := run env [] (run_setup argv) in
  (exists e, r = Finished (Err e)) /\ steps_ok (setup_permitted argv) [] h.
Proof.
  intros Henv. enough (wp (setup_permitted argv) (fun _ r => exists e, r = Err e) [] (run_setup argv)) as Hwp.
  { pose proof (wp_run _ _ env (run_setup argv) [] Henv Hwp) as H.
    destruct (run env [] (run_setup argv)) as [e h]. destruct H as [(t & E & Hs) He]. cbn in E. subst h.
    split; [|exact Hs]. destruct e as [r|o]; [destruct He as [e ->]; by exists e|].
    destruct He as [Hp Ho]. destruct o; try discriminate Hp; by destruct Ho as (a & _ & []). }
  unfold run_setup. cbn [os perform prog_bind wp]. split; [done|]. intros socket_env _.
  name_history h0. pose proof (setup_parse_args_returns socket_env argv) as Hret.
  destruct (setup_parse_args socket_env argv) as [a|e| |] eqn:Ep; cbn [prog_try prog_bind].
  - assert (setup_started argv a h0) as Hs by (exists socket_env; split; [apply answered_last|done]).
    assert (su_target a <> []) as Ht by by eapply setup_target_nonempty.
    destruct (validate_ifname (su_ifname a)) as [u|e| |] eqn:Ev; cbn [prog_try prog_bind];
      [|by eexists|by unfold validate_ifname in Ev; case_match..].
    apply validate_ifname_Ok in Ev.
    apply wp_try. eapply wp_mono; [done| |by eapply create_tun_wp].
    intros h1 [tun|e| |] [H1 Htun]; try done; [|by eexists].
    apply wp_try. eapply wp_mono; [done| |eapply configure_network_wp; first [done|by eapply (later (P := setup_started _ _))]].
    intros h2 [[]|e| |] [H2 Hnet]; try done; [|by eexists].
    assert (continues h0 h2) as Hc2 by by etransitivity.
    cbn. split; [eapply permitted_acts; [by eapply (later (P := setup_started _ _))|done]|].
    intros [stream|e| |] Hv; [clear Hv|by eexists|by destruct Hv..]. name_history h3. assert (continues h2 h3) as H3 by apply continues_snoc.
    assert (tun_made a tun h3) as Htun3 by (eapply (later (P := tun_made _ _)); [|exact Htun]; by etransitivity).
    assert (setup_started argv a h3) as Hs3 by (eapply (later (P := setup_started _ _)); [|exact Hs]; by etransitivity).
    cbn. split; [eapply permitted_acts; [done|]; split; [apply answered_last|by exists tun]|].
    intros [[]|e| |] Hv; [clear Hv|by eexists|by destruct Hv..]. name_history h4. assert (continues h3 h4) as H4 by apply continues_snoc.
    eapply setup_tail_wp; try done.
    + by eapply (later (P := setup_started _ _)).
    + eapply (later (P := network_configured _)); [|exact Hnet]. by etransitivity.
    + by eapply (later (P := tun_made _ _)).
    + eapply answered_later; [exact H4|apply answered_last].
    + apply answered_last.
  - by eexists.
  - done.
  - done.
Qed.

(** On a system where every call succeeds the target is executed. *)
Lemma setup_execs_unprivileged_witness :
  let argv := [lit "--setup-socket"; lit "/s"; lit "--"; lit "curl"; lit "-v"] in
  let '(_, h) := run (answering obliging_os) [] (run_setup argv) in
  steps_ok (setup_permitted argv) [] h /\
  existsb (fun e => match projT1 e with
                    | OsOp.Exec program args env =>
                        bool_decide (program = lit "curl") && bool_decide (args = [lit "-v"]) && bool_decide (env = [])
                    | _ => false
                    end) h = true.
Proof.
  intros argv. pose proof (setup_execs_unprivileged argv (answering obliging_os) (answering_ok _ obliging_os_ok)) as H.
  rewrite run_answering in *.
  assert (existsb (fun e => match projT1 e with
                    | OsOp.Exec program args env =>
                        bool_decide (program = lit "curl") && bool_decide (args = [lit "-v"]) && bool_decide (env = [])
                    | _ => false
                    end) (snd (replay obliging_os [] (run_setup argv))) = true) as He by (vm_compute; reflexivity).
  destruct (replay obliging_os [] (run_setup argv)) as [r h]. cbn [fst snd] in *. split; [exact (proj2 H)|exact He].
Defined.
