(* ===== verification/RunConfig.v ===== *)
(** * The run configuration ([crates/foxprox-cli/src/run_config.rs])

    The configuration file of [foxprox run]: the raw tables as they are
    deserialized, with the defaults of missing keys, their validation, and the
    policy rules written in it.  The TOML parser is the [toml] crate and is a
    parameter; it delivers numbers of the width of their field.  Paths are
    strings. *)

From S2P Require Import Prelude Text NetAddr Event Policy Effects Args.

(** ** The checked configuration *)

Record LauncherConfig : Type := mkLauncherConfig {
  lc_sandbox_id : SandboxId;
  lc_ifname : str;
  lc_setup_socket_host : option str;
  lc_setup_socket_sandbox : option str;
  lc_setup_helper_host : option str;
  lc_resolv_conf : str;
  lc_keep_cap_net_raw : bool;
  lc_sandbox_ip : Z;
  lc_broker_ip : Z;
  lc_prefix_len : Z;
  lc_mtu : Z;
  lc_upstream_dns : SocketAddr;
  lc_transparent_tcp_ports : list Z;
  lc_udp_forward_ports : list Z;
  lc_audit_queue_capacity : Z;
  lc_max_worker_threads : Z;
  lc_max_udp_flows : Z;
  lc_http_proxy_port : option Z;
  lc_socks5_proxy_port : option Z;
  lc_inject_proxy_env : bool;
  lc_no_proxy : option str;
  lc_bwrap_program : str;
  lc_bwrap_args : option (list str);
  lc_policy : PolicyRuleSet
}.

(** ** The tables of the file *)

Record RawSandbox : Type := mkRawSandbox {
  raw_id : str;
  raw_ifname : str;
  raw_setup_socket_host : option str;
  raw_setup_socket_sandbox : option str;
  raw_setup_helper_host : option str;
  raw_resolv_conf : str;
  raw_keep_cap_net_raw : bool
}.

Definition raw_sandbox_default : RawSandbox :=
  mkRawSandbox (lit "foxprox-run") (lit "foxprox0") None None None (lit "/etc/resolv.conf") false.

Record RawNetwork : Type := mkRawNetwork {
  raw_sandbox_ip : Z;
  raw_broker_ip : Z;
  raw_prefix_len : Z;
  raw_mtu : Z;
  raw_upstream_dns : SocketAddr;
  raw_transparent_tcp_ports : list Z;
  raw_udp_forward_ports : list Z;
  raw_audit_queue_capacity : Z;
  raw_max_worker_threads : Z;
  raw_max_udp_flows : Z
}.

Definition raw_network_default : RawNetwork :=
  {| raw_sandbox_ip := ipv4_new 10 255 0 2; raw_broker_ip := ipv4_new 10 255 0 1;
     raw_prefix_len := 24; raw_mtu := 1500;
     raw_upstream_dns := mkSocketAddr (V4 (ipv4_new 1 1 1 1)) 53;
     raw_transparent_tcp_ports := [80; 443]; raw_udp_forward_ports := [443];
     raw_audit_queue_capacity := 8192; raw_max_worker_threads := 64; raw_max_udp_flows := 4096 |}.

Record RawProxy : Type := mkRawProxy {
  raw_http_port : option Z;
  raw_socks5_port : option Z;
  raw_inject_env : bool;
  raw_no_proxy : option str
}.

Definition raw_proxy_default : RawProxy :=
  mkRawProxy (Some 8080) (Some 1080) true (Some (lit "localhost,127.0.0.1")).

Record RawBwrap : Type := mkRawBwrap { raw_program : str; raw_args : option (list str) }.

Definition raw_bwrap_default : RawBwrap := mkRawBwrap (lit "bwrap") None.

Record RawRule : Type := mkRawRule {
  rr_id : str;
  rr_effect : str;
  rr_protocol : option str;
  rr_destination_cidr : option str;
  rr_destination_ports : option str;
  rr_hostname : option str;
  rr_domain_suffix : option str;
  rr_origin_scheme : option str;
  rr_http_methods : option (list str);
  rr_http_path_prefix : option str;
  rr_min_attribution : option str
}.

Record RawPolicy : Type := mkRawPolicy {
  rp_default_action : option str;
  rp_deny_direct_dns : option bool;
  rp_deny_multicast_broadcast : option bool;
  rp_deny_sni_dns_mismatch : option bool;
  rp_deny_hidden_sni : option bool;
  rp_broadcast_addresses : list IpAddr;
  rp_rules : list RawRule
}.

(** [#[derive(Default)]]. *)
Definition raw_policy_default : RawPolicy := mkRawPolicy None None None None None [] [].

Record RawConfig : Type := mkRawConfig {
  raw_sandbox : RawSandbox;
  raw_network : RawNetwork;
  raw_proxy : RawProxy;
  raw_bwrap : RawBwrap;
  raw_policy : RawPolicy
}.

Definition raw_config_default : RawConfig :=
  mkRawConfig raw_sandbox_default raw_network_default raw_proxy_default raw_bwrap_default
    raw_policy_default.

(** ** Errors of the checks *)

Definition invalid (message : str) : IoError := mkIoError IoErrorKind.InvalidInput message.

(** [invalid_value(error)]: the caller passes [error.to_string()]. *)
Definition invalid_value (error : str) : IoError := invalid error.

(** ** Words of the file *)

Definition normalize (value : str) : str := replace_byte x5f x2d (to_ascii_lowercase (trim value)).

Definition parse_decision_action (value : str) : Result DecisionAction IoError :=
  let v := normalize value in
  if bool_decide (v ∈ [lit "deny-drop"; lit "drop"]) then Ok DecisionAction.DenyDrop
  else if bool_decide (v ∈ [lit "deny-reset"; lit "reset"]) then Ok DecisionAction.DenyReset
  else if bool_decide (v ∈ [lit "deny-icmp-unreachable"; lit "icmp-unreachable"]) then
    Ok DecisionAction.DenyIcmpUnreachable
  else if bool_decide (v = lit "fail-closed") then Ok DecisionAction.FailClosed
  else Err (invalid (lit "unknown policy default_action " ++ debug_str v)).

Definition parse_rule_effect (value : str) : Result RuleEffect IoError :=
  let v := normalize value in
  if bool_decide (v = lit "allow") then Ok RuleEffect.Allow
  else if bool_decide (v = lit "deny") then Ok RuleEffect.Deny
  else Err (invalid (lit "unknown rule effect " ++ debug_str v)).

Definition parse_protocol (value : str) : Result Protocol IoError :=
  let v := normalize value in
  if bool_decide (v = lit "tcp") then Ok Protocol.Tcp
  else if bool_decide (v = lit "udp") then Ok Protocol.Udp
  else if bool_decide (v = lit "dns") then Ok Protocol.Dns
  else if bool_decide (v = lit "icmp") then Ok Protocol.Icmp
  else if bool_decide (v = lit "http") then Ok Protocol.Http
  else if bool_decide (v ∈ [lit "https-connect"; lit "connect"]) then Ok Protocol.HttpsConnect
  else if bool_decide (v ∈ [lit "tls"; lit "https"]) then Ok Protocol.Tls
  else if bool_decide (v ∈ [lit "socks"; lit "socks5"]) then Ok Protocol.Socks
  else if bool_decide (v = lit "quic") then Ok Protocol.Quic
  else if bool_decide (v = lit "unsupported") then Ok Protocol.Unsupported
  else Err (invalid (lit "unknown protocol " ++ debug_str v)).

Definition parse_attribution_confidence (value : str) : Result AttributionConfidence IoError :=
  let v := normalize value in
  if bool_decide (v = lit "low") then Ok AttributionConfidence.Low
  else if bool_decide (v = lit "medium") then Ok AttributionConfidence.Medium
  else if bool_decide (v = lit "high") then Ok AttributionConfidence.High
  else Err (invalid (lit "unknown attribution confidence " ++ debug_str v)).

(** [text.parse::<uN>().map_err(invalid_value)]. *)
Definition parse_number (max : Z) (text : str) : Result Z IoError :=
  map_err (fun e => invalid_value (int_error_display e)) (parse_uint max text).

Definition parse_port_range (value : str) : Result PortRange IoError :=
  let value := trim value in
  match split_once x2d value with
  | Some (start, end_) =>
      let? start := parse_number u16_max (trim start) in
      let? end_ := parse_number u16_max (trim end_) in
      ok_or (port_range_new start end_) (invalid (lit "port range start must be <= end"))
  | None =>
      let? port := parse_number u16_max value in
      Ok (port_range_single port)
  end.

Definition parse_cidr (value : str) : Result Cidr IoError :=
  let? (ip, prefix) := ok_or (split_once x2f (trim value))
    (invalid (lit "CIDR must include prefix length: " ++ debug_str value)) in
  let? prefix := parse_number 255 (trim prefix) in
  let? ip := ok_or (parse_ip (trim ip)) (invalid_value ip_syntax_error) in
  match ip with
  | V4 ip => ok_or (cidr_v4 ip prefix) (invalid (lit "invalid IPv4 prefix"))
  | V6 ip => ok_or (cidr_v6 ip prefix) (invalid (lit "invalid IPv6 prefix"))
  end.

Definition nonzero_usize (value : Z) (field : str) : Result Z IoError :=
  if value =? 0 then Err (invalid (field ++ lit " must be non-zero")) else Ok value.

(** The loop of [dedupe_ports]: [deduped] is the vector it grows. *)
Fixpoint dedupe_loop (deduped ports : list Z) : list Z :=
  match ports with
  | [] => deduped
  | port :: ports =>
      dedupe_loop (if bool_decide (port ∈ deduped) then deduped else deduped ++ [port]) ports
  end.

Definition dedupe_ports (ports : list Z) : list Z := dedupe_loop [] ports.

(** ** Rules and policy *)

(** [if let Some(x) = field { rule = f(rule, x)?; }]. *)
Definition when_set {A} (field : option A) (f : A -> PolicyRule -> Result PolicyRule IoError)
  (rule : PolicyRule) : Result PolicyRule IoError :=
  match field with
  | Some x => f x rule
  | None => Ok rule
  end.

Definition parse_host (text : str) : Result Hostname IoError :=
  map_err (fun e => invalid_value (hostname_error_display e)) (hostname_parse text).

Fixpoint add_http_methods (methods : list str) (rule : PolicyRule) : Result PolicyRule IoError :=
  match methods with
  | [] => Ok rule
  | method :: methods =>
      let? m := map_err (fun e => invalid_value (http_method_error_display e)) (http_method_parse method) in
      add_http_methods methods (with_http_method rule m)
  end.

Definition try_into_rule (self : RawRule) : Result PolicyRule IoError :=
  let? effect := parse_rule_effect (rr_effect self) in
  let rule := policy_rule_new (rr_id self) effect in
  let? rule := when_set (rr_protocol self)
    (fun text rule => let? p := parse_protocol text in Ok (with_protocol rule p)) rule in
  let? rule := when_set (rr_destination_cidr self)
    (fun text rule => let? c := parse_cidr text in Ok (with_destination_cidr rule c)) rule in
  let? rule := when_set (rr_destination_ports self)
    (fun text rule => let? p := parse_port_range text in Ok (with_destination_ports rule p)) rule in
  let? rule := when_set (rr_hostname self)
    (fun text rule => let? h := parse_host text in Ok (with_hostname rule h)) rule in
  let? rule := when_set (rr_domain_suffix self)
    (fun text rule => let? h := parse_host text in Ok (with_domain_suffix rule h)) rule in
  let? rule := when_set (rr_origin_scheme self)
    (fun scheme rule => Ok (with_origin_scheme rule scheme)) rule in
  let? rule := when_set (rr_http_methods self) add_http_methods rule in
  let? rule := when_set (rr_http_path_prefix self)
    (fun prefix rule => Ok (with_http_path_prefix rule prefix)) rule in
  when_set (rr_min_attribution self)
    (fun text rule => let? c := parse_attribution_confidence text in Ok (with_min_attribution rule c))
    rule.

Definition try_into_policy (self : RawPolicy) : Result PolicyRuleSet IoError :=
  let policy := policy_rule_set_default in
  let? default_action :=
    match rp_default_action self with
    | Some action => parse_decision_action action
    | None => Ok (rs_default_action policy)
    end in
  let? rules := result_traverse try_into_rule (rp_rules self) in
  Ok {| rs_rules := rules;
        rs_default_action := default_action;
        rs_deny_direct_dns := default (rs_deny_direct_dns policy) (rp_deny_direct_dns self);
        rs_deny_multicast_broadcast :=
          default (rs_deny_multicast_broadcast policy) (rp_deny_multicast_broadcast self);
        rs_broadcast_addresses := rs_broadcast_addresses policy ++ rp_broadcast_addresses self;
        rs_deny_sni_dns_mismatch :=
          default (rs_deny_sni_dns_mismatch policy) (rp_deny_sni_dns_mismatch self);
        rs_deny_hidden_sni := default (rs_deny_hidden_sni policy) (rp_deny_hidden_sni self) |}.

(** ** Validation *)

Definition try_into_launcher (self : RawConfig) : Result LauncherConfig IoError :=
  let sandbox := raw_sandbox self in
  let network := raw_network self in
  let proxy := raw_proxy self in
  let? sandbox_id :=
    map_err (fun e => invalid_value (identifier_error_display e)) (sandbox_id_new (raw_id sandbox)) in
  let transparent_tcp_ports := dedupe_ports (raw_transparent_tcp_ports network) in
  if bool_decide (transparent_tcp_ports = []) then
    Err (invalid (lit "network.transparent_tcp_ports must not be empty"))
  else if 32 <? raw_prefix_len network then Err (invalid (lit "network.prefix_len must be <= 32"))
  else if raw_mtu network =? 0 then Err (invalid (lit "network.mtu must be non-zero"))
  else if raw_sandbox_ip network =? raw_broker_ip network then
    Err (invalid (lit "network.sandbox_ip must differ from network.broker_ip"))
  else if bool_decide (0 ∈ transparent_tcp_ports) || bool_decide (0 ∈ raw_udp_forward_ports network) then
    Err (invalid (lit "configured ports must be non-zero"))
  else if bool_decide (raw_http_port proxy = Some 0) || bool_decide (raw_socks5_port proxy = Some 0) then
    Err (invalid (lit "proxy ports must be non-zero"))
  else
    let? policy := try_into_policy (raw_policy self) in
    let? audit_queue_capacity :=
      nonzero_usize (raw_audit_queue_capacity network) (lit "network.audit_queue_capacity") in
    let? max_worker_threads :=
      nonzero_usize (raw_max_worker_threads network) (lit "network.max_worker_threads") in
    let? max_udp_flows := nonzero_usize (raw_max_udp_flows network) (lit "network.max_udp_flows") in
    Ok {| lc_sandbox_id := sandbox_id;
          lc_ifname := raw_ifname sandbox;
          lc_setup_socket_host := raw_setup_socket_host sandbox;
          lc_setup_socket_sandbox := raw_setup_socket_sandbox sandbox;
          lc_setup_helper_host := raw_setup_helper_host sandbox;
          lc_resolv_conf := raw_resolv_conf sandbox;
          lc_keep_cap_net_raw := raw_keep_cap_net_raw sandbox;
          lc_sandbox_ip := raw_sandbox_ip network;
          lc_broker_ip := raw_broker_ip network;
          lc_prefix_len := raw_prefix_len network;
          lc_mtu := raw_mtu network;
          lc_upstream_dns := raw_upstream_dns network;
          lc_transparent_tcp_ports := transparent_tcp_ports;
          lc_udp_forward_ports := dedupe_ports (raw_udp_forward_ports network);
          lc_audit_queue_capacity := audit_queue_capacity;
          lc_max_worker_threads := max_worker_threads;
          lc_max_udp_flows := max_udp_flows;
          lc_http_proxy_port := raw_http_port proxy;
          lc_socks5_proxy_port := raw_socks5_port proxy;
          lc_inject_proxy_env := raw_inject_env proxy;
          lc_no_proxy := raw_no_proxy proxy;
          lc_bwrap_program := raw_program (raw_bwrap self);
          lc_bwrap_args := raw_args (raw_bwrap self);
          lc_policy := policy |}.

(** [toml::from_str] is [from_str]; its error is the text it displays. *)
Definition parse_launcher_config (from_str : str -> Result RawConfig str) (contents : str)
  : Result LauncherConfig IoError :=
  let? raw := map_err (fun error => invalid (lit "invalid foxprox config TOML: " ++ error))
    (from_str contents) in
  try_into_launcher raw.

(** ** Specifications *)

(** A property of an optional field. *)
Definition opt_wf {A} (P : A -> Prop) (o : option A) : Prop :=
  match o with Some a => P a | None => True end.

Definition port_range_wf (p : PortRange) : Prop := 0 <= pr_start p <= pr_end p /\ pr_end p <= u16_max.

Definition lower_case (s : str) : Prop := to_ascii_lowercase s = s.

(** The rules the file can express. *)
Definition rule_wf (r : PolicyRule) : Prop :=
  opt_wf cidr_wf (r_destination_cidr r) /\
  opt_wf port_range_wf (r_destination_ports r) /\
  opt_wf hostname_wf (r_hostname r) /\
  opt_wf hostname_wf (r_domain_suffix r) /\
  opt_wf lower_case (r_origin_scheme r) /\
  Forall method_wf (r_http_methods r).

Definition launcher_wf (c : LauncherConfig) : Prop :=
  trim (sandbox_str (lc_sandbox_id c)) <> [] /\
  lc_transparent_tcp_ports c <> [] /\ NoDup (lc_transparent_tcp_ports c) /\ (0 ∉ lc_transparent_tcp_ports c) /\
  NoDup (lc_udp_forward_ports c) /\ (0 ∉ lc_udp_forward_ports c) /\
  lc_prefix_len c <= 32 /\ lc_mtu c <> 0 /\ lc_sandbox_ip c <> lc_broker_ip c /\
  lc_http_proxy_port c <> Some 0 /\ lc_socks5_proxy_port c <> Some 0 /\
  lc_audit_queue_capacity c <> 0 /\ lc_max_worker_threads c <> 0 /\ lc_max_udp_flows c <> 0 /\
  rs_default_action (lc_policy c) <> DecisionAction.Allow /\
  V4 IPV4_BROADCAST ∈ rs_broadcast_addresses (lc_policy c) /\
  Forall rule_wf (rs_rules (lc_policy c)).

(** A rule written out for the file. *)
Definition effect_text (e : RuleEffect) : str :=
  match e with RuleEffect.Allow => lit "allow" | RuleEffect.Deny => lit "deny" end.

Definition protocol_text (p : Protocol) : str :=
  match p with
  | Protocol.Tcp => lit "tcp" | Protocol.Udp => lit "udp" | Protocol.Dns => lit "dns"
  | Protocol.Icmp => lit "icmp" | Protocol.Http => lit "http"
  | Protocol.HttpsConnect => lit "https_connect" | Protocol.Tls => lit "tls"
  | Protocol.Socks => lit "socks5" | Protocol.Quic => lit "quic"
  | Protocol.Unsupported => lit "unsupported"
  end.

Definition confidence_text (c : AttributionConfidence) : str :=
  match c with
  | AttributionConfidence.Low => lit "low"
  | AttributionConfidence.Medium => lit "medium"
  | AttributionConfidence.High => lit "high"
  end.

Definition ports_text (p : PortRange) : str := dec (pr_start p) ++ lit "-" ++ dec (pr_end p).

Definition cidr_text (c : Cidr) : str :=
  match c with
  | Cidr.V4 network prefix => ipv4_display network ++ lit "/" ++ dec prefix
  | Cidr.V6 network prefix => ipv6_text network ++ lit "/" ++ dec prefix
  end.

Definition raw_of_rule (r : PolicyRule) : RawRule :=
  {| rr_id := r_id r;
     rr_effect := effect_text (r_effect r);
     rr_protocol := protocol_text <$> r_protocol r;
     rr_destination_cidr := cidr_text <$> r_destination_cidr r;
     rr_destination_ports := ports_text <$> r_destination_ports r;
     rr_hostname := hostname_str <$> r_hostname r;
     rr_domain_suffix := hostname_str <$> r_domain_suffix r;
     rr_origin_scheme := r_origin_scheme r;
     rr_http_methods := Some (map method_str (r_http_methods r));
     rr_http_path_prefix := r_http_path_prefix r;
     rr_min_attribution := Some (confidence_text (r_min_attribution r)) |}.

(** ** Lemmas: words *)

Lemma parse_rule_effect_text (e : RuleEffect) : parse_rule_effect (effect_text e) = Ok e.
Proof. by destruct e. Qed.

Lemma parse_protocol_text (p : Protocol) : parse_protocol (protocol_text p) = Ok p.
Proof. by destruct p. Qed.

Lemma parse_confidence_text (c : AttributionConfidence) :
  parse_attribution_confidence (confidence_text c) = Ok c.
Proof. by destruct c. Qed.

Lemma parse_decision_action_denies (value : str) (a : DecisionAction) :
  parse_decision_action value = Ok a -> a <> DecisionAction.Allow.
Proof. unfold parse_decision_action. by repeat case_match; intros; simplify_eq. Qed.

(** ** Lemmas: numbers and ranges *)

Lemma parse_digits_bound (max : Z) (s : str) : forall acc v,
  0 <= acc <= max -> parse_digits max acc s = Ok v -> 0 <= v <= max.
Proof.
  induction s as [|d s IH]; intros acc v Ha; cbn [parse_digits]; [intros; by simplify_eq|].
  repeat case_match; try done. apply IH. unfold is_ascii_digit, in_range in *. to_prop. lia.
Qed.

Lemma parse_number_bound (max v : Z) (s : str) : 0 <= max -> parse_number max s = Ok v -> 0 <= v <= max.
Proof.
  intros Hm. unfold parse_number, map_err. destruct (parse_uint max s) eqn:E; intros; simplify_eq.
  unfold parse_uint in E. repeat case_match; try done;
    apply parse_digits_bound in E; lia.
Qed.

Lemma trim_dec (n : Z) : trim (dec n) = dec n.
Proof.
  apply trim_all_graphic. eapply Forall_impl; [apply dec_digits|]. apply digit_graphic.
Qed.

Lemma parse_number_dec (max n : Z) : 0 <= n <= max -> max <= u16_max -> parse_number max (trim (dec n)) = Ok n.
Proof.
  intros Hn Hm. unfold parse_number. rewrite trim_dec, parse_uint_dec; [done..|].
  unfold u16_max in Hm. lia.
Qed.

Lemma digits_free (c : byte) (n : Z) : is_ascii_digit c = false -> c ∉ dec n.
Proof. intros Hc Hin. pose proof (dec_digits n) as H. rewrite Forall_forall in H. apply H in Hin. congruence. Qed.

Lemma parse_port_range_wf (s : str) (p : PortRange) : parse_port_range s = Ok p -> port_range_wf p.
Proof.
  unfold parse_port_range, port_range_new, port_range_wf. intros H.
  assert (forall t v, parse_number u16_max t = Ok v -> 0 <= v <= u16_max) as Hb
    by (intros t v; by apply parse_number_bound).
  inv_result H; repeat match goal with E : parse_number _ _ = Ok _ |- _ => apply Hb in E end;
    to_prop; cbn; lia.
Qed.

Lemma parse_port_range_text (p : PortRange) : port_range_wf p -> parse_port_range (ports_text p) = Ok p.
Proof.
  intros [Hs He]. unfold parse_port_range, ports_text. set (t := dec _ ++ _).
  assert (trim t = t) as ->.
  { apply trim_all_graphic. apply Forall_app; split; [|constructor; [done|]];
      (eapply Forall_impl; [apply dec_digits|]; apply digit_graphic). }
  assert (split_once x2d t = Some (dec (pr_start p), dec (pr_end p))) as ->
    by (apply split_once_Some; split; [done|by apply digits_free]).
  rewrite !parse_number_dec by lia. cbn [result_bind]. unfold port_range_new.
  rewrite (proj2 (Z.leb_le _ _)) by lia. by destruct p.
Qed.

(** ** Lemmas: networks *)

Lemma parse_cidr_wf (s : str) (c : Cidr) : parse_cidr s = Ok c -> cidr_wf c.
Proof.
  unfold parse_cidr, cidr_v4, cidr_v6. intros H.
  inv_result H; repeat match goal with
    | E : parse_number _ _ = Ok _ |- _ => apply parse_number_bound in E; [|done]
    | E : parse_ip _ = Some _ |- _ => apply parse_ip_wf in E; cbn in E
    end; to_prop; cbn; lia.
Qed.

(** The bytes of an address: digits, letters up to [f], dots and colons. *)
Definition is_addr_byte (b : byte) : bool :=
  is_ascii_digit b || in_range 97 102 b || bool_decide (b = x2e) || bool_decide (b = x3a).

Lemma addr_byte_graphic (b : byte) : is_addr_byte b = true -> is_ascii_graphic b = true.
Proof. destruct b; vm_compute; done. Qed.

Lemma digit_addr_byte (b : byte) : is_ascii_digit b = true -> is_addr_byte b = true.
Proof. destruct b; vm_compute; done. Qed.

Lemma ipv4_display_bytes (a : Z) : Forall (fun b => is_addr_byte b = true) (ipv4_display a).
Proof.
  unfold ipv4_display. apply Forall_join; [done|]. apply Forall_map, Forall_forall. intros b _.
  eapply Forall_impl; [apply dec_digits|]. apply digit_addr_byte.
Qed.

Lemma hex_digit_addr_byte (d : Z) : 0 <= d < 16 -> is_addr_byte (digit_char d) = true.
Proof.
  intros Hd. assert (exists n : nat, d = Z.of_nat n /\ (n < 16)%nat) as (n & -> & Hn)
    by (exists (Z.to_nat d); lia).
  do 16 (destruct n as [|n]; [reflexivity|]). lia.
Qed.

Lemma groups_text_bytes (gs : list Z) : forall i, Forall (fun b => is_addr_byte b = true) (groups_text i gs).
Proof.
  induction gs as [|g gs IH]; intros i; cbn [groups_text]; [done|].
  apply Forall_app_2; [by case_match; repeat constructor|]. apply Forall_app_2; [|apply IH].
  apply Forall_map, Forall_forall. intros k _. apply hex_digit_addr_byte, Z.mod_pos_bound. lia.
Qed.

Lemma parse_cidr_of_text (addr : str) (ip : IpAddr) (prefix : Z) :
  Forall (fun b => is_addr_byte b = true) addr -> parse_ip addr = Some ip -> 0 <= prefix <= 128 ->
  parse_cidr (addr ++ lit "/" ++ dec prefix) =
  match ip with
  | V4 ip => ok_or (cidr_v4 ip prefix) (invalid (lit "invalid IPv4 prefix"))
  | V6 ip => ok_or (cidr_v6 ip prefix) (invalid (lit "invalid IPv6 prefix"))
  end.
Proof.
  intros Ha Hp Hx. unfold parse_cidr.
  assert (Forall (fun b => is_ascii_graphic b = true) addr) as Hg
    by (eapply Forall_impl; [exact Ha|]; apply addr_byte_graphic).
  rewrite (trim_all_graphic (addr ++ _)).
  2: { apply Forall_app_2; [done|]. constructor; [done|]. eapply Forall_impl; [apply dec_digits|]. apply digit_graphic. }
  assert (split_once x2f (addr ++ lit "/" ++ dec prefix) = Some (addr, dec prefix)) as ->.
  { apply split_once_Some. split; [done|]. intros Hin. rewrite Forall_forall in Ha. by apply Ha in Hin. }
  cbn [ok_or result_bind]. rewrite parse_number_dec by (unfold u16_max; lia). cbn [result_bind].
  rewrite trim_all_graphic by done. by rewrite Hp.
Qed.

Lemma parse_cidr_text (c : Cidr) : cidr_wf c -> parse_cidr (cidr_text c) = Ok c.
Proof.
  destruct c as [network prefix|network prefix]; intros [Hn Hp]; cbn [cidr_text].
  - rewrite (parse_cidr_of_text _ (V4 network)); [|apply ipv4_display_bytes|by apply parse_ip_v4_display|lia].
    unfold cidr_v4. by rewrite (proj2 (Z.leb_le _ _)) by lia.
  - rewrite (parse_cidr_of_text _ (V6 network)); [|apply groups_text_bytes|by apply parse_ip_v6_text|lia].
    unfold cidr_v6. by rewrite (proj2 (Z.leb_le _ _)) by lia.
Qed.

(** ** Lemmas: rules *)

(** [when_set] keeps what each of its branches keeps. *)
Lemma when_set_keeps {A} (P : PolicyRule -> Prop) (field : option A) f (rule rule' : PolicyRule) :
  (forall a rule rule', f a rule = Ok rule' -> P rule -> P rule') ->
  when_set field f rule = Ok rule' -> P rule -> P rule'.
Proof. intros Hf. destruct field as [a|]; cbn; [apply Hf|by intros; simplify_eq]. Qed.

Lemma parse_host_wf (text : str) (h : Hostname) : parse_host text = Ok h -> hostname_wf h.
Proof.
  unfold parse_host, map_err. destruct (hostname_parse text) eqn:E; intros; simplify_eq.
  by apply hostname_parse_Ok_wf in E.
Qed.

(** What the setters keep, with the values the file gives them, a rule of the
    file has. *)
Section Setters.
Context (P : PolicyRule -> Prop).
Hypothesis Hprotocol : forall r p, P r -> P (with_protocol r p).
Hypothesis Hcidr : forall r c, cidr_wf c -> P r -> P (with_destination_cidr r c).
Hypothesis Hports : forall r p, port_range_wf p -> P r -> P (with_destination_ports r p).
Hypothesis Hhost : forall r h, hostname_wf h -> P r -> P (with_hostname r h).
Hypothesis Hsuffix : forall r h, hostname_wf h -> P r -> P (with_domain_suffix r h).
Hypothesis Hscheme : forall r s, P r -> P (with_origin_scheme r s).
Hypothesis Hmethod : forall r m, method_wf m -> P r -> P (with_http_method r m).
Hypothesis Hpath : forall r s, P r -> P (with_http_path_prefix r s).
Hypothesis Hconfidence : forall r c, P r -> P (with_min_attribution r c).

Lemma add_http_methods_keeps (methods : list str) : forall rule rule',
  add_http_methods methods rule = Ok rule' -> P rule -> P rule'.
Proof using Hmethod.
  induction methods as [|m ms IH]; intros rule rule' H Hw; cbn [add_http_methods] in H; [by simplify_eq|].
  unfold map_err in H. destruct (http_method_parse m) as [m'| | |] eqn:E; cbn [result_bind] in H; try done.
  apply IH in H; [done|]. apply http_method_parse_wf in E. auto.
Qed.

Lemma try_into_rule_keeps (raw : RawRule) (rule : PolicyRule) :
  (forall effect, parse_rule_effect (rr_effect raw) = Ok effect -> P (policy_rule_new (rr_id raw) effect)) ->
  try_into_rule raw = Ok rule -> P rule.
Proof using All.
  intros Hnew. unfold try_into_rule.
  destruct (parse_rule_effect _) as [effect| | |]; cbn [result_bind]; try done. specialize (Hnew _ eq_refl).
  assert (forall A (field : option A) f r (k : PolicyRule -> Result PolicyRule IoError),
    (forall a r r', f a r = Ok r' -> P r -> P r') -> P r ->
    (forall r', P r' -> k r' = Ok rule -> P rule) ->
    result_bind (when_set field f r) k = Ok rule -> P rule) as step.
  { intros A field f r k Hf Hr Hk H. destruct (when_set field f r) as [r'| | |] eqn:E; try done.
    eapply Hk, H. by eapply when_set_keeps. }
  do 6 (eapply step; [intros ? ? ? Hr; inv_result Hr; simplify_eq/=;
    eauto using parse_cidr_wf, parse_port_range_wf, parse_host_wf|done|intros ? ?]).
  eapply step; [apply add_http_methods_keeps|done|intros ? ?].
  eapply step; [intros ? ? ? Hr; simplify_eq/=; auto|done|intros ? ?]. intros Hlast.
  eapply (when_set_keeps P); [|exact Hlast|done]. intros ? ? ? Hr. inv_result Hr. auto.
Qed.
End Setters.

Lemma try_into_rule_wf (raw : RawRule) (rule : PolicyRule) : try_into_rule raw = Ok rule -> rule_wf rule.
Proof.
  apply (try_into_rule_keeps rule_wf); try (intros []; unfold rule_wf; cbn; naive_solver).
  - intros [] s. unfold rule_wf; cbn. unfold lower_case. rewrite to_ascii_lowercase_idemp. naive_solver.
  - intros [] m. unfold rule_wf; cbn. rewrite Forall_app, Forall_singleton. naive_solver.
Qed.

(** A rule of the file keeps its name and effect. *)
Lemma try_into_rule_head (raw : RawRule) (rule : PolicyRule) : try_into_rule raw = Ok rule ->
  r_id rule = rr_id raw /\ parse_rule_effect (rr_effect raw) = Ok (r_effect rule).
Proof.
  apply (try_into_rule_keeps (fun r => r_id r = rr_id raw /\ parse_rule_effect (rr_effect raw) = Ok (r_effect r)));
    by try intros [].
Qed.

Lemma parse_rule_effect_allow (s : str) : parse_rule_effect s = Ok RuleEffect.Allow -> normalize s = lit "allow".
Proof. unfold parse_rule_effect. by repeat case_bool_decide. Qed.

Lemma add_http_methods_of_wf (ms : list HttpMethod) : forall rule, Forall method_wf ms ->
  add_http_methods (map method_str ms) rule = Ok (fold_left with_http_method ms rule).
Proof.
  induction ms as [|m ms IH]; intros rule H; [done|]. apply Forall_cons in H as [Hm H].
  cbn [map add_http_methods fold_left]. rewrite http_method_parse_of_wf by done. cbn [map_err result_bind]. by apply IH.
Qed.

Lemma fold_with_http_method (ms : list HttpMethod) : forall a b c d e f g h i j k,
  fold_left with_http_method ms (mkPolicyRule a b c d e f g h i j k) = mkPolicyRule a b c d e f g h (i ++ ms) j k.
Proof.
  induction ms as [|m ms IH]; intros; cbn [fold_left with_http_method]; [by rewrite app_nil_r|].
  rewrite IH. by rewrite <- app_assoc.
Qed.

Lemma parse_host_of_wf (h : Hostname) : hostname_wf h -> parse_host (hostname_str h) = Ok h.
Proof. intros H. unfold parse_host. by rewrite hostname_parse_of_wf. Qed.

(** A field written out and read back. *)
Lemma when_set_text {B} (wf : B -> Prop) (text : B -> str) (parse : str -> Result B IoError)
  (set : PolicyRule -> B -> PolicyRule) (field : option B) (rule : PolicyRule) :
  (forall b, wf b -> parse (text b) = Ok b) -> opt_wf wf field ->
  when_set (text <$> field) (fun t rule => let? b := parse t in Ok (set rule b)) rule =
  Ok (match field with Some b => set rule b | None => rule end).
Proof. intros Hp Hw. destruct field as [b|]; cbn; [|done]. by rewrite Hp. Qed.

Lemma try_into_rule_raw (r : PolicyRule) : rule_wf r -> try_into_rule (raw_of_rule r) = Ok r.
Proof.
  intros (Hcidr & Hports & Hhost & Hsuffix & Hscheme & Hmethods).
  unfold try_into_rule, raw_of_rule.
  cbn [rr_id rr_effect rr_protocol rr_destination_cidr rr_destination_ports rr_hostname rr_domain_suffix
    rr_origin_scheme rr_http_methods rr_http_path_prefix rr_min_attribution].
  rewrite parse_rule_effect_text. cbn [result_bind].
  rewrite (when_set_text (fun _ => True)); [|intros p _; apply parse_protocol_text|by destruct (r_protocol r)].
  cbn [result_bind]. rewrite (when_set_text cidr_wf) by auto using parse_cidr_text.
  cbn [result_bind]. rewrite (when_set_text port_range_wf) by auto using parse_port_range_text.
  cbn [result_bind]. rewrite (when_set_text hostname_wf _ _ with_hostname) by auto using parse_host_of_wf.
  cbn [result_bind]. rewrite (when_set_text hostname_wf _ _ with_domain_suffix) by auto using parse_host_of_wf.
  destruct r as [id effect protocol cidr ports host suffix scheme methods path confidence]. cbn in *.
  destruct scheme as [s|]; cbn [when_set result_bind]; rewrite add_http_methods_of_wf by done;
    (destruct path as [z|]; cbn [when_set result_bind]); rewrite parse_confidence_text; cbn [result_bind];
    destruct protocol, cidr, ports, host, suffix; unfold policy_rule_new;
    cbn [with_protocol with_destination_cidr with_destination_ports with_hostname with_domain_suffix
      with_origin_scheme]; rewrite fold_with_http_method; cbn;
    by rewrite ?Hscheme.
Qed.

(** ** Lemmas: ports and policy *)

Lemma dedupe_loop_spec (ports : list Z) : forall seen, NoDup seen ->
  NoDup (dedupe_loop seen ports) /\
  (forall p, p ∈ dedupe_loop seen ports <-> p ∈ seen \/ p ∈ ports).
Proof.
  induction ports as [|q ports IH]; intros seen Hs; cbn [dedupe_loop]; [set_solver|].
  case_bool_decide as Hq.
  - destruct (IH seen Hs) as [? Hp]. split; [done|]. intros p. rewrite Hp. set_solver.
  - destruct (IH (seen ++ [q])) as [? Hp].
    { apply NoDup_app. split_and!; [done| |apply NoDup_singleton]. intros x ? ->%list_elem_of_singleton. done. }
    split; [done|]. intros p. rewrite Hp. set_solver.
Qed.

Lemma dedupe_ports_spec (ports : list Z) :
  NoDup (dedupe_ports ports) /\ forall p, p ∈ dedupe_ports ports <-> p ∈ ports.
Proof.
  destruct (dedupe_loop_spec ports [] NoDup_nil_2) as [? H]. split; [done|].
  intros p. unfold dedupe_ports. rewrite H. set_solver.
Qed.

Lemma try_into_policy_Ok (raw : RawPolicy) (policy : PolicyRuleSet) :
  try_into_policy raw = Ok policy ->
  Forall2 (fun x y => try_into_rule x = Ok y) (rp_rules raw) (rs_rules policy) /\
  rs_default_action policy <> DecisionAction.Allow /\
  rs_broadcast_addresses policy = V4 IPV4_BROADCAST :: rp_broadcast_addresses raw.
Proof.
  unfold try_into_policy. intros H.
  destruct (match rp_default_action raw with Some _ => _ | None => _ end) as [a| | |] eqn:Ea;
    cbn [result_bind] in H; try done.
  destruct (result_traverse try_into_rule _) as [rules| | |] eqn:Er; cbn [result_bind] in H; try done.
  simplify_eq. cbn. split_and!; [by apply result_traverse_Ok| |done].
  destruct (rp_default_action raw); [by eapply parse_decision_action_denies|by simplify_eq].
Qed.

Lemma policy_rules_wf (raws : list RawRule) (rules : list PolicyRule) :
  Forall2 (fun x y => try_into_rule x = Ok y) raws rules -> Forall rule_wf rules.
Proof. induction 1; constructor; [by eapply try_into_rule_wf|done]. Qed.

(** ** Lemmas: the launcher's configuration *)

(** What is in an accepted configuration, and where it comes from. *)
Definition launcher_from (raw : RawConfig) (c : LauncherConfig) : Prop :=
  launcher_wf c /\
  try_into_policy (raw_policy raw) = Ok (lc_policy c) /\
  (forall p, p ∈ lc_transparent_tcp_ports c <-> p ∈ raw_transparent_tcp_ports (raw_network raw)) /\
  (forall p, p ∈ lc_udp_forward_ports c <-> p ∈ raw_udp_forward_ports (raw_network raw)).

Lemma nonzero_usize_Ok (v w : Z) (field : str) : nonzero_usize v field = Ok w -> w = v /\ v <> 0.
Proof. unfold nonzero_usize. case_match; intros; simplify_eq. by to_prop. Qed.

Lemma try_into_launcher_Ok (raw : RawConfig) (c : LauncherConfig) :
  try_into_launcher raw = Ok c -> launcher_from raw c.
Proof.
  unfold try_into_launcher, map_err. intros H.
  destruct (sandbox_id_new _) as [id| | |] eqn:Eid; cbn [result_bind] in H; try done.
  destruct (dedupe_ports_spec (raw_transparent_tcp_ports (raw_network raw))) as [Ht Ht'].
  destruct (dedupe_ports_spec (raw_udp_forward_ports (raw_network raw))) as [Hu Hu'].
  do 6 (case_match; [done|]).
  destruct (try_into_policy _) as [policy| | |] eqn:Ep; cbn [result_bind] in H; try done.
  destruct (nonzero_usize _ (lit "network.audit_queue_capacity")) as [x| | |] eqn:Ea;
    cbn [result_bind] in H; try done.
  destruct (nonzero_usize _ (lit "network.max_worker_threads")) as [y| | |] eqn:Ew;
    cbn [result_bind] in H; try done.
  destruct (nonzero_usize _ (lit "network.max_udp_flows")) as [z| | |] eqn:Ef;
    cbn [result_bind] in H; try done.
  apply nonzero_usize_Ok in Ea as [-> ?], Ew as [-> ?], Ef as [-> ?]. to_prop.
  pose proof (try_into_policy_Ok _ _ Ep) as (Hr & Hd & Hb). simplify_eq.
  unfold launcher_from, launcher_wf. cbn. unfold sandbox_id_new in Eid. case_bool_decide; [done|]. simplify_eq. cbn.
  rewrite Hu'. split_and!; try done. 
  - rewrite Hb. set_solver.
  - by eapply policy_rules_wf.
Qed.

(** ** Lemmas: rejections

    A value, or an [InvalidInput] error: the checks never panic. *)

Definition checked {A} (r : Result A IoError) : Prop :=
  match r with
  | Ok _ => True
  | Err e => io_kind e = IoErrorKind.InvalidInput
  | Panic | OutOfFuel => False
  end.

Lemma checked_bind {A B} (r : Result A IoError) (k : A -> Result B IoError) :
  checked r -> (forall a, checked (k a)) -> checked (result_bind r k).
Proof. destruct r; cbn; auto. Qed.

Lemma checked_map_err {A E} (r : Result A E) (message : E -> str) :
  returns r -> checked (map_err (fun e => invalid (message e)) r).
Proof. by destruct r. Qed.

Lemma checked_ok_or {A} (o : option A) (message : str) : checked (ok_or o (invalid message)).
Proof. by destruct o. Qed.

Lemma checked_traverse {A B} (f : A -> Result B IoError) (l : list A) :
  (forall x, checked (f x)) -> checked (result_traverse f l).
Proof.
  intros Hf. induction l; cbn [result_traverse]; [done|].
  apply checked_bind; [done|]. intros b. by apply checked_bind.
Qed.

Lemma checked_parse_number (max : Z) (s : str) : checked (parse_number max s).
Proof. apply (checked_map_err _ int_error_display), parse_uint_returns. Qed.

Lemma checked_parse_host (s : str) : checked (parse_host s).
Proof. apply (checked_map_err _ hostname_error_display), hostname_parse_returns. Qed.

Lemma checked_when_set {A} (field : option A) f (rule : PolicyRule) :
  (forall a rule, checked (f a rule)) -> checked (when_set field f rule).
Proof. destruct field; cbn; auto. Qed.

#[local] Hint Resolve checked_bind checked_ok_or checked_parse_number checked_parse_host checked_when_set : core.

Lemma checked_words (s : str) :
  checked (parse_decision_action s) /\ checked (parse_rule_effect s) /\ checked (parse_protocol s) /\
  checked (parse_attribution_confidence s).
Proof.
  unfold parse_decision_action, parse_rule_effect, parse_protocol, parse_attribution_confidence.
  split_and!; by repeat case_match.
Qed.

Lemma checked_parse_port_range (s : str) : checked (parse_port_range s).
Proof.
  unfold parse_port_range. destruct (split_once _ _) as [[a b]|].
  - apply checked_bind; [auto|]. intros x. apply checked_bind; auto.
  - by apply checked_bind.
Qed.

Lemma checked_parse_cidr (s : str) : checked (parse_cidr s).
Proof.
  unfold parse_cidr. apply checked_bind; [auto|]. intros [ip prefix]. apply checked_bind; [auto|]. intros p.
  apply checked_bind; [apply checked_ok_or|]. intros [a|a]; apply checked_ok_or.
Qed.

Lemma checked_add_http_methods (ms : list str) : forall rule, checked (add_http_methods ms rule).
Proof.
  induction ms as [|m ms IH]; intros rule; cbn [add_http_methods]; [done|]. apply checked_bind; [|auto].
  apply (checked_map_err _ http_method_error_display), http_method_parse_returns.
Qed.

Lemma checked_try_into_rule (raw : RawRule) : checked (try_into_rule raw).
Proof.
  unfold try_into_rule.
  repeat first
    [ apply checked_words | apply checked_parse_cidr | apply checked_parse_port_range
    | apply checked_parse_host | apply checked_add_http_methods | exact I
    | apply checked_when_set; intros ? ? | apply checked_bind; [|intros ?] ].
Qed.

Lemma checked_try_into_policy (raw : RawPolicy) : checked (try_into_policy raw).
Proof.
  unfold try_into_policy. apply checked_bind; [case_match; [apply checked_words|done]|]. intros action.
  apply checked_bind; [|done]. apply checked_traverse, checked_try_into_rule.
Qed.

Lemma checked_try_into_launcher (raw : RawConfig) : checked (try_into_launcher raw).
Proof.
  unfold try_into_launcher. apply checked_bind.
  { apply (checked_map_err _ identifier_error_display). unfold sandbox_id_new. by case_match. }
  intros id. do 6 (case_match; [done|]). apply checked_bind; [apply checked_try_into_policy|]. intros policy.
  unfold nonzero_usize. do 3 (apply checked_bind; [by case_match|intros ?]). done.
Qed.

(** ** Properties *)

Lemma parse_launcher_config_checked (from_str : str -> Result RawConfig str) (contents : str) :
  (forall s, returns (from_str s)) ->
  match parse_launcher_config from_str contents with
  | Ok c => exists raw, from_str contents = Ok raw /\ launcher_from raw c
  | Err e => io_kind e = IoErrorKind.InvalidInput
  | Panic | OutOfFuel => False
  end.
Proof.
  intros Htoml. unfold parse_launcher_config. specialize (Htoml contents).
  destruct (from_str contents) as [raw| | |]; cbn [map_err result_bind]; try done.
  pose proof (checked_try_into_launcher raw) as Hc. destruct (try_into_launcher raw) as [c| | |] eqn:E; try done.
  exists raw. split; [done|]. by apply try_into_launcher_Ok.
Qed.

(** [C20] Whatever text the TOML parser makes of the file, loading it either gives
    a well-formed configuration made from the parsed tables -- a named sandbox,
    distinct non-zero ports, the ports of the file and no others, a prefix of at
    most 32 bits, different addresses, non-zero limits, a policy that keeps the
    broadcast guard, does not allow by default and holds only well-formed
    rules -- or an [InvalidInput] error; it never panics. *)
Theorem launcher_config_is_well_formed (from_str : str -> Result RawConfig str) (contents : str) :
  (forall s, returns (from_str s)) ->
  match parse_launcher_config from_str contents with
  | Ok c => exists raw, from_str contents = Ok raw /\ launcher_from raw c
  | Err e => io_kind e = IoErrorKind.InvalidInput
  | Panic | OutOfFuel => False
  end.
Proof. apply parse_launcher_config_checked. Qed.

(** The empty file is accepted. *)
Lemma launcher_config_is_well_formed_witness :
  let from_str := fun s : str => if bool_decide (s = []) then Ok raw_config_default else Err (lit "bad") in
  exists c, parse_launcher_config from_str [] = Ok c /\ launcher_wf c.
Proof.
  intros from_str.
  pose proof (launcher_config_is_well_formed from_str []) as H.
  destruct (parse_launcher_config from_str []) as [c| | |] eqn:E; [|vm_compute in E; discriminate E..].
  exists c. split; [reflexivity|]. destruct H as (raw & _ & Hw & _); [|exact Hw].
  intros s. unfold from_str. case_bool_decide; exact I.
Defined.

(** [C21] A rule can be written in the file exactly when it is well-formed: its
    written form reads back as the rule itself, every field included. *)
Theorem rule_text_roundtrip (r : PolicyRule) : rule_wf r <-> try_into_rule (raw_of_rule r) = Ok r.
Proof. split; [apply try_into_rule_raw|apply try_into_rule_wf]. Qed.

(** A rule of the file allows the event: it matches, its effect reads [allow], no
    earlier rule of the file matches, and the decision names it. *)
Definition allowed_by_file (raw : RawConfig) (event : NetworkEvent) (decision : Decision) : Prop :=
  exists pre rule_text post rule,
    rp_rules (raw_policy raw) = pre ++ rule_text :: post /\
    try_into_rule rule_text = Ok rule /\ normalize (rr_effect rule_text) = lit "allow" /\
    rule_matches rule event = true /\
    Forall (fun t => exists r, try_into_rule t = Ok r /\ rule_matches r event = false) pre /\
    decision = decision_allow (rr_id rule_text).

(** A loaded policy allows an event only by a rule of the file. *)
Theorem loaded_policy_allows_by_a_rule (raw : RawConfig) (c : LauncherConfig) (event : NetworkEvent) :
  try_into_launcher raw = Ok c -> is_allowed (evaluate (lc_policy c) event) = true ->
  allowed_by_file raw event (evaluate (lc_policy c) event).
Proof.
  intros Hc Ha. apply try_into_launcher_Ok in Hc as (_ & Hp & _).
  apply try_into_policy_Ok in Hp as (Hr & Hd & _).
  apply evaluate_allows_iff in Ha as (_ & pre & rule & post & Hrules & Hpre & Hm & He & ->); [|done].
  rewrite Hrules in Hr. apply Forall2_app_inv_r in Hr as (tpre & trest & Htpre & Htrest & Ht).
  apply Forall2_cons_inv_r in Htrest as (text & tpost & Htext & _ & ->).
  pose proof (try_into_rule_head _ _ Htext) as [Hid Heff]. rewrite He in Heff.
  exists tpre, text, tpost, rule. split_and!; try done.
  - by apply parse_rule_effect_allow.
  - clear -Htpre Hpre. induction Htpre as [|t r ts rs Hr H IH]; [constructor|].
    apply Forall_cons in Hpre as [? ?]. constructor; [by exists r|auto].
  - by rewrite Hid.
Qed.

Lemma loaded_policy_allows_by_a_rule_witness :
  let web := mkRawRule (lit "web") (lit " ALLOW ") (Some (lit "Tcp")) (Some (lit "93.184.0.0/16"))
               (Some (lit "80 - 443")) None None None None None None in
  let raw := mkRawConfig raw_sandbox_default raw_network_default raw_proxy_default raw_bwrap_default
               (mkRawPolicy (Some (lit "Deny_Reset")) None None None None [] [web]) in
  let event := NetworkEvent.TcpConnectAttempt (mkSandboxId (lit "alpha")) Frontend.Tun None
    (mkEndpoint (V4 (ipv4_new 93 184 216 34)) 80) attribution_ip_only in
  exists c, try_into_launcher raw = Ok c /\ evaluate (lc_policy c) event = decision_allow (lit "web").
Proof.
  intros web raw event. destruct (try_into_launcher raw) as [c| | |] eqn:E; [|vm_compute in E; discriminate E..].
  exists c. split; [reflexivity|].
  assert (is_allowed (evaluate (lc_policy c) event) = true) as Ha.
  { vm_compute in E. injection E as <-. vm_compute. reflexivity. }
  destruct (loaded_policy_allows_by_a_rule raw c event E Ha) as (pre & t & post & r & Hr & _ & _ & _ & _ & ->).
  destruct pre as [|? [|? ?]]; cbn in Hr; [|discriminate Hr..]. injection Hr as <- _. reflexivity.
Defined.
