(* ===== verification/Cli.v ===== *)
(** * The command line of [foxprox] ([crates/foxprox-cli/src/main.rs])

    What the launcher and the proof commands compute before they touch the
    system: the options of every command, the policy rules they add, the checks
    of the proxy ports and backends, the broker configuration and the [bwrap]
    command line of [foxprox run]. *)

From S2P Require Import Prelude Text NetAddr Event Policy Flow Inspection AuditLog Config.
From S2P Require Import Effects AuditIo Limiter Tcp Udp Combined Proxy Args RunConfig.

Definition usage : str :=
  lit "usage: foxprox run --config PATH -- target args..." ++ [x0a]
  ++ lit "       foxprox proof-icmp --setup-socket PATH [--local-ip 10.255.0.1] [--audit-queue-capacity N]" ++ [x0a]
  ++ lit "       foxprox proof-tcp --setup-socket PATH [--broker-ip 10.255.0.1] [--prefix-len 24] [--mtu 1500] [--tcp-port 80] [--audit-queue-capacity N]" ++ [x0a]
  ++ lit "       foxprox proof-udp-dns --setup-socket PATH [--broker-ip 10.255.0.1] [--prefix-len 24] [--mtu 1500] [--upstream-dns 1.1.1.1:53] [--udp-forward-port PORT]... [--audit-queue-capacity N] [--max-workers N] [--max-udp-flows N]" ++ [x0a]
  ++ lit "       foxprox proof-transparent --setup-socket PATH [--broker-ip 10.255.0.1] [--prefix-len 24] [--mtu 1500] [--tcp-port 80] [--tcp-forward-port PORT]... [--upstream-dns 1.1.1.1:53] [--udp-forward-port PORT]... [--audit-queue-capacity N] [--max-workers N] [--max-udp-flows N] [--http-proxy-port PORT] [--http-proxy-allow-port PORT]... [--http-proxy-backend-listen 127.0.0.1:0] [--socks5-proxy-port PORT] [--socks5-proxy-allow-port PORT]... [--socks5-proxy-backend-listen 127.0.0.1:0]" ++ [x0a]
  ++ lit "       foxprox proof-http-proxy [--listen 10.255.0.1:8080] [--allow-port PORT]... [--request-head-limit BYTES] [--request-head-timeout-ms MS] [--connect-timeout-ms MS] [--audit-queue-capacity N] [--max-connections N]" ++ [x0a]
  ++ lit "       foxprox proof-socks5-proxy [--listen 10.255.0.1:1080] [--allow-port PORT]... [--request-timeout-ms MS] [--connect-timeout-ms MS] [--audit-queue-capacity N] [--max-connections N]".

(** ** Rules the commands add *)

(** An allow rule for one protocol and one port. *)
Definition allow_port_rule (name : str) (protocol : Protocol) (port : Z) : PolicyRule :=
  with_destination_ports
    (with_protocol (policy_rule_new (name ++ dec port) RuleEffect.Allow) protocol)
    (port_range_single port).

Definition allow_tcp_forward_rule (port : Z) : PolicyRule :=
  allow_port_rule (lit "proof-allow-tcp-") Protocol.Tcp port.

(** [Cidr::v4(broker_ip, 32).expect("valid IPv4 /32")]: 32 is a valid prefix. *)
Definition allow_proxy_bridge_rule (broker_ip port : Z) : PolicyRule :=
  with_destination_ports
    (with_destination_cidr
       (with_protocol (policy_rule_new (lit "proof-allow-proxy-bridge-" ++ dec port) RuleEffect.Allow) Protocol.Tcp)
       (Cidr.V4 broker_ip 32))
    (port_range_single port).

Definition allow_http_forward_rule (port : Z) : PolicyRule :=
  allow_port_rule (lit "proof-allow-http-") Protocol.Http port.
Definition allow_tls_forward_rule (port : Z) : PolicyRule :=
  allow_port_rule (lit "proof-allow-tls-") Protocol.Tls port.

Definition allow_udp_forward_rule (port : Z) : PolicyRule :=
  let protocol := if bool_decide (classify_udp_candidate port = Protocol.Quic) then Protocol.Quic else Protocol.Udp in
  allow_port_rule (lit "proof-allow-udp-") protocol port.

Definition allow_http_proxy_rule (port : Z) : PolicyRule :=
  allow_port_rule (lit "proof-allow-http-proxy-") Protocol.Http port.
Definition allow_connect_proxy_rule (port : Z) : PolicyRule :=
  allow_port_rule (lit "proof-allow-connect-proxy-") Protocol.HttpsConnect port.
Definition allow_socks_proxy_rule (port : Z) : PolicyRule :=
  allow_port_rule (lit "proof-allow-socks-proxy-") Protocol.Socks port.

(** [policy.rules.push(rule)] and [policy.rules.insert(0, rule)]. *)
Definition push_rules (policy : PolicyRuleSet) (rules : list PolicyRule) : PolicyRuleSet :=
  set_rules policy (rs_rules policy ++ rules).
Definition insert_rule (policy : PolicyRuleSet) (rule : PolicyRule) : PolicyRuleSet :=
  set_rules policy (rule :: rs_rules policy).

Definition add_transparent_tcp_allow_rules (policy : PolicyRuleSet) (port : Z) : PolicyRuleSet :=
  push_rules policy
    ([allow_tcp_forward_rule port]
     ++ (if port =? 80 then [allow_http_forward_rule port] else [])
     ++ (if port =? 443 then [allow_tls_forward_rule port] else [])).

Definition combined_transparent_tcp_ports (config : CombinedTransparentProofConfig) : list Z :=
  fold_left (fun ports port => if bool_decide (port ∈ ports) then ports else ports ++ [port])
    (cp_additional_tcp_ports config) [cp_tcp_port config].

(** ** Checks of the proxies *)

Definition validate_proxy_backend_loopback (addr : SocketAddr) : Result unit IoError :=
  if is_loopback (sa_ip addr) then Ok tt
  else Err (invalid_input_error
         (lit "proxy backend listen address must be loopback-only, got " ++ socket_addr_display addr)).

Definition validate_http_proxy_backend_loopback (addr : SocketAddr) : Result unit IoError :=
  validate_proxy_backend_loopback addr.

Definition validate_transparent_proxy_bridge_inputs (transparent_tcp_ports : list Z)
  (http_proxy_port : option Z) (http_backend_listen : SocketAddr)
  (socks5_proxy_port : option Z) (socks_backend_listen : SocketAddr) : Result unit IoError :=
  let? _ := match http_proxy_port with
            | Some port =>
                if bool_decide (port ∈ transparent_tcp_ports) then
                  Err (invalid_input_error (lit "HTTP proxy port must differ from transparent TCP ports"))
                else validate_http_proxy_backend_loopback http_backend_listen
            | None => Ok tt
            end in
  match socks5_proxy_port with
  | Some port =>
      if bool_decide (port ∈ transparent_tcp_ports) || bool_decide (Some port = http_proxy_port) then
        Err (invalid_input_error
               (lit "SOCKS5 proxy port must differ from transparent TCP and HTTP proxy ports"))
      else validate_proxy_backend_loopback socks_backend_listen
  | None => Ok tt
  end.

(** ** [foxprox run]: arguments *)

Record RunOptions : Type := mkRunOptions { ro_config_path : option str; ro_target : list str }.

Definition run_arm (st : RunOptions) (arg : str) : Arm RunOptions :=
  if bool_decide (arg ∈ [lit "--config"; lit "-c"]) then
    valued (lit "--config") as_given (fun v => mkRunOptions (Some v) (ro_target st))
  else if bool_decide (arg = lit "--") then
    Rest (fun args => mkRunOptions (ro_config_path st) (ro_target st ++ args))
  else other_argument usage arg.

Definition missing (what : str) : IoError := invalid_input_error (what ++ [x0a] ++ usage).

(** The configuration path and the target command. *)
Definition run_launcher_args (args : list str) : Result (str * list str) IoError :=
  let? st := parse_options run_arm (mkRunOptions None []) args in
  if bool_decide (ro_target st = []) then Err (missing (lit "missing target command"))
  else
    let? config_path := ok_or (ro_config_path st) (missing (lit "missing --config PATH")) in
    Ok (config_path, ro_target st).

(** ** [foxprox run]: the broker's configuration *)

(** A loopback address on any free port. *)
Definition loopback_any_port : SocketAddr := mkSocketAddr (V4 (ipv4_new 127 0 0 1)) 0.

Definition set_combined_policy (policy : PolicyRuleSet) (c : CombinedTransparentProofConfig)
  : CombinedTransparentProofConfig :=
  {| cp_sandbox_id := cp_sandbox_id c; cp_broker_ip := cp_broker_ip c; cp_prefix_len := cp_prefix_len c;
     cp_mtu := cp_mtu c; cp_tcp_port := cp_tcp_port c; cp_additional_tcp_ports := cp_additional_tcp_ports c;
     cp_connect_timeout := cp_connect_timeout c; cp_pending_buffer_limit := cp_pending_buffer_limit c;
     cp_idle_timeout := cp_idle_timeout c; cp_dns_port := cp_dns_port c; cp_upstream_dns := cp_upstream_dns c;
     cp_udp_packet_capacity := cp_udp_packet_capacity c; cp_udp_payload_capacity := cp_udp_payload_capacity c;
     cp_upstream_timeout := cp_upstream_timeout c; cp_udp_forward_ports := cp_udp_forward_ports c;
     cp_udp_forward_timeout := cp_udp_forward_timeout c; cp_policy := policy;
     cp_audit_queue_capacity := cp_audit_queue_capacity c; cp_max_worker_threads := cp_max_worker_threads c;
     cp_max_udp_flows := cp_max_udp_flows c; cp_http_proxy_bridge := cp_http_proxy_bridge c;
     cp_socks5_proxy_bridge := cp_socks5_proxy_bridge c |}.

(** The configuration before the proxies start. *)
Definition launcher_base_config (config : LauncherConfig) : Result CombinedTransparentProofConfig IoError :=
  let c := combined_config_new (lc_sandbox_id config) in
  match lc_transparent_tcp_ports config with
  | [] => Panic
  | tcp_port :: additional_tcp_ports =>
      Ok {| cp_sandbox_id := cp_sandbox_id c; cp_broker_ip := lc_broker_ip config;
            cp_prefix_len := lc_prefix_len config; cp_mtu := lc_mtu config; cp_tcp_port := tcp_port;
            cp_additional_tcp_ports := additional_tcp_ports; cp_connect_timeout := cp_connect_timeout c;
            cp_pending_buffer_limit := cp_pending_buffer_limit c; cp_idle_timeout := cp_idle_timeout c;
            cp_dns_port := cp_dns_port c; cp_upstream_dns := lc_upstream_dns config;
            cp_udp_packet_capacity := cp_udp_packet_capacity c;
            cp_udp_payload_capacity := cp_udp_payload_capacity c;
            cp_upstream_timeout := cp_upstream_timeout c; cp_udp_forward_ports := lc_udp_forward_ports config;
            cp_udp_forward_timeout := cp_udp_forward_timeout c;
            cp_policy := push_rules (lc_policy config)
                           (map allow_tcp_forward_rule (lc_transparent_tcp_ports config));
            cp_audit_queue_capacity := lc_audit_queue_capacity config;
            cp_max_worker_threads := lc_max_worker_threads config;
            cp_max_udp_flows := lc_max_udp_flows config;
            cp_http_proxy_bridge := cp_http_proxy_bridge c;
            cp_socks5_proxy_bridge := cp_socks5_proxy_bridge c |}
  end.

(** The bridge of a proxy whose backend listens on [backend_addr], and the rule
    that lets the sandbox reach it. *)
Definition set_http_bridge (config : LauncherConfig) (port : Z) (backend_addr : SocketAddr)
  (c : CombinedTransparentProofConfig) : CombinedTransparentProofConfig :=
  let c := set_combined_policy (insert_rule (cp_policy c) (allow_proxy_bridge_rule (lc_broker_ip config) port)) c in
  {| cp_sandbox_id := cp_sandbox_id c; cp_broker_ip := cp_broker_ip c; cp_prefix_len := cp_prefix_len c;
     cp_mtu := cp_mtu c; cp_tcp_port := cp_tcp_port c; cp_additional_tcp_ports := cp_additional_tcp_ports c;
     cp_connect_timeout := cp_connect_timeout c; cp_pending_buffer_limit := cp_pending_buffer_limit c;
     cp_idle_timeout := cp_idle_timeout c; cp_dns_port := cp_dns_port c; cp_upstream_dns := cp_upstream_dns c;
     cp_udp_packet_capacity := cp_udp_packet_capacity c; cp_udp_payload_capacity := cp_udp_payload_capacity c;
     cp_upstream_timeout := cp_upstream_timeout c; cp_udp_forward_ports := cp_udp_forward_ports c;
     cp_udp_forward_timeout := cp_udp_forward_timeout c; cp_policy := cp_policy c;
     cp_audit_queue_capacity := cp_audit_queue_capacity c; cp_max_worker_threads := cp_max_worker_threads c;
     cp_max_udp_flows := cp_max_udp_flows c;
     cp_http_proxy_bridge := Some (mkExplicitProxyBridgeConfig port backend_addr);
     cp_socks5_proxy_bridge := cp_socks5_proxy_bridge c |}.

Definition set_socks5_bridge (config : LauncherConfig) (port : Z) (backend_addr : SocketAddr)
  (c : CombinedTransparentProofConfig) : CombinedTransparentProofConfig :=
  let c := set_combined_policy (insert_rule (cp_policy c) (allow_proxy_bridge_rule (lc_broker_ip config) port)) c in
  {| cp_sandbox_id := cp_sandbox_id c; cp_broker_ip := cp_broker_ip c; cp_prefix_len := cp_prefix_len c;
     cp_mtu := cp_mtu c; cp_tcp_port := cp_tcp_port c; cp_additional_tcp_ports := cp_additional_tcp_ports c;
     cp_connect_timeout := cp_connect_timeout c; cp_pending_buffer_limit := cp_pending_buffer_limit c;
     cp_idle_timeout := cp_idle_timeout c; cp_dns_port := cp_dns_port c; cp_upstream_dns := cp_upstream_dns c;
     cp_udp_packet_capacity := cp_udp_packet_capacity c; cp_udp_payload_capacity := cp_udp_payload_capacity c;
     cp_upstream_timeout := cp_upstream_timeout c; cp_udp_forward_ports := cp_udp_forward_ports c;
     cp_udp_forward_timeout := cp_udp_forward_timeout c; cp_policy := cp_policy c;
     cp_audit_queue_capacity := cp_audit_queue_capacity c; cp_max_worker_threads := cp_max_worker_threads c;
     cp_max_udp_flows := cp_max_udp_flows c; cp_http_proxy_bridge := cp_http_proxy_bridge c;
     cp_socks5_proxy_bridge := Some (mkExplicitProxyBridgeConfig port backend_addr) |}.

(** The backends judge by the policy of the file alone. *)
Definition launcher_http_backend (config : LauncherConfig) : HttpProxyProofConfig :=
  let c := http_proxy_config_new (lc_sandbox_id config) loopback_any_port in
  mkHttpProxyProofConfig (hp_sandbox_id c) (hp_listen_addr c) (lc_policy config) (hp_request_head_limit c)
    (hp_request_head_timeout c) (hp_connect_timeout c) (hp_audit_queue_capacity c) (hp_max_connections c).

Definition launcher_socks5_backend (config : LauncherConfig) : Socks5ProxyProofConfig :=
  let c := socks5_proxy_config_new (lc_sandbox_id config) loopback_any_port in
  mkSocks5ProxyProofConfig (sp_sandbox_id c) (sp_listen_addr c) (lc_policy config) (sp_request_timeout c)
    (sp_connect_timeout c) (sp_audit_queue_capacity c) (sp_max_connections c).

(** ** [foxprox run]: the [bwrap] command line *)

Definition default_bwrap_args : list str :=
  map lit
    [ "--unshare-user"; "--uid"; "0"; "--gid"; "0"; "--unshare-net"; "--cap-add"; "CAP_NET_ADMIN";
      "--ro-bind"; "/usr"; "/usr"; "--ro-bind-try"; "/lib"; "/lib"; "--ro-bind-try"; "/lib64"; "/lib64";
      "--dir"; "/etc"; "--ro-bind-try"; "/etc/ssl"; "/etc/ssl"; "--ro-bind-try"; "/etc/pki"; "/etc/pki";
      "--ro-bind-try"; "/etc/ca-certificates"; "/etc/ca-certificates";
      "--ro-bind-try"; "/etc/hosts"; "/etc/hosts"; "--ro-bind-try"; "/etc/nsswitch.conf"; "/etc/nsswitch.conf";
      "--dev"; "/dev"; "--dir"; "/dev/net"; "--dev-bind"; "/dev/net/tun"; "/dev/net/tun"; "--proc"; "/proc";
      "--tmpfs"; "/tmp" ]%string.

Definition proxy_url (scheme : str) (broker_ip port : Z) : str :=
  scheme ++ lit "://" ++ ipv4_display broker_ip ++ lit ":" ++ dec port.

(** What [foxproxsetup] is given: its options, [--] and the target. *)
Definition setup_options (config : LauncherConfig) (setup_socket_sandbox : str)
  (http_proxy_port socks5_proxy_port : option Z) : list str :=
  [lit "--setup-socket"; setup_socket_sandbox; lit "--ifname"; lc_ifname config;
   lit "--sandbox-ip"; ipv4_display (lc_sandbox_ip config); lit "--prefix-len"; dec (lc_prefix_len config);
   lit "--broker-ip"; ipv4_display (lc_broker_ip config); lit "--mtu"; dec (lc_mtu config);
   lit "--resolv-conf"; lc_resolv_conf config]
  ++ (if lc_keep_cap_net_raw config then [lit "--keep-cap-net-raw-for-ping"] else [])
  ++ (if lc_inject_proxy_env config then
        match http_proxy_port with
        | Some port =>
            [lit "--http-proxy"; proxy_url (lit "http") (lc_broker_ip config) port;
             lit "--https-proxy"; proxy_url (lit "http") (lc_broker_ip config) port]
        | None => []
        end
        ++ match socks5_proxy_port with
           | Some port => [lit "--all-proxy"; proxy_url (lit "socks5h") (lc_broker_ip config) port]
           | None => []
           end
        ++ match lc_no_proxy config with
           | Some no_proxy => [lit "--no-proxy"; no_proxy]
           | None => []
           end
      else []).

(** The arguments of [bwrap]. *)
Definition bwrap_command (config : LauncherConfig) (target : list str)
  (setup_socket_sandbox setup_socket_dir setup_helper_host : str)
  (http_proxy_port socks5_proxy_port : option Z) : Result (list str) IoError :=
  let bwrap_args := default default_bwrap_args (lc_bwrap_args config) in
  if existsb (fun arg => bool_decide (arg = lit "--")) bwrap_args then
    Err (invalid_input_error
           (lit "bwrap.args must not contain --; foxprox adds the setup command separator"))
  else
    Ok (bwrap_args
        ++ [lit "--bind"; setup_socket_dir; setup_socket_dir; lit "--dir"; lit "/.foxprox-setup";
            lit "--ro-bind"; setup_helper_host; lit "/.foxprox-setup/foxproxsetup"; lit "--";
            lit "/.foxprox-setup/foxproxsetup"]
        ++ setup_options config setup_socket_sandbox http_proxy_port socks5_proxy_port
        ++ [lit "--"] ++ target).

(** ** The proof commands: options

    [setup_socket] starts as the variable [FOXPROX_SETUP_SOCKET]. *)

Definition setup_socket_of (setup_socket : option str) : Result str IoError :=
  ok_or setup_socket (missing (lit "missing --setup-socket or FOXPROX_SETUP_SOCKET")).

Definition parse_u8 := parse_value (uint_from_str 255).
Definition parse_u16 := parse_value (uint_from_str u16_max).
Definition parse_usize := parse_value (uint_from_str u64_max).
Definition parse_ipv4_addr := parse_value ipv4_from_str.

(** [proof-tcp]: the socket and the configuration. *)
Definition tcp_arm (st : option str * TcpProofConfig) (arg : str) : Arm (option str * TcpProofConfig) :=
  let '(socket, c) := st in
  let '(mkTcpProofConfig id ip prefix mtu port connect limit idle policy capacity egress) := c in
  if bool_decide (arg = lit "--setup-socket") then valued arg as_given (fun v => (Some v, c))
  else if bool_decide (arg = lit "--broker-ip") then
    valued arg parse_ipv4_addr (fun v => (socket, mkTcpProofConfig id v prefix mtu port connect limit idle policy capacity egress))
  else if bool_decide (arg = lit "--prefix-len") then
    valued arg parse_u8 (fun v => (socket, mkTcpProofConfig id ip v mtu port connect limit idle policy capacity egress))
  else if bool_decide (arg = lit "--mtu") then
    valued arg parse_usize (fun v => (socket, mkTcpProofConfig id ip prefix v port connect limit idle policy capacity egress))
  else if bool_decide (arg = lit "--tcp-port") then
    valued arg parse_u16 (fun v => (socket, mkTcpProofConfig id ip prefix mtu v connect limit idle policy capacity egress))
  else if bool_decide (arg = lit "--audit-queue-capacity") then
    valued arg parse_nonzero_usize (fun v => (socket, mkTcpProofConfig id ip prefix mtu port connect limit idle policy v egress))
  else other_argument usage arg.

Definition set_tcp_policy (policy : PolicyRuleSet) (c : TcpProofConfig) : TcpProofConfig :=
  mkTcpProofConfig (tp_sandbox_id c) (tp_broker_ip c) (tp_prefix_len c) (tp_mtu c) (tp_tcp_port c) (tp_connect_timeout c)
    (tp_pending_buffer_limit c) (tp_idle_timeout c) policy (tp_audit_queue_capacity c) (tp_tcp_egress_override c).

(** The identifiers of the commands are not empty, so [SandboxId::new] succeeds. *)
Definition proof_tcp_args (socket_env : option str) (args : list str) : Result (str * TcpProofConfig) IoError :=
  let? (socket, config) := parse_options tcp_arm
    (socket_env, tcp_proof_config_new (mkSandboxId (lit "proof-tcp"))) args in
  let port := tp_tcp_port config in
  let config := set_tcp_policy (push_rules (tp_policy config)
    ([allow_tcp_forward_rule port]
     ++ (if port =? 80 then [allow_http_forward_rule port] else [])
     ++ (if port =? 443 then [allow_tls_forward_rule port] else []))) config in
  let? setup_socket := setup_socket_of socket in
  Ok (setup_socket, config).

(** [proof-udp-dns]. *)
Definition udp_arm (st : option str * UdpDnsProofConfig) (arg : str) : Arm (option str * UdpDnsProofConfig) :=
  let '(socket, c) := st in
  let '(mkUdpDnsProofConfig id ip prefix mtu dns upstream packets payload timeout ports forward policy capacity workers flows) := c in
  if bool_decide (arg = lit "--setup-socket") then valued arg as_given (fun v => (Some v, c))
  else if bool_decide (arg = lit "--broker-ip") then
    valued arg parse_ipv4_addr (fun v => (socket, mkUdpDnsProofConfig id v prefix mtu dns upstream packets payload timeout ports forward policy capacity workers flows))
  else if bool_decide (arg = lit "--prefix-len") then
    valued arg parse_u8 (fun v => (socket, mkUdpDnsProofConfig id ip v mtu dns upstream packets payload timeout ports forward policy capacity workers flows))
  else if bool_decide (arg = lit "--mtu") then
    valued arg parse_usize (fun v => (socket, mkUdpDnsProofConfig id ip prefix v dns upstream packets payload timeout ports forward policy capacity workers flows))
  else if bool_decide (arg = lit "--upstream-dns") then
    valued arg parse_socket_addr (fun v => (socket, mkUdpDnsProofConfig id ip prefix mtu dns v packets payload timeout ports forward policy capacity workers flows))
  else if bool_decide (arg = lit "--udp-forward-port") then
    valued arg parse_u16 (fun v => (socket, mkUdpDnsProofConfig id ip prefix mtu dns upstream packets payload timeout
      (ports ++ [v]) forward (push_rules policy [allow_udp_forward_rule v]) capacity workers flows))
  else if bool_decide (arg = lit "--audit-queue-capacity") then
    valued arg parse_nonzero_usize (fun v => (socket, mkUdpDnsProofConfig id ip prefix mtu dns upstream packets payload timeout ports forward policy v workers flows))
  else if bool_decide (arg = lit "--max-workers") then
    valued arg parse_nonzero_usize (fun v => (socket, mkUdpDnsProofConfig id ip prefix mtu dns upstream packets payload timeout ports forward policy capacity v flows))
  else if bool_decide (arg = lit "--max-udp-flows") then
    valued arg parse_nonzero_usize (fun v => (socket, mkUdpDnsProofConfig id ip prefix mtu dns upstream packets payload timeout ports forward policy capacity workers v))
  else other_argument usage arg.

Definition proof_udp_dns_args (socket_env : option str) (args : list str) : Result (str * UdpDnsProofConfig) IoError :=
  let? (socket, config) := parse_options udp_arm
    (socket_env, udp_dns_proof_config_new (mkSandboxId (lit "proof-udp-dns"))) args in
  let? setup_socket := setup_socket_of socket in
  Ok (setup_socket, config).

(** [proof-http-proxy] and [proof-socks5-proxy]. *)
Definition http_proxy_arm (c : HttpProxyProofConfig) (arg : str) : Arm HttpProxyProofConfig :=
  let '(mkHttpProxyProofConfig id listen policy limit head connect capacity connections) := c in
  if bool_decide (arg = lit "--listen") then
    valued arg parse_socket_addr (fun v => mkHttpProxyProofConfig id v policy limit head connect capacity connections)
  else if bool_decide (arg = lit "--allow-port") then
    valued arg parse_u16 (fun v => mkHttpProxyProofConfig id listen
      (push_rules policy [allow_http_proxy_rule v; allow_connect_proxy_rule v]) limit head connect capacity connections)
  else if bool_decide (arg = lit "--request-head-limit") then
    valued arg parse_usize (fun v => mkHttpProxyProofConfig id listen policy v head connect capacity connections)
  else if bool_decide (arg = lit "--request-head-timeout-ms") then
    valued arg parse_millis (fun v => mkHttpProxyProofConfig id listen policy limit v connect capacity connections)
  else if bool_decide (arg = lit "--connect-timeout-ms") then
    valued arg parse_millis (fun v => mkHttpProxyProofConfig id listen policy limit head v capacity connections)
  else if bool_decide (arg = lit "--audit-queue-capacity") then
    valued arg parse_nonzero_usize (fun v => mkHttpProxyProofConfig id listen policy limit head connect v connections)
  else if bool_decide (arg = lit "--max-connections") then
    valued arg parse_nonzero_usize (fun v => mkHttpProxyProofConfig id listen policy limit head connect capacity v)
  else other_argument usage arg.

Definition proof_http_proxy_args (args : list str) : Result HttpProxyProofConfig IoError :=
  parse_options http_proxy_arm
    (http_proxy_config_new (mkSandboxId (lit "proof-http-proxy")) (mkSocketAddr (V4 (ipv4_new 10 255 0 1)) 8080)) args.

Definition socks5_proxy_arm (c : Socks5ProxyProofConfig) (arg : str) : Arm Socks5ProxyProofConfig :=
  let '(mkSocks5ProxyProofConfig id listen policy request connect capacity connections) := c in
  if bool_decide (arg = lit "--listen") then
    valued arg parse_socket_addr (fun v => mkSocks5ProxyProofConfig id v policy request connect capacity connections)
  else if bool_decide (arg = lit "--allow-port") then
    valued arg parse_u16 (fun v => mkSocks5ProxyProofConfig id listen
      (push_rules policy [allow_socks_proxy_rule v]) request connect capacity connections)
  else if bool_decide (arg = lit "--request-timeout-ms") then
    valued arg parse_millis (fun v => mkSocks5ProxyProofConfig id listen policy v connect capacity connections)
  else if bool_decide (arg = lit "--connect-timeout-ms") then
    valued arg parse_millis (fun v => mkSocks5ProxyProofConfig id listen policy request v capacity connections)
  else if bool_decide (arg = lit "--audit-queue-capacity") then
    valued arg parse_nonzero_usize (fun v => mkSocks5ProxyProofConfig id listen policy request connect v connections)
  else if bool_decide (arg = lit "--max-connections") then
    valued arg parse_nonzero_usize (fun v => mkSocks5ProxyProofConfig id listen policy request connect capacity v)
  else other_argument usage arg.

Definition proof_socks5_proxy_args (args : list str) : Result Socks5ProxyProofConfig IoError :=
  parse_options socks5_proxy_arm
    (socks5_proxy_config_new (mkSandboxId (lit "proof-socks5-proxy")) (mkSocketAddr (V4 (ipv4_new 10 255 0 1)) 1080)) args.

(** [proof-transparent]. *)
Record TransparentOptions : Type := mkTransparentOptions {
  to_setup_socket : option str;
  to_config : CombinedTransparentProofConfig;
  to_http_proxy_port : option Z;
  to_http_proxy_config : HttpProxyProofConfig;
  to_socks5_proxy_port : option Z;
  to_socks5_proxy_config : Socks5ProxyProofConfig
}.

Definition transparent_options_new (socket_env : option str) : TransparentOptions :=
  let id := mkSandboxId (lit "proof-transparent") in
  mkTransparentOptions socket_env (combined_config_new id) None (http_proxy_config_new id loopback_any_port)
    None (socks5_proxy_config_new id loopback_any_port).

Definition set_http_backend_policy (policy : PolicyRuleSet) (c : HttpProxyProofConfig) : HttpProxyProofConfig :=
  mkHttpProxyProofConfig (hp_sandbox_id c) (hp_listen_addr c) policy (hp_request_head_limit c)
    (hp_request_head_timeout c) (hp_connect_timeout c) (hp_audit_queue_capacity c) (hp_max_connections c).
Definition set_http_backend_listen (listen : SocketAddr) (c : HttpProxyProofConfig) : HttpProxyProofConfig :=
  mkHttpProxyProofConfig (hp_sandbox_id c) listen (hp_policy c) (hp_request_head_limit c)
    (hp_request_head_timeout c) (hp_connect_timeout c) (hp_audit_queue_capacity c) (hp_max_connections c).
Definition set_socks5_backend_policy (policy : PolicyRuleSet) (c : Socks5ProxyProofConfig) : Socks5ProxyProofConfig :=
  mkSocks5ProxyProofConfig (sp_sandbox_id c) (sp_listen_addr c) policy (sp_request_timeout c)
    (sp_connect_timeout c) (sp_audit_queue_capacity c) (sp_max_connections c).
Definition set_socks5_backend_listen (listen : SocketAddr) (c : Socks5ProxyProofConfig) : Socks5ProxyProofConfig :=
  mkSocks5ProxyProofConfig (sp_sandbox_id c) listen (sp_policy c) (sp_request_timeout c)
    (sp_connect_timeout c) (sp_audit_queue_capacity c) (sp_max_connections c).

Definition transparent_arm (st : TransparentOptions) (arg : str) : Arm TransparentOptions :=
  let '(mkTransparentOptions socket c http_port http_config socks_port socks_config) := st in
  let set_config := fun c => mkTransparentOptions socket c http_port http_config socks_port socks_config in
  let '(mkCombinedTransparentProofConfig id ip prefix mtu port more connect limit idle dns upstream packets payload timeout ports forward policy capacity workers flows http socks) := c in
  if bool_decide (arg = lit "--setup-socket") then
    valued arg as_given (fun v => mkTransparentOptions (Some v) c http_port http_config socks_port socks_config)
  else if bool_decide (arg = lit "--broker-ip") then
    valued arg parse_ipv4_addr (fun v => set_config (mkCombinedTransparentProofConfig id v prefix mtu port more connect limit idle dns upstream packets payload timeout ports forward policy capacity workers flows http socks))
  else if bool_decide (arg = lit "--prefix-len") then
    valued arg parse_u8 (fun v => set_config (mkCombinedTransparentProofConfig id ip v mtu port more connect limit idle dns upstream packets payload timeout ports forward policy capacity workers flows http socks))
  else if bool_decide (arg = lit "--mtu") then
    valued arg parse_usize (fun v => set_config (mkCombinedTransparentProofConfig id ip prefix v port more connect limit idle dns upstream packets payload timeout ports forward policy capacity workers flows http socks))
  else if bool_decide (arg = lit "--tcp-port") then
    valued arg parse_u16 (fun v => set_config (mkCombinedTransparentProofConfig id ip prefix mtu v more connect limit idle dns upstream packets payload timeout ports forward policy capacity workers flows http socks))
  else if bool_decide (arg = lit "--tcp-forward-port") then
    valued arg parse_nonzero_u16 (fun v => set_config (mkCombinedTransparentProofConfig id ip prefix mtu port (more ++ [v]) connect limit idle dns upstream packets payload timeout ports forward policy capacity workers flows http socks))
  else if bool_decide (arg = lit "--upstream-dns") then
    valued arg parse_socket_addr (fun v => set_config (mkCombinedTransparentProofConfig id ip prefix mtu port more connect limit idle dns v packets payload timeout ports forward policy capacity workers flows http socks))
  else if bool_decide (arg = lit "--udp-forward-port") then
    valued arg parse_u16 (fun v => set_config (mkCombinedTransparentProofConfig id ip prefix mtu port more connect limit idle dns upstream packets payload timeout (ports ++ [v]) forward (push_rules policy [allow_udp_forward_rule v]) capacity workers flows http socks))
  else if bool_decide (arg = lit "--audit-queue-capacity") then
    valued arg parse_nonzero_usize (fun v => set_config (mkCombinedTransparentProofConfig id ip prefix mtu port more connect limit idle dns upstream packets payload timeout ports forward policy v workers flows http socks))
  else if bool_decide (arg = lit "--max-workers") then
    valued arg parse_nonzero_usize (fun v => set_config (mkCombinedTransparentProofConfig id ip prefix mtu port more connect limit idle dns upstream packets payload timeout ports forward policy capacity v flows http socks))
  else if bool_decide (arg = lit "--max-udp-flows") then
    valued arg parse_nonzero_usize (fun v => set_config (mkCombinedTransparentProofConfig id ip prefix mtu port more connect limit idle dns upstream packets payload timeout ports forward policy capacity workers v http socks))
  else if bool_decide (arg = lit "--http-proxy-port") then
    valued arg parse_nonzero_u16 (fun v => mkTransparentOptions socket c (Some v) http_config socks_port socks_config)
  else if bool_decide (arg = lit "--http-proxy-allow-port") then
    valued arg parse_u16 (fun v => mkTransparentOptions socket c http_port
      (set_http_backend_policy
         (push_rules (hp_policy http_config) [allow_http_proxy_rule v; allow_connect_proxy_rule v]) http_config)
      socks_port socks_config)
  else if bool_decide (arg = lit "--http-proxy-backend-listen") then
    valued arg parse_socket_addr (fun v => mkTransparentOptions socket c http_port
      (set_http_backend_listen v http_config) socks_port socks_config)
  else if bool_decide (arg = lit "--socks5-proxy-port") then
    valued arg parse_nonzero_u16 (fun v => mkTransparentOptions socket c http_port http_config (Some v) socks_config)
  else if bool_decide (arg = lit "--socks5-proxy-allow-port") then
    valued arg parse_u16 (fun v => mkTransparentOptions socket c http_port http_config socks_port
      (set_socks5_backend_policy (push_rules (sp_policy socks_config) [allow_socks_proxy_rule v]) socks_config))
  else if bool_decide (arg = lit "--socks5-proxy-backend-listen") then
    valued arg parse_socket_addr (fun v => mkTransparentOptions socket c http_port http_config socks_port
      (set_socks5_backend_listen v socks_config))
  else other_argument usage arg.

(** The options, and the allow rules of the transparent ports. *)
Definition proof_transparent_args (socket_env : option str) (args : list str) : Result (str * TransparentOptions) IoError :=
  let? st := parse_options transparent_arm (transparent_options_new socket_env) args in
  let config := to_config st in
  let policy := fold_left add_transparent_tcp_allow_rules (combined_transparent_tcp_ports config) (cp_policy config) in
  let? setup_socket := setup_socket_of (to_setup_socket st) in
  Ok (setup_socket,
      mkTransparentOptions (to_setup_socket st) (set_combined_policy policy config) (to_http_proxy_port st)
        (to_http_proxy_config st) (to_socks5_proxy_port st) (to_socks5_proxy_config st)).

(** ** Specification: what [foxprox run] starts *)

(** The configuration the broker thread gets, with the addresses the backends
    report. *)
Definition launched_config (config : LauncherConfig) (http_backend socks5_backend : SocketAddr)
  : Result CombinedTransparentProofConfig IoError :=
  let? c := launcher_base_config config in
  let c := match lc_http_proxy_port config with
           | Some port => set_http_bridge config port http_backend c
           | None => c
           end in
  Ok (match lc_socks5_proxy_port config with
      | Some port => set_socks5_bridge config port socks5_backend c
      | None => c
      end).

(** The rules in force: the bridges, the rules of the file, the transparent
    ports. *)
Definition bridge_rules (config : LauncherConfig) : list PolicyRule :=
  map (allow_proxy_bridge_rule (lc_broker_ip config))
    (option_list (lc_socks5_proxy_port config) ++ option_list (lc_http_proxy_port config)).

Definition launched_rules (config : LauncherConfig) : list PolicyRule :=
  bridge_rules config ++ rs_rules (lc_policy config)
  ++ map allow_tcp_forward_rule (lc_transparent_tcp_ports config).

(** ** Lemmas *)

Lemma set_rules_twice (rs : PolicyRuleSet) (a b : list PolicyRule) : set_rules (set_rules rs a) b = set_rules rs b.
Proof. done. Qed.

Lemma launched_config_policy config a b c :
  launched_config config a b = Ok c ->
  cp_policy c = set_rules (lc_policy config) (launched_rules config).
Proof.
  unfold launched_config, launcher_base_config, launched_rules, bridge_rules.
  destruct (lc_transparent_tcp_ports config) as [|p ps]; [done|]. cbn [result_bind].
  destruct (lc_http_proxy_port config), (lc_socks5_proxy_port config); intros; by simplify_eq/=.
Qed.

Lemma evaluate_rules_app (l1 l2 : list PolicyRule) (da : DecisionAction) (event : NetworkEvent) :
  Forall (fun r => rule_matches r event = false) l1 ->
  evaluate_rules (l1 ++ l2) da event = evaluate_rules l2 da event.
Proof. induction 1 as [|r l Hr H IH]; cbn; [done|]. by rewrite Hr. Qed.

(** When a rule of the first list matches, the second does not matter. *)
Lemma evaluate_rules_app_or (l1 l2 : list PolicyRule) (da : DecisionAction) (event : NetworkEvent) :
  evaluate_rules (l1 ++ l2) da event = evaluate_rules l1 da event \/
  Forall (fun r => rule_matches r event = false) l1.
Proof.
  induction l1 as [|r l IH]; cbn; [by right|]. destruct (rule_matches r event) eqn:E; [by left|].
  destruct IH; [by left|]. right. by constructor.
Qed.

(** The rules of this file concern TCP only. *)
Definition tcp_only (r : PolicyRule) : Prop := r_protocol r = Some Protocol.Tcp.

Lemma tcp_only_other (r : PolicyRule) (event : NetworkEvent) :
  tcp_only r -> event_protocol event <> Protocol.Tcp -> rule_matches r event = false.
Proof.
  unfold tcp_only, rule_matches. intros -> Hp. cbn. by rewrite bool_decide_eq_false_2.
Qed.

Lemma explicit_allow_tcp_only (rs : PolicyRuleSet) (l1 l2 : list PolicyRule) dst :
  Forall tcp_only l1 -> Forall tcp_only l2 ->
  has_explicit_ip_allow (set_rules rs (l1 ++ rs_rules rs ++ l2)) dst Protocol.Tls =
  has_explicit_ip_allow rs dst Protocol.Tls.
Proof.
  intros H1 H2. unfold has_explicit_ip_allow. cbn [rs_rules set_rules].
  rewrite !existsb_app.
  assert (forall l, Forall tcp_only l -> existsb (fun rule =>
    bool_decide (r_effect rule = RuleEffect.Allow)
    && negb (is_set (r_hostname rule)) && negb (is_set (r_domain_suffix rule))
    && negb (is_set (r_origin_scheme rule)) && bool_decide (r_http_methods rule = [])
    && negb (is_set (r_http_path_prefix rule))
    && unset_or (r_protocol rule) (fun p => bool_decide (p = Protocol.Tls))
    && match r_destination_cidr rule with
       | Some cidr => cidr_contains cidr (ep_ip dst)
       | None => false
       end
    && unset_or (r_destination_ports rule) (fun ports => port_range_contains ports (ep_port dst))) l = false) as Hl.
  { induction 1 as [|r l Hr H IH]; [done|]. cbn [existsb]. rewrite IH, orb_false_r, Hr. cbn [unset_or].
    rewrite (bool_decide_eq_false_2 (Protocol.Tcp = Protocol.Tls)) by done. by rewrite !andb_false_r. }
  rewrite (Hl l1), (Hl l2) by done. cbn [orb]. apply orb_false_r.
Qed.

Lemma precheck_tcp_only (rs : PolicyRuleSet) (l1 l2 : list PolicyRule) (event : NetworkEvent) :
  Forall tcp_only l1 -> Forall tcp_only l2 ->
  fail_closed_precheck event (set_rules rs (l1 ++ rs_rules rs ++ l2)) = fail_closed_precheck event rs.
Proof. intros H1 H2. destruct event; try reflexivity. unfold fail_closed_precheck. by rewrite explicit_allow_tcp_only. Qed.

Lemma bridge_rules_tcp_only config : Forall tcp_only (bridge_rules config).
Proof. apply Forall_map, Forall_forall. intros p _. reflexivity. Qed.

Lemma forward_rules_tcp_only ports : Forall tcp_only (map allow_tcp_forward_rule ports).
Proof. apply Forall_map, Forall_forall. intros p _. reflexivity. Qed.

Lemma port_single (port : Z) (o : option Z) :
  match o with Some q => port_range_contains (port_range_single port) q | None => false end = true <-> o = Some port.
Proof.
  destruct o as [q|]; [|done]. unfold port_range_contains. cbn. rewrite andb_true_iff, !Z.leb_le.
  split; [intros; f_equal; lia|intros [= ->]; lia].
Qed.

Lemma bridge_rule_matches (broker_ip port : Z) (event : NetworkEvent) :
  rule_matches (allow_proxy_bridge_rule broker_ip port) event = true <->
  event_protocol event = Protocol.Tcp /\ event_destination_port event = Some port /\
  exists dst, event_destination event = Some dst /\ cidr_contains (Cidr.V4 broker_ip 32) (ep_ip dst) = true.
Proof.
  rewrite <- port_single. unfold rule_matches, allow_proxy_bridge_rule.
  cbn [with_destination_ports with_destination_cidr with_protocol policy_rule_new r_protocol r_destination_cidr
    r_destination_ports r_hostname r_domain_suffix r_origin_scheme r_http_methods r_http_path_prefix unset_or
    is_set orb negb].
  destruct (decide (event_protocol event = Protocol.Tcp)) as [->|Hp].
  2: { rewrite bool_decide_eq_false_2 by done. by split; [|intros [? _]]. }
  cbn [bool_decide]. rewrite bool_decide_eq_true_2 by done. cbn [negb].
  destruct (event_destination event) as [dst|]; cbn [negb]; [|by split; [|intros (_ & _ & ? & ? & _)]].
  destruct (cidr_contains _ (ep_ip dst)) eqn:Ec; cbn [negb].
  - destruct (match event_destination_port event with Some _ => _ | None => _ end); cbn;
      (split; [intros; split_and!; [done..|by exists dst]|by intros (_ & ? & _)]).
  - split; [done|]. intros (_ & _ & d & [= <-] & ?). congruence.
Qed.

(** A full-length prefix is the address itself. *)
Lemma cidr_32 (broker_ip : Z) (ip : IpAddr) : 0 <= broker_ip <= u32_max -> ip_wf ip ->
  cidr_contains (Cidr.V4 broker_ip 32) ip = true -> ip = V4 broker_ip.
Proof.
  intros Hb Hw. destruct ip as [a|a]; cbn; [|done]. cbn in Hw.
  change (Z.land (Z.shiftl u32_max (32 - 32)) u32_max) with (Z.ones 32).
  intros H%Z.eqb_eq. rewrite !Z.land_ones, !Z.mod_small in H by (unfold u32_max in *; lia). by f_equal.
Qed.

Lemma forward_rule_matches (port : Z) (event : NetworkEvent) :
  rule_matches (allow_tcp_forward_rule port) event = true <->
  event_protocol event = Protocol.Tcp /\ event_destination_port event = Some port.
Proof.
  rewrite <- port_single. unfold rule_matches, allow_tcp_forward_rule, allow_port_rule.
  cbn [with_destination_ports with_protocol policy_rule_new r_protocol r_destination_cidr
    r_destination_ports r_hostname r_domain_suffix r_origin_scheme r_http_methods r_http_path_prefix unset_or
    is_set orb negb].
  destruct (decide (event_protocol event = Protocol.Tcp)) as [->|Hp].
  - rewrite bool_decide_eq_true_2 by done. cbn [negb].
    destruct (match event_destination_port event with Some _ => _ | None => _ end); cbn; naive_solver.
  - rewrite bool_decide_eq_false_2 by done. by split; [|intros [? _]].
Qed.

(** The first matching rule of a list made from ports. *)
Lemma first_of_ports (rule : Z -> PolicyRule) (ports : list Z) (da : DecisionAction) (event : NetworkEvent) :
  (forall p, r_effect (rule p) = RuleEffect.Allow) ->
  (exists p, p ∈ ports /\ rule_matches (rule p) event = true /\
     evaluate_rules (map rule ports) da event = decision_allow (r_id (rule p))) \/
  Forall (fun r => rule_matches r event = false) (map rule ports).
Proof.
  intros He. induction ports as [|p ports IH]; [by right|]. cbn. destruct (rule_matches (rule p) event) eqn:E.
  - left. exists p. rewrite He. split_and!; [set_solver|done|done].
  - destruct IH as [(q & Hq & ? & ?)|H]; [left; exists q; split_and!; [set_solver|done|done]|]. right. by constructor.
Qed.

(** ** Properties *)

(** The decision of an added rule: of a proxy bridge at the broker's address, or of
    a transparent port that no rule of the file matches. *)
Definition added_by_launcher (config : LauncherConfig) (event : NetworkEvent) (decision : Decision) : Prop :=
  event_protocol event = Protocol.Tcp /\ fail_closed_precheck event (lc_policy config) = None /\
  ((exists port dst, (lc_http_proxy_port config = Some port \/ lc_socks5_proxy_port config = Some port) /\
      event_destination_port event = Some port /\ event_destination event = Some dst /\
      (0 <= lc_broker_ip config <= u32_max -> ip_wf (ep_ip dst) -> ep_ip dst = V4 (lc_broker_ip config)) /\
      decision = decision_allow (r_id (allow_proxy_bridge_rule (lc_broker_ip config) port))) \/
   (exists port, port ∈ lc_transparent_tcp_ports config /\ event_destination_port event = Some port /\
      Forall (fun r => rule_matches r event = false) (rs_rules (lc_policy config)) /\
      decision = decision_allow (r_id (allow_tcp_forward_rule port)))).

Lemma launched_decision (config : LauncherConfig) (http_backend socks5_backend : SocketAddr)
  (c : CombinedTransparentProofConfig) (event : NetworkEvent) :
  launched_config config http_backend socks5_backend = Ok c ->
  evaluate (cp_policy c) event = evaluate (lc_policy config) event \/
  added_by_launcher config event (evaluate (cp_policy c) event).
Proof.
  intros Hc. rewrite (launched_config_policy _ _ _ _ Hc).
  set (policy := lc_policy config). unfold evaluate. cbn [rs_rules set_rules rs_default_action].
  unfold launched_rules. fold policy.
  rewrite precheck_tcp_only by auto using bridge_rules_tcp_only, forward_rules_tcp_only.
  destruct (fail_closed_precheck event policy) eqn:Eg; [by left|].
  destruct (first_of_ports (allow_proxy_bridge_rule (lc_broker_ip config))
    (option_list (lc_socks5_proxy_port config) ++ option_list (lc_http_proxy_port config))
    (rs_default_action policy) event) as [(p & Hp & Hm & He)|Hn]; [done| |].
  - right. pose proof Hm as (Htcp & Hport & dst & Hdst & Hcidr)%bridge_rule_matches.
    split_and!; [done..|]. left. exists p, dst. split_and!; [|done|done| |].
    + destruct (lc_socks5_proxy_port config), (lc_http_proxy_port config); cbn in Hp; set_solver.
    + intros Hb Hw. by apply cidr_32.
    + destruct (evaluate_rules_app_or (bridge_rules config) (rs_rules policy ++
        map allow_tcp_forward_rule (lc_transparent_tcp_ports config)) (rs_default_action policy) event) as [->|Hf];
        [done|]. unfold bridge_rules in Hf. rewrite Forall_map, Forall_forall in Hf.
      specialize (Hf _ Hp). unfold compose in Hf. congruence.
  - rewrite evaluate_rules_app by done.
    destruct (evaluate_rules_app_or (rs_rules policy) (map allow_tcp_forward_rule (lc_transparent_tcp_ports config))
      (rs_default_action policy) event) as [He|Hf]; [by left|].
    rewrite evaluate_rules_app by done.
    destruct (first_of_ports allow_tcp_forward_rule (lc_transparent_tcp_ports config) (rs_default_action policy) event)
      as [(p & Hp & Hm & He)|Hn2]; [done| |].
    + right. apply forward_rule_matches in Hm as [Htcp Hport]. split_and!; [done..|]. right. by exists p.
    + left. rewrite <- (app_nil_r (map allow_tcp_forward_rule _)), evaluate_rules_app by done.
      rewrite <- (app_nil_r (rs_rules policy)), evaluate_rules_app by done. done.
Qed.

(** What the launcher's own rules change: the broker's policy decides every event
    as the policy of the file does, except TCP connections that no guard stops.
    Of those it also allows one to a proxy port at the broker's address, and one to
    a transparent port that no rule of the file matches; the decision names the added
    rule.  Guards and the rules of the file otherwise keep their verdicts, denials
    included. *)
Theorem launcher_opens_only_tcp_paths (config : LauncherConfig) (http_backend socks5_backend : SocketAddr)
  (c : CombinedTransparentProofConfig) (event : NetworkEvent) :
  launched_config config http_backend socks5_backend = Ok c ->
  evaluate (cp_policy c) event = evaluate (lc_policy config) event \/
  added_by_launcher config event (evaluate (cp_policy c) event).
Proof. apply launched_decision. Qed.

(** A connection to the HTTP proxy port is allowed although the file has no rule. *)
Definition plain_config : LauncherConfig :=
  match try_into_launcher raw_config_default with
  | Ok c => c
  | _ => mkLauncherConfig (mkSandboxId []) [] None None None [] false 0 0 0 0 loopback_any_port [] [] 0 0 0 None None
           false None [] None policy_rule_set_default
  end.

Lemma launcher_opens_only_tcp_paths_witness :
  let backend := mkSocketAddr (V4 (ipv4_new 127 0 0 1)) 4000 in
  let event := NetworkEvent.TcpConnectAttempt (mkSandboxId (lit "alpha")) Frontend.Tun None
    (mkEndpoint (V4 (ipv4_new 10 255 0 1)) 8080) attribution_ip_only in
  exists c, launched_config plain_config backend backend = Ok c /\
    is_allowed (evaluate (cp_policy c) event) = true /\ fail_closed_precheck event (lc_policy plain_config) = None.
Proof.
  intros backend event. destruct (launched_config plain_config backend backend) as [c| | |] eqn:E;
    [|vm_compute in E; discriminate E..].
  exists c. split; [reflexivity|].
  destruct (launcher_opens_only_tcp_paths plain_config backend backend c event E) as [He|(_ & Hn & [H|H])].
  - exfalso. vm_compute in E. injection E as <-. vm_compute in He. discriminate He.
  - destruct H as (p & d & _ & _ & _ & _ & He). rewrite He. split; [reflexivity|exact Hn].
  - destruct H as (p & _ & _ & _ & He). rewrite He. split; [reflexivity|exact Hn].
Defined.

(** ** Start-up checks *)

Lemma launched_config_fields config a b c :
  launched_config config a b = Ok c ->
  cp_tcp_port c :: cp_additional_tcp_ports c = lc_transparent_tcp_ports config /\
  cp_http_proxy_bridge c = (fun port => mkExplicitProxyBridgeConfig port a) <$> lc_http_proxy_port config /\
  cp_socks5_proxy_bridge c = (fun port => mkExplicitProxyBridgeConfig port b) <$> lc_socks5_proxy_port config /\
  cp_audit_queue_capacity c = lc_audit_queue_capacity config /\
  cp_max_worker_threads c = lc_max_worker_threads config /\
  cp_max_udp_flows c = lc_max_udp_flows config.
Proof.
  unfold launched_config, launcher_base_config.
  destruct (lc_transparent_tcp_ports config) as [|p ps]; [done|]. cbn [result_bind].
  destruct (lc_http_proxy_port config), (lc_socks5_proxy_port config); intros; by simplify_eq/=.
Qed.

Lemma push_ports_nodup (ps : list Z) : forall qs, NoDup (qs ++ ps) -> fold_left push_port ps qs = qs ++ ps.
Proof.
  induction ps as [|p ps IH]; intros qs Hn; cbn [fold_left]; [by rewrite app_nil_r|].
  assert (p ∉ qs) as Hp. { apply NoDup_app in Hn as (_ & Hd & _). intros H. eapply Hd; [exact H|]. set_solver. }
  unfold push_port at 2. rewrite bool_decide_eq_false_2 by done.
  rewrite IH; [by rewrite <- app_assoc|]. by rewrite <- app_assoc.
Qed.

Lemma bridge_inputs_spec ports http_port a socks_port b :
  validate_transparent_proxy_bridge_inputs ports http_port a socks_port b = Ok tt ->
  opt_wf (fun p => (p ∉ ports)) http_port /\ opt_wf (fun p => (p ∉ ports) /\ Some p <> http_port) socks_port.
Proof.
  unfold validate_transparent_proxy_bridge_inputs. intros H.
  destruct http_port as [p|]; cbn in *.
  - case_bool_decide; [done|]. split; [done|]. destruct (validate_http_proxy_backend_loopback a); [cbn in H|done..].
    destruct socks_port as [q|]; [|done]. cbn. case_match eqn:E; [done|]. by to_prop.
  - split; [done|]. destruct socks_port as [q|]; [|done]. cbn. case_match eqn:E; [done|]. by to_prop.
Qed.



(** ** The proof commands *)

(** Everything a rule set of the proof commands allows comes from these rules. *)
Definition allows_only (P : PolicyRule -> Prop) (policy : PolicyRuleSet) : Prop :=
  Forall P (rs_rules policy) /\ rs_default_action policy <> DecisionAction.Allow.

Lemma allows_only_matches P policy event : allows_only P policy -> is_allowed (evaluate policy event) = true ->
  exists r, P r /\ rule_matches r event = true.
Proof.
  intros [Hf Hd] Ha. apply evaluate_allows_iff in Ha as (_ & pre & r & post & Hr & _ & Hm & _ & _); [|done].
  exists r. split; [|done]. rewrite Hr in Hf. apply Forall_app in Hf as [_ Hf]. by inversion Hf.
Qed.

Lemma allows_only_push P policy rules : allows_only P policy -> Forall P rules -> allows_only P (push_rules policy rules).
Proof. intros [Hf Hd] H. split; [by apply Forall_app|done]. Qed.

(** What an allow rule for one port opens. *)
Lemma allow_port_rule_matches name protocol port event :
  rule_matches (allow_port_rule name protocol port) event = true ->
  event_protocol event = protocol /\ event_destination_port event = Some port.
Proof.
  rewrite <- port_single. unfold rule_matches, allow_port_rule.
  cbn [with_destination_ports with_protocol policy_rule_new r_protocol r_destination_cidr
    r_destination_ports r_hostname r_domain_suffix r_origin_scheme r_http_methods r_http_path_prefix unset_or
    is_set orb negb].
  case_bool_decide as Hp; cbn [negb]; [|done]. intros H. split; [done|].
  by destruct (match event_destination_port event with Some _ => _ | None => _ end).
Qed.

(** The rules [proof-transparent] may hold: its UDP and its TCP ports. *)
Definition names_port (udp tcp : list Z) (r : PolicyRule) : Prop :=
  exists name protocol port, r = allow_port_rule name protocol port /\
    ((port ∈ udp /\ (protocol = Protocol.Udp \/ protocol = Protocol.Quic)) \/
     (port ∈ tcp /\ (protocol = Protocol.Tcp \/ (protocol = Protocol.Http /\ port = 80) \/
                     (protocol = Protocol.Tls /\ port = 443)))).

Lemma names_port_more udp udp' tcp r : (forall p, p ∈ udp -> p ∈ udp') -> names_port udp [] r -> names_port udp' tcp r.
Proof. intros Hu (n & pr & p & -> & [[Hp H]|[Hp _]]); exists n, pr, p; (split; [done|]); set_solver. Qed.

Lemma add_transparent_rules_only udp tcp ports : forall policy,
  (forall p, p ∈ ports -> p ∈ tcp) -> allows_only (names_port udp tcp) policy ->
  allows_only (names_port udp tcp) (fold_left add_transparent_tcp_allow_rules ports policy).
Proof.
  induction ports as [|p ports IH]; intros policy Hp Ha; cbn [fold_left]; [done|].
  apply IH; [set_solver|]. apply allows_only_push; [done|]. assert (p ∈ tcp) as Hin by set_solver.
  repeat apply Forall_app_2; [|case_match eqn:E|case_match eqn:E]; repeat constructor; to_prop;
    do 3 eexists; (split; [reflexivity|]); right; (split; [done|]); auto.
Qed.

Definition transparent_inv (st : TransparentOptions) : Prop :=
  let c := to_config st in
  allows_only (names_port (cp_udp_forward_ports c) []) (cp_policy c) /\ (0 ∉ cp_additional_tcp_ports c) /\
  cp_audit_queue_capacity c <> 0 /\ cp_max_worker_threads c <> 0 /\ cp_max_udp_flows c <> 0 /\
  to_http_proxy_port st <> Some 0 /\ to_socks5_proxy_port st <> Some 0.

Lemma parse_nonzero_Ok (s : str) (v : Z) : parse_nonzero_usize s = Ok v \/ parse_nonzero_u16 s = Ok v -> v <> 0.
Proof.
  unfold parse_nonzero_usize, parse_nonzero_u16, nonzero.
  intros [H|H]; destruct (parse_value _ s) as [x| | |]; cbn [result_bind] in H; try done;
    destruct (Z.eqb_spec x 0); by simplify_eq.
Qed.

Lemma valued_keeps {S T} (P : S -> Prop) (flag : str) (parse : str -> Result T IoError) (set : T -> S) :
  (forall s v, parse s = Ok v -> P (set v)) ->
  match valued flag parse set with
  | Value _ set => forall value st', set value = Ok st' -> P st'
  | Switch st' => P st'
  | Rest finish => forall args, P (finish args)
  | Reject _ => True
  end.
Proof. intros H value st'. cbn. destruct (parse value) as [v| | |] eqn:E; intros; simplify_eq/=. by eapply H. Qed.

Lemma udp_rule_names ports v : names_port (ports ++ [v]) [] (allow_udp_forward_rule v).
Proof.
  unfold allow_udp_forward_rule. do 3 eexists. split; [reflexivity|]. left.
  split; [set_solver|]. case_bool_decide; auto.
Qed.

Lemma transparent_arm_keeps st arg : transparent_inv st ->
  match transparent_arm st arg with
  | Value _ set => forall value st', set value = Ok st' -> transparent_inv st'
  | Switch st' => transparent_inv st'
  | Rest finish => forall args, transparent_inv (finish args)
  | Reject _ => True
  end.
Proof.
  destruct st as [socket [] http_port http_config socks_port socks_config]. unfold transparent_inv. cbn.
  intros (Hp & Hm & Ha & Hw & Hu & Hh & Hs). unfold transparent_arm.
  repeat case_bool_decide; try exact I;
    (apply valued_keeps; intros s v Hv; cbn; split_and!; try assumption;
     try (by intros [= ->]; eapply parse_nonzero_Ok; [right; exact Hv|]);
     try (by eapply parse_nonzero_Ok; eauto)).
  - rewrite not_elem_of_app, list_elem_of_singleton. split; [done|]. intros <-.
    eapply parse_nonzero_Ok; [right; exact Hv|done].
  - destruct Hp as [Hf Hd]. split; [|done]. cbn. apply Forall_app. split.
    + eapply Forall_impl; [exact Hf|]. intros r. apply names_port_more. set_solver.
    + constructor; [apply udp_rule_names|constructor].
Qed.

(** The proof command opens what its flags name: with the policy [proof-transparent]
    builds from any arguments, an event is allowed only when it goes to a port given
    by [--udp-forward-port], as UDP or QUIC, or to a transparent TCP port, as a TCP
    connection, or as HTTP on port 80 or TLS on port 443.  The limits and the proxy
    ports it parsed are non-zero. *)
Theorem proof_transparent_opens_named_ports (socket_env : option str) (args : list str) (socket : str)
  (st : TransparentOptions) (event : NetworkEvent) :
  proof_transparent_args socket_env args = Ok (socket, st) ->
  (is_allowed (evaluate (cp_policy (to_config st)) event) = true ->
   exists port, event_destination_port event = Some port /\
     ((port ∈ cp_udp_forward_ports (to_config st) /\
       (event_protocol event = Protocol.Udp \/ event_protocol event = Protocol.Quic)) \/
      (port ∈ combined_transparent_tcp_ports (to_config st) /\
       (event_protocol event = Protocol.Tcp \/ (event_protocol event = Protocol.Http /\ port = 80) \/
        (event_protocol event = Protocol.Tls /\ port = 443))))) /\
  cp_audit_queue_capacity (to_config st) <> 0 /\ cp_max_worker_threads (to_config st) <> 0 /\
  cp_max_udp_flows (to_config st) <> 0 /\ to_http_proxy_port st <> Some 0 /\ to_socks5_proxy_port st <> Some 0.
Proof.
  unfold proof_transparent_args. destruct (parse_options _ _ _) as [st0| | |] eqn:E; cbn [result_bind]; try done.
  destruct (setup_socket_of _); cbn [result_bind]; intros [= <- <-].
  assert (transparent_inv st0) as (Hp & Hm & Ha & Hw & Hu & Hh & Hs).
  { eapply parse_options_ind; [apply transparent_arm_keeps| |exact E].
    unfold transparent_inv. cbn. split_and!; try done. apply not_elem_of_nil. }
  cbn. split_and!; try done. intros Hal.
  eapply (allows_only_matches (names_port (cp_udp_forward_ports (to_config st0)) (combined_transparent_tcp_ports (to_config st0))))
    in Hal as (r & (name & protocol & port & -> & Hr) & Hmatch).
  - apply allow_port_rule_matches in Hmatch as [<- Hport]. exists port. split; [done|].
    destruct Hr as [?|?]; [by left|by right].
  - apply add_transparent_rules_only; [done|]. destruct Hp as [Hf Hd]. split; [|done].
    eapply Forall_impl; [exact Hf|]. intros r. by apply names_port_more.
Qed.

Lemma proof_transparent_opens_named_ports_witness :
  let args := [lit "--setup-socket"; lit "/s"; lit "--tcp-port"; lit "443"; lit "--udp-forward-port"; lit "443"] in
  exists st, proof_transparent_args None args = Ok (lit "/s", st) /\ cp_max_udp_flows (to_config st) <> 0.
Proof.
  intros args. destruct (proof_transparent_args None args) as [[socket st]| | |] eqn:E;
    [|vm_compute in E; discriminate E..].
  exists st. split.
  - vm_compute in E. injection E as <- <-. reflexivity.
  - pose proof (proof_transparent_opens_named_ports None args socket st
      (NetworkEvent.Unsupported None Frontend.Tun UnsupportedReason.UnsupportedFragmentation) E) as H. apply H.
Defined.
