(* ===== verification/SetupSocket.v ===== *)
(** * The setup socket ([crates/foxprox-cli/src/main.rs] 1312-1429)

    The Unix socket on which every command of [foxprox] waits for the setup
    helper, the check of its peer and the descriptor it sends.  What a caller may
    do with the socket is an interface, [SetupSteps], so that the launcher and the
    proof commands share the proofs. *)

From S2P Require Import Prelude Text NetAddr Event Policy AuditLog Config Effects Args Os.

(** ** The setup socket *)

Record FileIdentity : Type := mkFileIdentity { fi_device : Z; fi_inode : Z }.

#[export] Instance FileIdentity_eq_dec : EqDecision FileIdentity.
Proof. solve_decision. Defined.

Definition file_identity_from_metadata (metadata : FileMetadata) : FileIdentity :=
  mkFileIdentity (fm_dev metadata) (fm_ino metadata).

Record BoundSetupListener : Type := mkBoundSetupListener {
  bl_listener : Z;
  bl_path : str;
  bl_identity : FileIdentity
}.

(** [0o600]. *)
Definition owner_only : Z := 384.

Definition listener_bind (path : str) : SysIO BoundSetupListener :=
  let! listener := os (OsOp.UnixBind path) in
  let! _ := os (OsOp.SetPermissions path owner_only) in
  let! metadata := os (OsOp.SymlinkMetadata path) in
  Ret (Ok (mkBoundSetupListener listener path (file_identity_from_metadata metadata))).

Definition listener_accept (self : BoundSetupListener) : SysIO Z := os (OsOp.UnixAccept (bl_listener self)).

(** [Drop]: the path is removed when it still is the socket that was bound. *)
Definition listener_drop (self : BoundSetupListener) : Sys unit :=
  let* metadata := os (OsOp.SymlinkMetadata (bl_path self)) in
  match metadata with
  | Ok metadata =>
      if fm_is_socket metadata && bool_decide (file_identity_from_metadata metadata = bl_identity self) then
        let* _ := os (OsOp.RemoveFile (bl_path self)) in Ret tt
      else Ret tt
  | _ => Ret tt
  end.

(** The scope of a listener: it is dropped when the body ends, however it ends. *)
Definition with_listener {A} (path : str) (body : BoundSetupListener -> SysIO A) : SysIO A :=
  let! listener := listener_bind path in
  let* r := body listener in
  let* _ := listener_drop listener in
  Ret r.

Definition verify_peer_credentials (stream : Z) : SysIO unit :=
  let! peer := os (OsOp.PeerCredentials stream) in
  let* uid := os OsOp.GetEuid in
  Ret (if peer =? uid then Ok tt
       else Err (mkIoError IoErrorKind.PermissionDenied
              (lit "setup peer uid " ++ dec peer ++ lit " did not match broker uid " ++ dec uid))).

Fixpoint close_all (fds : list Z) : Sys unit :=
  match fds with
  | [] => Ret tt
  | fd :: fds => let* _ := os (OsOp.CloseFd fd) in close_all fds
  end.

(** The first message with descriptors decides. *)
Fixpoint take_fd (messages : list ControlMessage) : SysIO Z :=
  match messages with
  | [] => Ret (Err (mkIoError IoErrorKind.InvalidData (lit "setup message did not contain a TUN fd")))
  | ScmRights [fd] :: _ => Ret (Ok fd)
  | ScmRights fds :: _ =>
      let* _ := close_all fds in
      Ret (Err (mkIoError IoErrorKind.InvalidData (lit "SCM_RIGHTS message did not contain exactly one fd")))
  | OtherControl :: messages => take_fd messages
  end.

Definition recv_fd (stream : Z) : SysIO Z :=
  let! messages := other (os (OsOp.RecvMsg stream)) in
  take_fd messages.

(** What every command does with its socket: the stream and the descriptor. *)
Definition accept_setup (listener : BoundSetupListener) : SysIO (Z * Z) :=
  let* _ := os OsOp.Message in
  let! stream := listener_accept listener in
  let! _ := verify_peer_credentials stream in
  let! tun_fd := recv_fd stream in
  Ret (Ok (stream, tun_fd)).

(** ** Specification *)

(** Bound, and open to its owner only. *)
Definition socket_bound (path : str) (listener : Z) (h : list (Action Os)) : Prop :=
  answered (OsOp.UnixBind path) (Ok listener) h /\ answered (OsOp.SetPermissions path owner_only) (Ok tt) h.

(** The peer of the stream runs as the same user. *)
Definition peer_trusted (stream : Z) (h : list (Action Os)) : Prop :=
  exists uid, answered (OsOp.PeerCredentials stream) (Ok uid) h /\ answered OsOp.GetEuid uid h.

(** The descriptors of the first message that has any. *)
Fixpoint first_rights (messages : list ControlMessage) : option (list Z) :=
  match messages with
  | [] => None
  | ScmRights fds :: _ => Some fds
  | OtherControl :: messages => first_rights messages
  end.

Definition fd_received (stream fd : Z) (h : list (Action Os)) : Prop :=
  exists messages, answered (OsOp.RecvMsg stream) (Ok messages) h /\ first_rights messages = Some [fd].

Definition accepted (path : str) (stream : Z) (h : list (Action Os)) : Prop :=
  exists listener, socket_bound path listener h /\ answered (OsOp.UnixAccept listener) (Ok stream) h.

(** What every command waits for: a descriptor from a trusted peer of its socket. *)
Definition session (path : str) (stream fd : Z) (h : list (Action Os)) : Prop :=
  accepted path stream h /\ peer_trusted stream h /\ fd_received stream fd h.

(** The file at [path] was looked at last, and is the socket that was bound. *)
Definition still_ours (path : str) (h : list (Action Os)) : Prop :=
  exists h0 m0 m, h = h0 ++ [existT (OsOp.SymlinkMetadata path) (Ok m) : Action Os] /\ fm_is_socket m = true /\
    (exists listener, socket_bound path listener h0) /\
    answered (OsOp.SymlinkMetadata path) (Ok m0) h0 /\
    file_identity_from_metadata m0 = file_identity_from_metadata m.

#[local] Arguments lit : simpl never.

(** The listener holds the socket bound at [path], and its identity. *)
Definition bound_listener (path : str) (listener : BoundSetupListener) (h : list (Action Os)) : Prop :=
  bl_path listener = path /\ socket_bound path (bl_listener listener) h /\
  exists m, answered (OsOp.SymlinkMetadata path) (Ok m) h /\
    file_identity_from_metadata m = bl_identity listener.

#[export] Instance socket_bound_stays path listener : Later (socket_bound path listener).
Proof. unfold socket_bound. apply _. Qed.
#[export] Instance peer_trusted_stays stream : Later (peer_trusted stream).
Proof. unfold peer_trusted. apply _. Qed.
#[export] Instance fd_received_stays stream fd : Later (fd_received stream fd).
Proof. unfold fd_received. apply _. Qed.
#[export] Instance accepted_stays path stream : Later (accepted path stream).
Proof. unfold accepted. apply _. Qed.
#[export] Instance bound_listener_stays path listener : Later (bound_listener path listener).
Proof. unfold bound_listener. apply _. Qed.

#[export] Instance session_stays path stream fd : Later (session path stream fd).
Proof. unfold session. apply _. Qed.

(** ** What the caller allows

    [chosen] is what a caller established before it binds the socket at [path],
    [ready] before it waits for the helper. *)
Class SetupSteps (step : list (Action Os) -> OsOp -> Prop) (path : str) (chosen ready : list (Action Os) -> Prop)
  : Prop := {
  chosen_later :: Later chosen;
  ready_later :: Later ready;
  step_bind h : chosen h -> step h (OsOp.UnixBind path);
  step_permissions h : chosen h -> step h (OsOp.SetPermissions path owner_only);
  step_metadata h : chosen h -> step h (OsOp.SymlinkMetadata path);
  step_remove h : chosen h -> still_ours path h -> step h (OsOp.RemoveFile path);
  step_message h : chosen h -> step h OsOp.Message;
  step_euid h : chosen h -> step h OsOp.GetEuid;
  step_accept h listener : chosen h -> ready h -> socket_bound path listener h -> step h (OsOp.UnixAccept listener);
  step_credentials h stream : chosen h -> accepted path stream h -> step h (OsOp.PeerCredentials stream);
  step_recv h stream : chosen h -> accepted path stream h -> peer_trusted stream h -> step h (OsOp.RecvMsg stream);
  step_close h fd stream messages fds :
    chosen h -> answered (OsOp.RecvMsg stream) (Ok messages) h -> first_rights messages = Some fds ->
    length fds <> 1%nat -> step h (OsOp.CloseFd fd)
}.

(** What a command that only waits for the helper does with its socket. *)
Definition socket_permitted (path : str) (h : list (Action Os)) (o : OsOp) : Prop :=
  match o with
  | OsOp.UnixBind p | OsOp.SymlinkMetadata p => p = path
  | OsOp.SetPermissions p mode => p = path /\ mode = owner_only
  | OsOp.RemoveFile p => p = path /\ still_ours path h
  | OsOp.UnixAccept listener => socket_bound path listener h
  | OsOp.PeerCredentials stream => accepted path stream h
  | OsOp.RecvMsg stream => accepted path stream h /\ peer_trusted stream h
  | OsOp.CloseFd fd =>
      exists stream messages fds, answered (OsOp.RecvMsg stream) (Ok messages) h /\
        first_rights messages = Some fds /\ length fds <> 1%nat
  | OsOp.GetEuid | OsOp.Message => True
  | _ => False
  end.

Lemma socket_steps step path chosen : Later chosen ->
  (forall h o, chosen h -> socket_permitted path h o -> step h o) -> SetupSteps step path chosen (fun _ => True).
Proof.
  intros Hc Hs. split; try apply _; intros h; intros; apply Hs; cbn; try done. by eexists _, _, _.
Qed.

(** ** Lemmas *)

Section socket.
Context {step : list (Action Os) -> OsOp -> Prop} {path : str} {chosen ready : list (Action Os) -> Prop}.
Context {Hsteps : SetupSteps step path chosen ready}.

Lemma listener_bind_wp h : chosen h -> wp step (part (bound_listener path) h) h (listener_bind path).
Proof using Hsteps.
  intros Hp. unfold listener_bind. cbn. split; [by apply step_bind|].
  intros [listener|e| |] Hv; [clear Hv|by split; [auto with foxprox|]|by destruct Hv..].
  cbn. split; [by apply step_permissions, (carry _ Hp); auto with foxprox|].
  intros [[]|e| |] Hv; [clear Hv|by split; [auto with foxprox|]|by destruct Hv..].
  cbn. split; [by apply step_metadata, (carry _ Hp); auto with foxprox|].
  intros [m|e| |] Hv; [clear Hv|by split; [auto with foxprox|]|by destruct Hv..].
  cbn. split; [auto with foxprox|]. split; [done|]. split; [|exists m; split; [apply answered_last|done]].
  split; (eapply answered_later; [|apply answered_last]); auto with foxprox.
Qed.

Lemma listener_drop_wp listener h : chosen h -> bound_listener path listener h ->
  wp step (fun h' _ => continues h h') h (listener_drop listener).
Proof using Hsteps.
  intros Hp (Hpath & Hb & m0 & Hm0 & Hid). unfold listener_drop. rewrite Hpath. cbn.
  split; [by apply step_metadata|].
  intros [m|e| |] Hv; cbn; auto with foxprox.
  destruct (fm_is_socket m && _) eqn:E; cbn; [|auto with foxprox]. to_prop. split; [|intros; auto with foxprox].
  apply step_remove; [by apply (carry _ Hp); auto with foxprox|].
  exists h, m0, m. split_and!; [done..|by eexists|done|congruence].
Qed.

(** ** The peer *)

Lemma verify_peer_wp stream h : chosen h -> accepted path stream h ->
  wp step (part (fun _ => peer_trusted stream) h) h (verify_peer_credentials stream).
Proof using Hsteps.
  intros Hp Ha. unfold verify_peer_credentials. cbn. split; [by apply step_credentials|].
  intros [peer|e| |] Hv; [clear Hv|by split; [auto with foxprox|]|by destruct Hv..].
  cbn. split; [by apply step_euid, (carry _ Hp); auto with foxprox|].
  intros uid _. cbn. split; [auto with foxprox|].
  destruct (Z.eqb_spec peer uid) as [->|]; [|done]. exists uid. split; [|apply answered_last].
  eapply answered_later; [|apply answered_last]. auto with foxprox.
Qed.

Lemma close_all_wp (fds all : list Z) messages stream : forall h, chosen h ->
  answered (OsOp.RecvMsg stream) (Ok messages) h -> first_rights messages = Some all -> length all <> 1%nat ->
  wp step (fun h' _ => continues h h') h (close_all fds).
Proof using Hsteps.
  induction fds as [|fd fds IH]; intros h Hp Hm Hf Hl; cbn [close_all]; [cbn; auto with foxprox|].
  cbn. split; [by eapply step_close|]. intros [] _.
  eapply wp_mono; [done| |apply IH; [| |done|done]].
  - intros h' u Hc. etransitivity; [|exact Hc]. auto with foxprox.
  - by apply (carry _ Hp); auto with foxprox.
  - eapply answered_later; [|exact Hm]. auto with foxprox.
Qed.

Lemma take_fd_wp all stream messages : forall h, chosen h ->
  answered (OsOp.RecvMsg stream) (Ok all) h -> first_rights messages = first_rights all ->
  wp step (part (fun fd h' => fd_received stream fd h') h) h (take_fd messages).
Proof using Hsteps.
  induction messages as [|[fds|] messages IH]; intros h Hp Ha Hf; cbn [take_fd first_rights] in *.
  - cbn. split; [auto with foxprox|done].
  - destruct fds as [|fd [|fd' fds]].
    + cbn. split; [auto with foxprox|done].
    + cbn. split; [auto with foxprox|]. by exists all.
    + apply wp_bind. eapply wp_mono; [done| |by eapply close_all_wp]. intros h' u Hc. by split.
  - by apply IH.
Qed.

Lemma recv_fd_wp stream h : chosen h -> accepted path stream h -> peer_trusted stream h ->
  wp step (part (fun fd h' => fd_received stream fd h') h) h (recv_fd stream).
Proof using Hsteps.
  intros Hp Ha Ht. unfold recv_fd. cbn. split; [by apply step_recv|].
  intros [messages|e| |] Hv; [clear Hv|by split; [auto with foxprox|]|by destruct Hv..]. cbn.
  eapply wp_mono; [done| |eapply take_fd_wp; [|apply answered_last|done]].
  - intros h' [fd|e| |] [Hc H]; try done; (split; [etransitivity; [|exact Hc]; auto with foxprox|done]).
  - by apply (carry _ Hp); auto with foxprox.
Qed.

#[local] Arguments verify_peer_credentials : simpl never.
#[local] Arguments recv_fd : simpl never.

Lemma accept_setup_wp listener h : chosen h -> ready h -> bound_listener path listener h ->
  wp step (part (fun '(stream, fd) h' => session path stream fd h') h) h (accept_setup listener).
Proof using Hsteps.
  intros Hp Hr (_ & Hb & _). unfold accept_setup, listener_accept. cbn.
  split; [by apply step_message|]. intros [] _.
  set (h1 := h ++ _). assert (continues h h1) as H1 by apply continues_snoc.
  cbn. split; [by apply step_accept; eapply carry|].
  intros [stream|e| |] Hv; [clear Hv|by split; [auto with foxprox|]|by destruct Hv..].
  set (h2 := h1 ++ _). assert (continues h h2) as H2 by (by apply continues_step).
  assert (accepted path stream h2) as Ha2.
  { exists (bl_listener listener). split; [by eapply carry|apply answered_last]. }
  eapply sys_part_try; [done|apply verify_peer_wp; [by eapply carry|done]|]. intros [] h3 H3 Ht.
  eapply sys_part_try; [by etransitivity|apply recv_fd_wp; [|by eapply carry|done]|].
  { eapply carry; [exact Hp|]. by etransitivity. }
  intros fd h4 H4 Hfd. assert (continues h h4) as H04 by (etransitivity; [exact H2|]; by etransitivity).
  cbn. split; [done|]. split_and!; [|by eapply carry|done].
  eapply carry; [exact Ha2|]. by etransitivity.
Qed.

(** ** The socket's scope *)

(** A result property that a longer history keeps and that errors have. *)
Lemma with_listener_wp {A} (R : Result A IoError -> list (Action Os) -> Prop) (body : BoundSetupListener -> SysIO A) h :
  (forall r, Later (R r)) -> (forall e h', R (Err e) h') -> chosen h ->
  (forall listener h', continues h h' -> chosen h' -> bound_listener path listener h' ->
     wp step (fun h'' r => continues h' h'' /\ R r h'') h' (body listener)) ->
  wp step (fun h' r => continues h h' /\ R r h') h (with_listener path body).
Proof using Hsteps.
  intros HR HE Hp Hbody. unfold with_listener. apply wp_try.
  eapply wp_mono; [done| |by apply listener_bind_wp].
  intros h1 [listener|e| |] [H1 Hb]; cbv beta iota; try done.
  apply wp_bind. eapply wp_mono; [done| |apply Hbody; [done|by eapply carry|exact Hb]].
  intros h2 r [H2 Hr]. apply wp_bind. assert (continues h h2) as H02 by by etransitivity.
  eapply wp_mono; [done| |apply listener_drop_wp; [by eapply carry|by eapply carry]].
  intros h3 u H3. cbn. split; [by etransitivity|by eapply carry].
Qed.

End socket.
