(* ===== verification/Launcher.v ===== *)
(** * The launcher ([crates/foxprox-cli/src/main.rs] 61-398)

    [foxprox run] as a program over [Os]: the proxy backends, the sandboxed child,
    the setup socket of [SetupSocket] and the broker thread. *)

From S2P Require Import Prelude Text NetAddr Event Policy Flow AuditLog Config.
From S2P Require Import Effects AuditIo Limiter Tcp Udp Combined Proxy Args RunConfig Cli Os Setup SetupSocket.

(** ** Paths of [foxprox run] *)

Definition setup_socket_host_path (config : LauncherConfig) : SysIO str :=
  match lc_setup_socket_host config with
  | Some path => Ret (Ok path)
  | None =>
      let* path := os OsOp.TempDir in
      let* pid := os OsOp.ProcessId in
      Ret (Ok (path_push (path_push path (lit "foxprox-" ++ dec pid)) (lit "setup.sock")))
  end.

Definition setup_helper_host_path (config : LauncherConfig) : SysIO str :=
  match lc_setup_helper_host config with
  | Some path => Ret (Ok path)
  | None =>
      let! path := os OsOp.CurrentExe in
      Ret (Ok (path_set_file_name path (lit "foxproxsetup")))
  end.

(** ** Proxy backends *)

(** The error of [recv_timeout] is the text it displays. *)
Definition start_backend (name : str) (job : ThreadJob) : SysIO SocketAddr :=
  let* channel := os (OsOp.SpawnThread job) in
  let* r := os (OsOp.RecvBackend channel) in
  Ret (match r with
       | Ok r => r
       | Err error =>
           Err (mkIoError IoErrorKind.TimedOut (name ++ lit " proxy backend did not become ready: " ++ error))
       | Panic => Panic
       | OutOfFuel => OutOfFuel
       end).

Definition start_http_proxy_backend (config : HttpProxyProofConfig) : SysIO SocketAddr :=
  start_backend (lit "HTTP") (HttpBackendThread config).
Definition start_socks5_proxy_backend (config : Socks5ProxyProofConfig) : SysIO SocketAddr :=
  start_backend (lit "SOCKS5") (Socks5BackendThread config).

Definition start_http_bridge (config : LauncherConfig) (transparent : CombinedTransparentProofConfig)
  : SysIO CombinedTransparentProofConfig :=
  match lc_http_proxy_port config with
  | Some port =>
      let! backend_addr := start_http_proxy_backend (launcher_http_backend config) in
      let! _ := Ret (validate_http_proxy_backend_loopback backend_addr) in
      Ret (Ok (set_http_bridge config port backend_addr transparent))
  | None => Ret (Ok transparent)
  end.

Definition start_socks5_bridge (config : LauncherConfig) (transparent : CombinedTransparentProofConfig)
  : SysIO CombinedTransparentProofConfig :=
  match lc_socks5_proxy_port config with
  | Some port =>
      let! backend_addr := start_socks5_proxy_backend (launcher_socks5_backend config) in
      let! _ := Ret (validate_proxy_backend_loopback backend_addr) in
      Ret (Ok (set_socks5_bridge config port backend_addr transparent))
  | None => Ret (Ok transparent)
  end.

(** ** The child *)

Definition spawn_bwrap_child (config : LauncherConfig) (target : list str)
  (setup_socket_sandbox setup_socket_dir setup_helper_host : str)
  (http_proxy_port socks5_proxy_port : option Z) : SysIO Z :=
  let! args := Ret (bwrap_command config target setup_socket_sandbox setup_socket_dir setup_helper_host
                      http_proxy_port socks5_proxy_port) in
  let* _ := os OsOp.Message in
  os (OsOp.SpawnCommand (lc_bwrap_program config) args).

Definition child_status_to_result (status : ExitStatus) : Result unit IoError :=
  if es_success status then Ok tt
  else Err (mkIoError IoErrorKind.Other (lit "sandbox target exited with " ++ es_display status)).

(** [n] rounds of the loop. *)
Fixpoint wait_for_child_or_broker (n : nat) (child broker_rx : Z) : SysIO unit :=
  match n with
  | O => Ret OutOfFuel
  | S n =>
      let! status := os (OsOp.ChildTryWait child) in
      match status with
      | Some status => Ret (child_status_to_result status)
      | None =>
          let* r := os (OsOp.TryRecvBroker broker_rx) in
          match r with
          | Ok (Ok _) => Ret (Ok tt)
          | Ok error =>
              let* _ := os (OsOp.ChildKill child) in
              let* _ := os (OsOp.ChildWait child) in
              Ret error
          | Err TryRecvEmpty =>
              let* _ := os (OsOp.SleepFor (from_millis 50)) in
              wait_for_child_or_broker n child broker_rx
          | _ =>
              let* _ := os (OsOp.ChildKill child) in
              let* _ := os (OsOp.ChildWait child) in
              Ret (Err (mkIoError IoErrorKind.Other (lit "broker thread exited without reporting status")))
          end
      end
  end.

(** ** [foxprox run] *)

(** What runs while the setup socket is bound. *)
Definition launch (n : nat) (config : LauncherConfig) (target : list str)
  (setup_socket_sandbox setup_socket_dir setup_helper_host : str) (listener : BoundSetupListener) : SysIO unit :=
  let! transparent := Ret (launcher_base_config config) in
  let! _ := Ret (validate_transparent_proxy_bridge_inputs (lc_transparent_tcp_ports config)
    (lc_http_proxy_port config) loopback_any_port (lc_socks5_proxy_port config) loopback_any_port) in
  let! transparent := start_http_bridge config transparent in
  let! transparent := start_socks5_bridge config transparent in
  let! child := spawn_bwrap_child config target setup_socket_sandbox setup_socket_dir setup_helper_host
                  (lc_http_proxy_port config) (lc_socks5_proxy_port config) in
  let! (stream, tun_fd) := accept_setup listener in
  let* _ := os OsOp.Message in
  let* broker_rx := os (OsOp.SpawnThread (BrokerThread tun_fd stream transparent)) in
  wait_for_child_or_broker n child broker_rx.

Definition run_launcher_config (n : nat) (config : LauncherConfig) (target : list str) : SysIO unit :=
  let! setup_socket_host := setup_socket_host_path config in
  let setup_socket_sandbox := default setup_socket_host (lc_setup_socket_sandbox config) in
  let! setup_socket_dir := Ret (ok_or (path_parent setup_socket_host)
    (invalid_input_error (lit "setup socket path has no parent: " ++ setup_socket_host))) in
  let! _ := os (OsOp.CreateDirAll setup_socket_dir) in
  let! setup_helper_host := setup_helper_host_path config in
  with_listener setup_socket_host
    (launch n config target setup_socket_sandbox setup_socket_dir setup_helper_host).

(** [toml::from_str] is [from_str]. *)
Definition load_launcher_config (from_str : str -> Result RawConfig str) (path : str) : SysIO LauncherConfig :=
  let! contents := os (OsOp.ReadToString path) in
  Ret (parse_launcher_config from_str contents).

Definition run_launcher (n : nat) (from_str : str -> Result RawConfig str) (args : list str) : SysIO unit :=
  let! (config_path, target) := Ret (run_launcher_args args) in
  let! config := load_launcher_config from_str config_path in
  run_launcher_config n config target.

(** ** Specification: what [foxprox run] may do *)

(** The setup socket: as configured, or under the temporary directory. *)
Definition chosen_path (config : LauncherConfig) (path : str) (h : list (Action Os)) : Prop :=
  match lc_setup_socket_host config with
  | Some p => path = p
  | None =>
      exists tmp pid, answered OsOp.TempDir tmp h /\ answered OsOp.ProcessId pid h /\
        path = path_push (path_push tmp (lit "foxprox-" ++ dec pid)) (lit "setup.sock")
  end.

(** A proxy backend with its configuration listens on a loopback address. *)
Definition backend_ready (job : ThreadJob) (addr : SocketAddr) (h : list (Action Os)) : Prop :=
  is_loopback (sa_ip addr) = true /\
  exists channel, answered (OsOp.SpawnThread job) channel h /\
    answered (OsOp.RecvBackend channel) (Ok (Ok addr)) h.

Definition backends_ready (config : LauncherConfig) (a b : SocketAddr) (h : list (Action Os)) : Prop :=
  (lc_http_proxy_port config <> None -> backend_ready (HttpBackendThread (launcher_http_backend config)) a h) /\
  (lc_socks5_proxy_port config <> None -> backend_ready (Socks5BackendThread (launcher_socks5_backend config)) b h).

Definition child_args (config : LauncherConfig) (target : list str) (path helper : str) : Result (list str) IoError :=
  match path_parent path with
  | Some dir =>
      bwrap_command config target (default path (lc_setup_socket_sandbox config)) dir helper
        (lc_http_proxy_port config) (lc_socks5_proxy_port config)
  | None => Panic
  end.

Definition child_spawned (config : LauncherConfig) (target : list str) (path : str) (child : Z)
  (h : list (Action Os)) : Prop :=
  exists helper args, child_args config target path helper = Ok args /\
    answered (OsOp.SpawnCommand (lc_bwrap_program config) args) (Ok child) h.

Definition broker_failed (h : list (Action Os)) : Prop :=
  exists channel, answered (OsOp.TryRecvBroker channel) (Err TryRecvDisconnected) h \/
    exists e, answered (OsOp.TryRecvBroker channel) (Ok (Err e)) h.

Definition launch_permitted (config : LauncherConfig) (target : list str) (h : list (Action Os)) (o : OsOp) : Prop :=
  match o with
  | OsOp.SpawnThread (BrokerThread fd stream c) =>
      exists path child a b, chosen_path config path h /\ session path stream fd h /\
        backends_ready config a b h /\ launched_config config a b = Ok c /\
        child_spawned config target path child h
  | OsOp.SpawnThread (HttpBackendThread c) => c = launcher_http_backend config
  | OsOp.SpawnThread (Socks5BackendThread c) => c = launcher_socks5_backend config
  | OsOp.SpawnCommand program args =>
      program = lc_bwrap_program config /\
      exists path listener helper, chosen_path config path h /\ socket_bound path listener h /\
        child_args config target path helper = Ok args
  | OsOp.CreateDirAll dir => exists path, chosen_path config path h /\ path_parent path = Some dir
  | OsOp.UnixBind path => chosen_path config path h
  | OsOp.SetPermissions path mode => chosen_path config path h /\ mode = owner_only
  | OsOp.UnixAccept listener =>
      exists path child, chosen_path config path h /\ socket_bound path listener h /\
        child_spawned config target path child h
  | OsOp.PeerCredentials stream => exists path, chosen_path config path h /\ accepted path stream h
  | OsOp.RecvMsg stream => exists path, chosen_path config path h /\ accepted path stream h /\ peer_trusted stream h
  | OsOp.CloseFd fd =>
      exists stream messages fds, answered (OsOp.RecvMsg stream) (Ok messages) h /\
        first_rights messages = Some fds /\ length fds <> 1%nat
  | OsOp.RemoveFile path => chosen_path config path h /\ still_ours path h
  | OsOp.ChildKill child =>
      broker_failed h /\ exists path, child_spawned config target path child h
  | OsOp.TempDir | OsOp.ProcessId | OsOp.CurrentExe | OsOp.SymlinkMetadata _ | OsOp.GetEuid | OsOp.Message
  | OsOp.SleepFor _ | OsOp.ChildTryWait _ | OsOp.ChildWait _ | OsOp.TryRecvBroker _ | OsOp.RecvBackend _ => True
  | _ => False
  end.

(** A run that ends well: the target succeeded, or the broker finished. *)
Definition ended_well (h : list (Action Os)) : Prop :=
  (exists child status, answered (OsOp.ChildTryWait child) (Ok (Some status)) h /\ es_success status = true) \/
  exists channel, answered (OsOp.TryRecvBroker channel) (Ok (Ok tt)) h.

(** ** Lemmas *)

#[export] Instance chosen_path_stays config path : Later (chosen_path config path).
Proof. unfold chosen_path. destruct (lc_setup_socket_host config); apply _. Qed.
#[export] Instance backend_ready_stays job addr : Later (backend_ready job addr).
Proof. unfold backend_ready. apply _. Qed.
#[export] Instance backends_ready_stays config a b : Later (backends_ready config a b).
Proof. unfold backends_ready. apply _. Qed.
#[export] Instance child_spawned_stays config target path child : Later (child_spawned config target path child).
Proof. unfold child_spawned. apply _. Qed.
#[export] Instance broker_failed_stays : Later broker_failed.
Proof. unfold broker_failed. apply _. Qed.
#[export] Instance ended_well_stays : Later ended_well.
Proof. unfold ended_well. apply _. Qed.

#[export] Instance launch_setup_steps config target path :
  SetupSteps (launch_permitted config target) path (chosen_path config path)
    (fun h => exists child, child_spawned config target path child h).
Proof.
  split; try apply _; intros h; cbn; try done.
  - intros listener Hp [child Hc] Hb. by exists path, child.
  - intros stream Hp Ha. by exists path.
  - intros stream Hp Ha Ht. by exists path.
  - intros fd stream messages fds _ Hm Hf Hl. by exists stream, messages, fds.
Qed.

#[local] Arguments launch_permitted : simpl never.
#[local] Arguments lit : simpl never.
#[local] Arguments launched_config : simpl never.
#[local] Arguments bwrap_command : simpl never.
#[local] Arguments launcher_http_backend : simpl never.
#[local] Arguments launcher_socks5_backend : simpl never.

(** ** The backends *)

Lemma start_backend_wp (step : list (Action Os) -> OsOp -> Prop) name job h :
  step h (OsOp.SpawnThread job) -> (forall h' channel, continues h h' -> step h' (OsOp.RecvBackend channel)) ->
  wp step (part (fun addr h' => exists channel, answered (OsOp.SpawnThread job) channel h' /\
    answered (OsOp.RecvBackend channel) (Ok (Ok addr)) h') h) h (start_backend name job).
Proof.
  intros Hj Hr. unfold start_backend. cbn. split; [done|]. intros channel _. cbn.
  split; [apply Hr; auto with foxprox|].
  intros [[addr|e| |]|e| |] Hv; cbn; try (by split; [auto with foxprox|]);
    try (destruct Hv as [Hv1 Hv2]; first [done|by destruct (Hv2 _ eq_refl)]).
  split; [auto with foxprox|]. exists channel. split; [|apply answered_last].
  eapply answered_later; [|apply answered_last]. auto with foxprox.
Qed.

Lemma loopback_Ok (addr : SocketAddr) (u : unit) :
  validate_proxy_backend_loopback addr = Ok u -> is_loopback (sa_ip addr) = true.
Proof. unfold validate_proxy_backend_loopback. by destruct (is_loopback _). Qed.

Lemma loopback_returns (addr : SocketAddr) : returns (validate_proxy_backend_loopback addr).
Proof. unfold validate_proxy_backend_loopback. by destruct (is_loopback _). Qed.

Lemma bridge_inputs_returns ports a b c d : returns (validate_transparent_proxy_bridge_inputs ports a b c d).
Proof.
  unfold validate_transparent_proxy_bridge_inputs, validate_http_proxy_backend_loopback, validate_proxy_backend_loopback.
  by repeat case_match; simplify_eq/=.
Qed.

Section launcher.
Context (config : LauncherConfig) (target : list str).

Abbreviation permitted := (launch_permitted config target).

Lemma start_http_bridge_wp transparent h :
  wp permitted (part (fun c h' => exists a,
      (lc_http_proxy_port config <> None -> backend_ready (HttpBackendThread (launcher_http_backend config)) a h') /\
      c = match lc_http_proxy_port config with
          | Some port => set_http_bridge config port a transparent
          | None => transparent
          end) h) h (start_http_bridge config transparent).
Proof.
  unfold start_http_bridge. destruct (lc_http_proxy_port config) as [port|].
  - eapply sys_part_try; [reflexivity|by apply start_backend_wp|]. intros addr h1 H1 Hready.
    unfold validate_http_proxy_backend_loopback. pose proof (loopback_returns addr) as Hret.
    destruct (validate_proxy_backend_loopback addr) as [u|e| |] eqn:E; try done; cbn; (split; [done|]); try done.
    exists addr. split; [|done]. intros _. split; [by eapply loopback_Ok|done].
  - cbn. split; [auto with foxprox|]. by exists loopback_any_port.
Qed.

Lemma start_socks5_bridge_wp transparent h :
  wp permitted (part (fun c h' => exists b,
      (lc_socks5_proxy_port config <> None -> backend_ready (Socks5BackendThread (launcher_socks5_backend config)) b h') /\
      c = match lc_socks5_proxy_port config with
          | Some port => set_socks5_bridge config port b transparent
          | None => transparent
          end) h) h (start_socks5_bridge config transparent).
Proof.
  unfold start_socks5_bridge. destruct (lc_socks5_proxy_port config) as [port|].
  - eapply sys_part_try; [reflexivity|by apply start_backend_wp|]. intros addr h1 H1 Hready.
    pose proof (loopback_returns addr) as Hret.
    destruct (validate_proxy_backend_loopback addr) as [u|e| |] eqn:E; try done; cbn; (split; [done|]); try done.
    exists addr. split; [|done]. intros _. split; [by eapply loopback_Ok|done].
  - cbn. split; [auto with foxprox|]. by exists loopback_any_port.
Qed.

(** ** The child *)

Lemma spawn_child_wp path dir helper listener h :
  chosen_path config path h -> socket_bound path listener h -> path_parent path = Some dir ->
  wp permitted (part (child_spawned config target path) h) h
    (spawn_bwrap_child config target (default path (lc_setup_socket_sandbox config)) dir helper
       (lc_http_proxy_port config) (lc_socks5_proxy_port config)).
Proof.
  intros Hp Hb Hdir. unfold spawn_bwrap_child.
  destruct (bwrap_command _ _ _ _ _ _ _) as [args|e| |] eqn:E; cbn;
    [|by split; [auto with foxprox|]|unfold bwrap_command in E; case_match; done..].
  assert (child_args config target path helper = Ok args) as Hargs by (unfold child_args; by rewrite Hdir).
  split; [done|]. intros [] _. split.
  { split; [done|]. exists path, listener, helper.
    split_and!; [eapply (later (P := chosen_path _ _)); [|exact Hp]|eapply (later (P := socket_bound _ _)); [|exact Hb]|done];
      auto with foxprox. }
  intros [child|e| |] Hv; [clear Hv|by split; [auto with foxprox|]|by destruct Hv..]. cbn.
  split; [auto with foxprox|]. exists helper, args. split; [done|apply answered_last].
Qed.

Lemma wait_wp n path child broker_rx : forall h, child_spawned config target path child h ->
  wp permitted (fun h' r => continues h h' /\ r <> Panic /\ (r = Ok tt -> ended_well h')) h
    (wait_for_child_or_broker n child broker_rx).
Proof.
  induction n as [|n IH]; intros h Hc; cbn [wait_for_child_or_broker]; [cbn; split; [auto with foxprox|done]|].
  cbn. split; [done|].
  intros [[status|]|e| |] Hv; [clear Hv|clear Hv|by split; [auto with foxprox|]|by destruct Hv..].
  - cbn. split; [auto with foxprox|]. unfold child_status_to_result.
    destruct (es_success status) eqn:E; [|done]. split; [done|]. intros _. left. exists child, status.
    split; [apply answered_last|done].
  - cbn. split; [done|]. set (h1 := h ++ _). assert (continues h h1) as H1 by apply continues_snoc.
    assert (child_spawned config target path child h1) as Hc1 by by eapply (later (P := child_spawned _ _ _ _)).
    assert (forall h2 (error : Result unit IoError), continues h h2 -> broker_failed h2 ->
      child_spawned config target path child h2 -> error <> Panic -> error <> Ok tt ->
      wp permitted (fun h' r => continues h h' /\ r <> Panic /\ (r = Ok tt -> ended_well h')) h2
        (let* _ := os (OsOp.ChildKill child) in let* _ := os (OsOp.ChildWait child) in Ret error)) as Hkill.
    { intros h2 error H2 Hf Hc2 He1 He2. cbn. split; [split; [done|by exists path]|]. intros r1 _. cbn.
      split; [done|]. intros r2 _. cbn. split; [auto with foxprox|]. by split. }
    intros [[[]|e| |]|[]| |] Hv; cbn;
      try (destruct Hv as [Hv1 Hv2]; first [done|by destruct (Hv2 _ eq_refl)]).
    + split; [auto with foxprox|]. split; [done|]. intros _. right. exists broker_rx. apply answered_last.
    + apply Hkill; try done; [auto with foxprox| |eapply (later (P := child_spawned _ _ _ _)); [|exact Hc1]; auto with foxprox].
      exists broker_rx. right. exists e. apply answered_last.
    + split; [done|]. intros [] _. eapply wp_mono; [done| |apply IH].
      * intros h' r [Hcont Hr]. split; [etransitivity; [|exact Hcont]; auto with foxprox|done].
      * eapply (later (P := child_spawned _ _ _ _)); [|exact Hc1]. auto with foxprox.
    + apply Hkill; try done; [auto with foxprox| |eapply (later (P := child_spawned _ _ _ _)); [|exact Hc1]; auto with foxprox].
      exists broker_rx. left. apply answered_last.
Qed.

(** ** The whole run *)

(** How a run may end. *)
Definition run_post (h h' : list (Action Os)) (r : Result unit IoError) : Prop :=
  continues h h' /\ r <> Panic /\ (r = Ok tt -> ended_well h').

Lemma run_part {A} (P : A -> list (Action Os) -> Prop) (p : SysIO A) (k : A -> SysIO unit) h0 h :
  continues h0 h -> wp permitted (part P h) h p ->
  (forall x h', continues h h' -> P x h' -> wp permitted (run_post h0) h' (k x)) ->
  wp permitted (run_post h0) h (prog_try p k).
Proof.
  intros Hc Hp Hk. apply wp_try. eapply wp_mono; [done| |exact Hp].
  intros h' [x|e| |] [Hc' HP]; cbn; try done; [by apply Hk|]. split; [by etransitivity|done].
Qed.

(** A check that does no call. *)
Lemma run_check {A} (r : Result A IoError) (k : A -> SysIO unit) h0 h :
  continues h0 h -> r <> Panic -> (forall x, r = Ok x -> wp permitted (run_post h0) h (k x)) ->
  wp permitted (run_post h0) h (prog_try (Ret r) k).
Proof. intros Hc Hr Hk. destruct r as [x|e| |]; cbn; [by apply Hk|by split|done|by split]. Qed.

#[local] Arguments start_http_bridge : simpl never.
#[local] Arguments start_socks5_bridge : simpl never.
#[local] Arguments spawn_bwrap_child : simpl never.
#[local] Arguments accept_setup : simpl never.
#[local] Arguments verify_peer_credentials : simpl never.
#[local] Arguments recv_fd : simpl never.
#[local] Arguments wait_for_child_or_broker : simpl never.

Hypothesis Hports : lc_transparent_tcp_ports config <> [].

Lemma launch_wp n path dir helper listener h : chosen_path config path h -> bound_listener path listener h ->
  path_parent path = Some dir ->
  wp permitted (run_post h) h
    (launch n config target (default path (lc_setup_socket_sandbox config)) dir helper listener).
Proof using Hports.
  intros Hp Hb Hdir. unfold launch.
  assert (exists base, launcher_base_config config = Ok base) as [base Hbase].
  { unfold launcher_base_config. destruct (lc_transparent_tcp_ports config); [done|by eexists]. }
  rewrite Hbase. cbn [prog_try prog_bind].
  apply run_check; [reflexivity| |intros _ _].
  { intros E. by pose proof (bridge_inputs_returns (lc_transparent_tcp_ports config) (lc_http_proxy_port config)
      loopback_any_port (lc_socks5_proxy_port config) loopback_any_port) as Hr; rewrite E in Hr. }
  eapply run_part; [reflexivity|apply start_http_bridge_wp|]. intros c1 h1 H1 (a & Ha & Hc1).
  eapply run_part; [done|apply start_socks5_bridge_wp|]. intros c2 h2 H2 (b & Hbk & Hc2).
  assert (continues h h2) as H02 by by etransitivity.
  assert (launched_config config a b = Ok c2) as Hlaunched.
  { unfold launched_config. rewrite Hbase. cbn [result_bind]. by rewrite Hc2, Hc1. }
  assert (backends_ready config a b h2) as Hready.
  { split; [|done]. intros Hs. eapply (later (P := backend_ready _ _)); [exact H2|auto]. }
  assert (chosen_path config path h2) as Hp2 by by eapply (later (P := chosen_path _ _)).
  assert (bound_listener path listener h2) as Hb2 by by eapply (later (P := bound_listener _ _)).
  eapply run_part; [done|eapply spawn_child_wp; [done|apply Hb2|done]|]. intros child h3 H3 Hchild.
  eapply run_part; [by etransitivity|apply (accept_setup_wp (path := path)); [|by exists child|]; by eapply carry|].
  intros [stream fd] h4 H4 Hsession. assert (continues h2 h4) as H24 by by etransitivity.
  cbn. split; [done|]. intros [] _. set (h5 := h4 ++ _). assert (continues h4 h5) as H5 by apply continues_snoc.
  assert (continues h2 h5) as H25 by by etransitivity. assert (continues h h5) as H05 by by etransitivity.
  split.
  { exists path, child, a, b. split_and!; try done; (eapply carry; [eassumption|]); first [eassumption|by etransitivity]. }
  intros broker_rx _.
  eapply wp_mono; [done| |eapply wait_wp, carry; [exact Hchild|apply continues_step; by etransitivity]].
  intros h' r [Hc Hr]. split; [etransitivity; [apply continues_step; exact H05|exact Hc]|exact Hr].
Qed.

Lemma bound_launch_wp n path dir helper h : chosen_path config path h -> path_parent path = Some dir ->
  wp permitted (run_post h) h
    (with_listener path (launch n config target (default path (lc_setup_socket_sandbox config)) dir helper)).
Proof using Hports.
  intros Hp Hdir. apply (with_listener_wp (fun r h => r <> Panic /\ (r = Ok tt -> ended_well h))); try done.
  - intros r. apply _.
  - intros listener h1 H1 Hp1 Hb. by apply launch_wp.
Qed.

Lemma socket_path_wp h :
  wp permitted (part (chosen_path config) h) h (setup_socket_host_path config).
Proof.
  unfold setup_socket_host_path, chosen_path. destruct (lc_setup_socket_host config) as [p|].
  - cbn. by split; [auto with foxprox|].
  - cbn. split; [done|]. intros tmp _. split; [done|]. intros pid _. split; [auto with foxprox|].
    exists tmp, pid. split_and!; [|apply answered_last|done].
    eapply answered_later; [|apply answered_last]. auto with foxprox.
Qed.

Lemma helper_path_wp h : wp permitted (part (fun _ _ => True) h) h (setup_helper_host_path config).
Proof.
  unfold setup_helper_host_path. destruct (lc_setup_helper_host config) as [p|].
  - cbn. by split; [auto with foxprox|].
  - cbn. split; [done|]. intros [p|e| |] Hv; cbn; try (by destruct Hv); by split; [auto with foxprox|].
Qed.

Lemma run_launcher_config_wp n h :
  wp permitted (run_post h) h (run_launcher_config n config target).
Proof using Hports.
  unfold run_launcher_config.
  eapply run_part; [reflexivity|apply socket_path_wp|]. intros path h1 H1 Hp.
  apply run_check; [done|by destruct (path_parent path)|]. intros dir Hdir.
  destruct (path_parent path) as [d|] eqn:Epar; [|done]. injection Hdir as ->.
  cbn [os perform prog_try prog_bind wp]. split; [by exists path|].
  intros [[]|e| |] Hv; [clear Hv|split; [by apply continues_step|done]|by destruct Hv..].
  set (h2 := h1 ++ _). assert (continues h1 h2) as H2 by apply continues_snoc.
  eapply run_part; [by etransitivity|apply helper_path_wp|]. intros helper h3 H3 _.
  eapply wp_mono; [done| |apply bound_launch_wp; [|exact Epar]].
  - intros h4 r (H4 & Hr). split; [etransitivity; [exact H1|]; etransitivity; [exact H2|]; by etransitivity|exact Hr].
  - eapply (later (P := chosen_path _ _)); [|exact Hp]. by etransitivity.
Qed.
End launcher.

(** ** Properties *)

(** [C15] The launcher trusts what it should: whatever the system, the child and the
    peers do, [foxprox run] starts the broker only on a descriptor that came, alone
    in its message, over a connection accepted on its own setup socket, which is
    open to its owner only, from a process of the same user; only with
    backends that hold the policy of the file and listen on loopback; and with exactly
    the configuration [launched_config].  It starts only the configured [bwrap]
    command, reads no descriptor from an untrusted peer, kills only its child and only when the broker failed, and
    removes the socket only if it still is the file it bound.  It reports
    success only when the target succeeded or the broker finished, and panics only in an
    [eprintln!] whose stderr fails or a [thread::spawn] without a thread. *)
Theorem launcher_trusts_its_peer (config : LauncherConfig) (target : list str) (n : nat) (env : Env Os) :
  launcher_wf config -> env_ok env ->
  let '(e, h) := run env [] (run_launcher_config n config target) in
  steps_ok (launch_permitted config target) [] h /\
  match e with
  | Finished r => r <> Panic /\ (r = Ok tt -> ended_well h)
  | PanickedIn o => o = OsOp.Message \/ exists job, o = OsOp.SpawnThread job
  end.
Proof.
  intros (_ & Hports & _) Henv.
  pose proof (wp_run _ _ env _ [] Henv (run_launcher_config_wp config target Hports n [])) as H.
  destruct (run env [] (run_launcher_config n config target)) as [e h].
  destruct H as [(t & E & Hs) He]. cbn in E. subst h. split; [exact Hs|]. destruct e as [r|o]; [by destruct He as [_ Hr]|].
  destruct He as [Hp Ho]. destruct o; try discriminate Hp; try (by destruct Ho); [right; by eexists|by left].
Qed.

(** On a system where every call succeeds the broker starts and the run ends well. *)
Lemma launcher_trusts_its_peer_witness :
  let '(e, h) := run (answering obliging_os) [] (run_launcher_config 1 plain_config [lit "curl"]) in
  e = Finished (Ok tt) /\ ended_well h /\
  existsb (fun e => match projT1 e with OsOp.SpawnThread (BrokerThread _ _ _) => true | _ => false end) h = true.
Proof.
  pose proof (launcher_trusts_its_peer plain_config [lit "curl"] 1 (answering obliging_os)) as H.
  assert (launcher_wf plain_config) as Hw.
  { apply (try_into_launcher_Ok raw_config_default). vm_compute. reflexivity. }
  specialize (H Hw (answering_ok _ obliging_os_ok)). rewrite run_answering in *.
  assert (fst (replay obliging_os [] (run_launcher_config 1 plain_config [lit "curl"])) = Ok tt) as Hr
    by (vm_compute; reflexivity).
  assert (existsb (fun e => match projT1 e with OsOp.SpawnThread (BrokerThread _ _ _) => true | _ => false end)
    (snd (replay obliging_os [] (run_launcher_config 1 plain_config [lit "curl"]))) = true) as He
    by (vm_compute; reflexivity).
  destruct (replay obliging_os [] (run_launcher_config 1 plain_config [lit "curl"])) as [r h]. cbn [fst snd] in *.
  split; [by rewrite Hr|]. split; [exact (proj2 (proj2 H) Hr)|exact He].
Defined.

(** ** The launcher and the setup helper *)

Lemma length_dec_byte (b : byte) : (length (dec (u8_val b)) <= 3)%nat.
Proof. apply Nat.leb_le. revert b. by_bytes. Qed.

Lemma length_ipv4_display (a : Z) : (length (ipv4_display a) <= 15)%nat.
Proof.
  unfold ipv4_display, ipv4_octets. pose proof (length_be_bytes 4 a) as Hl.
  destruct (be_bytes 4 a) as [|b0 [|b1 [|b2 [|b3 [|]]]]]; try done. cbn [map join].
  pose proof (length_dec_byte b0). pose proof (length_dec_byte b1). pose proof (length_dec_byte b2).
  pose proof (length_dec_byte b3). rewrite !length_app. change (length (lit ".")) with 1%nat. lia.
Qed.

Lemma parse_ipv4_display (a : Z) : 0 <= a <= u32_max -> parse_value ipv4_from_str (ipv4_display a) = Ok a.
Proof.
  intros Ha. unfold parse_value, ipv4_from_str, parse_ipv4.
  rewrite (proj2 (Nat.ltb_ge _ _) (length_ipv4_display a)).
  pose proof (parse_ipv4_text a [] I Ha) as H. rewrite app_nil_r in H. by rewrite H.
Qed.

Lemma parse_uint_text (max n : Z) : 0 <= n <= max -> max <= u64_max -> parse_value (uint_from_str max) (dec n) = Ok n.
Proof.
  intros Hn Hm. unfold parse_value, uint_from_str. rewrite parse_uint_dec; [done..|]. unfold u64_max in Hm. lia.
Qed.

(** What the helper should read. *)
Definition expected_setup (config : LauncherConfig) (target : list str) (setup_socket_sandbox : str)
  (http_proxy_port socks5_proxy_port : option Z) : SetupArgs :=
  let url scheme port := proxy_url scheme (lc_broker_ip config) port in
  let env :=
    if lc_inject_proxy_env config then
      mkProxyEnv (url (lit "http") <$> http_proxy_port) (url (lit "http") <$> http_proxy_port)
        (url (lit "socks5h") <$> socks5_proxy_port) (lc_no_proxy config)
    else mkProxyEnv None None None None in
  mkSetupArgs setup_socket_sandbox (lc_ifname config) (lc_sandbox_ip config) (lc_prefix_len config)
    (lc_broker_ip config) (lc_mtu config) (lc_resolv_conf config) (lc_keep_cap_net_raw config) env target.

(** Decides which arm of the helper's option loop a flag takes. *)
Ltac setup_arm_of_flag :=
  cbv beta iota delta [setup_arm];
  repeat match goal with
  | |- context [bool_decide (lit ?a = lit ?b)] =>
      let v := eval vm_compute in (bool_decide (lit a = lit b)) in
      change (bool_decide (lit a = lit b)) with v
  end; reflexivity.

(** One option of the helper, whose value [parsed] reads. *)
Ltac setup_option parsed :=
  erewrite parse_options_value; [|setup_arm_of_flag|apply parsed].

Lemma as_given_ok (v : str) : as_given v = Ok v.
Proof. done. Qed.

Ltac rest_of_options :=
  repeat first
    [ setup_option as_given_ok
    | erewrite parse_options_switch; [|setup_arm_of_flag]
    | erewrite parse_options_rest; [|setup_arm_of_flag] ].

(** [C18] The helper reads what the launcher writes: in the [bwrap] command line the
    arguments after the helper's path parse, whatever is in its environment, to the
    setup socket, interface, addresses, prefix, MTU, resolver file, capability flag,
    proxy variables and target of the configuration. *)
Theorem setup_reads_launcher_options (config : LauncherConfig) (target : list str)
  (socket dir helper : str) (http_proxy_port socks5_proxy_port : option Z) (args : list str) (socket_env : option str) :
  0 <= lc_sandbox_ip config <= u32_max -> 0 <= lc_broker_ip config <= u32_max ->
  0 <= lc_prefix_len config <= 255 -> 0 <= lc_mtu config <= u16_max -> target <> [] ->
  bwrap_command config target socket dir helper http_proxy_port socks5_proxy_port = Ok args ->
  exists pre setup, args = pre ++ lit "--" :: lit "/.foxprox-setup/foxproxsetup" :: setup /\
    setup_parse_args socket_env setup =
    Ok (expected_setup config target socket http_proxy_port socks5_proxy_port).
Proof.
  intros Hsandbox Hbroker Hprefix Hmtu Htarget Hargs.
  unfold bwrap_command in Hargs. case_match; [done|]. assert (forall x y : list str, @Ok _ IoError x = Ok y -> y = x) as Hinv by congruence.
  apply Hinv in Hargs as ->.
  exists (default default_bwrap_args (lc_bwrap_args config)
    ++ [lit "--bind"; dir; dir; lit "--dir"; lit "/.foxprox-setup"; lit "--ro-bind"; helper;
        lit "/.foxprox-setup/foxproxsetup"]), (setup_options config socket http_proxy_port socks5_proxy_port ++ lit "--" :: target).
  split; [generalize (setup_options config socket http_proxy_port socks5_proxy_port); intros o;
    etransitivity; [|apply app_assoc]; reflexivity|].
  unfold setup_parse_args, setup_options, setup_options_new. rewrite <- !app_assoc. cbn [app].
  setup_option as_given_ok. setup_option as_given_ok.
  setup_option (parse_ipv4_display _ Hsandbox). setup_option (parse_uint_text 255 _ Hprefix ltac:(done)).
  setup_option (parse_ipv4_display _ Hbroker). setup_option (parse_uint_text u16_max _ Hmtu ltac:(done)).
  setup_option as_given_ok.
  unfold expected_setup.
  destruct (lc_keep_cap_net_raw config), (lc_inject_proxy_env config), http_proxy_port as [hp|],
    socks5_proxy_port as [sp|], (lc_no_proxy config) as [np|]; cbn [app]; rest_of_options;
    cbn [result_bind so_target app]; by rewrite (bool_decide_eq_false_2 _ Htarget).
Qed.

(** The command line of the default configuration. *)
Lemma setup_reads_launcher_options_witness :
  exists args pre setup,
    bwrap_command plain_config [lit "curl"] (lit "/tmp/s") (lit "/tmp") (lit "/usr/bin/foxproxsetup")
      (Some 8080) None = Ok args /\
    args = pre ++ lit "--" :: lit "/.foxprox-setup/foxproxsetup" :: setup /\
    setup_parse_args None setup = Ok (expected_setup plain_config [lit "curl"] (lit "/tmp/s") (Some 8080) None).
Proof.
  destruct (bwrap_command plain_config [lit "curl"] (lit "/tmp/s") (lit "/tmp") (lit "/usr/bin/foxproxsetup")
    (Some 8080) None) as [args| | |] eqn:E; [|by vm_compute in E..].
  exists args.
  destruct (setup_reads_launcher_options plain_config [lit "curl"] (lit "/tmp/s") (lit "/tmp")
    (lit "/usr/bin/foxproxsetup") (Some 8080) None args None) as (pre & setup & H); try done.
  by exists pre, setup.
Defined.
