(* ===== verification/Icmp.v ===== *)
(** * The ICMP proof ([crates/foxprox-cli/src/main.rs] 400-523, 1213-1310)

    [foxprox proof-icmp]: a packet loop on the main thread that answers echo
    requests for one address and records what it answers and what it drops. *)

From S2P Require Import Prelude Text NetAddr Event Policy Flow AuditLog Config Device.
From S2P Require Import Effects AuditIo Args Cli Os SetupSocket.

(** ** Arguments *)

Definition audit_buffer (capacity : Z) : Result AuditBuffer IoError :=
  if capacity =? 0 then Err (invalid_input_error (lit "audit queue capacity must be non-zero"))
  else Ok (audit_buffer_new capacity).

Record IcmpOptions : Type := mkIcmpOptions {
  io_setup_socket : option str;
  io_local_ip : Z;
  io_audit : AuditBuffer
}.

Definition icmp_arm (st : IcmpOptions) (arg : str) : Arm IcmpOptions :=
  let '(mkIcmpOptions socket local_ip audit) := st in
  if bool_decide (arg = lit "--setup-socket") then
    valued arg as_given (fun v => mkIcmpOptions (Some v) local_ip audit)
  else if bool_decide (arg = lit "--local-ip") then
    valued arg parse_ipv4_addr (fun v => mkIcmpOptions socket v audit)
  else if bool_decide (arg = lit "--audit-queue-capacity") then
    valued arg (fun value => let? capacity := parse_nonzero_usize value in audit_buffer capacity)
      (fun v => mkIcmpOptions socket local_ip v)
  else other_argument usage arg.

(** The setup socket, the address and the audit buffer. *)
Definition proof_icmp_args (socket_env : option str) (args : list str) : Result (str * Z * AuditBuffer) IoError :=
  let? audit := audit_buffer 8192 in
  let? st := parse_options icmp_arm (mkIcmpOptions socket_env (ipv4_new 10 255 0 1) audit) args in
  let? setup_socket := setup_socket_of (io_setup_socket st) in
  Ok (setup_socket, io_local_ip st, io_audit st).

(** ** Audit *)

Definition icmp_sandbox_id : SandboxId := mkSandboxId (lit "proof-icmp").

Definition emit_raw_cli_audit (audit : AuditBuffer) (event : AuditEvent) : AuditIO unit := record_event event audit.

Definition icmp_lifecycle_event (now : SystemTime) (sandbox_id : SandboxId) (kind : AuditEventKind) (local_ip : Z)
  : AuditEvent :=
  let event := with_sandbox_id (audit_event_new now Frontend.Tun kind) sandbox_id in
  let event := set_ae_protocol (Some Protocol.Icmp) event in
  let event := set_ae_destination (Some (mkEndpoint (V4 local_ip) 0)) event in
  set_ae_detail (Some (lit "icmp proof local_ip=" ++ ipv4_display local_ip)) event.

Definition emit_icmp_lifecycle_audit (audit : AuditBuffer) (sandbox_id : SandboxId) (kind : AuditEventKind)
  (local_ip : Z) : AuditIO unit :=
  let* time := now in
  emit_raw_cli_audit audit (icmp_lifecycle_event time sandbox_id kind local_ip).

Definition icmp_audit_event (now : SystemTime) (event : NetworkEvent) (decision : Decision) : AuditEvent :=
  let kind := match event with
              | NetworkEvent.IcmpMessage _ _ _ _ _ => AuditEventKind.IcmpMessage
              | NetworkEvent.Unsupported _ _ _ => AuditEventKind.UnsupportedDenied
              | _ => AuditEventKind.BrokerError
              end in
  let audit := with_decision (audit_event_new now Frontend.Tun kind) decision in
  let audit := match event_sandbox_id event with
               | Some sandbox_id => with_sandbox_id audit sandbox_id
               | None => audit
               end in
  let audit := set_ae_protocol (Some (event_protocol event)) audit in
  match event with
  | NetworkEvent.IcmpMessage _ source destination ty code =>
      set_ae_detail (Some (lit "icmp type=" ++ dec ty ++ lit " code=" ++ dec code))
        (set_ae_destination (Some (mkEndpoint destination 0)) (set_ae_source (Some (mkEndpoint source 0)) audit))
  | NetworkEvent.Unsupported _ _ reason => set_ae_detail (Some (debug_unsupported_reason reason)) audit
  | _ => audit
  end.

Definition emit_icmp_audit (audit : AuditBuffer) (event : NetworkEvent) (decision : Decision) : AuditIO unit :=
  let* time := now in
  record_event (icmp_audit_event time event decision) audit.

(** ** The loop *)

(** The lines about a packet; the parsers return (see [Totality]). *)
Definition report_packet (packet : list byte) : Sys unit :=
  match parse_ipv4_metadata packet with
  | Ok ipv4 =>
      let* _ := os OsOp.Message in
      match parse_icmpv4_metadata packet ipv4 with
      | Ok _ => os OsOp.Message
      | _ => Ret tt
      end
  | _ => Ret tt
  end.

(** The record of an answer. *)
Definition audit_reply (audit : AuditBuffer) (packet : list byte) : Sys (AuditBuffer * Result unit IoError) :=
  match parse_ipv4_metadata packet with
  | Ok ipv4 =>
      match parse_icmpv4_metadata packet ipv4 with
      | Ok icmp =>
          on_host (emit_icmp_audit audit (icmp_event icmp_sandbox_id ipv4 icmp) (decision_allow (lit "proof-icmp-echo")))
      | _ => Ret (audit, Ok tt)
      end
  | _ => Ret (audit, Ok tt)
  end.

(** One packet; [Ok] goes on with the next. *)
Definition handle_icmp_packet (audit : AuditBuffer) (local_ip tun : Z) (packet : list byte)
  : Sys (AuditBuffer * Result unit IoError) :=
  let* _ := report_packet packet in
  match synthesize_icmpv4_echo_reply packet local_ip with
  | Ok reply =>
      let* (audit, r) := audit_reply audit packet in
      match r with
      | Ok _ =>
          let* r := os (OsOp.WriteAll tun reply) in
          match r with
          | Ok _ => let* _ := os OsOp.Message in Ret (audit, Ok tt)
          | r => Ret (audit, r)
          end
      | _ => let* _ := os OsOp.Message in Ret (audit, Ok tt)
      end
  | Err reason =>
      let* (audit, r) := on_host (emit_icmp_audit audit (unsupported_event_for_drop (Some icmp_sandbox_id) reason)
                                    (decision_default_deny DecisionAction.FailClosed)) in
      let* _ := os OsOp.Message in
      Ret (audit, Ok tt)
  | Panic => Ret (audit, Panic)
  | OutOfFuel => Ret (audit, OutOfFuel)
  end.

(** [n] packets. *)
Fixpoint icmp_loop (n : nat) (audit : AuditBuffer) (local_ip tun : Z) : SysIO unit :=
  match n with
  | O => Ret OutOfFuel
  | S n =>
      let! packet := os (OsOp.Read tun 4096) in
      if bool_decide (packet = []) then
        Ret (Err (mkIoError IoErrorKind.UnexpectedEof (lit "TUN fd reached EOF")))
      else
        let* (audit, r) := handle_icmp_packet audit local_ip tun packet in
        let! _ := Ret r in
        icmp_loop n audit local_ip tun
  end.

(** A fallible step of [proof_icmp] that hands the audit buffer on. *)
Definition icmp_try (p : AuditIO unit) (k : AuditBuffer -> SysIO unit) : SysIO unit :=
  let* (audit, r) := on_host p in
  let! _ := Ret r in
  k audit.

Definition icmp_session (n : nat) (audit : AuditBuffer) (local_ip stream tun : Z) : SysIO unit :=
  icmp_try (emit_icmp_lifecycle_audit audit icmp_sandbox_id AuditEventKind.SessionStarted local_ip) (fun audit =>
  icmp_try (emit_icmp_lifecycle_audit audit icmp_sandbox_id AuditEventKind.BrokerStarted local_ip) (fun audit =>
  icmp_try (emit_icmp_lifecycle_audit audit icmp_sandbox_id AuditEventKind.TunConfigured local_ip) (fun audit =>
  let! _ := os (OsOp.WriteAll stream (lit "ready" ++ [x0a])) in
  let* _ := os OsOp.Message in
  icmp_loop n audit local_ip tun))).

Definition proof_icmp (n : nat) (args : list str) : SysIO unit :=
  let* socket_env := os (OsOp.EnvVar (lit "FOXPROX_SETUP_SOCKET")) in
  let! (setup_socket, local_ip, audit) := Ret (proof_icmp_args socket_env args) in
  with_listener setup_socket (fun listener =>
    let! (stream, tun_fd) := accept_setup listener in
    icmp_session n audit local_ip stream tun_fd).

(** ** Specification: what the command may do *)

(** The arguments in force. *)
Definition icmp_started (argv : list str) (path : str) (local_ip : Z) (h : list (Action Os)) : Prop :=
  exists socket_env audit, answered (OsOp.EnvVar (lit "FOXPROX_SETUP_SOCKET")) socket_env h /\
    proof_icmp_args socket_env argv = Ok (path, local_ip, audit).

(** The line of an event is in the log. *)
Definition logged (event : AuditEvent) (h : list (Action Os)) : Prop :=
  answered (OsOp.OnHost (HostOp.StderrWriteAll (audit_event_json_line event))) (Ok tt) h.

Definition lifecycle_logged (local_ip : Z) (h : list (Action Os)) : Prop :=
  Forall (fun kind => exists time, logged (icmp_lifecycle_event time icmp_sandbox_id kind local_ip) h)
    [AuditEventKind.SessionStarted; AuditEventKind.BrokerStarted; AuditEventKind.TunConfigured].

(** The packet is an echo request, and the log says that it is answered. *)
Definition answer_logged (packet : list byte) (h : list (Action Os)) : Prop :=
  exists ipv4 icmp time, parse_ipv4_metadata packet = Ok ipv4 /\ parse_icmpv4_metadata packet ipv4 = Ok icmp /\
    ic_ty icmp = ICMPV4_ECHO_REQUEST /\ ic_code icmp = 0 /\
    logged (icmp_audit_event time (icmp_event icmp_sandbox_id ipv4 icmp)
              (decision_allow (lit "proof-icmp-echo"))) h.

(** Calls that reach neither the descriptor nor the peer. *)
Definition internal (o : OsOp) : bool :=
  match o with
  | OsOp.OnHost _ | OsOp.Message => true
  | _ => false
  end.

(** [reply] is due: the last thing that happened on [tun] is that a packet was
    read to which it is the reply, and since then the answer was logged. *)
Definition reply_due (local_ip tun : Z) (reply : list byte) (h : list (Action Os)) : Prop :=
  exists h1 packet h2, h = h1 ++ [existT (OsOp.Read tun 4096) (Ok packet) : Action Os] ++ h2 /\
    synthesize_icmpv4_echo_reply packet local_ip = Ok reply /\ answer_logged packet h2 /\
    Forall (fun e => internal (projT1 e) = true) h2.

Definition icmp_acts (path : str) (local_ip : Z) (h : list (Action Os)) (o : OsOp) : Prop :=
  match o with
  | OsOp.OnHost o => audit_op o = true /\ exists stream tun, session path stream tun h
  | OsOp.Read tun max => max = 4096%nat /\ lifecycle_logged local_ip h /\ exists stream, session path stream tun h
  | OsOp.WriteAll fd bytes =>
      (bytes = lit "ready" ++ [x0a] /\ lifecycle_logged local_ip h /\ exists tun, session path fd tun h) \/
      (reply_due local_ip fd bytes h /\ exists stream, session path stream fd h)
  | _ => socket_permitted path h o
  end.

Definition icmp_permitted (argv : list str) (h : list (Action Os)) (o : OsOp) : Prop :=
  match o with
  | OsOp.EnvVar name => name = lit "FOXPROX_SETUP_SOCKET"
  | _ => exists path local_ip, icmp_started argv path local_ip h /\ icmp_acts path local_ip h o
  end.

(** ** Lemmas *)

#[export] Instance icmp_started_stays argv path local_ip : Later (icmp_started argv path local_ip).
Proof. unfold icmp_started. apply _. Qed.
#[export] Instance logged_stays event : Later (logged event).
Proof. unfold logged. apply _. Qed.
#[export] Instance lifecycle_logged_stays local_ip : Later (lifecycle_logged local_ip).
Proof. unfold lifecycle_logged. apply _. Qed.
#[export] Instance answer_logged_stays packet : Later (answer_logged packet).
Proof. unfold answer_logged. apply _. Qed.

#[export] Instance icmp_setup_steps argv path local_ip :
  SetupSteps (icmp_permitted argv) path (icmp_started argv path local_ip) (fun _ => True).
Proof.
  apply socket_steps; [apply _|]. intros h o Hs Ho.
  destruct o; try done; exists path, local_ip; (split; [exact Hs|exact Ho]).
Qed.

#[local] Arguments lit : simpl never.
#[local] Arguments icmp_permitted : simpl never.
#[local] Arguments audit_event_json_line : simpl never.
#[local] Arguments icmp_audit_event : simpl never.
#[local] Arguments icmp_lifecycle_event : simpl never.

(** What one record adds to a history. *)
Lemma record_on_host_wp (step : list (Action Os) -> OsOp -> Prop) (event : SystemTime -> AuditEvent)
  (audit : AuditBuffer) h :
  (forall h' o, continues h h' -> audit_op o = true -> step h' (OsOp.OnHost o)) ->
  wp step (fun h' '(_, r) => returns r /\ exists t, h' = h ++ t /\
      Forall (fun e => internal (projT1 e) = true) t /\ (r = Ok tt -> exists time, logged (event time) t)) h
    (on_host (let* time := now in record_event (event time) audit)).
Proof.
  intros Hs. eapply wp_mono; [done| |apply (on_host_wp (fun _ o => audit_op o = true)
    (step) (fun t '(_, r) => returns r /\ (r = Ok tt -> exists time,
       happened (HostOp.StderrWriteAll (audit_event_json_line (event time))) (Ok tt) t)) _ [])].
  - intros h' [audit' r] (t & -> & Hr & Hl). split; [done|]. exists (map host_action t). split_and!; [done| |].
    + clear. induction t; by constructor.
    + intros E. destruct (Hl E) as [time Ht]. exists time. by apply host_action_In.
  - intros t o Ho. apply Hs; [by eexists|done].
  - cbn. split; [done|]. intros time _.
    eapply (wp_post (fun _ o => audit_op o = true)); [by apply (record_event_wp audit_op (fun _ o => audit_op o = true))|].
    intros t [audit' r] (Hr & _ & Hl). split; [done|]. intros ->. exists time. by apply (Hl tt).
Qed.

(** What an answer adds to the history: the log of the packet it answers. *)
Lemma audit_reply_wp (step : list (Action Os) -> OsOp -> Prop) (audit : AuditBuffer) (packet : list byte)
  (local_ip : Z) (reply : list byte) h :
  (forall h' o, continues h h' -> audit_op o = true -> step h' (OsOp.OnHost o)) ->
  synthesize_icmpv4_echo_reply packet local_ip = Ok reply ->
  wp step (fun h' '(_, r) => returns r /\ exists t, h' = h ++ t /\
      Forall (fun e => internal (projT1 e) = true) t /\ (r = Ok tt -> answer_logged packet t)) h
    (audit_reply audit packet).
Proof.
  intros Hs Hreply. unfold audit_reply. apply synthesize_Ok_inv in Hreply as (ipv4 & Hm & Ha). rewrite Hm.
  destruct (answerable_icmp _ _ _ Hm Ha) as (icmp & Hi & Hty & Hcode). rewrite Hi.
  unfold emit_icmp_audit.
  eapply wp_mono; [done| |by apply (record_on_host_wp _ (fun time => icmp_audit_event time _ _))].
  intros h' [audit' r] (Hr & t & -> & Ht & Hl). split; [done|]. exists t. split_and!; [done|done|].
  intros E. destruct (Hl E) as [time Hlog]. by exists ipv4, icmp, time.
Qed.

(** Lines about a packet are messages. *)
Lemma report_packet_wp (step : list (Action Os) -> OsOp -> Prop) (packet : list byte) h :
  (forall h', continues h h' -> step h' OsOp.Message) ->
  wp step (fun h' _ => exists t, h' = h ++ t /\ Forall (fun e => internal (projT1 e) = true) t) h
    (report_packet packet).
Proof.
  intros Hs. unfold report_packet. destruct (parse_ipv4_metadata packet) as [ipv4|e| |];
    try (cbn; exists []; split; [by rewrite app_nil_r|by constructor]).
  cbn. split; [apply Hs; reflexivity|]. intros [] _.
  destruct (parse_icmpv4_metadata packet ipv4) as [icmp|e| |]; cbn; try (eexists; split; [done|by repeat constructor]).
  split; [apply Hs; auto with foxprox|]. intros [] _. rewrite <- app_assoc.
  eexists. split; [done|by repeat constructor].
Qed.

Lemma answer_logged_after (packet : list byte) (t t' : list (Action Os)) :
  answer_logged packet t' -> answer_logged packet (t ++ t').
Proof.
  intros (ipv4 & icmp & time & ? & ? & ? & ? & Hl). exists ipv4, icmp, time. split_and!; try done.
  apply in_or_app. by right.
Qed.

Section icmp.
Context (argv : list str) (path : str) (local_ip : Z).

Abbreviation permitted := (icmp_permitted argv).

(** The broker may record, and tell the user. *)
Lemma may_record stream tun h o :
  icmp_started argv path local_ip h -> session path stream tun h -> audit_op o = true -> permitted h (OsOp.OnHost o).
Proof. intros Hs Hse Ho. exists path, local_ip. split; [done|]. split; [done|]. by exists stream, tun. Qed.

Lemma may_tell h : icmp_started argv path local_ip h -> permitted h OsOp.Message.
Proof. intros Hs. by exists path, local_ip. Qed.

#[local] Arguments report_packet : simpl never.
#[local] Arguments audit_reply : simpl never.
#[local] Arguments emit_icmp_audit : simpl never.
#[local] Arguments synthesize_icmpv4_echo_reply : simpl never.

Lemma handle_icmp_packet_wp stream tun packet audit h h1 :
  icmp_started argv path local_ip h -> session path stream tun h ->
  h = h1 ++ [existT (OsOp.Read tun 4096) (Ok packet) : Action Os] ->
  wp permitted (fun h' '(_, r) => continues h h' /\ returns r) h (handle_icmp_packet audit local_ip tun packet).
Proof.
  intros Hs Hse Hread. unfold handle_icmp_packet.
  assert (forall h' o, continues h h' -> audit_op o = true -> permitted h' (OsOp.OnHost o)) as Hrecord.
  { intros h' o Hc Ho. eapply may_record; [by eapply carry|by eapply carry|done]. }
  assert (forall h', continues h h' -> permitted h' OsOp.Message) as Htell.
  { intros h' Hc. apply may_tell. by eapply carry. }
  apply wp_bind. eapply wp_mono; [done| |by apply report_packet_wp]. intros h2 [] (t2 & -> & Ht2).
  assert (forall t, continues h ((h ++ t2) ++ t)) as Hc2 by (intros t; exists (t2 ++ t); by rewrite app_assoc).
  pose proof (synthesize_returns packet local_ip) as Hret.
  destruct (synthesize_icmpv4_echo_reply packet local_ip) as [reply|reason| |] eqn:E; try done.
  - apply wp_bind. eapply wp_mono; [done| |eapply audit_reply_wp; [|exact E]].
    2: { intros h' o [t ->] Ho. by apply Hrecord. }
    intros h3 [audit' r] (Hr & t3 & -> & Ht3 & Hl). destruct r as [[]|e| |]; try done.
    + cbn. split.
      { exists path, local_ip. split; [eapply carry; [exact Hs|done]|]. right. split.
        - exists h1, packet, (t2 ++ t3). rewrite Hread, <- !app_assoc.
          split_and!; [done|done|by apply answer_logged_after, Hl|by apply Forall_app_2].
        - exists stream. by eapply carry. }
      intros [[]|e| |] Hv; [|cbn; by split; [apply continues_step|]|by destruct Hv..].
      split; [by apply Htell, continues_step|]. intros [] _. by split; [do 2 apply continues_step|].
    + cbn. split; [by apply Htell|]. intros [] _. by split; [apply continues_step|].
  - apply wp_bind. unfold emit_icmp_audit.
    eapply wp_mono; [done| |apply (record_on_host_wp _ (fun time => icmp_audit_event time _ _))].
    + intros h3 [audit' r] (Hr & t3 & -> & _). cbn. split; [by apply Htell|]. intros [] _.
      by split; [apply continues_step|].
    + intros h' o [t ->]. by apply Hrecord.
Qed.

Lemma icmp_loop_wp stream tun n : forall audit h,
  icmp_started argv path local_ip h -> session path stream tun h -> lifecycle_logged local_ip h ->
  wp permitted (fun h' r => continues h h' /\ r <> Panic /\ forall u, r <> Ok u) h (icmp_loop n audit local_ip tun).
Proof.
  induction n as [|n IH]; intros audit h Hs Hse Hl; cbn [icmp_loop]; [cbn; by split|].
  cbn. split; [exists path, local_ip; split; [done|]; split_and!; [done..|by exists stream]|].
  intros [packet|e| |] Hv; [clear Hv|by split; [auto with foxprox|]|by destruct Hv..].
  case_bool_decide; [cbn; by split; [auto with foxprox|]|].
  apply wp_bind. eapply wp_mono; [done| |eapply handle_icmp_packet_wp; [| |done]; eapply carry; eauto with foxprox].
  intros h2 [audit' r] [Hc Hr]. assert (continues h h2) as H2 by (etransitivity; [|exact Hc]; auto with foxprox).
  destruct r as [[]|e| |]; try done. cbn.
  eapply wp_mono; [done| |apply IH; by eapply carry]. intros h3 r [H3 Hr3]. split; [by etransitivity|done].
Qed.

#[local] Arguments icmp_loop : simpl never.

Lemma icmp_try_wp (event : SystemTime -> AuditEvent) audit stream tun (k : AuditBuffer -> SysIO unit) h0 h :
  icmp_started argv path local_ip h -> session path stream tun h -> continues h0 h ->
  (forall audit' h' time, continues h h' -> logged (event time) h' ->
     wp permitted (fun h'' r => continues h0 h'' /\ r <> Panic /\ forall u, r <> Ok u) h' (k audit')) ->
  wp permitted (fun h' r => continues h0 h' /\ r <> Panic /\ forall u, r <> Ok u) h
    (icmp_try (let* time := now in record_event (event time) audit) k).
Proof.
  intros Hs Hse H0 Hk. unfold icmp_try. apply wp_bind.
  eapply wp_mono; [done| |apply (record_on_host_wp _ event)].
  - intros h' [audit' r] (Hr & t & -> & _ & Hl). assert (continues h0 (h ++ t)) as H0t by (etransitivity; [exact H0|by exists t]).
    destruct r as [[]|e| |]; try done. cbn. destruct (Hl eq_refl) as [time Ht].
    apply (Hk audit' _ time); [by exists t|]. apply in_or_app. by right.
  - intros h' o Hc Ho. eapply may_record; [by eapply carry|by eapply carry|done].
Qed.

Lemma icmp_session_wp n audit stream tun h :
  icmp_started argv path local_ip h -> session path stream tun h ->
  wp permitted (fun h' r => continues h h' /\ r <> Panic /\ forall u, r <> Ok u) h
    (icmp_session n audit local_ip stream tun).
Proof.
  intros Hs Hse. unfold icmp_session, emit_icmp_lifecycle_audit, emit_raw_cli_audit.
  apply (icmp_try_wp _ _ _ _ _ _ _ Hs Hse); [reflexivity|]. intros audit1 h1 time1 H1 Hl1.
  apply (icmp_try_wp _ _ stream tun); [by eapply carry..|done|]. intros audit2 h2 time2 H2 Hl2.
  assert (continues h h2) as H02 by by etransitivity.
  apply (icmp_try_wp _ _ stream tun); [by eapply carry..|done|]. intros audit3 h3 time3 H3 Hl3.
  assert (continues h h3) as H03 by by etransitivity.
  assert (lifecycle_logged local_ip h3) as Hl.
  { unfold lifecycle_logged. rewrite !Forall_cons. split; [|split; [|split; [|apply Forall_nil_2]]].
    - exists time1. eapply carry; [exact Hl1|by etransitivity].
    - exists time2. exact (carry _ Hl2 H3).
    - by exists time3. }
  cbn. split.
  { exists path, local_ip. split; [exact (carry _ Hs H03)|]. left. split; [reflexivity|]. split; [exact Hl|].
    exists tun. exact (carry _ Hse H03). }
  intros [[]|e| |] Hv; [clear Hv|by split; [auto with foxprox|]|by destruct Hv..].
  assert (icmp_started argv path local_ip h3) as Hs3 by by eapply carry.
  cbn. split; [apply may_tell; eapply carry; [exact Hs3|auto with foxprox]|]. intros [] _.
  set (h4 := (h3 ++ _) ++ _). assert (continues h3 h4) as H4 by (do 2 apply continues_step; reflexivity).
  eapply wp_mono; [done| |apply (icmp_loop_wp stream);
    [exact (carry _ Hs3 H4)|exact (carry _ (carry _ Hse H03) H4)|exact (carry _ Hl H4)]].
  intros h5 r [H5 Hr]. split; [|exact Hr]. etransitivity; [exact H03|]. by etransitivity.
Qed.

End icmp.

#[local] Arguments proof_icmp_args : simpl never.

Lemma audit_buffer_returns (capacity : Z) : returns (audit_buffer capacity).
Proof. unfold audit_buffer. by destruct (_ =? 0). Qed.

Lemma proof_icmp_args_returns socket_env argv : returns (proof_icmp_args socket_env argv).
Proof.
  unfold proof_icmp_args, audit_buffer at 1. cbn [Z.eqb result_bind].
  assert (forall init, returns (parse_options icmp_arm init argv)) as H.
  { apply parse_options_returns. intros [] arg. unfold icmp_arm.
    repeat case_bool_decide; try exact I; apply valued_returns; intros s; [done|by auto with foxprox|].
    pose proof (proj1 (parse_nonzero_returns s)) as Hz. destruct (parse_nonzero_usize s); try done.
    apply audit_buffer_returns. }
  match goal with |- context [parse_options icmp_arm ?init argv] => specialize (H init) end.
  destruct (parse_options _ _ _) as [st| | |]; cbn [result_bind]; try done.
  by destruct (io_setup_socket st).
Qed.

Lemma proof_icmp_wp n argv h :
  wp (icmp_permitted argv) (fun h' r => continues h h' /\ r <> Panic /\ forall u, r <> Ok u) h (proof_icmp n argv).
Proof.
  unfold proof_icmp. cbn [os perform prog_bind wp]. split; [reflexivity|]. intros socket_env _.
  set (h1 := h ++ _). assert (continues h h1) as H1 by apply continues_snoc.
  pose proof (proof_icmp_args_returns socket_env argv) as Hret.
  destruct (proof_icmp_args socket_env argv) as [[[path local_ip] audit]|e| |] eqn:E; try done.
  assert (icmp_started argv path local_ip h1) as Hs by (exists socket_env, audit; split; [apply answered_last|done]).
  cbn [prog_try prog_bind].
  eapply wp_mono; [done| |apply (with_listener_wp (path := path) (chosen := icmp_started argv path local_ip)
    (fun r _ => r <> Panic /\ forall u, r <> Ok u)); [intros r; apply _|done|done|]].
  - intros h2 r [H2 Hr]. split; [by etransitivity|done].
  - intros listener h2 H2 Hs2 Hb. apply wp_try.
    eapply wp_mono; [done| |by apply (accept_setup_wp (path := path))].
    intros h3 [[stream tun]|e| |] [H3 Hse]; try done.
    eapply wp_mono; [done| |apply (icmp_session_wp argv path); [by eapply carry|exact Hse]].
    intros h4 r [H4 Hr]. split; [by etransitivity|exact Hr].
Qed.

(** ** Properties *)


(** An echo request from [10.255.0.2] to [10.255.0.1]. *)
Definition echo_request : list byte :=
  map u8_of [69; 0; 0; 28; 0; 0; 0; 0; 64; 1; 100; 225; 10; 255; 0; 2; 10; 255; 0; 1;
             8; 0; 247; 253; 0; 1; 0; 1].

(** The obliging system, with one packet on the descriptor. *)
Definition one_packet_os : Answers Os := fun h o =>
  match o return os_answer o with
  | OsOp.Read _ max =>
      Ok (if existsb (fun e => match projT1 e with OsOp.Read _ _ => true | _ => false end) h then []
          else take max echo_request)
  | o => obliging_os h o
  end.

Lemma one_packet_os_ok : answers_ok one_packet_os.
Proof.
  intros h o. destruct o; try (exact (obliging_os_ok h _)). cbn. split; [done|]. intros bs [= <-].
  case_match; cbn; [lia|]. rewrite length_take. lia.
Qed.

