(* ===== verification/Commands.v ===== *)
(** * The commands of [foxprox] ([crates/foxprox-cli/src/main.rs])

    The proof commands as programs over [Os], the dispatch of [run] and [main], and
    what each command line may do.  The brokers and listeners the commands run on the
    main thread are jobs of [Os]: their programs are in [Tcp], [Udp], [Combined] and
    [Proxy]. *)

From S2P Require Import Prelude Text NetAddr Event Policy Flow AuditLog Config.
From S2P Require Import Effects AuditIo Tcp Udp Combined Proxy Args RunConfig Cli Os Setup SetupSocket Launcher Icmp.

(** ** The proof commands *)

Definition setup_socket_env : Sys (option str) := os (OsOp.EnvVar (lit "FOXPROX_SETUP_SOCKET")).

Definition proof_tcp (args : list str) : SysIO unit :=
  let* socket_env := setup_socket_env in
  let! (setup_socket, config) := Ret (proof_tcp_args socket_env args) in
  with_listener setup_socket (fun listener =>
    let! (stream, tun_fd) := accept_setup listener in
    let* _ := os OsOp.Message in
    os (OsOp.RunHere (TcpProofJob tun_fd stream config))).

Definition proof_udp_dns (args : list str) : SysIO unit :=
  let* socket_env := setup_socket_env in
  let! (setup_socket, config) := Ret (proof_udp_dns_args socket_env args) in
  with_listener setup_socket (fun listener =>
    let! (stream, tun_fd) := accept_setup listener in
    let* _ := os OsOp.Message in
    os (OsOp.RunHere (UdpDnsProofJob tun_fd stream config))).

(** A bridge of [proof-transparent]: its rule goes to the end of the policy. *)
Definition bridge_policy (config : CombinedTransparentProofConfig) (port : Z) : PolicyRuleSet :=
  push_rules (cp_policy config) [allow_proxy_bridge_rule (cp_broker_ip config) port].

Definition set_bridges (http socks5 : option ExplicitProxyBridgeConfig) (policy : PolicyRuleSet)
  (c : CombinedTransparentProofConfig) : CombinedTransparentProofConfig :=
  {| cp_sandbox_id := cp_sandbox_id c; cp_broker_ip := cp_broker_ip c; cp_prefix_len := cp_prefix_len c;
     cp_mtu := cp_mtu c; cp_tcp_port := cp_tcp_port c; cp_additional_tcp_ports := cp_additional_tcp_ports c;
     cp_connect_timeout := cp_connect_timeout c; cp_pending_buffer_limit := cp_pending_buffer_limit c;
     cp_idle_timeout := cp_idle_timeout c; cp_dns_port := cp_dns_port c; cp_upstream_dns := cp_upstream_dns c;
     cp_udp_packet_capacity := cp_udp_packet_capacity c; cp_udp_payload_capacity := cp_udp_payload_capacity c;
     cp_upstream_timeout := cp_upstream_timeout c; cp_udp_forward_ports := cp_udp_forward_ports c;
     cp_udp_forward_timeout := cp_udp_forward_timeout c; cp_policy := policy;
     cp_audit_queue_capacity := cp_audit_queue_capacity c; cp_max_worker_threads := cp_max_worker_threads c;
     cp_max_udp_flows := cp_max_udp_flows c; cp_http_proxy_bridge := http; cp_socks5_proxy_bridge := socks5 |}.

Definition proof_http_bridge (st : TransparentOptions) (config : CombinedTransparentProofConfig)
  : SysIO CombinedTransparentProofConfig :=
  match to_http_proxy_port st with
  | Some proxy_port =>
      let! _ := Ret (validate_http_proxy_backend_loopback (hp_listen_addr (to_http_proxy_config st))) in
      let! backend_addr := start_http_proxy_backend (to_http_proxy_config st) in
      let! _ := Ret (validate_http_proxy_backend_loopback backend_addr) in
      let* _ := os OsOp.Message in
      Ret (Ok (set_bridges (Some (mkExplicitProxyBridgeConfig proxy_port backend_addr))
                 (cp_socks5_proxy_bridge config) (bridge_policy config proxy_port) config))
  | None => Ret (Ok config)
  end.

Definition proof_socks5_bridge (st : TransparentOptions) (config : CombinedTransparentProofConfig)
  : SysIO CombinedTransparentProofConfig :=
  match to_socks5_proxy_port st with
  | Some proxy_port =>
      let! _ := Ret (validate_proxy_backend_loopback (sp_listen_addr (to_socks5_proxy_config st))) in
      let! backend_addr := start_socks5_proxy_backend (to_socks5_proxy_config st) in
      let! _ := Ret (validate_proxy_backend_loopback backend_addr) in
      let* _ := os OsOp.Message in
      Ret (Ok (set_bridges (cp_http_proxy_bridge config)
                 (Some (mkExplicitProxyBridgeConfig proxy_port backend_addr)) (bridge_policy config proxy_port) config))
  | None => Ret (Ok config)
  end.

(** Checks and backends, while the setup socket is bound. *)
Definition start_bridges (st : TransparentOptions) : SysIO CombinedTransparentProofConfig :=
  let! _ := Ret (validate_transparent_proxy_bridge_inputs (combined_transparent_tcp_ports (to_config st))
    (to_http_proxy_port st) (hp_listen_addr (to_http_proxy_config st))
    (to_socks5_proxy_port st) (sp_listen_addr (to_socks5_proxy_config st))) in
  let! config := proof_http_bridge st (to_config st) in
  proof_socks5_bridge st config.

Definition proof_transparent (args : list str) : SysIO unit :=
  let* socket_env := setup_socket_env in
  let! (setup_socket, st) := Ret (proof_transparent_args socket_env args) in
  with_listener setup_socket (fun listener =>
    let! config := start_bridges st in
    let! (stream, tun_fd) := accept_setup listener in
    let* _ := os OsOp.Message in
    os (OsOp.RunHere (BrokerThread tun_fd stream config))).

Definition proof_http_proxy (args : list str) : SysIO unit :=
  let! config := Ret (proof_http_proxy_args args) in
  let* _ := os OsOp.Message in
  os (OsOp.RunHere (HttpProxyJob config)).

Definition proof_socks5_proxy (args : list str) : SysIO unit :=
  let! config := Ret (proof_socks5_proxy_args args) in
  let* _ := os OsOp.Message in
  os (OsOp.RunHere (Socks5ProxyJob config)).

(** ** [run] and [main] *)

(** [n] bounds the rounds of the loops; [toml::from_str] is [from_str]. *)
Definition foxprox_run (n : nat) (from_str : str -> Result RawConfig str) (args : list str) : SysIO unit :=
  match args with
  | [] => Ret (Err (invalid_input_error usage))
  | command :: args =>
      if bool_decide (command = lit "run") then run_launcher n from_str args
      else if bool_decide (command = lit "proof-icmp") then proof_icmp n args
      else if bool_decide (command = lit "proof-tcp") then proof_tcp args
      else if bool_decide (command = lit "proof-udp-dns") then proof_udp_dns args
      else if bool_decide (command = lit "proof-transparent") then proof_transparent args
      else if bool_decide (command = lit "proof-http-proxy") then proof_http_proxy args
      else if bool_decide (command = lit "proof-socks5-proxy") then proof_socks5_proxy args
      else if bool_decide (command ∈ [lit "--help"; lit "-h"]) then Ret (Err (invalid_input_error usage))
      else Ret (Err (invalid_input_error (lit "unknown command " ++ debug_str command ++ [x0a] ++ usage)))
  end.

(** The exit status; the arguments are those after the program name, as the strings that
    [env::args] yields. *)
Definition foxprox_main (n : nat) (from_str : str -> Result RawConfig str) (args : list str) : SysIO Z :=
  let* r := foxprox_run n from_str args in
  match r with
  | Ok _ => Ret (Ok 0)
  | Err _ => let* _ := os OsOp.Message in Ret (Ok 1)
  | Panic => Ret Panic
  | OutOfFuel => Ret OutOfFuel
  end.

(** ** Specification: what a command line may do *)

(** Options that were parsed with the variable as it was read. *)
Definition started_with {A} (parse : option str -> Result A IoError) (options : A) (h : list (Action Os)) : Prop :=
  exists socket_env, answered (OsOp.EnvVar (lit "FOXPROX_SETUP_SOCKET")) socket_env h /\
    parse socket_env = Ok options.

(** A command that reads the variable, and then acts on the options it parsed. *)
Definition socket_command {A} (parse : option str -> Result A IoError)
  (acts : A -> list (Action Os) -> OsOp -> Prop) (h : list (Action Os)) (o : OsOp) : Prop :=
  match o with
  | OsOp.EnvVar name => name = lit "FOXPROX_SETUP_SOCKET"
  | _ => exists options, started_with parse options h /\ acts options h o
  end.

(** A command with one job, on the descriptor of a trusted peer. *)
Definition job_acts {C} (job : Z -> Z -> C -> ThreadJob) (options : str * C) (h : list (Action Os)) (o : OsOp) : Prop :=
  let '(path, config) := options in
  match o with
  | OsOp.RunHere j => exists stream tun, j = job tun stream config /\ session path stream tun h
  | _ => socket_permitted path h o
  end.

(** The configuration of [proof-transparent], with the addresses of the backends. *)
Definition bridged_config (st : TransparentOptions) (a b : SocketAddr) : CombinedTransparentProofConfig :=
  let c := to_config st in
  let c := match to_http_proxy_port st with
           | Some port => set_bridges (Some (mkExplicitProxyBridgeConfig port a)) (cp_socks5_proxy_bridge c)
                            (bridge_policy c port) c
           | None => c
           end in
  match to_socks5_proxy_port st with
  | Some port => set_bridges (cp_http_proxy_bridge c) (Some (mkExplicitProxyBridgeConfig port b))
                   (bridge_policy c port) c
  | None => c
  end.

(** The backends listen on loopback, and were asked to. *)
Definition transparent_backends (st : TransparentOptions) (a b : SocketAddr) (h : list (Action Os)) : Prop :=
  (to_http_proxy_port st <> None -> backend_ready (HttpBackendThread (to_http_proxy_config st)) a h) /\
  (to_socks5_proxy_port st <> None -> backend_ready (Socks5BackendThread (to_socks5_proxy_config st)) b h).

Definition transparent_acts (options : str * TransparentOptions) (h : list (Action Os)) (o : OsOp) : Prop :=
  let '(path, st) := options in
  match o with
  | OsOp.SpawnThread (HttpBackendThread c) =>
      c = to_http_proxy_config st /\ to_http_proxy_port st <> None /\ is_loopback (sa_ip (hp_listen_addr c)) = true
  | OsOp.SpawnThread (Socks5BackendThread c) =>
      c = to_socks5_proxy_config st /\ to_socks5_proxy_port st <> None /\ is_loopback (sa_ip (sp_listen_addr c)) = true
  | OsOp.RecvBackend _ => True
  | OsOp.RunHere j =>
      exists stream tun a b, j = BrokerThread tun stream (bridged_config st a b) /\ session path stream tun h /\
        transparent_backends st a b h
  | _ => socket_permitted path h o
  end.

(** A listener runs with the configuration of its options only. *)
Definition listener_acts {C} (parsed : Result C IoError) (job : C -> ThreadJob) (h : list (Action Os)) (o : OsOp) : Prop :=
  match o with
  | OsOp.RunHere j => exists config, parsed = Ok config /\ j = job config
  | OsOp.Message => True
  | _ => False
  end.

(** [foxprox run]: the file that is named is read, and its configuration launched. *)
Definition launcher_acts (from_str : str -> Result RawConfig str) (argv : list str) (h : list (Action Os)) (o : OsOp)
  : Prop :=
  exists path target, run_launcher_args argv = Ok (path, target) /\
  (o = OsOp.ReadToString path \/
   exists contents config, answered (OsOp.ReadToString path) (Ok contents) h /\
     parse_launcher_config from_str contents = Ok config /\ launch_permitted config target h o).

(** What the command of this name may do. *)
Definition command_permitted (from_str : str -> Result RawConfig str) (command : str) (argv : list str)
  : list (Action Os) -> OsOp -> Prop :=
  if bool_decide (command = lit "run") then launcher_acts from_str argv
  else if bool_decide (command = lit "proof-icmp") then icmp_permitted argv
  else if bool_decide (command = lit "proof-tcp") then
    socket_command (fun e => proof_tcp_args e argv) (job_acts TcpProofJob)
  else if bool_decide (command = lit "proof-udp-dns") then
    socket_command (fun e => proof_udp_dns_args e argv) (job_acts UdpDnsProofJob)
  else if bool_decide (command = lit "proof-transparent") then
    socket_command (fun e => proof_transparent_args e argv) transparent_acts
  else if bool_decide (command = lit "proof-http-proxy") then listener_acts (proof_http_proxy_args argv) HttpProxyJob
  else if bool_decide (command = lit "proof-socks5-proxy") then
    listener_acts (proof_socks5_proxy_args argv) Socks5ProxyJob
  else fun _ _ => False.

(** The process: its command, and the line that reports an error. *)
Definition foxprox_permitted (from_str : str -> Result RawConfig str) (argv : list str) (h : list (Action Os)) (o : OsOp)
  : Prop :=
  o = OsOp.Message \/
  match argv with
  | [] => False
  | command :: argv => command_permitted from_str command argv h o
  end.

(** ** Lemmas: the arguments return *)

Lemma setup_socket_of_returns socket : returns (setup_socket_of socket).
Proof. by destruct socket. Qed.

Lemma proof_tcp_args_returns socket_env argv : returns (proof_tcp_args socket_env argv).
Proof.
  unfold proof_tcp_args.
  assert (forall init, returns (parse_options tcp_arm init argv)) as H.
  { apply parse_options_returns. intros [socket []] arg. unfold tcp_arm, parse_u8, parse_u16, parse_usize, parse_ipv4_addr. arms. }
  match goal with |- context [parse_options tcp_arm ?init argv] => specialize (H init) end.
  destruct (parse_options _ _ _) as [[socket c]| | |]; cbn [result_bind]; try done.
  by destruct socket.
Qed.

Lemma proof_udp_dns_args_returns socket_env argv : returns (proof_udp_dns_args socket_env argv).
Proof.
  unfold proof_udp_dns_args.
  assert (forall init, returns (parse_options udp_arm init argv)) as H.
  { apply parse_options_returns. intros [socket []] arg. unfold udp_arm, parse_u8, parse_u16, parse_usize, parse_ipv4_addr. arms. }
  match goal with |- context [parse_options udp_arm ?init argv] => specialize (H init) end.
  destruct (parse_options _ _ _) as [[socket c]| | |]; cbn [result_bind]; try done.
  by destruct socket.
Qed.

Lemma proof_transparent_args_returns socket_env argv : returns (proof_transparent_args socket_env argv).
Proof.
  unfold proof_transparent_args.
  assert (forall init, returns (parse_options transparent_arm init argv)) as H.
  { apply parse_options_returns. intros [socket [] http_port http socks_port socks] arg. unfold transparent_arm, parse_u8, parse_u16, parse_usize, parse_ipv4_addr. arms. }
  match goal with |- context [parse_options transparent_arm ?init argv] => specialize (H init) end.
  destruct (parse_options _ _ _) as [st| | |]; cbn [result_bind]; try done.
  by destruct (to_setup_socket st).
Qed.

Lemma proof_http_proxy_args_returns argv : returns (proof_http_proxy_args argv).
Proof.
  unfold proof_http_proxy_args. apply parse_options_returns. intros [] arg. unfold http_proxy_arm, parse_u8, parse_u16, parse_usize, parse_ipv4_addr. arms.
Qed.

Lemma proof_socks5_proxy_args_returns argv : returns (proof_socks5_proxy_args argv).
Proof.
  unfold proof_socks5_proxy_args. apply parse_options_returns. intros [] arg. unfold socks5_proxy_arm, parse_u8, parse_u16, parse_usize, parse_ipv4_addr. arms.
Qed.

Lemma run_launcher_args_returns argv : returns (run_launcher_args argv).
Proof.
  unfold run_launcher_args.
  assert (returns (parse_options run_arm (mkRunOptions None []) argv)) as H.
  { apply parse_options_returns. intros st arg. unfold run_arm. arms. }
  destruct (parse_options _ _ _) as [st| | |]; cbn [result_bind]; try done.
  case_bool_decide; [done|]. by destruct (ro_config_path st).
Qed.

(** ** Lemmas: the commands *)

#[export] Instance started_with_stays {A} parse (options : A) : Later (started_with parse options).
Proof. unfold started_with. apply _. Qed.
#[export] Instance transparent_backends_stays st a b : Later (transparent_backends st a b).
Proof. unfold transparent_backends. apply _. Qed.

#[local] Arguments lit : simpl never.
#[local] Arguments bridged_config : simpl never.
#[local] Arguments accept_setup : simpl never.
#[local] Arguments with_listener : simpl never.

(** A command goes on from a history, and does not panic. *)
Definition ends {A} (h h' : list (Action Os)) (r : Result A IoError) : Prop := continues h h' /\ r <> Panic.

Lemma ends_part {A B} (step : list (Action Os) -> OsOp -> Prop) (P : A -> list (Action Os) -> Prop) (p : SysIO A)
  (k : A -> SysIO B) h0 h :
  continues h0 h -> wp step (part P h) h p ->
  (forall x h', continues h h' -> P x h' -> wp step (ends h0) h' (k x)) ->
  wp step (ends h0) h (prog_try p k).
Proof.
  intros Hc Hp Hk. apply wp_try. eapply wp_mono; [done| |exact Hp].
  intros h' [x|e| |] [Hc' HP]; try done; [by apply Hk|]. split; [by etransitivity|done].
Qed.

Lemma ends_check {A B} (step : list (Action Os) -> OsOp -> Prop) (r : Result A IoError) (k : A -> SysIO B) h0 h :
  continues h0 h -> returns r -> (forall x, r = Ok x -> wp step (ends h0) h (k x)) ->
  wp step (ends h0) h (prog_try (Ret r) k).
Proof. intros Hc Hr Hk. destruct r as [x|e| |]; try done. by apply Hk. Qed.

Section socket_command.
Context {A : Type} (parse : option str -> Result A IoError) (acts : A -> list (Action Os) -> OsOp -> Prop).
Context (Hacts : forall options h o, acts options h o -> match o with OsOp.EnvVar _ => False | _ => True end).

Abbreviation permitted := (socket_command parse acts).

Lemma socket_command_acts options h o : started_with parse options h -> acts options h o -> permitted h o.
Proof using Hacts.
  intros Hs Ha. pose proof (Hacts _ _ _ Ha) as Ho. unfold socket_command. by destruct o; try (exists options).
Qed.

Lemma socket_command_wp (body : A -> SysIO unit) h0 :
  (forall e, returns (parse e)) ->
  (forall options h, started_with parse options h -> wp permitted (ends h) h (body options)) ->
  wp permitted (ends h0) h0 (let* e := setup_socket_env in let! options := Ret (parse e) in body options).
Proof.
  intros Hr Hb. unfold setup_socket_env. cbn [os perform prog_bind wp]. split; [reflexivity|]. intros e _.
  set (h1 := h0 ++ _). assert (continues h0 h1) as H1 by apply continues_snoc.
  apply ends_check; [done|done|]. intros options Ho.
  eapply wp_mono; [done| |apply Hb; exists e; split; [apply answered_last|done]].
  intros h2 r [H2 Hp]. split; [by etransitivity|done].
Qed.

(** What runs on the descriptor of a trusted peer. *)
Lemma session_job_wp {C} options path (prepare : SysIO C) (job : C -> Z -> Z -> ThreadJob) h :
  (forall h o, socket_permitted path h o -> acts options h o) ->
  started_with parse options h ->
  (forall h', started_with parse options h' ->
     wp permitted (part (fun c h'' => forall stream tun h3, continues h'' h3 ->
       session path stream tun h3 -> acts options h3 (OsOp.RunHere (job c stream tun))) h') h' prepare) ->
  wp permitted (ends h) h (with_listener path (fun listener =>
    let! c := prepare in
    let! (stream, tun) := accept_setup listener in
    let* _ := os OsOp.Message in
    os (OsOp.RunHere (job c stream tun)))).
Proof using Hacts.
  intros Hsock Hs Hprep.
  assert (SetupSteps permitted path (started_with parse options) (fun _ => True)) as Hsteps.
  { apply socket_steps; [apply _|]. intros h' o Hs' Ho. by eapply socket_command_acts, Hsock. }
  apply (with_listener_wp (path := path) (fun r _ => r <> Panic)); [intros r; apply _|done|done|].
  intros listener h1 H1 Hs1 Hb.
  eapply ends_part; [reflexivity|by apply Hprep|]. intros c h2 H2 Hj.
  eapply ends_part; [done|apply (accept_setup_wp (path := path)); [by eapply carry|done|by eapply carry]|].
  intros [stream tun] h3 H3 Hse. assert (started_with parse options h3) as Hs3 by (eapply carry; [exact Hs1|by etransitivity]).
  cbn [os perform prog_bind wp]. split; [eapply socket_command_acts; [exact Hs3|by apply Hsock]|]. intros [] _.
  set (h4 := h3 ++ _). assert (continues h3 h4) as H4 by apply continues_snoc.
  split; [eapply socket_command_acts; [by eapply carry|]|].
  { apply Hj; [by etransitivity|by eapply carry]. }
  intros r Hv. split; [apply continues_step; etransitivity; [exact H2|]; by etransitivity|].
  intros ->. by destruct Hv.
Qed.

End socket_command.

Lemma job_acts_silent {C} (job : Z -> Z -> C -> ThreadJob) options h o :
  job_acts job options h o -> match o with OsOp.EnvVar _ => False | _ => True end.
Proof. intros H. destruct options, o; try exact I; exact H. Qed.

Lemma transparent_acts_silent options h o :
  transparent_acts options h o -> match o with OsOp.EnvVar _ => False | _ => True end.
Proof. intros H. destruct options, o; try exact I; exact H. Qed.

#[local] Arguments socket_command : simpl never.
#[local] Arguments transparent_acts : simpl never.

(** A command without preparations. *)
Lemma simple_job_wp {C} (parse : option str -> Result (str * C) IoError) (job : Z -> Z -> C -> ThreadJob) h :
  (forall e, returns (parse e)) ->
  wp (socket_command parse (job_acts job)) (ends h) h
    (let* e := setup_socket_env in
     let! (path, config) := Ret (parse e) in
     with_listener path (fun listener =>
       let! (stream, tun) := accept_setup listener in
       let* _ := os OsOp.Message in
       os (OsOp.RunHere (job tun stream config)))).
Proof.
  intros Hr. apply (socket_command_wp _ _ (fun '(path, config) => _) _ Hr). intros [path config] h1 Hs.
  apply (session_job_wp _ _ (job_acts_silent job) (path, config) path (Ret (Ok config)) (fun c stream tun => job tun stream c));
    [|done|].
  - intros h2 o Ho. by destruct o.
  - intros h2 _. split; [reflexivity|]. intros stream tun h3 _ Hse. by exists stream, tun.
Qed.

Lemma proof_tcp_wp argv h :
  wp (socket_command (fun e => proof_tcp_args e argv) (job_acts TcpProofJob)) (ends h) h (proof_tcp argv).
Proof. apply simple_job_wp. intros e. apply proof_tcp_args_returns. Qed.

Lemma proof_udp_dns_wp argv h :
  wp (socket_command (fun e => proof_udp_dns_args e argv) (job_acts UdpDnsProofJob)) (ends h) h (proof_udp_dns argv).
Proof. apply simple_job_wp. intros e. apply proof_udp_dns_args_returns. Qed.

(** The backends of [proof-transparent]. *)
Section bridges.
Context (argv : list str) (path : str) (st : TransparentOptions).

Abbreviation permitted := (socket_command (fun e => proof_transparent_args e argv) transparent_acts).
Abbreviation started := (started_with (fun e => proof_transparent_args e argv) (path, st)).

Lemma transparent_act h o : started h -> transparent_acts (path, st) h o -> permitted h o.
Proof. apply socket_command_acts, transparent_acts_silent. Qed.

#[local] Arguments start_backend : simpl never.

Lemma backend_wp {C} name job (f : SocketAddr -> C) (P : C -> list (Action Os) -> Prop) h :
  started h -> transparent_acts (path, st) h (OsOp.SpawnThread job) ->
  (forall addr h', continues h h' -> backend_ready job addr h' -> P (f addr) h') ->
  wp permitted (part P h) h
    (let! addr := start_backend name job in
     let! _ := Ret (validate_proxy_backend_loopback addr) in
     let* _ := os OsOp.Message in
     Ret (Ok (f addr))).
Proof.
  intros Hs Hj HP. eapply sys_part_try; [reflexivity|apply start_backend_wp|].
  - by apply transparent_act.
  - intros h' channel Hc. apply transparent_act; [by eapply carry|done].
  - intros addr h1 H1 Hready. pose proof (loopback_returns addr) as Hret.
    destruct (validate_proxy_backend_loopback addr) as [u|e| |] eqn:E; try done; cbn.
    assert (backend_ready job addr h1) as Hb by (split; [by eapply loopback_Ok|done]).
    split; [apply transparent_act; [by eapply carry|done]|]. intros [] _. split; [by apply continues_step|].
    apply HP; [by apply continues_step|]. eapply carry; [exact Hb|apply continues_snoc].
Qed.

Lemma http_bridge_wp config h : started h ->
  wp permitted (part (fun c h' => exists a,
      (to_http_proxy_port st <> None -> backend_ready (HttpBackendThread (to_http_proxy_config st)) a h') /\
      c = match to_http_proxy_port st with
          | Some port => set_bridges (Some (mkExplicitProxyBridgeConfig port a)) (cp_socks5_proxy_bridge config)
                           (bridge_policy config port) config
          | None => config
          end) h) h (proof_http_bridge st config).
Proof.
  intros Hs. unfold proof_http_bridge. destruct (to_http_proxy_port st) as [port|] eqn:Ep.
  - unfold validate_http_proxy_backend_loopback. pose proof (loopback_returns (hp_listen_addr (to_http_proxy_config st))) as Hret.
    destruct (validate_proxy_backend_loopback (hp_listen_addr _)) as [u|e| |] eqn:E; try done.
    cbn [prog_try prog_bind]. apply backend_wp; [done| |].
    + split_and!; [done|by rewrite Ep|by eapply loopback_Ok].
    + intros a h' _ Ha. by exists a.
  - split; [reflexivity|]. by exists loopback_any_port.
Qed.

Lemma socks5_bridge_wp config h : started h ->
  wp permitted (part (fun c h' => exists b,
      (to_socks5_proxy_port st <> None -> backend_ready (Socks5BackendThread (to_socks5_proxy_config st)) b h') /\
      c = match to_socks5_proxy_port st with
          | Some port => set_bridges (cp_http_proxy_bridge config) (Some (mkExplicitProxyBridgeConfig port b))
                           (bridge_policy config port) config
          | None => config
          end) h) h (proof_socks5_bridge st config).
Proof.
  intros Hs. unfold proof_socks5_bridge. destruct (to_socks5_proxy_port st) as [port|] eqn:Ep.
  - pose proof (loopback_returns (sp_listen_addr (to_socks5_proxy_config st))) as Hret.
    destruct (validate_proxy_backend_loopback (sp_listen_addr _)) as [u|e| |] eqn:E; try done.
    cbn [prog_try prog_bind]. apply backend_wp; [done| |].
    + split_and!; [done|by rewrite Ep|by eapply loopback_Ok].
    + intros a h' _ Ha. by exists a.
  - split; [reflexivity|]. by exists loopback_any_port.
Qed.

Lemma start_bridges_wp h : started h ->
  wp permitted (part (fun c h' => exists a b, transparent_backends st a b h' /\ c = bridged_config st a b) h) h
    (start_bridges st).
Proof.
  intros Hs. unfold start_bridges.
  match goal with |- context [prog_try (Ret ?r)] => assert (returns r) as Hr by apply bridge_inputs_returns; destruct r end;
    try done. cbn [prog_try prog_bind].
  eapply sys_part_try; [reflexivity|by apply http_bridge_wp|]. intros c1 h1 H1 (a' & Ha & ->).
  eapply wp_mono; [done| |apply socks5_bridge_wp; by eapply carry].
  intros h2 [c2|e| |] [H2 Hc]; try done; (split; [by etransitivity|]); try done.
  destruct Hc as (b & Hb & ->). exists a', b. split; [|done]. split; [|done]. intros Hn. eapply carry; [by apply Ha|done].
Qed.

Lemma transparent_body_wp h : started h ->
  wp permitted (ends h) h (with_listener path (fun listener =>
    let! config := start_bridges st in
    let! (stream, tun_fd) := accept_setup listener in
    let* _ := os OsOp.Message in
    os (OsOp.RunHere (BrokerThread tun_fd stream config)))).
Proof.
  intros Hs. apply (session_job_wp _ _ transparent_acts_silent (path, st) path (start_bridges st)
    (fun c stream tun => BrokerThread tun stream c)); [intros h' o Ho; by destruct o|done|].
  intros h1 Hs1. eapply wp_mono; [done| |by apply start_bridges_wp].
  intros h2 [c|e| |] [H2 Hc]; try done. split; [done|]. destruct Hc as (a & b & Hb & ->).
  intros stream tun h3 H3 Hse. exists stream, tun, a, b. split_and!; [done|done|by eapply carry].
Qed.

End bridges.

Lemma proof_transparent_wp argv h :
  wp (socket_command (fun e => proof_transparent_args e argv) transparent_acts) (ends h) h (proof_transparent argv).
Proof.
  apply (socket_command_wp _ _ (fun '(path, st) => _)); [intros e; apply proof_transparent_args_returns|].
  intros [path st] h1 Hs. by apply transparent_body_wp.
Qed.

Lemma listener_wp {C} (parsed : Result C IoError) (job : C -> ThreadJob) h : returns parsed ->
  wp (listener_acts parsed job) (ends h) h
    (let! config := Ret parsed in let* _ := os OsOp.Message in os (OsOp.RunHere (job config))).
Proof.
  intros Hr. apply ends_check; [reflexivity|done|]. intros config Hc. cbn. split; [done|]. intros [] _.
  split; [by exists config|]. intros r Hv. split; [auto with foxprox|]. intros ->. by destruct Hv.
Qed.

#[local] Arguments run_launcher_args : simpl never.
#[local] Arguments parse_launcher_config : simpl never.
#[local] Arguments run_launcher_config : simpl never.
#[local] Arguments launch_permitted : simpl never.

Lemma run_launcher_wp n from_str argv h : (forall s, returns (from_str s)) ->
  wp (launcher_acts from_str argv) (ends h) h (run_launcher n from_str argv).
Proof.
  intros Htoml. unfold run_launcher, load_launcher_config.
  apply ends_check; [reflexivity|apply run_launcher_args_returns|]. intros [path target] Hargs.
  cbn [os perform prog_try prog_bind wp]. split; [exists path, target; split; [done|by left]|].
  intros [contents|e| |] Hv; [clear Hv|by split; [auto with foxprox|]|by destruct Hv..].
  set (h1 := h ++ _). assert (continues h h1) as H1 by apply continues_snoc.
  pose proof (parse_launcher_config_checked from_str contents Htoml) as Hparse.
  destruct (parse_launcher_config from_str contents) as [config|e| |] eqn:Hconfig; try done.
  destruct Hparse as (raw & _ & (_ & Hports & _) & _).
  eapply wp_mono; [| |apply wp_continues, (run_launcher_config_wp config target Hports n h1)].
  - intros h2 o [H2 Ho]. exists path, target. split; [done|]. right. exists contents, config. split_and!; [|done|done].
    eapply answered_later; [exact H2|apply answered_last].
  - intros h2 r [H2 (_ & Hr & _)]. split; [by etransitivity|done].
Qed.

Lemma foxprox_run_wp n from_str argv h : (forall s, returns (from_str s)) ->
  wp (foxprox_permitted from_str argv) (ends h) h (foxprox_run n from_str argv).
Proof.
  intros Htoml. destruct argv as [|command argv]; [by split|]. unfold foxprox_run.
  assert (forall (p : SysIO unit), wp (command_permitted from_str command argv) (ends h) h p ->
    wp (foxprox_permitted from_str (command :: argv)) (ends h) h p) as Hcommand.
  { intros p. apply wp_mono; [|done]. intros h' o Ho. by right. }
  unfold command_permitted in Hcommand.
  repeat case_bool_decide; try (by split); apply Hcommand.
  - by apply run_launcher_wp.
  - eapply wp_mono; [done| |apply proof_icmp_wp]. intros h' r (Hc & Hr & _). by split.
  - apply proof_tcp_wp.
  - apply proof_udp_dns_wp.
  - apply proof_transparent_wp.
  - apply listener_wp, proof_http_proxy_args_returns.
  - apply listener_wp, proof_socks5_proxy_args_returns.
Qed.

Lemma foxprox_main_wp n from_str argv h : (forall s, returns (from_str s)) ->
  wp (foxprox_permitted from_str argv) (fun _ r => r = Ok 0 \/ r = Ok 1 \/ r = OutOfFuel) h
    (foxprox_main n from_str argv).
Proof.
  intros Htoml. unfold foxprox_main. apply wp_bind.
  eapply wp_mono; [done| |by apply foxprox_run_wp]. intros h' [u|e| |] [Hc Hr]; cbn; auto; [|done].
  split; [by left|]. intros []. auto.
Qed.

(** ** Properties *)


