(* ===== verification/EndToEnd.v ===== *)
(** * From the configuration file to the host network

    The parts of a session put together: the configuration file ([RunConfig]), what
    the launcher makes of it ([Cli]), the broker it starts ([Combined]) and the
    handlers of the explicit proxies ([Proxy]).  What leaves for the host network is
    governed by the rules written in the file. *)

From S2P Require Import Prelude Text NetAddr Event Policy Flow Dns Inspection AuditLog Config.
From S2P Require Import Effects AuditIo Egress ProxyParse Proxy Limiter Tcp Udp Combined RunConfig Cli.

(** ** The start-up of the broker *)

(** Operations that send nothing to the host network. *)
Definition harmless (o : HostOp) : bool :=
  match o with
  | HostOp.SpawnConnect _ | HostOp.SpawnWorker _ | HostOp.TcpConnect _ _ | HostOp.UdpBind _
  | HostOp.UdpSendTo _ _ _ | HostOp.ResolveHost _ _ | HostOp.TcpWrite _ _ | HostOp.TcpWriteAll _ _ => false
  | _ => true
  end.

(** A program that sends nothing and returns. *)
Definition harmless_program {A} (p : IO A) : Prop :=
  forall h, wp (I := Host) (fun _ o => harmless o = true) (fun _ r => returns r) h p.

Section start_up.
Context `{!IterOrder (SandboxId * Hostname) DnsCacheEntry, !IterOrder FlowKey UdpFlowRecord}.
Context {step : list (Action Host) -> HostOp -> Prop}.
Context (Hstep : forall h o, harmless o = true -> step h o).

#[local] Abbreviation finishes := (yields (fun _ _ => True)).

Lemma harmless_program_wp {A} (p : IO A) h : harmless_program p -> wp step finishes h p.
Proof.
  intros Hp. eapply (wp_mono (I := Host)); [intros h' o Ho; apply Hstep, Ho| |apply Hp]. by intros h' r Hr.
Qed.

Lemma checks_wp {A} (r : Result A IoError) h : returns r -> wp step finishes h (Ret (I := Host) r).
Proof. intros Hr. by split. Qed.

Lemma bound_socket_wp config what port h :
  wp step (yields (fun h' handle => happened (HostOp.UdpSockBind handle port) (Ok tt) h')) h (bound_socket config what port).
Proof.
  unfold bound_socket. eapply (yields_try (fun _ _ => True)).
  { apply checks_wp. unfold udp_socket_checks. by case_match. }
  intros h1 _ _. apply wp_bind, wp_op; [by apply Hstep|]. intros handle _.
  apply wp_try, wp_bind, wp_op; [by apply Hstep|]. intros [[]|e| |] Hr; try done.
  apply yields_ok. apply happened_last.
Qed.

(** A program keeps what happened. *)
Lemma keeps {A} {P : list (Action Host) -> Prop} (HP : forall h t, P h -> P (h ++ t))
  {Q : list (Action Host) -> A -> Prop} {p : Prog Host A} {h} :
  P h -> wp step Q h p -> wp step (fun h' a => P h' /\ Q h' a) h p.
Proof.
  intros H Hp. eapply wp_post; [by apply (wp_grows (I := Host))|]. intros h' a [[t ->] HQ]. split; [by apply HP|done].
Qed.

Definition forward_bound (forward_sockets : list UdpForwardSocket) (h : list (Action Host)) : Prop :=
  Forall (fun s => happened (HostOp.UdpSockBind (us_handle s) (us_port s)) (Ok tt) h) forward_sockets.

Definition relays_listen (relays : list TcpRelay) (h : list (Action Host)) : Prop :=
  Forall (fun r => happened (HostOp.SockListen (tr_socket r) (tp_tcp_port (tr_config r))) (Ok tt) h) relays.

Lemma forward_bound_app sockets h t : forward_bound sockets h -> forward_bound sockets (h ++ t).
Proof. intros H. eapply Forall_impl; [exact H|]. intros s. apply happened_app. Qed.

Lemma relays_listen_app relays h t : relays_listen relays h -> relays_listen relays (h ++ t).
Proof. intros H. eapply Forall_impl; [exact H|]. intros s. apply happened_app. Qed.

Lemma bind_forward_sockets_wp config ports : forall h,
  wp step (yields (fun h' sockets => forward_bound sockets h')) h (bind_forward_sockets config ports).
Proof.
  induction ports as [|port ports IH]; intros h; cbn [bind_forward_sockets]; [by apply yields_ok; constructor|].
  destruct (_ =? _); [apply IH|]. eapply yields_try; [apply bound_socket_wp|].
  intros h1 handle Hb. apply wp_try.
  eapply wp_post; [eapply (keeps (happened_app _ _) Hb), IH|].
  intros h2 [sockets|e| |] (H1 & Hr & H2); try done. apply yields_ok. constructor; [exact H1|by apply H2].
Qed.

Lemma install_listeners_wp relays : forall h,
  wp step (yields (fun h' _ => relays_listen relays h')) h (install_listeners relays).
Proof.
  induction relays as [|relay relays IH]; intros h; cbn [install_listeners]; [by apply yields_ok; constructor|].
  apply wp_try, wp_bind, wp_op; [by apply Hstep|]. intros [[]|e| |] Hr; try done. cbn [map_err wp].
  eapply wp_post; [eapply (keeps (happened_app _ _) (happened_last _ _ _)), IH|].
  intros h2 r (H1 & Hr2 & H2). split; [done|]. intros a E. constructor; [exact H1|by eapply H2].
Qed.

Lemma emit_combined_lifecycle_audit_wp audit config kind proxy h :
  wp step (yields_audit (fun _ _ => True)) h (emit_combined_lifecycle_audit audit config kind proxy).
Proof.
  apply wp_bind, wp_op; [by apply Hstep|]. intros time _.
  eapply wp_post; [apply (record_event_wp (fun _ => true)); [done|]|].
  - intros h' o Ho. apply Hstep. by destruct o.
  - intros h' [audit' r] (Hr & _). by split.
Qed.

Lemma emit_startup_wp audit config h : wp step (yields_audit (fun _ _ => True)) h (emit_startup audit config).
Proof.
  unfold emit_startup. do 3 (eapply (audit_try_wp (fun _ _ => True)); [apply emit_combined_lifecycle_audit_wp|];
    clear h audit; intros h audit _ _).
  generalize (map (pair (lit "http")) (option_list (cp_http_proxy_bridge config))
     ++ map (pair (lit "socks5")) (option_list (cp_socks5_proxy_bridge config))) as bridges.
  intros bridges. revert h audit. induction bridges as [|bridge bridges IH]; intros h audit; cbn [emit_bridges]; [by apply yields_ok|].
  eapply (audit_try_wp (fun _ _ => True)); [apply emit_combined_lifecycle_audit_wp|]. intros; apply IH.
Qed.

Lemma new_relays_wp configs : forall h,
  wp step (fun _ relays => exists sockets,
    relays = zip_with (fun c s => mkTcpRelay c s transparent_tcp_state_new) configs sockets) h (new_relays configs).
Proof.
  induction configs as [|config configs IH]; intros h; cbn [new_relays]; [by exists []|].
  apply wp_bind, wp_op; [by apply Hstep|]. intros socket _.
  apply wp_bind. eapply wp_post; [apply IH|]. intros h1 relays [sockets ->]. by exists (socket :: sockets).
Qed.

(** What the start-up opened: the DNS socket, the forward sockets and a listener for
    every relay. *)
Record listening (c : CombinedTransparentProofConfig) (dns_handle : Z) (forward_sockets : list UdpForwardSocket)
  (sockets : list Z) (h : list (Action Host)) : Prop := mkListening {
  ln_dns : happened (HostOp.UdpSockBind dns_handle (cp_dns_port c)) (Ok tt) h;
  ln_forward : forward_bound forward_sockets h;
  ln_relays : relays_listen (start_relays c sockets) h
}.

Lemma listening_app c dns_handle forward_sockets sockets h t :
  listening c dns_handle forward_sockets sockets h -> listening c dns_handle forward_sockets sockets (h ++ t).
Proof.
  intros [H1 H2 H3]. split; [by apply happened_app|by apply forward_bound_app|by apply relays_listen_app].
Qed.

(** The broker is its loop, behind a start-up that sends nothing. *)
Lemma run_combined_wp n fuel config setup ready : forall h,
  harmless_program setup -> harmless_program ready ->
  (forall h dns_handle forward_sockets sockets audit,
     listening config dns_handle forward_sockets sockets h ->
     wp step (fun _ s => snd s <> Panic) h
       (combined_rounds n fuel (udp_config config) dns_handle forward_sockets
          (mkCombinedState (start_relays config sockets) (mkUdpState ∅ ∅ audit)))) ->
  wp step (fun _ r => r <> Panic) h (run_combined_transparent_proof n fuel config setup ready).
Proof.
  intros h Hsetup Hready Hrounds. unfold run_combined_transparent_proof.
  assert (forall A B (P : list (Action Host) -> A -> Prop) (p : IO A) (k : A -> IO B) h, wp step (yields P) h p ->
    (forall h a, P h a -> wp step (fun _ r => r <> Panic) h (k a)) ->
    wp step (fun _ r => r <> Panic) h (prog_try p k)) as Htry.
  { intros A B P p k h0 Hp Hk. apply wp_try. eapply wp_post; [exact Hp|].
    intros h1 [a|e| |] [Hr HP]; try done. by apply Hk, HP. }
  apply (Htry _ _ (fun _ _ => True)). { apply checks_wp. unfold net_audit_buffer. by case_match. } clear h. intros h audit _.
  apply (Htry _ _ (fun _ _ => True)). { apply checks_wp. unfold worker_limiter_new. by case_match. } clear h. intros h _ _.
  apply (Htry _ _ (fun _ _ => True)). { apply checks_wp. unfold validate_max_udp_flows. by case_match. } clear h. intros h _ _.
  apply (Htry _ _ (fun _ _ => True)). { apply checks_wp, validate_http_proxy_bridge_spec. } clear h. intros h _ _.
  apply (Htry _ _ (fun _ _ => True)); [by apply harmless_program_wp|]. clear h. intros h _ _. cbv zeta.
  eapply Htry; [apply bound_socket_wp|]. clear h. intros h dns_handle Hdns.
  apply wp_bind. eapply wp_post; [eapply (keeps (happened_app _ _) Hdns), new_relays_wp|].
  clear h Hdns. intros h relays [Hdns [sockets ->]].
  apply wp_try. eapply wp_post;
    [eapply (keeps (happened_app _ _) Hdns), bind_forward_sockets_wp|].
  clear h Hdns. intros h [forward_sockets|e| |] (Hdns & Hr & Hf); try done. specialize (Hf _ eq_refl).
  apply wp_try. eapply wp_post;
    [eapply (keeps (happened_app _ _) Hdns), (keeps (forward_bound_app _) Hf), install_listeners_wp|].
  clear h Hdns Hf Hr. intros h [[]|e| |] (Hdns & Hf & Hr & Hl); try done. specialize (Hl _ eq_refl).
  assert (listening config dns_handle forward_sockets sockets h) as Hlisten by by split.
  clear Hdns Hf Hl Hr. pose proof (listening_app config dns_handle forward_sockets sockets) as Happ.
  apply wp_bind. eapply wp_post; [eapply (keeps Happ Hlisten), emit_startup_wp|].
  clear h Hlisten. intros h [audit1 r] (Hlisten & Hr & _).
  apply wp_try. destruct r as [[]|e| |]; try done.
  apply wp_bind, wp_op; [by apply Hstep|]. intros [] _. apply (fun H => Happ h [existT HostOp.Eprintln tt : Action Host] H) in Hlisten.
  apply wp_try. eapply wp_post; [eapply (keeps Happ Hlisten); by apply harmless_program_wp|].
  clear h Hlisten. intros h [[]|e| |] (Hlisten & Hr2 & _); try done.
  apply wp_bind. eapply wp_post; [by apply Hrounds|]. by intros h' [st' r'].
Qed.

End start_up.

(** ** Specification *)

(** The verdict comes from a rule the file words as [allow], or from one of the rules
    the launcher adds for its own TCP ports. *)
Definition by_file_or_launcher (raw : RawConfig) (config : LauncherConfig) (event : NetworkEvent) (decision : Decision)
  : Prop :=
  allowed_by_file raw event decision \/ added_by_launcher config event decision.

(** What the broker of a session sends: once its sockets are open, and for the sandbox
    and the resolver of the file, what [egress_gate] lets through.  Flows need a verdict
    of one of the two sources, datagrams one of the file. *)
Definition broker_gate (raw : RawConfig) (config : LauncherConfig) (c : CombinedTransparentProofConfig)
  (h : list (Action Host)) (o : HostOp) : Prop :=
  harmless o = true \/
  exists dns_handle forward_sockets sockets, listening c dns_handle forward_sockets sockets h /\
    cp_sandbox_id c = lc_sandbox_id config /\ cp_upstream_dns c = lc_upstream_dns config /\
    egress_gate c dns_handle forward_sockets sockets (by_file_or_launcher raw config) (allowed_by_file raw) h o.

(** The address an event asks for: a literal one, or one its name resolved to. *)
Definition reaches (event : NetworkEvent) (addr : SocketAddr) (h : list (Action Host)) : Prop :=
  match event with
  | NetworkEvent.SocksConnect _ (SocksDestination.Ip e) => addr = mkSocketAddr (ep_ip e) (ep_port e)
  | _ => exists host port, event_target event = Some (host, port) /\ resolved host port addr h
  end.

(** What the handlers of the explicit proxies send: the launcher's own rules play no
    part. *)
Definition proxy_gate (raw : RawConfig) (config : LauncherConfig) (h : list (Action Host)) (o : HostOp) : Prop :=
  let authorised event :=
    allowed_by_file raw event (evaluate (lc_policy config) event) /\
    recorded event (evaluate (lc_policy config) event) h in
  match o with
  | HostOp.ResolveHost host port => exists event hostname,
      authorised event /\ host = hostname_str hostname /\ event_target event = Some (hostname, port)
  | HostOp.TcpConnect addr _ => exists event, authorised event /\ reaches event addr h
  | HostOp.SpawnConnect _ | HostOp.SpawnWorker _ | HostOp.UdpBind _ | HostOp.UdpSendTo _ _ _ => False
  | _ => True
  end.

(** ** Lemmas *)

Lemma reaches_resolved event host port addr h :
  event_target event = Some (host, port) -> resolved host port addr h -> reaches event addr h.
Proof.
  intros Ht Hr. assert (exists host port, event_target event = Some (host, port) /\ resolved host port addr h) as Hn
    by by exists host, port.
  destruct event; try exact Hn. destruct target; [exact Hn|done].
Qed.

Lemma launched_config_identity config a b c :
  launched_config config a b = Ok c ->
  cp_sandbox_id c = lc_sandbox_id config /\ cp_upstream_dns c = lc_upstream_dns config.
Proof.
  unfold launched_config, launcher_base_config.
  destruct (lc_transparent_tcp_ports config) as [|p ps]; [done|]. cbn [result_bind].
  destruct (lc_http_proxy_port config), (lc_socks5_proxy_port config); intros; by simplify_eq/=.
Qed.

Section session.
Context {raw : RawConfig} {config : LauncherConfig}.
Context (Hload : try_into_launcher raw = Ok config).

(** Every allowing decision of the launched policy has one of the two sources. *)
Lemma launched_source a b c event :
  launched_config config a b = Ok c -> is_allowed (evaluate (cp_policy c) event) = true ->
  allowed_by_file raw event (evaluate (cp_policy c) event) \/
  added_by_launcher config event (evaluate (cp_policy c) event).
Proof.
  intros Hc Ha. destruct (launched_decision config a b c event Hc) as [He|Hl]; [left|by right].
  rewrite He in *. by apply (loaded_policy_allows_by_a_rule raw config).
Qed.

(** The gate of the combined runtime, under the launched configuration, after the
    start-up [h]. *)
Lemma combined_gate_launched a b c dns_handle forward_sockets sockets h own o :
  launched_config config a b = Ok c -> listening c dns_handle forward_sockets sockets h ->
  combined_gate c dns_handle forward_sockets sockets own o -> broker_gate raw config c (h ++ own) o.
Proof.
  intros Hc Hl Hg. destruct (launched_config_identity _ _ _ _ Hc) as [Hid Hdns]. right.
  exists dns_handle, forward_sockets, sockets. split_and!; [by apply listening_app|done|done|].
  eapply egress_gate_weaken; [by apply sublist_inserts_l| | |exact Hg].
  - intros event Ha. by apply (launched_source a b c).
  - intros event Hp Ha. by destruct (launched_source a b c event Hc Ha) as [|[Ht _]].
Qed.

Context `{!IterOrder (SandboxId * Hostname) DnsCacheEntry, !IterOrder FlowKey UdpFlowRecord}.

Lemma launched_broker_wp a b c n fuel setup ready :
  launched_config config a b = Ok c -> harmless_program setup -> harmless_program ready ->
  wp (I := Host) (broker_gate raw config c) (fun _ r => r <> Panic) []
    (run_combined_transparent_proof n fuel c setup ready).
Proof.
  intros Hc Hsetup Hready. apply run_combined_wp; [by left|done|done|].
  intros h dns_handle forward_sockets sockets audit Hl. set (gate := combined_gate c dns_handle forward_sockets sockets).
  assert (steps_ok (I := Host) gate [] []) as Hnil by by intros [].
  eapply (wp_mono (I := Host)); [| |apply (wp_local (I := Host) gate (fun _ s => snd s <> Panic) _ [] h Hnil)].
  - intros all o (t & -> & _ & Ho). by eapply combined_gate_launched.
  - by intros all s (t & _ & _ & Hs).
  - eapply (wp_mono (I := Host)); [| |apply combined_rounds_wp, combined_inv_start].
    + intros all o. apply combined_permitted_gate.
    + by intros all s [_ Hs].
Qed.

Lemma launcher_http_handler_wp client :
  wp (I := Host) (proxy_gate raw config) (fun _ r => returns r) []
    (handle_http_proxy_stream_with_audit client (launcher_http_backend config)).
Proof.
  eapply (wp_mono (I := Host)); [| |apply http_handler_wp]; [|by intros h r []].
  intros h o. destruct o; try done; cbn [http_permitted proxy_gate].
  - intros (event & head & tail & hostname & port & [(_ & _ & Hrec) Hal] & Ht & Hr & _).
    exists event. split; [split; [by apply (loaded_policy_allows_by_a_rule raw config)|exact Hrec]|].
    by eapply reaches_resolved.
  - intros (event & head & tail & hostname & [(_ & _ & Hrec) Hal] & Hh & Ht).
    exists event, hostname. split_and!; [by apply (loaded_policy_allows_by_a_rule raw config)|exact Hrec|done|done].
Qed.

Lemma launcher_socks5_handler_wp client :
  wp (I := Host) (proxy_gate raw config) (fun _ r => returns r) []
    (handle_socks5_proxy_stream_with_audit client (launcher_socks5_backend config)).
Proof.
  eapply (wp_mono (I := Host)); [| |apply socks5_handler_wp]; [|by intros h r []].
  intros h o. destruct o; try done; cbn [socks_permitted proxy_gate].
  - intros (event & [(_ & Hrec) Hal] & _ & Hr).
    exists event. split; [split; [by apply (loaded_policy_allows_by_a_rule raw config)|exact Hrec]|].
    destruct event; try done. destruct target as [host port|]; [by exists host, port|done].
  - intros (event & hostname & [(_ & Hrec) Hal] & Hh & Ht).
    exists event, hostname. split_and!; [by apply (loaded_policy_allows_by_a_rule raw config)|exact Hrec|done|done].
Qed.

End session.

(** ** Property *)


(** A host whose clients ask for a page, and whose resolver knows its server. *)
Definition web_request : list byte := lit "GET http://example.com/ HTTP/1.1" ++ crlf ++ crlf.

Definition web_host : Answers Host := fun h o =>
  match o return host_answer o with
  | HostOp.TcpRead _ max => Ok (firstn max web_request)
  | HostOp.ResolveHost _ port => Ok [mkSocketAddr (V4 (ipv4_new 93 184 216 34)) port]
  | o => obliging_host h o
  end.

Lemma web_host_ok : answers_ok web_host.
Proof.
  intros h o. pose proof (obliging_host_ok h o) as H. destruct o; try exact H.
  split; [done|]. intros bs [= <-]. rewrite length_take. lia.
Qed.

