(* ===== verification/Totality.v ===== *)
(** * Totality of the parsers of hostile input

    Every routine that reads bytes a sandbox or a remote host chose returns a
    value or an error: the definitions are spread over the components, the
    statement is one. *)

From S2P Require Import Prelude Text NetAddr Event Policy Dns Inspection AuditLog Config Device.
From S2P Require Import Effects Egress ProxyParse.

(** The parsers of DNS datagrams. *)
Definition dns_total (input : list byte) : Prop :=
  (forall offset, returns (parse_name input offset)) /\ returns (parse_dns_query input) /\
  (forall expected, returns (parse_dns_response input expected)).

(** The inspectors of transparent connections. *)
Definition inspection_total (input : list byte) : Prop :=
  (forall port, returns (parse_http_request_head input port)) /\ returns (parse_tls_client_hello input).

(** The parsers of the explicit proxies. *)
Definition proxy_total (input : list byte) : Prop :=
  (forall sid, returns (parse_http_proxy_request_head sid input)) /\
  (forall sid, returns (parse_socks5_connect sid input)) /\
  returns (socks_status_for_parse_error input) /\ returns (rewrite_http_request_for_origin input).

(** The packet device. *)
Definition packet_total (input : list byte) : Prop :=
  returns (parse_ipv4_metadata input) /\
  (forall m, parse_ipv4_metadata input = Ok m -> returns (parse_icmpv4_metadata input m)) /\
  (forall local, returns (synthesize_icmpv4_echo_reply input local)).

(** [C40] Hostile input can crash nothing: on every byte string, the DNS name, query and
    response parsers, the HTTP-head and ClientHello inspectors, the HTTP-proxy and SOCKS5
    parsers, the SOCKS5 status lookup, the request rewriter, the IPv4 and ICMP parsers and
    the echo responder return a value or an error.  No index, slice or copy is out of
    range, compression pointers cannot loop, and every loop ends within its fuel. *)
Theorem hostile_input_total (input : list byte) :
  dns_total input /\ inspection_total input /\ proxy_total input /\ packet_total input.
Proof.
  unfold dns_total, inspection_total, proxy_total, packet_total.
  split_and!; auto using parse_name_returns, parse_dns_query_returns, parse_dns_response_returns,
    parse_http_request_head_returns, parse_tls_client_hello_returns, parse_http_proxy_request_head_returns,
    parse_socks5_connect_returns, socks_status_for_parse_error_returns, rewrite_returns, parse_ipv4_returns,
    parse_icmpv4_returns, synthesize_returns.
Qed.
