(* ===== verification/CoreTests.v ===== *)
(** * The unit tests of [foxprox-core], run on the model

    Each test of the crate, translated: a boolean that is false where the test would
    panic.  The definitions of the model are what they run; a test that fails here
    would show a difference between the model and the code the authors tested. *)

From S2P Require Import Prelude Text NetAddr Event Policy Flow Dns Inspection AuditLog Config Effects.

(** ** Tests *)

(** [.unwrap()]: a test panics where there is no value. *)
Definition unwrap {A E} (r : Result A E) (k : A -> bool) : bool :=
  match r with Ok a => k a | _ => false end.
Definition unwrap_some {A} (o : option A) (k : A -> bool) : bool :=
  match o with Some a => k a | None => false end.
Definition unwrap_err {A E} (r : Result A E) (k : E -> bool) : bool :=
  match r with Err e => k e | _ => false end.

Definition assert_eq {A} `{EqDecision A} (a b : A) : bool := bool_decide (a = b).
Definition is_err {A E} (r : Result A E) : bool := match r with Err _ => true | _ => false end.

(** A call that may fail but must return. *)
Definition total {A E} (r : Result A E) : bool := is_ok r || is_err r.

(** [text.contains(part)]. *)
Definition contains (text part : str) : bool := is_set (find part text).

Notation "'let_ok' p := r 'in' k" := (unwrap r (fun p => k))
  (at level 10, p strict pattern, r at level 200, k at level 200,
   format "'[v' 'let_ok'  p  :=  r  'in' '/' k ']'") : rust_scope.
Notation "'let_some' p := o 'in' k" := (unwrap_some o (fun p => k))
  (at level 10, p strict pattern, o at level 200, k at level 200,
   format "'[v' 'let_some'  p  :=  o  'in' '/' k ']'") : rust_scope.

#[export] Instance ResourceLimitError_eq_dec : EqDecision ResourceLimitError.
Proof. solve_decision. Defined.

(** ** [event.rs] *)

Definition test_hostname_normalizes_and_matches_suffix : bool :=
  let_ok host := hostname_parse (lit "WWW.Example.COM.") in
  let_ok domain := hostname_parse (lit "example.com") in
  assert_eq (hostname_str host) (lit "www.example.com") && matches_domain_suffix host domain
  && matches_domain_suffix domain domain.

Definition test_hostname_rejects_bad_labels : bool :=
  is_err (hostname_parse (lit "-bad.example")) && is_err (hostname_parse (lit "bad..example")).

Definition test_event_protocol_reflects_semantic_classification : bool :=
  let_ok sandbox_id := sandbox_id_new (lit "alpha") in
  let_some source := parse_ip (lit "10.0.0.2") in
  let_some destination := parse_ip (lit "93.184.216.34") in
  let event := NetworkEvent.UdpFlowAttempt sandbox_id Frontend.Tun (mkEndpoint source 44444)
                 (mkEndpoint destination 443) attribution_ip_only Protocol.Quic in
  assert_eq (event_protocol event) Protocol.Quic.

(** ** [frontend.rs] *)

Definition test_frontend_context_preserves_identity : bool :=
  let_ok sandbox_id := sandbox_id_new (lit "alpha") in
  let context := mkFrontendContext sandbox_id Frontend.Tun (lit "tun-proof") in
  assert_eq (fc_sandbox_id context) sandbox_id && assert_eq (fc_frontend context) Frontend.Tun
  && assert_eq (fc_label context) (lit "tun-proof").

(** ** [config.rs] *)

Definition test_broker_config_defaults_are_fail_closed : bool :=
  let_ok sandbox_id := sandbox_id_new (lit "alpha") in
  let config := broker_config_new sandbox_id in
  dc_deny_direct_external_dns (bc_dns config) && rs_deny_direct_dns (bc_policy config)
  && rs_deny_multicast_broadcast (bc_policy config)
  && bool_decide (V4 (ipv4_new 10 255 0 255) ∈ rs_broadcast_addresses (bc_policy config))
  && assert_eq (validate (bc_resource_limits config)) (Ok tt).

Definition test_resource_limits_reject_zero_values : bool :=
  let default := resource_limit_config_default in
  let invalid := mkResourceLimitConfig 0 (max_udp_flows default) (max_proxy_connections default)
                   (max_buffered_bytes_per_flow default) (audit_queue_capacity default) in
  assert_eq (validate invalid) (Err (ZeroLimit (lit "max_tcp_flows"))).

Definition test_proxy_environment_uses_sandbox_reachable_addresses : bool :=
  let env := proxy_environment proxy_config_default in
  assert_eq (pe_http_proxy env) (Some (lit "http://10.255.0.1:8080"))
  && assert_eq (pe_all_proxy env) (Some (lit "socks5://10.255.0.1:1080")).

(** ** [egress.rs] *)

Definition egress_tests_context (k : EgressContext -> bool) : bool :=
  let_ok sandbox_id := sandbox_id_new (lit "alpha") in
  k (mkEgressContext sandbox_id Frontend.Tun (decision_allow (lit "allow-alpha")) attribution_ip_only).

Definition test_tcp_request_carries_authorization_and_destination : bool :=
  let destination := mkEndpoint (V4 (ipv4_new 93 184 216 34)) 80 in
  egress_tests_context (fun context =>
  let request := mkTcpEgressRequest context None destination (Some (from_secs 5)) in
  assert_eq (te_destination request) destination && assert_eq (ec_frontend (te_context request)) Frontend.Tun
  && egress_is_allowed (te_context request)).

Definition test_egress_error_is_displayable : bool :=
  let error := mkEgressError EgressErrorKind.Timeout (lit "connect timed out") in
  contains (egress_error_display error) (lit "connect timed out").

(** ** [flow.rs] *)

Definition test_flow_keys_distinguish_transport_protocols : bool :=
  let_some source := parse_ip (lit "10.0.0.2") in
  let_some destination := parse_ip (lit "93.184.216.34") in
  negb (assert_eq (flow_key_tcp source 40000 destination 443) (flow_key_udp source 40000 destination 443)).

Definition test_udp_timeout_defaults_match_architecture_ranges : bool :=
  assert_eq (default_duration FlowTimeoutClass.Dns) (from_secs 10)
  && assert_eq (default_duration FlowTimeoutClass.GenericUdp) (from_secs 60)
  && assert_eq (default_duration FlowTimeoutClass.Quic) (from_secs 180).

#[local] Instance flow_order : IterOrder FlowKey UdpFlowRecord := canonical_order FlowKey UdpFlowRecord.
#[local] Instance cache_order : IterOrder (SandboxId * Hostname) DnsCacheEntry :=
  canonical_order (SandboxId * Hostname) DnsCacheEntry.

Definition test_udp_flow_table_tracks_bytes_and_expires : bool :=
  let_some source := parse_ip (lit "10.0.0.2") in
  let_some destination := parse_ip (lit "93.184.216.34") in
  let key := flow_key_udp source 40000 destination 443 in
  let now := from_secs 100 in
  let table := record_sandbox_datagram ∅ key FlowTimeoutClass.Quic attribution_ip_only 1200 now in
  let_some record := table !! key in
  assert_eq (uf_bytes_from_sandbox record) 1200 &&
  let (table, counted) := record_host_datagram table key 900 (now + from_secs 1) in
  let_some _ := counted in
  let_some record := flow_get table key in
  assert_eq (uf_bytes_to_sandbox record) 900 &&
  let (table, expired) := flow_expire table (now + default_duration FlowTimeoutClass.Quic) in
  bool_decide (expired = []) &&
  let (table, expired) := flow_expire table (now + from_secs 181) in
  assert_eq (length expired) 1%nat && flow_is_empty table.

(** ** [policy.rs] *)

Definition alpha : SandboxId := mkSandboxId (lit "alpha").

(** [SandboxId::new("alpha").unwrap()]. *)
Lemma alpha_new : sandbox_id_new (lit "alpha") = Ok alpha.
Proof. reflexivity. Qed.

Definition with_rules (rules : list PolicyRule) : PolicyRuleSet := set_rules policy_rule_set_default rules.

(** [Hostname::parse(text).unwrap()], [HttpMethod::parse(text).unwrap()] and
    [Cidr::v4(..).unwrap()]. *)
Definition hostname (text : string) (k : Hostname -> bool) : bool := unwrap (hostname_parse (lit text)) k.
Definition http_method (text : string) (k : HttpMethod -> bool) : bool := unwrap (http_method_parse (lit text)) k.

Definition tcp_attempt (a b c d port : Z) : NetworkEvent :=
  NetworkEvent.TcpConnectAttempt alpha Frontend.Tun None (mkEndpoint (V4 (ipv4_new a b c d)) port) attribution_ip_only.

Definition test_cidr_matches_ipv4_prefix : bool :=
  let_some cidr := cidr_v4 (ipv4_new 192 0 2 0) 24 in
  cidr_contains cidr (V4 (ipv4_new 192 0 2 55)) && negb (cidr_contains cidr (V4 (ipv4_new 192 0 3 1))).

Definition test_default_policy_denies : bool :=
  let decision := evaluate policy_rule_set_default (tcp_attempt 93 184 216 34 80) in
  assert_eq (d_action decision) DecisionAction.DenyDrop && assert_eq (d_reason decision) (Some DenialReason.DefaultDeny).

Definition test_allow_rule_matches_ip_port_protocol : bool :=
  let_some cidr := cidr_v4 (ipv4_new 93 184 216 0) 24 in
  let rules := with_rules [with_destination_ports (with_destination_cidr (with_protocol
    (policy_rule_new (lit "allow-example-http") RuleEffect.Allow) Protocol.Tcp) cidr) (port_range_single 80)] in
  let decision := evaluate rules (tcp_attempt 93 184 216 34 80) in
  is_allowed decision && assert_eq (d_rule_id decision) (Some (lit "allow-example-http")).

Definition test_http_origin_port_rule_matches_without_ip_endpoint : bool :=
  hostname "example.com" (fun domain => hostname "www.example.com" (fun host => http_method "GET" (fun get =>
  let rules := with_rules [with_destination_ports (with_domain_suffix (with_origin_scheme (with_protocol
    (policy_rule_new (lit "allow-http-origin") RuleEffect.Allow) Protocol.Http) (lit "http")) domain)
    (port_range_single 8080)] in
  let event := NetworkEvent.HttpRequest alpha Frontend.HttpProxy get (mkOrigin (lit "http") host 8080) (lit "/") in
  is_allowed (evaluate rules event)))).

Definition test_http_method_and_path_prefix_rules_match_plaintext_requests : bool :=
  hostname "api.example.com" (fun api => http_method "GET" (fun get => http_method "POST" (fun post =>
  let rules := with_rules [with_http_path_prefix (with_http_method (with_hostname (with_protocol
    (policy_rule_new (lit "allow-public-get") RuleEffect.Allow) Protocol.Http) api) get) (lit "/public/")] in
  let request method path :=
    NetworkEvent.HttpRequest alpha Frontend.Tun method (mkOrigin (lit "http") api 80) (lit path) in
  is_allowed (evaluate rules (request get "/public/items?limit=1"))
  && assert_eq (d_reason (evaluate rules (request post "/public/items?limit=1"))) (Some DenialReason.DefaultDeny)
  && assert_eq (d_reason (evaluate rules (request get "/private/items"))) (Some DenialReason.DefaultDeny)))).

Definition test_socks_host_destination_port_rule_matches : bool :=
  hostname "example.com" (fun host =>
  let rules := with_rules [with_destination_ports (with_hostname (with_protocol
    (policy_rule_new (lit "allow-socks-host") RuleEffect.Allow) Protocol.Socks) host) (port_range_single 443)] in
  is_allowed (evaluate rules (NetworkEvent.SocksConnect alpha (SocksDestination.Host host 443)))).

Definition test_domain_rule_requires_attribution : bool :=
  hostname "example.com" (fun domain =>
  let rules := with_rules [with_domain_suffix (with_protocol
    (policy_rule_new (lit "allow-example") RuleEffect.Allow) Protocol.Tcp) domain] in
  negb (is_allowed (evaluate rules (tcp_attempt 93 184 216 34 443)))).

Definition test_unsupported_event_fails_closed : bool :=
  let event := NetworkEvent.Unsupported (Some alpha) Frontend.Tun UnsupportedReason.UnsupportedFragmentation in
  let decision := evaluate policy_rule_set_default event in
  assert_eq (d_action decision) DecisionAction.FailClosed
  && match d_reason decision with Some (DenialReason.Unsupported _) => true | _ => false end.

Definition test_invalid_port_range_is_rejected : bool := assert_eq (port_range_new 20 10) None.

Definition udp_attempt (source destination : IpAddr) (port : Z) (attribution : Attribution) (classification : Protocol)
  : NetworkEvent :=
  NetworkEvent.UdpFlowAttempt alpha Frontend.Tun (mkEndpoint source 40000) (mkEndpoint destination port) attribution
    classification.

Definition allow_all_udp : PolicyRule :=
  with_protocol (policy_rule_new (lit "allow-all-udp") RuleEffect.Allow) Protocol.Udp.

Definition test_direct_dns_bypass_requires_broker_dns : bool :=
  let event := udp_attempt (V4 (ipv4_new 10 0 0 2)) (V4 (ipv4_new 8 8 8 8)) 53 attribution_ip_only Protocol.Dns in
  let decision := evaluate policy_rule_set_default event in
  assert_eq (d_action decision) DecisionAction.RequireBrokerDns
  && assert_eq (d_reason decision) (Some DenialReason.DirectDnsBypass).

Definition test_broad_allow_cannot_override_generic_udp_port_53_bypass : bool :=
  let event := udp_attempt (V4 (ipv4_new 10 0 0 2)) (V4 (ipv4_new 8 8 8 8)) 53 attribution_ip_only Protocol.Udp in
  assert_eq (d_action (evaluate (with_rules [allow_all_udp]) event)) DecisionAction.RequireBrokerDns.

Definition test_configured_directed_broadcast_fails_closed_before_broad_allow : bool :=
  let broadcast := V4 (ipv4_new 10 255 0 255) in
  let rules := push_broadcast (with_rules [allow_all_udp]) broadcast in
  let decision := evaluate rules (udp_attempt (V4 (ipv4_new 10 255 0 2)) broadcast 123 attribution_ip_only Protocol.Udp) in
  assert_eq (d_action decision) DecisionAction.FailClosed
  && assert_eq (d_reason decision) (Some DenialReason.MulticastOrBroadcast).

Definition tls_hello (sni : option Hostname) (ech_present : bool) (dns_hostname : option Hostname) (mismatch : bool)
  : NetworkEvent :=
  NetworkEvent.TlsClientHello alpha Frontend.Tun (mkEndpoint (V4 (ipv4_new 93 184 216 34)) 443) sni ech_present
    dns_hostname mismatch.

Definition fails_closed_for (rules : PolicyRuleSet) (event : NetworkEvent) (reason : DenialReason) : bool :=
  let decision := evaluate rules event in
  assert_eq (d_action decision) DecisionAction.FailClosed && assert_eq (d_reason decision) (Some reason).

Definition test_tls_mismatch_fails_closed : bool :=
  hostname "evil.example" (fun evil => hostname "example.com" (fun example =>
  fails_closed_for policy_rule_set_default (tls_hello (Some evil) false (Some example) true)
    DenialReason.SniDnsMismatch)).

Definition test_tls_mismatch_is_derived_even_if_caller_flag_is_false : bool :=
  hostname "evil.example" (fun evil => hostname "example.com" (fun example =>
  fails_closed_for policy_rule_set_default (tls_hello (Some evil) false (Some example) false)
    DenialReason.SniDnsMismatch)).

Definition allow_tls_network (id : string) (k : PolicyRule -> bool) : bool :=
  let_some cidr := cidr_v4 (ipv4_new 93 184 216 0) 24 in
  k (with_destination_ports (with_destination_cidr (with_protocol
      (policy_rule_new (lit id) RuleEffect.Allow) Protocol.Tls) cidr) (port_range_single 443)).

Definition test_hidden_sni_requires_explicit_ip_allow : bool :=
  hostname "example.com" (fun example => allow_tls_network "allow-explicit-ip" (fun rule =>
  let event := tls_hello None false (Some example) false in
  assert_eq (d_reason (evaluate policy_rule_set_default event)) (Some DenialReason.HiddenSni)
  && is_allowed (evaluate (with_rules [rule]) event))).

Definition test_ech_presence_is_hidden_sni_even_when_sni_is_visible : bool :=
  hostname "example.com" (fun example => allow_tls_network "allow-ech-ip" (fun rule =>
  let event := tls_hello (Some example) true (Some example) false in
  fails_closed_for policy_rule_set_default event DenialReason.HiddenSni
  && is_allowed (evaluate (with_rules [rule]) event))).

Definition test_http_constrained_ip_allow_does_not_bypass_hidden_sni : bool :=
  allow_tls_network "allow-ip-but-only-http-origin" (fun rule =>
  fails_closed_for (with_rules [with_origin_scheme rule (lit "https")]) (tls_hello None false None false)
    DenialReason.HiddenSni).

Definition test_tls_sni_domain_rule_allows_visible_matching_sni : bool :=
  hostname "example.com" (fun domain => hostname "www.example.com" (fun www =>
  let rules := with_rules [with_destination_ports (with_domain_suffix (with_protocol
    (policy_rule_new (lit "allow-visible-sni") RuleEffect.Allow) Protocol.Tls) domain) (port_range_single 443)] in
  is_allowed (evaluate rules (tls_hello (Some www) false (Some www) false)))).

Definition test_quic_domain_rule_uses_dns_attribution_and_protocol_class : bool :=
  hostname "example.com" (fun domain => hostname "video.example.com" (fun video =>
  let rules := with_rules [with_destination_ports (with_domain_suffix (with_protocol
    (policy_rule_new (lit "allow-quic-example") RuleEffect.Allow) Protocol.Quic) domain) (port_range_single 443)] in
  let event := NetworkEvent.UdpFlowAttempt alpha Frontend.Tun (mkEndpoint (V4 (ipv4_new 10 255 0 2)) 44444)
    (mkEndpoint (V4 (ipv4_new 93 184 216 34)) 443)
    (mkAttribution (Some video) AttributionSource.DnsCache AttributionConfidence.Medium) Protocol.Quic in
  is_allowed (evaluate rules event))).

(** ** [dns.rs] *)

Definition dns_observation (now : SystemTime) (k : DnsObservation -> bool) : bool :=
  hostname "Example.COM" (fun host => let_some query_type := query_type_parse (lit "a") in
  k (mkDnsObservation alpha host query_type now true)).

Definition bytes_of (zs : list Z) : list byte := map u8_of zs.

Definition example_query : list byte :=
  [x12; x34; x01; x00; x00; x01; x00; x00; x00; x00; x00; x00; x07] ++ lit "example" ++ [x03] ++ lit "com"
  ++ [x00; x00; x01; x00; x01].

Definition test_query_type_normalizes_common_values : bool :=
  assert_eq (query_type_parse (lit "a")) (Some DnsQueryType.A)
  && (let_some aaaa := query_type_parse (lit "AAAA") in assert_eq (query_type_str aaaa) (lit "AAAA"))
  && assert_eq (query_type_parse (lit "16")) (Some (DnsQueryType.Other 16))
  && assert_eq (query_type_parse (lit "txt")) None && assert_eq (query_type_parse (lit "   ")) None.

Definition test_parses_single_question_query : bool :=
  let_ok question := parse_dns_query example_query in
  assert_eq (q_transaction_id question) 0x1234
  && assert_eq (hostname_str (q_hostname question)) (lit "example.com")
  && assert_eq (q_query_type question) DnsQueryType.A && assert_eq (q_query_class question) DNS_CLASS_IN
  && q_recursion_desired question.

Definition test_parses_compressed_address_response : bool :=
  let response := <[2%nat := x81]> (<[3%nat := x80]> (<[7%nat := x01]> example_query))
    ++ bytes_of [0xc0; 0x0c; 0; 1; 0; 1; 0; 0; 0; 0x3c; 0; 4; 93; 184; 216; 34] in
  let_ok question := parse_dns_query example_query in
  let_ok parsed := parse_dns_response response (Some question) in
  assert_eq (ro_transaction_id parsed) 0x1234 && assert_eq (ro_rcode parsed) 0
  && match ro_answers parsed with
     | [answer] => assert_eq (ar_address answer) (V4 (ipv4_new 93 184 216 34)) && assert_eq (ar_ttl answer) (from_secs 60)
     | _ => false
     end.

Definition test_rejects_malformed_dns_packets : bool :=
  assert_eq (parse_dns_query [x00; x00; x00; x00]) (Err DnsParseError.Truncated)
  && let loop_pointer := <[(DNS_HEADER_LEN + 1)%nat := u8_of (Z.of_nat DNS_HEADER_LEN)]>
                           (<[DNS_HEADER_LEN := xc0]> example_query) in
     assert_eq (parse_dns_query loop_pointer) (Err DnsParseError.BadCompressionPointer).

(** [state = state.wrapping_mul(a).wrapping_add(c)] on [u32], pushing bits from
    [shift] on. *)
Fixpoint generated (n : nat) (a c shift state : Z) : list byte :=
  match n with
  | O => []
  | S n =>
      let state := (state * a + c) mod 2 ^ 32 in
      u8_of (Z.shiftr state shift) :: generated n a c shift state
  end.

Definition flip (mask : Z) (index : nat) (seed : list byte) : list byte :=
  alter (fun b => u8_of (Z.lxor (u8_val b) mask)) index seed.

Definition dns_mutated_inputs (seed : list byte) : list (list byte) :=
  seed :: map (fun len => take len seed) (seq 0 (S (Nat.min (length seed) 16)))
  ++ map (fun index => flip 0x80 index seed) (seq 0 (Nat.min (length seed) 32))
  ++ [generated 96 1103515245 12345 16 (Z.lxor (Z.of_nat (length seed)) 0x13572468)].

Definition test_fuzz_smoke_dns_parsers_are_total : bool :=
  forallb (fun seed => forallb (fun input => total (parse_dns_query input) && total (parse_dns_response input None))
                         (dns_mutated_inputs seed))
    [[]; [x00; x00; x00; x00]; example_query].

Definition test_cache_entry_requires_address_and_expires : bool :=
  let now := from_secs 100 in
  dns_observation now (fun observation =>
  let_some address := parse_ip (lit "93.184.216.34") in
  assert_eq (is_set (cache_entry_new observation [] (from_secs 10))) false
  && let_some entry := cache_entry_new observation [address] (from_secs 10) in
     negb (cache_entry_is_expired entry (now + from_secs 9)) && cache_entry_is_expired entry (now + from_secs 10)
     && assert_eq (at_source (cache_entry_attribution entry)) AttributionSource.DnsCache).

Definition test_cache_supports_hostname_and_reverse_lookup : bool :=
  let now := from_secs 200 in
  dns_observation now (fun observation =>
  let_some address := parse_ip (lit "93.184.216.34") in
  let_some entry := cache_entry_new observation [address] (from_secs 30) in
  let cache := cache_insert ∅ entry in
  is_set (lookup_hostname cache (ce_sandbox_id entry) (ce_hostname entry) now)
  && (let_some found := lookup_address cache (ce_sandbox_id entry) address now in
      assert_eq (ce_hostname found) (ce_hostname entry))
  && let (cache, expired) := cache_expire cache (now + from_secs 31) in
     assert_eq expired 1%nat && cache_is_empty cache).

(** ** [inspection.rs] *)

Definition test_parses_http_host_method_and_path : bool :=
  let request := lit "get /hello?x=1 HTTP/1.1" ++ crlf ++ lit "Host: WWW.Example.COM:8080" ++ crlf ++ crlf in
  let_ok parsed := parse_http_request_head request 80 in
  assert_eq (method_str (hi_method parsed)) (lit "GET")
  && assert_eq (hostname_str (or_host (hi_origin parsed))) (lit "www.example.com")
  && assert_eq (or_port (hi_origin parsed)) 8080 && assert_eq (hi_path_and_query parsed) (lit "/hello?x=1")
  && assert_eq (at_source (hi_attribution parsed)) AttributionSource.HttpHostHeader.

Definition test_rejects_http_without_host : bool :=
  match parse_http_request_head (lit "GET / HTTP/1.1" ++ crlf ++ lit "User-Agent: test" ++ crlf ++ crlf) 80 with
  | Err (InspectionError.Malformed _) => true
  | _ => false
  end.

Definition u16_be (n : nat) : list byte := be_bytes 2 (Z.of_nat n).

Definition extension (ext_type : Z) (payload : list byte) : list byte :=
  be_bytes 2 ext_type ++ u16_be (length payload) ++ payload.

Definition sni_extension (host : string) : list byte :=
  let list := [x00] ++ u16_be (length (lit host)) ++ lit host in
  extension TLS_EXT_SERVER_NAME (u16_be (length list) ++ list).

Definition tls_client_hello_with_extensions (extensions : list (list byte)) : list byte :=
  let ext_bytes := concat extensions in
  let body := [x03; x03] ++ replicate 32 x00 ++ [x00] ++ be_bytes 2 2 ++ [x13; x01] ++ [x01] ++ [x00]
              ++ u16_be (length ext_bytes) ++ ext_bytes in
  [u8_of TLS_HANDSHAKE_RECORD] ++ [x03; x03] ++ u16_be (length body + 4) ++ [u8_of TLS_CLIENT_HELLO]
  ++ be_bytes 3 (Z.of_nat (length body)) ++ body.

Definition test_parses_tls_sni_and_ech_presence : bool :=
  let packet := tls_client_hello_with_extensions
    [sni_extension "www.example.com"; extension TLS_EXT_ECH [x00; x01; x02]] in
  let_ok parsed := parse_tls_client_hello packet in
  assert_eq (hostname_str <$> ti_sni parsed) (Some (lit "www.example.com")) && ti_ech_present parsed
  && hidden_sni parsed && assert_eq (at_source (tls_attribution parsed)) AttributionSource.TlsSni.

Definition test_tls_mismatch_compares_visible_sni_to_dns : bool :=
  let_ok parsed := parse_tls_client_hello (tls_client_hello_with_extensions [sni_extension "a.example"]) in
  hostname "b.example" (fun dns => mismatches_dns parsed (Some dns)).

Definition test_quic_candidate_uses_udp_443 : bool :=
  assert_eq (classify_udp_candidate 443) Protocol.Quic && assert_eq (classify_udp_candidate 53) Protocol.Udp.

Definition tls_mutated_inputs (seed : list byte) : list (list byte) :=
  seed :: map (fun len => take len seed) (seq 0 (S (Nat.min (length seed) 16)))
  ++ map (fun index => flip 0xff index seed) (seq 0 (Nat.min (length seed) 32))
  ++ [generated 64 1664525 1013904223 24 (Z.lxor (Z.of_nat (length seed)) 0xa5a55a5a)].

Definition test_fuzz_smoke_http_and_tls_parsers_are_total : bool :=
  forallb (fun seed => forallb (fun input => total (parse_http_request_head input 80) && total (parse_tls_client_hello input))
                         (tls_mutated_inputs seed))
    [[]; lit "GET / HTTP/1.1" ++ crlf ++ lit "Host: example.com" ++ crlf ++ crlf;
     lit "CONNECT example.com:443 HTTP/1.1" ++ crlf ++ crlf;
     [x16; x03; x03; x00; x04; x01; x00; x00; x00];
     tls_client_hello_with_extensions [sni_extension "www.example.com"]].

(** ** [audit.rs], at the time zero of the clock *)

Definition new_event (kind : AuditEventKind) : AuditEvent := audit_event_new 0 Frontend.Tun kind.

Definition tcp_audit_event : AuditEvent := new_event AuditEventKind.TcpConnect.

Definition test_audit_event_builder_attaches_decision_and_endpoints : bool :=
  let_some source_ip := parse_ip (lit "10.0.0.2") in
  let_some destination_ip := parse_ip (lit "93.184.216.34") in
  let source := mkEndpoint source_ip 40000 in
  let destination := mkEndpoint destination_ip 80 in
  let event := with_decision (with_endpoints tcp_audit_event (Some source) (Some destination))
                 (decision_default_deny DecisionAction.DenyReset) in
  assert_eq (ae_source event) (Some source) && assert_eq (ae_destination event) (Some destination)
  && assert_eq (d_action <$> ae_decision event) (Some DecisionAction.DenyReset).

Definition test_audit_event_builder_attaches_dns_metadata : bool :=
  let_some answer := parse_ip (lit "93.184.216.34") in
  let event := with_dns_metadata (new_event AuditEventKind.DnsQuery) (lit "A") (Some 0) [answer] in
  assert_eq (ae_dns_query_type event) (Some (lit "A")) && assert_eq (ae_dns_rcode event) (Some 0)
  && assert_eq (ae_dns_answers event) [answer].

(** [buffer.try_push(event).unwrap()] and [buffer.pop_front().unwrap()]. *)
Definition pushed (buffer : AuditBuffer) (event : AuditEvent) (k : AuditBuffer -> bool) : bool :=
  let (buffer, r) := try_push buffer event in
  let_ok _ := r in k buffer.

Definition popped (buffer : AuditBuffer) (k : AuditBuffer -> AuditEvent -> bool) : bool :=
  let (buffer, event) := pop_front buffer in
  let_some event := event in k buffer event.

Definition test_audit_buffer_preserves_fifo_order : bool :=
  pushed (audit_buffer_new 2) tcp_audit_event (fun buffer =>
  pushed buffer (new_event AuditEventKind.TcpFlowClosed) (fun buffer =>
  assert_eq (audit_len buffer) 2%nat &&
  popped buffer (fun buffer first => assert_eq (ae_kind first) AuditEventKind.TcpConnect &&
  popped buffer (fun buffer second => assert_eq (ae_kind second) AuditEventKind.TcpFlowClosed &&
  audit_is_empty buffer)))).

Definition test_audit_buffer_reports_backpressure_when_full : bool :=
  pushed (audit_buffer_new 1) tcp_audit_event (fun buffer =>
  let (buffer, result) := try_push buffer (new_event AuditEventKind.UdpFlowCreated) in
  unwrap_err result (fun e => match e with AuditBackpressure.Full capacity => capacity =? 1 | _ => false end)
  && assert_eq (audit_len buffer) 1%nat && assert_eq (ab_dropped_events buffer) 1).

(** [Vec<u8>] as a writer. *)
#[local] Instance vec_writer : Write (list byte) IoError := {| write_all := fun w bytes => (w ++ bytes, Ok tt) |}.

Definition quoted (name : string) : str := [x22] ++ lit name ++ [x22].

Definition test_audit_buffer_drains_json_lines : bool :=
  hostname "example.com" (fun example =>
  let event := set_ae_detail (Some (lit "quoted " ++ quoted "detail"))
    (set_ae_hostname (Some example) (with_sandbox_id (new_event AuditEventKind.DnsQuery) alpha)) in
  pushed (audit_buffer_new 2) event (fun buffer =>
  let '(buffer, output, drained) := drain_audit_buffer_to_json_lines buffer [] in
  let_ok drained := drained in
  let_some line := from_utf8 output in
  assert_eq drained 1 && audit_is_empty buffer && contains line (quoted "kind" ++ lit ":" ++ quoted "DnsQuery")
  && contains line (quoted "sandbox_id" ++ lit ":" ++ quoted "alpha")
  && contains line ([x5c; x22] ++ lit "detail" ++ [x5c; x22]))).

(** A writer whose sink is gone. *)
Inductive FailingWriter : Type := failing_writer.

#[local] Instance failing_write : Write FailingWriter IoError :=
  {| write_all := fun w _ => (w, Err (mkIoError IoErrorKind.BrokenPipe (lit "sink failed"))) |}.

Definition test_audit_drain_keeps_event_queued_when_sink_write_fails : bool :=
  pushed (audit_buffer_new 1) tcp_audit_event (fun buffer =>
  let '(buffer, _, error) := drain_audit_buffer_to_json_lines buffer failing_writer in
  unwrap_err error (fun error => assert_eq (io_kind error) IoErrorKind.BrokenPipe)
  && assert_eq (audit_len buffer) 1%nat
  && popped buffer (fun _ event => assert_eq (ae_kind event) AuditEventKind.TcpConnect)).

Definition test_audit_buffer_rejects_zero_capacity : bool :=
  let buffer := audit_buffer_new 0 in
  let (buffer', result) := try_push buffer tcp_audit_event in
  assert_eq (ab_capacity buffer) 0
  && unwrap_err result (fun e => match e with AuditBackpressure.DisabledCapacity => true | _ => false end)
  && assert_eq (ab_dropped_events buffer') 1 && audit_is_empty buffer'.

(** ** The tests pass *)

Definition core_tests : list (string * bool) :=
  [ ("hostname_normalizes_and_matches_suffix", test_hostname_normalizes_and_matches_suffix);
    ("hostname_rejects_bad_labels", test_hostname_rejects_bad_labels);
    ("event_protocol_reflects_semantic_classification", test_event_protocol_reflects_semantic_classification);
    ("frontend_context_preserves_identity", test_frontend_context_preserves_identity);
    ("broker_config_defaults_are_fail_closed", test_broker_config_defaults_are_fail_closed);
    ("resource_limits_reject_zero_values", test_resource_limits_reject_zero_values);
    ("proxy_environment_uses_sandbox_reachable_addresses", test_proxy_environment_uses_sandbox_reachable_addresses);
    ("tcp_request_carries_authorization_and_destination", test_tcp_request_carries_authorization_and_destination);
    ("egress_error_is_displayable", test_egress_error_is_displayable);
    ("flow_keys_distinguish_transport_protocols", test_flow_keys_distinguish_transport_protocols);
    ("udp_timeout_defaults_match_architecture_ranges", test_udp_timeout_defaults_match_architecture_ranges);
    ("udp_flow_table_tracks_bytes_and_expires", test_udp_flow_table_tracks_bytes_and_expires);
    ("cidr_matches_ipv4_prefix", test_cidr_matches_ipv4_prefix);
    ("default_policy_denies", test_default_policy_denies);
    ("allow_rule_matches_ip_port_protocol", test_allow_rule_matches_ip_port_protocol);
    ("http_origin_port_rule_matches_without_ip_endpoint", test_http_origin_port_rule_matches_without_ip_endpoint);
    ("http_method_and_path_prefix_rules_match_plaintext_requests", test_http_method_and_path_prefix_rules_match_plaintext_requests);
    ("socks_host_destination_port_rule_matches", test_socks_host_destination_port_rule_matches);
    ("domain_rule_requires_attribution", test_domain_rule_requires_attribution);
    ("unsupported_event_fails_closed", test_unsupported_event_fails_closed);
    ("invalid_port_range_is_rejected", test_invalid_port_range_is_rejected);
    ("direct_dns_bypass_requires_broker_dns", test_direct_dns_bypass_requires_broker_dns);
    ("broad_allow_cannot_override_generic_udp_port_53_bypass", test_broad_allow_cannot_override_generic_udp_port_53_bypass);
    ("configured_directed_broadcast_fails_closed_before_broad_allow", test_configured_directed_broadcast_fails_closed_before_broad_allow);
    ("tls_mismatch_fails_closed", test_tls_mismatch_fails_closed);
    ("tls_mismatch_is_derived_even_if_caller_flag_is_false", test_tls_mismatch_is_derived_even_if_caller_flag_is_false);
    ("hidden_sni_requires_explicit_ip_allow", test_hidden_sni_requires_explicit_ip_allow);
    ("ech_presence_is_hidden_sni_even_when_sni_is_visible", test_ech_presence_is_hidden_sni_even_when_sni_is_visible);
    ("http_constrained_ip_allow_does_not_bypass_hidden_sni", test_http_constrained_ip_allow_does_not_bypass_hidden_sni);
    ("tls_sni_domain_rule_allows_visible_matching_sni", test_tls_sni_domain_rule_allows_visible_matching_sni);
    ("quic_domain_rule_uses_dns_attribution_and_protocol_class", test_quic_domain_rule_uses_dns_attribution_and_protocol_class);
    ("query_type_normalizes_common_values", test_query_type_normalizes_common_values);
    ("parses_single_question_query", test_parses_single_question_query);
    ("parses_compressed_address_response", test_parses_compressed_address_response);
    ("rejects_malformed_dns_packets", test_rejects_malformed_dns_packets);
    ("fuzz_smoke_dns_parsers_are_total", test_fuzz_smoke_dns_parsers_are_total);
    ("cache_entry_requires_address_and_expires", test_cache_entry_requires_address_and_expires);
    ("cache_supports_hostname_and_reverse_lookup", test_cache_supports_hostname_and_reverse_lookup);
    ("parses_http_host_method_and_path", test_parses_http_host_method_and_path);
    ("rejects_http_without_host", test_rejects_http_without_host);
    ("parses_tls_sni_and_ech_presence", test_parses_tls_sni_and_ech_presence);
    ("tls_mismatch_compares_visible_sni_to_dns", test_tls_mismatch_compares_visible_sni_to_dns);
    ("quic_candidate_uses_udp_443", test_quic_candidate_uses_udp_443);
    ("fuzz_smoke_http_and_tls_parsers_are_total", test_fuzz_smoke_http_and_tls_parsers_are_total);
    ("audit_event_builder_attaches_decision_and_endpoints", test_audit_event_builder_attaches_decision_and_endpoints);
    ("audit_event_builder_attaches_dns_metadata", test_audit_event_builder_attaches_dns_metadata);
    ("audit_buffer_preserves_fifo_order", test_audit_buffer_preserves_fifo_order);
    ("audit_buffer_reports_backpressure_when_full", test_audit_buffer_reports_backpressure_when_full);
    ("audit_buffer_drains_json_lines", test_audit_buffer_drains_json_lines);
    ("audit_drain_keeps_event_queued_when_sink_write_fails", test_audit_drain_keeps_event_queued_when_sink_write_fails);
    ("audit_buffer_rejects_zero_capacity", test_audit_buffer_rejects_zero_capacity)
  ]%string.

(** The names of the tests that fail. *)
Definition failures (tests : list (string * bool)) : list string := fst <$> filter (fun t => snd t = false) tests.

Lemma core_tests_pass : failures core_tests = [].
Proof. vm_compute. reflexivity. Qed.
