(* ===== verification/ProxyTests.v ===== *)
(** * The unit tests of the device, egress and proxy crates, run on the model

    The tests of [foxprox-device], [foxprox-egress] and [foxprox-proxy], translated
    as in [CoreTests].  A test that needs a socket runs the handler against an
    environment: the bytes the test's client writes are what the handler reads, and
    what the test's client and origin read is what the handler wrote to them. *)

From S2P Require Import Prelude Text NetAddr Event Policy Flow Dns Inspection AuditLog Config Device.
From S2P Require Import Effects AuditIo Egress ProxyParse Proxy Limiter CoreTests.

#[export] Instance PacketDropReason_eq_dec : EqDecision PacketDropReason.
Proof. solve_decision. Defined.

(** [vec[at..at + bytes.len()].copy_from_slice(bytes)]. *)
Definition patch (at_ : nat) (bytes packet : list byte) : list byte :=
  take at_ packet ++ bytes ++ drop (at_ + length bytes) packet.

(** ** [foxprox-device] *)

(** The checksum of [bytes], stored big-endian at [at_]. *)
Definition sealed (at_ : nat) (bytes packet : list byte) (k : list byte -> bool) : bool :=
  let_ok checksum := (checksum16 bytes : Result Z unit) in k (patch at_ (be_bytes 2 checksum) packet).

Definition echo_request (k : list byte -> bool) : bool :=
  let packet := bytes_of [0x45; 0; 0; 32; 0x12; 0x34; 0; 0; 64; IPPROTO_ICMP; 0; 0; 10; 255; 0; 2; 10; 255; 0; 1;
                          ICMPV4_ECHO_REQUEST; 0; 0; 0; 0xab; 0xcd; 0; 7] ++ lit "ping" in
  sealed 10 (take 20 packet) packet (fun packet => sealed 22 (drop 20 packet) packet k).

Definition local_address : Z := ipv4_new 10 255 0 1.

Definition test_parses_ipv4_and_icmp_metadata : bool :=
  echo_request (fun packet =>
  let_ok ipv4 := parse_ipv4_metadata packet in
  assert_eq (im_source ipv4) (ipv4_new 10 255 0 2) && assert_eq (im_destination ipv4) (ipv4_new 10 255 0 1)
  && assert_eq (im_protocol ipv4) IPPROTO_ICMP
  && let_ok icmp := parse_icmpv4_metadata packet ipv4 in
     assert_eq (ic_ty icmp) ICMPV4_ECHO_REQUEST && assert_eq (ic_identifier icmp) (Some 0xabcd)
     && assert_eq (ic_sequence icmp) (Some 7)).

Definition test_synthesizes_echo_reply_with_swapped_addresses_and_valid_checksums : bool :=
  echo_request (fun packet =>
  let_ok reply := synthesize_icmpv4_echo_reply packet local_address in
  let_ok ipv4 := parse_ipv4_metadata reply in
  assert_eq (im_source ipv4) (ipv4_new 10 255 0 1) && assert_eq (im_destination ipv4) (ipv4_new 10 255 0 2)
  && assert_eq (u8_val <$> reply !! 20%nat) (Some ICMPV4_ECHO_REPLY) && assert_eq (drop 24 reply) (drop 24 packet)
  && assert_eq (checksum16 (drop 20 reply) : Result Z unit) (Ok 0)).

(** The header of a changed packet, with its checksum again. *)
Definition with_header (index : nat) (b : byte) (k : list byte -> bool) : bool :=
  echo_request (fun packet =>
  let packet := <[11%nat := x00]> (<[10%nat := x00]> (<[index := b]> packet)) in
  sealed 10 (take 20 packet) packet k).

Definition test_drops_fragmented_packets : bool :=
  with_header 6 x20 (fun packet =>
  assert_eq (synthesize_icmpv4_echo_reply packet local_address) (Err PacketDropReason.UnsupportedFragmentation)).

Definition test_drops_unsupported_protocols : bool :=
  with_header 9 x06 (fun packet =>
  assert_eq (synthesize_icmpv4_echo_reply packet local_address) (Err (PacketDropReason.UnsupportedIpProtocol 6))).

Definition test_drops_invalid_icmp_checksum : bool :=
  echo_request (fun packet =>
  assert_eq (synthesize_icmpv4_echo_reply (flip 0xff 31 packet) local_address)
    (Err PacketDropReason.InvalidIcmpv4Checksum)).

Definition test_drops_non_echo_icmp : bool :=
  echo_request (fun packet =>
  let packet := <[23%nat := x00]> (<[22%nat := x00]> (<[20%nat := x03]> packet)) in
  sealed 22 (drop 20 packet) packet (fun packet =>
  assert_eq (synthesize_icmpv4_echo_reply packet local_address) (Err (PacketDropReason.UnsupportedIcmp 3 0)))).

Definition test_drops_malformed_packets : bool :=
  match synthesize_icmpv4_echo_reply [x00; x00; x00; x00] local_address with
  | Err (PacketDropReason.Malformed _) => true
  | _ => false
  end.

Definition packet_mutated_inputs (seed : list byte) : list (list byte) :=
  seed :: map (fun len => take len seed) (seq 0 (S (Nat.min (length seed) 16)))
  ++ map (fun index => flip 0xaa index seed) (seq 0 (Nat.min (length seed) 32))
  ++ [generated 96 22695477 1 24 (Z.lxor (Z.of_nat (length seed)) 0x10203040)].

Definition test_fuzz_smoke_packet_parsers_are_total : bool :=
  echo_request (fun packet =>
  forallb (fun seed => forallb (fun input =>
    let ipv4 := parse_ipv4_metadata input in
    total ipv4 && match ipv4 with Ok metadata => total (parse_icmpv4_metadata input metadata) | _ => true end
    && total (synthesize_icmpv4_echo_reply input local_address)) (packet_mutated_inputs seed))
    [[]; [x00; x00; x00; x00]; packet]).

Definition test_maps_drop_reason_to_unsupported_event : bool :=
  assert_eq (event_protocol (unsupported_event_for_drop None (PacketDropReason.UnsupportedIpProtocol 99)))
    Protocol.Unsupported.

(** ** [foxprox-egress] *)

Definition adapter_context (decision : Decision) (k : EgressContext -> bool) : bool :=
  let_ok sandbox_id := sandbox_id_new (lit "egress-test") in
  k (mkEgressContext sandbox_id Frontend.Tun decision attribution_ip_only).

Definition deny_drop : Decision := decision_default_deny DecisionAction.DenyDrop.

(** The call fails with [PolicyDenied] and no host operation happened. *)
Definition denied_before_io {A} (p : Prog Host (Result A EgressError)) : bool :=
  let '(r, h) := replay obliging_host [] p in
  unwrap_err r (fun error => assert_eq (ee_kind error) EgressErrorKind.PolicyDenied)
  && match h with [] => true | _ => false end.

Definition documentation_peer (port : Z) : TransportEndpoint := mkEndpoint (V4 (ipv4_new 203 0 113 1)) port.

Definition test_denied_tcp_request_fails_before_socket_io : bool :=
  adapter_context deny_drop (fun context =>
  denied_before_io (connect_tcp (mkTcpEgressRequest context None (documentation_peer 9) (Some (from_secs 1))))).

Definition test_denied_udp_request_fails_before_socket_io : bool :=
  adapter_context deny_drop (fun context =>
  let request := mkUdpEgressRequest context (mkEndpoint (V4 (ipv4_new 10 255 0 2)) 44444) (documentation_peer 53)
                   FlowTimeoutClass.GenericUdp in
  denied_before_io (forward_udp_once std_host_egress_config_default request (lit "hello") (from_millis 1))).

Definition test_denied_dns_request_fails_before_socket_io : bool :=
  adapter_context deny_drop (fun context => hostname "example.com" (fun host =>
  let request := mkDnsEgressRequest context host (lit "A") (documentation_peer 53) in
  denied_before_io (query_dns_raw std_host_egress_config_default request [x00] (from_millis 1)))).

(** A peer that sends back what it is sent: what a receiving call returns is the
    payload of the last sending call. *)
Fixpoint last_sent (h : list (Action Host)) : list byte :=
  match h with
  | [] => []
  | existT o _ :: h =>
      match last_sent h, o with
      | [], (HostOp.UdpSendTo _ bytes _ | HostOp.TcpWriteAll _ bytes) => bytes
      | bytes, _ => bytes
      end
  end.

Definition echo_peer : Answers Host := fun h o =>
  match o return host_answer o with
  | HostOp.UdpRecv _ max => Ok (take max (last_sent h))
  | HostOp.TcpReadExact _ len => Ok (take len (last_sent h))
  | o => obliging_host h o
  end.

Definition loopback (port : Z) : SocketAddr := mkSocketAddr (V4 (ipv4_new 127 0 0 1)) port.

Definition test_allowed_tcp_request_connects_to_loopback : bool :=
  adapter_context (decision_allow (lit "allow-loopback")) (fun context =>
  let request := mkTcpEgressRequest context None (endpoint_of_socket_addr (loopback 40000)) (Some (from_secs 1)) in
  let echoed := let! stream := prog_map_err egress_error_to_io (connect_tcp request) in
                let! _ := tcp_write_all stream (lit "x") in
                tcp_read_exact stream 1 in
  assert_eq (replay echo_peer [] echoed).1 (Ok (lit "x"))).

Definition test_allowed_udp_request_round_trips_loopback : bool :=
  adapter_context (decision_allow (lit "allow-udp")) (fun context =>
  let request := mkUdpEgressRequest context (mkEndpoint (V4 (ipv4_new 10 255 0 2)) 44444)
                   (endpoint_of_socket_addr (loopback 40000)) FlowTimeoutClass.GenericUdp in
  let sent := forward_udp_once std_host_egress_config_default request (lit "hello") (from_secs 1) in
  assert_eq (replay echo_peer [] sent).1 (Ok (Some (lit "hello")))).

Definition test_allowed_dns_request_round_trips_loopback_payload : bool :=
  adapter_context (decision_allow (lit "allow-dns")) (fun context => hostname "example.com" (fun host =>
  let request := mkDnsEgressRequest context host (lit "A") (endpoint_of_socket_addr (loopback 40000)) in
  let sent := query_dns_raw std_host_egress_config_default request (lit "dns") (from_secs 1) in
  assert_eq (replay echo_peer [] sent).1 (Ok (lit "dns")))).

(** [localhost] resolves to both loopback addresses. *)
Definition localhost_resolver : Answers Host := fun h o =>
  match o return host_answer o with
  | HostOp.ResolveHost _ port => Ok [mkSocketAddr (V6 1) port; loopback port]
  | o => obliging_host h o
  end.

Definition test_resolve_host_port_prefers_ipv4_loopback : bool :=
  hostname "localhost" (fun host =>
  let_ok addr := (replay localhost_resolver [] (resolve_host_port host 80)).1 in
  match sa_ip addr with V4 _ | V6 _ => true end && assert_eq (sa_port addr) 80).

(** ** [foxprox-proxy]: the parsers *)

Definition proxy_test : SandboxId := mkSandboxId (lit "proxy-test").

Definition allow_rule (id : string) (protocol : Protocol) (host : string) (port : Z) (k : PolicyRule -> bool) : bool :=
  hostname host (fun host =>
  k (with_destination_ports (with_hostname (with_protocol (policy_rule_new (lit id) RuleEffect.Allow) protocol) host)
       (port_range_single port))).

Definition lines (text : list string) : list byte := concat (map (fun line => lit line ++ crlf) text).

Definition http_head (text : list string) : Result NetworkEvent ProxyParseError :=
  parse_http_proxy_request_head proxy_test (lines text ++ crlf).

Definition socks_connect (input : list byte) : Result NetworkEvent ProxyParseError :=
  parse_socks5_connect proxy_test input.

Definition is_unsupported {A} (r : Result A ProxyParseError) : bool :=
  match r with Err (ProxyParseError.Unsupported _) => true | _ => false end.
Definition is_malformed {A} (r : Result A ProxyParseError) : bool :=
  match r with Err (ProxyParseError.Malformed _) => true | _ => false end.

Definition test_parses_http_absolute_form_request : bool :=
  let_ok event := http_head ["GET http://Example.com:8080/path?q=1 HTTP/1.1"; "Host: ignored"] in
  match event with
  | NetworkEvent.HttpRequest _ frontend method origin path_and_query =>
      assert_eq frontend Frontend.HttpProxy && assert_eq (method_str method) (lit "GET")
      && assert_eq (hostname_str (or_host origin)) (lit "example.com") && assert_eq (or_port origin) 8080
      && assert_eq path_and_query (lit "/path?q=1")
  | _ => false
  end.

Definition test_parses_https_connect : bool :=
  let_ok event := http_head ["CONNECT example.com:443 HTTP/1.1"; "Host: example.com:443"] in
  match event with
  | NetworkEvent.HttpsConnect _ frontend host port =>
      assert_eq frontend Frontend.HttpProxy && assert_eq (hostname_str host) (lit "example.com") && assert_eq port 443
  | _ => false
  end.

Definition test_rejects_malformed_http_proxy_request : bool :=
  is_unsupported (http_head ["GET /relative HTTP/1.1"]) && is_malformed (http_head ["CONNECT example.com HTTP/1.1"]).

Definition test_rejects_http_proxy_ip_literal_authorities : bool :=
  is_unsupported (http_head ["GET http://127.0.0.1/ HTTP/1.1"])
  && is_unsupported (http_head ["CONNECT 127.0.0.1:443 HTTP/1.1"]).

Definition test_rejects_unsupported_http_proxy_versions : bool :=
  is_unsupported (http_head ["GET http://example.com/ HTTP/2.0"])
  && is_unsupported (http_head ["CONNECT example.com:443 HTTP/not-a-version"]).

Definition socks_example (port : Z) : list byte :=
  [x05; x01; x00; x05; x01; x00; x03; u8_of 11] ++ lit "example.com" ++ be_bytes 2 port.

Definition test_parses_socks5_host_connect : bool :=
  let_ok event := socks_connect (socks_example 443) in
  match event with
  | NetworkEvent.SocksConnect _ (SocksDestination.Host host port) =>
      assert_eq (hostname_str host) (lit "example.com") && assert_eq port 443
  | _ => false
  end.

Definition test_parses_socks5_ipv4_connect : bool :=
  let_ok event := socks_connect (bytes_of [5; 1; 0; 5; 1; 0; 1; 93; 184; 216; 34; 0; 80]) in
  match event with
  | NetworkEvent.SocksConnect _ (SocksDestination.Ip endpoint) =>
      assert_eq (ep_ip endpoint) (V4 (ipv4_new 93 184 216 34)) && assert_eq (ep_port endpoint) 80
  | _ => false
  end.

Definition test_rejects_socks_udp_associate : bool :=
  is_unsupported (socks_connect (bytes_of [5; 1; 0; 5; 3; 0; 1; 127; 0; 0; 1; 0; 53])).

Definition test_normalized_proxy_events_have_expected_protocols : bool :=
  let_ok http := http_head ["GET http://example.com/ HTTP/1.1"] in
  let_ok connect := http_head ["CONNECT example.com:443 HTTP/1.1"] in
  assert_eq (event_protocol http) Protocol.Http && assert_eq (event_protocol connect) Protocol.HttpsConnect.

Definition proxy_mutated_inputs (seed : list byte) : list (list byte) :=
  seed :: map (fun len => take len seed) (seq 0 (S (Nat.min (length seed) 16)))
  ++ map (fun index => flip 0x55 index seed) (seq 0 (Nat.min (length seed) 32))
  ++ [generated 96 1664525 1013904223 24 (Z.lxor (Z.of_nat (length seed)) 0xfeedcafe)].

Definition test_fuzz_smoke_proxy_parsers_are_total : bool :=
  forallb (fun seed => forallb (fun input => total (parse_http_proxy_request_head proxy_test input)
                                             && total (parse_socks5_connect proxy_test input))
                         (proxy_mutated_inputs seed))
    [[]; lines ["GET http://example.com/ HTTP/1.1"; "Host: example.com"] ++ crlf;
     lines ["CONNECT example.com:443 HTTP/1.1"; "Host: example.com"] ++ crlf;
     [x05; x01; x00]; socks_example 443].

(** ** [foxprox-proxy]: audit records, limits and configuration *)

(** The record of [event] under the default rules, at the time zero of the clock. *)
Definition audit_of (event : NetworkEvent) : AuditEvent :=
  proxy_audit_event 0 event (evaluate policy_rule_set_default event).

Definition audit_host (audit : AuditEvent) : option str := hostname_str <$> ae_hostname audit.
Definition attributed_host (audit : AuditEvent) : option str :=
  a ← ae_attribution audit; hostname_str <$> at_hostname a.

Definition test_proxy_audit_event_records_http_metadata : bool :=
  let_ok event := http_head ["GET http://example.com/proof?q=1 HTTP/1.1"] in
  let audit := audit_of event in
  assert_eq (ae_kind audit) AuditEventKind.HttpRequest && assert_eq (ae_protocol audit) (Some Protocol.Http)
  && assert_eq (audit_host audit) (Some (lit "example.com")) && assert_eq (ae_destination_port audit) (Some 80)
  && assert_eq (ae_path_and_query audit) (Some (lit "/proof?q=1"))
  && assert_eq (attributed_host audit) (Some (lit "example.com")) && is_set (ae_decision audit).

Definition test_proxy_audit_event_records_connect_port_and_attribution : bool :=
  let_ok event := http_head ["CONNECT example.com:8443 HTTP/1.1"] in
  let audit := audit_of event in
  assert_eq (ae_kind audit) AuditEventKind.HttpsConnect && assert_eq (ae_protocol audit) (Some Protocol.HttpsConnect)
  && assert_eq (audit_host audit) (Some (lit "example.com")) && assert_eq (ae_destination_port audit) (Some 8443)
  && assert_eq (attributed_host audit) (Some (lit "example.com")).

Definition test_proxy_audit_event_records_socks_host_port_and_attribution : bool :=
  let_ok event := socks_connect (socks_example 1080) in
  let audit := audit_of event in
  assert_eq (ae_kind audit) AuditEventKind.SocksConnect && assert_eq (ae_protocol audit) (Some Protocol.Socks)
  && assert_eq (audit_host audit) (Some (lit "example.com")) && assert_eq (ae_destination_port audit) (Some 1080)
  && assert_eq (attributed_host audit) (Some (lit "example.com")).

Definition test_proxy_audit_event_records_unsupported_metadata : bool :=
  let event := NetworkEvent.Unsupported (Some proxy_test) Frontend.HttpProxy
                 (UnsupportedReason.Malformed (lit "bad proxy request")) in
  let audit := audit_of event in
  assert_eq (ae_kind audit) AuditEventKind.UnsupportedDenied && assert_eq (ae_protocol audit) (Some Protocol.Unsupported)
  && assert_eq (ae_frontend audit) Frontend.HttpProxy
  && assert_eq (d_action <$> ae_decision audit) (Some DecisionAction.FailClosed)
  && let_some detail := ae_detail audit in contains detail (lit "bad proxy request").

(** [try_acquire] of a thread that runs alone: the limiter, and whether it got a
    permit. *)
Definition acquire `{AtomicLimiter L} (limiter : L) : L * bool :=
  match lim_load limiter with
  | Thread.Trying current =>
      let (limiter, thread) := lim_round limiter current false in (limiter, is_holding thread)
  | _ => (limiter, false)
  end.

(** One permit at a time: granted, refused to the next, and granted again once dropped. *)
Definition enforces_capacity `{AtomicLimiter L} (limiter : L) : bool :=
  let (limiter, permit) := acquire limiter in
  permit && assert_eq (lim_active limiter) 1 && negb (acquire limiter).2
  && let limiter := lim_drop limiter in assert_eq (lim_active limiter) 0 && (acquire limiter).2.

Definition test_proxy_connection_limiter_enforces_capacity_and_releases_on_drop : bool :=
  let_ok limiter := connection_limiter_new 1 in enforces_capacity limiter.

Definition invalid_input {A} (r : Result A IoError) : bool :=
  unwrap_err r (fun error => assert_eq (io_kind error) IoErrorKind.InvalidInput).

Definition test_proxy_connection_limiter_rejects_zero_capacity : bool := invalid_input (connection_limiter_new 0).

Definition test_proxy_configs_default_to_bounded_connections : bool :=
  (0 <? hp_max_connections (http_proxy_config_new proxy_test (loopback 0)))
  && (0 <? sp_max_connections (socks5_proxy_config_new proxy_test (loopback 0))).

(** The call fails with [InvalidInput] and nothing was bound: no host operation happened. *)
Definition rejected_before_binding (p : IO unit) : bool :=
  let '(r, h) := replay obliging_host [] p in invalid_input r && match h with [] => true | _ => false end.

Definition with_http_limits (queue connections : Z) (c : HttpProxyProofConfig) : HttpProxyProofConfig :=
  mkHttpProxyProofConfig (hp_sandbox_id c) (hp_listen_addr c) (hp_policy c) (hp_request_head_limit c)
    (hp_request_head_timeout c) (hp_connect_timeout c) queue connections.
Definition with_socks5_limits (queue connections : Z) (c : Socks5ProxyProofConfig) : Socks5ProxyProofConfig :=
  mkSocks5ProxyProofConfig (sp_sandbox_id c) (sp_listen_addr c) (sp_policy c) (sp_request_timeout c)
    (sp_connect_timeout c) queue connections.

Definition test_proxy_proofs_reject_zero_audit_capacity_before_binding : bool :=
  let http := http_proxy_config_new proxy_test (loopback 40000) in
  let socks := socks5_proxy_config_new proxy_test (loopback 40000) in
  rejected_before_binding (run_http_proxy_proof 1 (with_http_limits 0 (hp_max_connections http) http))
  && rejected_before_binding (run_socks5_proxy_proof 1 (with_socks5_limits 0 (sp_max_connections socks) socks)).

Definition test_proxy_proofs_reject_zero_connection_limit_before_binding : bool :=
  let http := http_proxy_config_new proxy_test (loopback 40000) in
  let socks := socks5_proxy_config_new proxy_test (loopback 40000) in
  rejected_before_binding (run_http_proxy_proof 1 (with_http_limits (hp_audit_queue_capacity http) 0 http))
  && rejected_before_binding (run_socks5_proxy_proof 1 (with_socks5_limits (sp_audit_queue_capacity socks) 0 socks)).

(** ** [foxprox-proxy]: the handlers over sockets

    The test's client writes [sent] and then reads; its origin listens on
    [origin_port] of [localhost], and nothing listens elsewhere. *)

Definition client : Z := 7.
Definition origin : Z := 8.
Definition origin_port : Z := 40000.

Definition peers (sent : list byte) : Answers Host := fun h o =>
  let rest := drop (length (received client h)) sent in
  match o return host_answer o with
  | HostOp.TcpRead s max => if s =? client then Ok (take max rest) else Ok []
  | HostOp.TcpReadExact s len =>
      if (s =? client) && (len <=? length rest)%nat then Ok (take len rest)
      else Err (mkIoError IoErrorKind.UnexpectedEof (lit "failed to fill whole buffer"))
  | HostOp.ResolveHost _ port => Ok [loopback port]
  | HostOp.TcpConnect addr _ =>
      if bool_decide (addr = loopback origin_port) then Ok origin
      else Err (mkIoError IoErrorKind.ConnectionRefused (lit "connection refused"))
  | HostOp.TcpTryClone s => Ok s
  | HostOp.AuditLock => Ok (audit_buffer_new 8192)
  | o => obliging_host h o
  end.

(** What the handler wrote to the socket [s]. *)
Definition written (s : Z) (h : list (Action Host)) : list byte :=
  flat_map (fun o => match o with HostOp.TcpWriteAll s' bytes => if s' =? s then bytes else [] | _ => [] end) (ops h).

(** The two directions of the tunnel were copied. *)
Definition tunnelled (h : list (Action Host)) : bool :=
  existsb (fun o => match o with HostOp.TcpSpawnCopy from to => (from =? client) && (to =? origin) | _ => false end) (ops h)
  && existsb (fun o => match o with HostOp.TcpCopy from to => (from =? origin) && (to =? client) | _ => false end) (ops h).

Definition with_http_rule (rule : PolicyRule) (c : HttpProxyProofConfig) : HttpProxyProofConfig :=
  mkHttpProxyProofConfig (hp_sandbox_id c) (hp_listen_addr c)
    (set_rules (hp_policy c) (rs_rules (hp_policy c) ++ [rule])) (hp_request_head_limit c)
    (hp_request_head_timeout c) (hp_connect_timeout c) (hp_audit_queue_capacity c) (hp_max_connections c).
Definition with_socks5_rule (rule : PolicyRule) (c : Socks5ProxyProofConfig) : Socks5ProxyProofConfig :=
  mkSocks5ProxyProofConfig (sp_sandbox_id c) (sp_listen_addr c)
    (set_rules (sp_policy c) (rs_rules (sp_policy c) ++ [rule])) (sp_request_timeout c)
    (sp_connect_timeout c) (sp_audit_queue_capacity c) (sp_max_connections c).

Definition http_session (sent : list byte) (config : HttpProxyProofConfig) : Result unit IoError * list (Action Host) :=
  replay (peers sent) [] (handle_http_proxy_stream_with_audit client config).
Definition socks_session (sent : list byte) (config : Socks5ProxyProofConfig) : Result unit IoError * list (Action Host) :=
  replay (peers sent) [] (handle_socks5_proxy_stream_with_audit client config).

Definition test_proof_http_proxy_closes_denied_requests_without_http_response : bool :=
  let sent := lines ["CONNECT github.com:443 HTTP/1.1"; "Host: github.com"] ++ crlf in
  let '(r, h) := http_session sent (http_proxy_config_new proxy_test (loopback 0)) in
  assert_eq r (Ok tt) && assert_eq (written client h) [].

Definition test_proof_http_proxy_forwards_absolute_form_request_body_after_policy_allow : bool :=
  allow_rule "allow-http-localhost" Protocol.Http "localhost" origin_port (fun rule =>
  let sent := lines ["POST http://localhost:40000/proof HTTP/1.1"; "Host: localhost"; "Content-Length: 10"] ++ crlf
              ++ lit "hello-body" in
  let '(r, h) := http_session sent (with_http_rule rule (http_proxy_config_new proxy_test (loopback 0))) in
  let request := written origin h in
  assert_eq r (Ok tt) && starts_with (lines ["POST /proof HTTP/1.1"]) request
  && assert_eq (drop (length request - 10) request) (lit "hello-body") && tunnelled h).

Definition test_proof_connect_tunnels_after_policy_allow : bool :=
  allow_rule "allow-connect-localhost" Protocol.HttpsConnect "localhost" origin_port (fun rule =>
  let sent := lines ["CONNECT localhost:40000 HTTP/1.1"; "Host: localhost"] ++ crlf ++ lit "ping" in
  let '(r, h) := http_session sent (with_http_rule rule (http_proxy_config_new proxy_test (loopback 0))) in
  assert_eq r (Ok tt) && assert_eq (written client h) (lines ["HTTP/1.1 200 Connection Established"] ++ crlf)
  && assert_eq (written origin h) (lit "ping") && tunnelled h).

Definition socks_request_localhost (port : Z) : list byte :=
  [x05; x01; x00] ++ [x05; x01; x00; x03; u8_of 9] ++ lit "localhost" ++ be_bytes 2 port.

(** The method reply, then a reply with [status]. *)
Definition socks_replied (status : Z -> bool) (h : list (Action Host)) : bool :=
  let replies := written client h in
  assert_eq (take 2 replies) [x05; x00] && unwrap_some (replies !! 3%nat) (fun b => status (u8_val b)).

Definition test_proof_socks5_connect_tunnels_after_policy_allow : bool :=
  allow_rule "allow-socks-localhost" Protocol.Socks "localhost" origin_port (fun rule =>
  let '(r, h) := socks_session (socks_request_localhost origin_port)
                   (with_socks5_rule rule (socks5_proxy_config_new proxy_test (loopback 0))) in
  assert_eq r (Ok tt) && socks_replied (Z.eqb 0) h && tunnelled h).

Definition test_proof_socks5_connect_denies_by_default : bool :=
  let '(r, h) := socks_session (socks_request_localhost 443) (socks5_proxy_config_new proxy_test (loopback 0)) in
  assert_eq r (Ok tt) && socks_replied (Z.eqb 2) h.

Definition test_proof_socks5_allowed_but_unreachable_returns_failure : bool :=
  let unused_port := 40001 in
  let_some loopback_only := cidr_v4 (ipv4_new 127 0 0 1) 32 in
  let rule := with_destination_ports (with_destination_cidr (with_protocol
    (policy_rule_new (lit "allow-unused-loopback") RuleEffect.Allow) Protocol.Socks) loopback_only)
    (port_range_single unused_port) in
  let sent := [x05; x01; x00] ++ bytes_of [5; 1; 0; 1; 127; 0; 0; 1] ++ be_bytes 2 unused_port in
  let '(r, h) := socks_session sent (with_socks5_rule rule (socks5_proxy_config_new proxy_test (loopback 0))) in
  is_err r && socks_replied (fun status => negb (status =? 0)) h.

(** ** The tests pass *)

Definition proxy_tests : list (string * bool) :=
  [ ("parses_ipv4_and_icmp_metadata", test_parses_ipv4_and_icmp_metadata);
    ("synthesizes_echo_reply_with_swapped_addresses_and_valid_checksums", test_synthesizes_echo_reply_with_swapped_addresses_and_valid_checksums);
    ("drops_fragmented_packets", test_drops_fragmented_packets);
    ("drops_unsupported_protocols", test_drops_unsupported_protocols);
    ("drops_invalid_icmp_checksum", test_drops_invalid_icmp_checksum);
    ("drops_non_echo_icmp", test_drops_non_echo_icmp);
    ("drops_malformed_packets", test_drops_malformed_packets);
    ("fuzz_smoke_packet_parsers_are_total", test_fuzz_smoke_packet_parsers_are_total);
    ("maps_drop_reason_to_unsupported_event", test_maps_drop_reason_to_unsupported_event);
    ("denied_tcp_request_fails_before_socket_io", test_denied_tcp_request_fails_before_socket_io);
    ("denied_udp_request_fails_before_socket_io", test_denied_udp_request_fails_before_socket_io);
    ("denied_dns_request_fails_before_socket_io", test_denied_dns_request_fails_before_socket_io);
    ("allowed_tcp_request_connects_to_loopback", test_allowed_tcp_request_connects_to_loopback);
    ("allowed_udp_request_round_trips_loopback", test_allowed_udp_request_round_trips_loopback);
    ("allowed_dns_request_round_trips_loopback_payload", test_allowed_dns_request_round_trips_loopback_payload);
    ("resolve_host_port_prefers_ipv4_loopback", test_resolve_host_port_prefers_ipv4_loopback);
    ("parses_http_absolute_form_request", test_parses_http_absolute_form_request);
    ("parses_https_connect", test_parses_https_connect);
    ("rejects_malformed_http_proxy_request", test_rejects_malformed_http_proxy_request);
    ("rejects_http_proxy_ip_literal_authorities", test_rejects_http_proxy_ip_literal_authorities);
    ("rejects_unsupported_http_proxy_versions", test_rejects_unsupported_http_proxy_versions);
    ("parses_socks5_host_connect", test_parses_socks5_host_connect);
    ("parses_socks5_ipv4_connect", test_parses_socks5_ipv4_connect);
    ("rejects_socks_udp_associate", test_rejects_socks_udp_associate);
    ("normalized_proxy_events_have_expected_protocols", test_normalized_proxy_events_have_expected_protocols);
    ("fuzz_smoke_proxy_parsers_are_total", test_fuzz_smoke_proxy_parsers_are_total);
    ("proxy_audit_event_records_http_metadata", test_proxy_audit_event_records_http_metadata);
    ("proxy_audit_event_records_connect_port_and_attribution", test_proxy_audit_event_records_connect_port_and_attribution);
    ("proxy_audit_event_records_socks_host_port_and_attribution", test_proxy_audit_event_records_socks_host_port_and_attribution);
    ("proxy_audit_event_records_unsupported_metadata", test_proxy_audit_event_records_unsupported_metadata);
    ("proxy_connection_limiter_enforces_capacity_and_releases_on_drop", test_proxy_connection_limiter_enforces_capacity_and_releases_on_drop);
    ("proxy_connection_limiter_rejects_zero_capacity", test_proxy_connection_limiter_rejects_zero_capacity);
    ("proxy_configs_default_to_bounded_connections", test_proxy_configs_default_to_bounded_connections);
    ("proxy_proofs_reject_zero_audit_capacity_before_binding", test_proxy_proofs_reject_zero_audit_capacity_before_binding);
    ("proxy_proofs_reject_zero_connection_limit_before_binding", test_proxy_proofs_reject_zero_connection_limit_before_binding);
    ("proof_http_proxy_closes_denied_requests_without_http_response", test_proof_http_proxy_closes_denied_requests_without_http_response);
    ("proof_http_proxy_forwards_absolute_form_request_body_after_policy_allow", test_proof_http_proxy_forwards_absolute_form_request_body_after_policy_allow);
    ("proof_connect_tunnels_after_policy_allow", test_proof_connect_tunnels_after_policy_allow);
    ("proof_socks5_connect_tunnels_after_policy_allow", test_proof_socks5_connect_tunnels_after_policy_allow);
    ("proof_socks5_connect_denies_by_default", test_proof_socks5_connect_denies_by_default);
    ("proof_socks5_allowed_but_unreachable_returns_failure", test_proof_socks5_allowed_but_unreachable_returns_failure)
  ]%string.

Lemma proxy_tests_pass : failures proxy_tests = [].
Proof. vm_compute. reflexivity. Qed.
