(* ===== verification/NetTests.v ===== *)
(** * The unit tests of [foxprox-net], run on the model

    The tests of the transparent TCP, UDP and combined runtimes, translated as in
    [CoreTests].  The test build of the crate keeps its audit records in the queue;
    the model is of the other build, which writes each of them to stderr at once, so
    a test that looks at a record finds it in the lines written there. *)

From S2P Require Import Prelude Text NetAddr Event Policy Flow Dns Inspection AuditLog Config.
From S2P Require Import Effects AuditIo Egress Tcp Udp Combined Limiter CoreTests ProxyTests.

Definition net_test : SandboxId := mkSandboxId (lit "test").

(** The addresses of the tests. *)
Definition sandbox_peer (port : Z) : TransportEndpoint := mkEndpoint (V4 (ipv4_new 10 255 0 2)) port.
Definition web_address : IpAddr := V4 (ipv4_new 93 184 216 34).
Definition web (port : Z) : TransportEndpoint := mkEndpoint web_address port.
Definition web_socket (port : Z) : SocketAddr := mkSocketAddr web_address port.

#[local] Instance flow_order : IterOrder FlowKey UdpFlowRecord := canonical_order FlowKey UdpFlowRecord.
#[local] Instance cache_order : IterOrder (SandboxId * Hostname) DnsCacheEntry :=
  canonical_order (SandboxId * Hostname) DnsCacheEntry.

(** ** Records *)

Definition kind_is (kind : AuditEventKind) (audit : AuditEvent) : bool := assert_eq (ae_kind audit) kind.
Definition protocol_is (protocol : Protocol) (audit : AuditEvent) : bool := assert_eq (ae_protocol audit) (Some protocol).
Definition host_is (text : string) (audit : AuditEvent) : bool := assert_eq (audit_host audit) (Some (lit text)).
Definition action_is (action : DecisionAction) (audit : AuditEvent) : bool :=
  assert_eq (d_action <$> ae_decision audit) (Some action).
Definition source_port_is (port : Z) (audit : AuditEvent) : bool := assert_eq (ep_port <$> ae_source audit) (Some port).
Definition destination_is (port : Z) (audit : AuditEvent) : bool :=
  assert_eq (ep_port <$> ae_destination audit) (Some port) && assert_eq (ae_destination_port audit) (Some port).
Definition attributed_to (source : AttributionSource) (audit : AuditEvent) : bool :=
  assert_eq (at_source <$> ae_attribution audit) (Some source).
Definition allowed_in (audit : AuditEvent) : bool := assert_eq (is_allowed <$> ae_decision audit) (Some true).

(** All of [checks] hold of the record. *)
Definition shows (audit : AuditEvent) (checks : list (AuditEvent -> bool)) : bool :=
  forallb (fun check => check audit) checks.

(** What was written to stderr. *)
Definition logged (h : list (Action Host)) : str :=
  flat_map (fun o => match o with HostOp.StderrWriteAll bytes => bytes | _ => [] end) (ops h).
Definition logs_field (name value : string) (h : list (Action Host)) : bool :=
  contains (logged h) (quoted name ++ lit ":" ++ quoted value).
Definition logs_number (name value : string) (h : list (Action Host)) : bool :=
  contains (logged h) (quoted name ++ lit ":" ++ lit value).
Definition logs_text (text : string) (h : list (Action Host)) : bool := contains (logged h) (lit text).

(** The record of something malformed, with [detail]. *)
Definition logs_unsupported (detail : string) (h : list (Action Host)) : bool :=
  logs_field "kind" "UnsupportedDenied" h && logs_field "protocol" "Unsupported" h
  && logs_field "frontend" "Tun" h && logs_text "action: FailClosed" h && logs_text detail h.

Definition malformed_event (detail : string) : NetworkEvent :=
  NetworkEvent.Unsupported (Some net_test) Frontend.Tun (UnsupportedReason.Malformed (lit detail)).

(** The cache with one answer of the broker's DNS. *)
Definition cache_of (name : string) (now : SystemTime) (k : DnsCache -> bool) : bool :=
  hostname name (fun host =>
  let_some entry := cache_entry_new (mkDnsObservation net_test host DnsQueryType.A now true) [web_address] (from_secs 60) in
  k (cache_insert ∅ entry)).

(** ** [lib.rs]: configuration and policy *)

Definition tcp_defaults : TcpProofConfig := tcp_proof_config_new net_test.

Definition test_default_config_is_bounded : bool :=
  let config := tcp_defaults in
  assert_eq (tp_tcp_port config) 80 && (tp_connect_timeout config <=? from_secs 5)
  && (tp_idle_timeout config <=? from_secs 30) && assert_eq (tp_pending_buffer_limit config) (256 * 1024)
  && (0 <? tp_audit_queue_capacity config) && negb (is_set (tp_tcp_egress_override config)).

Definition test_transparent_http_inspection_is_limited_to_default_http_port : bool :=
  should_inspect_http 80 && negb (should_inspect_http 443).

Definition test_transparent_tls_inspection_is_limited_to_default_https_port : bool :=
  should_inspect_tls 443 && negb (should_inspect_tls 80).

Definition web_attempt (source : option TransportEndpoint) : NetworkEvent :=
  NetworkEvent.TcpConnectAttempt net_test Frontend.Tun source (web 80) attribution_ip_only.

Definition test_default_tcp_policy_denies_host_connect_events : bool :=
  negb (is_allowed (evaluate (tp_policy tcp_defaults) (web_attempt (Some (sandbox_peer 44444))))).

Definition attribution_is (host : option string) (source : AttributionSource) (confidence : AttributionConfidence)
  (a : Attribution) : bool :=
  assert_eq (hostname_str <$> at_hostname a) (lit <$> host) && assert_eq (at_source a) source
  && assert_eq (at_confidence a) confidence.

Definition test_tcp_attribution_uses_dns_cache_when_available : bool :=
  let now := from_secs 100 in
  cache_of "www.example.com" now (fun cache =>
  attribution_is (Some "www.example.com"%string) AttributionSource.DnsCache AttributionConfidence.Medium
    (tcp_attribution_for_destination tcp_defaults (Some cache) web_address now)).

Definition test_tcp_attribution_falls_back_to_ip_only_without_dns_cache : bool :=
  attribution_is None AttributionSource.IpOnly AttributionConfidence.Low
    (tcp_attribution_for_destination tcp_defaults None web_address (from_secs 100)).

(** ** [lib.rs]: records *)

Definition tcp_audit_of (event : NetworkEvent) : AuditEvent :=
  transparent_tcp_audit_event 0 event (evaluate policy_rule_set_default event).

(** A ClientHello with these names. *)
Definition hello (sni : option string) (ech_present : bool) (dns_hostname : option string) (mismatch : bool)
  (k : NetworkEvent -> bool) : bool :=
  let parsed o := match o with
                  | Some text => result_map Some (hostname_parse (lit text))
                  | None => Ok None
                  end in
  let_ok sni := parsed sni in
  let_ok dns_hostname := parsed dns_hostname in
  k (NetworkEvent.TlsClientHello net_test Frontend.Tun (web 443) sni ech_present dns_hostname mismatch).

Definition test_tls_audit_event_records_dns_hostname_and_mismatch_metadata : bool :=
  hello (Some "visible.example.com"%string) false (Some "dns.example.com"%string) true (fun event =>
  shows (tcp_audit_of event)
    [kind_is AuditEventKind.SniDnsMismatchDenied; host_is "visible.example.com";
     attributed_to AttributionSource.TlsSni; action_is DecisionAction.FailClosed]).

Definition test_transparent_tcp_audit_event_records_endpoints_and_decision : bool :=
  shows (tcp_audit_of (web_attempt (Some (sandbox_peer 44444))))
    [kind_is AuditEventKind.TcpConnect; protocol_is Protocol.Tcp; source_port_is 44444; destination_is 80;
     fun audit => is_set (ae_decision audit)].

Definition test_transparent_http_audit_event_records_origin_metadata : bool :=
  http_method "GET" (fun method => hostname "example.com" (fun host =>
  let event := NetworkEvent.HttpRequest net_test Frontend.Tun method (mkOrigin (lit "http") host 80) (lit "/proof?q=1") in
  shows (tcp_audit_of event)
    [kind_is AuditEventKind.TransparentHttpRequest; protocol_is Protocol.Http; host_is "example.com";
     fun audit => assert_eq (ae_destination_port audit) (Some 80);
     fun audit => assert_eq (ae_path_and_query audit) (Some (lit "/proof?q=1"));
     attributed_to AttributionSource.HttpHostHeader])).

Definition test_transparent_tls_audit_event_records_sni_and_endpoint : bool :=
  hello (Some "example.com"%string) false None false (fun event =>
  shows (tcp_audit_of event)
    [kind_is AuditEventKind.TlsClientHello; protocol_is Protocol.Tls; host_is "example.com"; destination_is 443;
     attributed_to AttributionSource.TlsSni]).

Definition test_transparent_tls_mismatch_audit_uses_specific_denial_kind : bool :=
  hello (Some "wrong.example"%string) false (Some "example.com"%string) true (fun event =>
  kind_is AuditEventKind.SniDnsMismatchDenied (tcp_audit_of event)).

Definition test_transparent_tls_hidden_sni_audit_uses_specific_denial_kind : bool :=
  hello None true (Some "example.com"%string) false (fun event =>
  kind_is AuditEventKind.HiddenSniDenied (tcp_audit_of event)).

Definition test_transparent_tls_audit_uses_dns_cache_source_when_sni_is_absent : bool :=
  hello None true (Some "dns.example.com"%string) false (fun event =>
  shows (tcp_audit_of event)
    [host_is "dns.example.com"; attributed_to AttributionSource.DnsCache;
     fun audit => assert_eq (at_confidence <$> ae_attribution audit) (Some AttributionConfidence.Medium)]).

Definition unsupported_record (detail : string) (audit : AuditEvent) : bool :=
  shows audit
    [kind_is AuditEventKind.UnsupportedDenied; protocol_is Protocol.Unsupported;
     fun audit => assert_eq (ae_frontend audit) Frontend.Tun; action_is DecisionAction.FailClosed;
     fun audit => unwrap_some (ae_detail audit) (fun text => contains text (lit detail))].

Definition test_transparent_tcp_audit_event_records_unsupported_metadata : bool :=
  unsupported_record "bad transparent data" (tcp_audit_of (malformed_event "bad transparent data")).

(** A flow with these first bytes, pumped on a socket that has no more; it fails, and
    not for lack of room in the audit queue. *)
Definition pump_fails (pump : InspectingFlow -> AuditIO Inspected) (source : Z) (port : Z) (bytes : list byte)
  (detail : string) : bool :=
  let flow := mkInspectingFlow (sandbox_peer source) (web_socket port) bytes 0 0 in
  let '((_, r), h) := replay obliging_host [] (pump flow) in
  unwrap_err r (fun error => assert_eq (io_kind error) IoErrorKind.Other) && logs_unsupported detail h.

Definition with_buffer (capacity : Z) (k : AuditBuffer -> bool) : bool := unwrap (net_audit_buffer capacity) k.

Definition test_malformed_transparent_http_head_emits_unsupported_audit : bool :=
  with_buffer 8 (fun audit =>
  pump_fails (http_pump tcp_defaults 0 audit) 44444 80 (lines ["GET / HTTP/1.1"] ++ crlf) "HTTP request head").

Definition test_malformed_transparent_tls_hello_emits_unsupported_audit : bool :=
  with_buffer 8 (fun audit =>
  pump_fails (tls_pump tcp_defaults 0 None audit) 44445 443 (bytes_of [0x15; 3; 3; 0; 4; 0; 0; 0; 0]) "TLS ClientHello").

Definition test_tcp_flow_closed_audit_records_bytes_duration_and_endpoints : bool :=
  let active := mkActiveFlow (sandbox_peer 44444) (web_socket 80) 0 [] [] true true 123 456 (-5000000) 0 in
  with_buffer 8 (fun audit =>
  let '((_, r), h) := replay obliging_host [] (emit_tcp_flow_closed_audit audit net_test active) in
  assert_eq r (Ok tt) && logs_field "kind" "TcpFlowClosed" h && logs_field "protocol" "Tcp" h
  && logs_field "source" "10.255.0.2:44444" h && logs_field "destination" "93.184.216.34:80" h
  && logs_number "bytes_from_sandbox" "123" h && logs_number "bytes_to_sandbox" "456" h
  && logs_number "flow_duration_ms" "5" h).

Definition test_transparent_tcp_audit_rejects_zero_capacity : bool := invalid_input (net_audit_buffer 0).

(** ** [udp.rs]: configuration, policy and limits *)

Definition udp_defaults : UdpDnsProofConfig := udp_dns_proof_config_new net_test.

Definition test_default_udp_dns_config_is_bounded : bool :=
  let config := udp_defaults in
  assert_eq (up_dns_port config) 53 && assert_eq (up_broker_ip config) (ipv4_new 10 255 0 1)
  && (4 <=? up_udp_packet_capacity config) && (1500 <=? up_udp_payload_capacity config)
  && (up_upstream_timeout config <=? from_secs 5) && (up_udp_forward_timeout config <=? from_secs 3)
  && (0 <? up_audit_queue_capacity config) && (0 <? up_max_worker_threads config) && (0 <? up_max_udp_flows config).

Definition test_udp_classification_marks_port_443_as_quic : bool :=
  assert_eq (udp_classification_for_port 443) (Protocol.Quic, FlowTimeoutClass.Quic)
  && assert_eq (udp_classification_for_port 12345) (Protocol.Udp, FlowTimeoutClass.GenericUdp).

Definition quic_attempt : NetworkEvent :=
  NetworkEvent.UdpFlowAttempt net_test Frontend.Tun (sandbox_peer 44444) (web 443) attribution_ip_only Protocol.Quic.

Definition test_default_udp_policy_denies_host_forwarding_events : bool :=
  negb (is_allowed (evaluate (up_policy udp_defaults) quic_attempt)).

Definition test_worker_limiter_enforces_capacity_and_releases_on_drop : bool :=
  let_ok limiter := worker_limiter_new 1 in enforces_capacity limiter.

Definition test_worker_limiter_rejects_zero_capacity : bool := invalid_input (worker_limiter_new 0).

Definition test_udp_flow_limit_rejects_zero_capacity : bool := invalid_input (validate_max_udp_flows 0).

(** ** [udp.rs]: records *)

Definition udp_metadata (source_ip source_port local_ip : Z) : UdpMetadata :=
  mkUdpMetadata (mkSmolEndpoint source_ip source_port) (Some local_ip).

Definition test_udp_audit_event_records_unsupported_metadata : bool :=
  let event := malformed_event "bad dns" in
  unsupported_record "bad dns" (udp_audit_event 0 event (evaluate policy_rule_set_default event)).

Definition spawns_worker (h : list (Action Host)) : bool :=
  existsb (fun o => match o with HostOp.SpawnWorker _ => true | _ => false end) (ops h).

Definition test_malformed_broker_dns_query_emits_unsupported_audit : bool :=
  with_buffer 8 (fun audit =>
  let metadata := udp_metadata (ipv4_new 10 255 0 2) 44444 (up_broker_ip udp_defaults) in
  let '((_, r), h) := replay obliging_host [] (handle_dns_datagram udp_defaults audit [xde; xad; xbe; xef] metadata) in
  assert_eq r (Ok tt) && logs_unsupported "malformed broker DNS query" h && negb (spawns_worker h)).

Definition test_udp_audit_event_records_flow_metadata : bool :=
  shows (udp_audit_event 0 quic_attempt (decision_allow (lit "allow-quic")))
    [kind_is AuditEventKind.QuicCandidateFlowCreated; protocol_is Protocol.Quic; source_port_is 44444;
     destination_is 443; allowed_in].

Definition dns_query_of (name : string) (k : NetworkEvent -> bool) : bool :=
  hostname name (fun host => k (NetworkEvent.DnsQuery net_test host (lit "A") Frontend.Tun)).

Definition test_dns_audit_event_records_query_metadata : bool :=
  dns_query_of "example.com" (fun event =>
  shows (udp_audit_event 0 event (decision_allow (lit "broker-dns")))
    [kind_is AuditEventKind.DnsQuery; protocol_is Protocol.Dns; host_is "example.com";
     fun audit => assert_eq (ae_dns_query_type audit) (Some (lit "A")); allowed_in]).

(** A configuration for one flow, with a rule for QUIC on its forward port. *)
Definition one_flow_config : UdpDnsProofConfig :=
  let c := udp_defaults in
  let rule := with_destination_ports (with_protocol (policy_rule_new (lit "allow-udp-443") RuleEffect.Allow) Protocol.Quic)
                (port_range_single 443) in
  mkUdpDnsProofConfig (up_sandbox_id c) (up_broker_ip c) (up_prefix_len c) (up_mtu c) (up_dns_port c)
    (up_upstream_dns c) (up_udp_packet_capacity c) (up_udp_payload_capacity c) (up_upstream_timeout c)
    (up_udp_forward_ports c ++ [443]) (up_udp_forward_timeout c)
    (set_rules (up_policy c) (rs_rules (up_policy c) ++ [rule])) (up_audit_queue_capacity c)
    (up_max_worker_threads c) 1.

Definition peer_key (source_port : Z) (destination : IpAddr) : FlowKey :=
  flow_key_udp (V4 (ipv4_new 10 255 0 2)) source_port destination 443.

Definition test_udp_flow_limit_denies_new_flow_before_record_or_worker_spawn : bool :=
  let config := one_flow_config in
  let flows := record_sandbox_datagram ∅ (peer_key 40000 web_address) FlowTimeoutClass.Quic attribution_ip_only 1 0 in
  with_buffer 8 (fun audit =>
  let datagram := mkUdpForwardDatagram (mkUdpForwardSocket 443 0) [x01; x02; x03]
                    (udp_metadata (ipv4_new 10 255 0 2) 40001 (up_broker_ip config)) in
  let '((st, r), h) := replay obliging_host [] (handle_udp_forward_datagram config datagram (mkUdpState ∅ flows audit)) in
  assert_eq r (Ok tt) && assert_eq (flow_len (st_flows st)) 1%nat
  && assert_eq (flow_get (st_flows st) (peer_key 40001 (V4 (up_broker_ip config)))) None
  && negb (spawns_worker h) && logs_field "kind" "UdpPacketDenied" h && logs_text "ResourceLimit" h
  && logs_text "max_udp_flows" h).

Definition example_observation (k : DnsResponseObservation -> bool) : bool :=
  hostname "example.com" (fun host =>
  k (mkDnsResponseObservation 7 (Some host) (Some DnsQueryType.A) 0 false
       [mkDnsAddressRecord host web_address (from_secs 60)])).

Definition test_dns_response_audit_records_rcode_and_answers : bool :=
  example_observation (fun observation => with_buffer 8 (fun audit =>
  let '((_, r), h) := replay obliging_host [] (emit_dns_response_audit audit udp_defaults observation) in
  assert_eq r (Ok tt) && logs_field "kind" "DnsQuery" h && logs_field "protocol" "Dns" h
  && logs_field "hostname" "example.com" h && logs_field "dns_query_type" "A" h && logs_number "dns_rcode" "0" h
  && contains (logged h) (quoted "dns_answers" ++ lit ":[" ++ quoted "93.184.216.34" ++ lit "]")
  && logs_text "action: Allow" h)).

Definition test_udp_flow_expired_audit_records_bytes_duration_and_endpoints : bool :=
  let now := from_secs 100 in
  let flow := udp_flow_record_new (peer_key 44444 web_address) FlowTimeoutClass.Quic attribution_ip_only now in
  let flow := record_host_bytes (record_sandbox_bytes flow 123 now) 456 (now + from_millis 5) in
  with_buffer 8 (fun audit =>
  let '((_, r), h) := replay obliging_host [] (emit_udp_flow_expired_audit audit net_test flow) in
  assert_eq r (Ok tt) && logs_field "kind" "UdpFlowExpired" h && logs_field "protocol" "Udp" h
  && logs_field "source" "10.255.0.2:44444" h && logs_field "destination" "93.184.216.34:443" h
  && logs_number "destination_port" "443" h && logs_number "bytes_from_sandbox" "123" h
  && logs_number "bytes_to_sandbox" "456" h && logs_number "flow_duration_ms" "5" h).

Definition test_udp_audit_rejects_zero_capacity : bool := invalid_input (net_audit_buffer 0).

Definition test_udp_attribution_uses_dns_cache_for_destination_ip : bool :=
  let now := from_secs 100 in
  cache_of "video.example.com" now (fun cache =>
  attribution_is (Some "video.example.com"%string) AttributionSource.DnsCache AttributionConfidence.Medium
    (udp_attribution_for_destination udp_defaults cache web_address now)).

(** ** [combined.rs] *)

Definition combined_defaults : CombinedTransparentProofConfig := combined_config_new net_test.

(** The default configuration with these ports and bridges. *)
Definition bridged (additional : list Z) (http socks5 : option ExplicitProxyBridgeConfig) : CombinedTransparentProofConfig :=
  let c := combined_defaults in
  mkCombinedTransparentProofConfig (cp_sandbox_id c) (cp_broker_ip c) (cp_prefix_len c) (cp_mtu c) (cp_tcp_port c)
    additional (cp_connect_timeout c) (cp_pending_buffer_limit c) (cp_idle_timeout c) (cp_dns_port c)
    (cp_upstream_dns c) (cp_udp_packet_capacity c) (cp_udp_payload_capacity c) (cp_upstream_timeout c)
    (cp_udp_forward_ports c) (cp_udp_forward_timeout c) (cp_policy c) (cp_audit_queue_capacity c)
    (cp_max_worker_threads c) (cp_max_udp_flows c) http socks5.

Definition test_default_combined_transparent_config_is_bounded : bool :=
  let config := combined_defaults in
  assert_eq (cp_tcp_port config) 80 && assert_eq (cp_additional_tcp_ports config) []
  && assert_eq (tcp_ports config) [80] && assert_eq (cp_dns_port config) 53
  && assert_eq (cp_broker_ip config) (ipv4_new 10 255 0 1) && (cp_connect_timeout config <=? from_secs 5)
  && (cp_idle_timeout config <=? from_secs 30) && assert_eq (cp_pending_buffer_limit config) (256 * 1024)
  && (4 <=? cp_udp_packet_capacity config) && (1500 <=? cp_udp_payload_capacity config)
  && (0 <? cp_audit_queue_capacity config) && (0 <? cp_max_worker_threads config) && (0 <? cp_max_udp_flows config)
  && negb (is_set (cp_http_proxy_bridge config)) && negb (is_set (cp_socks5_proxy_bridge config)).

Definition test_combined_rejects_zero_audit_capacity_before_tun_setup : bool := invalid_input (net_audit_buffer 0).
Definition test_combined_rejects_zero_worker_capacity_before_tun_setup : bool := invalid_input (worker_limiter_new 0).
Definition test_combined_rejects_zero_udp_flow_capacity_before_tun_setup : bool := invalid_input (validate_max_udp_flows 0).

Definition test_combined_deduplicates_additional_transparent_tcp_ports : bool :=
  assert_eq (tcp_ports (bridged [443; 80; 8080; 443] None None)) [80; 443; 8080].

Definition loopback_bridge (sandbox_port backend_port : Z) : option ExplicitProxyBridgeConfig :=
  Some (mkExplicitProxyBridgeConfig sandbox_port (loopback backend_port)).

Definition test_combined_rejects_invalid_http_proxy_bridge_config : bool :=
  forallb (fun config => invalid_input (validate_http_proxy_bridge config))
    [bridged [] (loopback_bridge 80 18080) None;
     bridged [] (loopback_bridge 8080 0) None;
     bridged [8080] (loopback_bridge 8080 18080) None;
     bridged [] (loopback_bridge 8080 18080) (loopback_bridge 8080 11080)].

Definition test_combined_lifecycle_audit_records_tun_and_proxy_metadata : bool :=
  let config := bridged [] (loopback_bridge 8080 18080) None in
  let_some bridge := cp_http_proxy_bridge config in
  let audit := audit_buffer_new 4 in
  let '((_, tun), tun_log) :=
    replay obliging_host [] (emit_combined_lifecycle_audit audit config AuditEventKind.TunConfigured None) in
  let '((_, proxy), proxy_log) :=
    replay obliging_host [] (emit_combined_lifecycle_audit audit config AuditEventKind.ProxyListenerConfigured
                            (Some (lit "http", bridge))) in
  assert_eq tun (Ok tt) && assert_eq proxy (Ok tt) && logs_field "kind" "TunConfigured" tun_log
  && logs_field "sandbox_id" "test" tun_log && logs_text "tcp_ports" tun_log
  && logs_field "kind" "ProxyListenerConfigured" proxy_log && logs_field "destination" "10.255.0.1:8080" proxy_log.

(** The listener is installed: the socket was told to listen on the port. *)
Definition installs_listener (tcp_port : Z) : bool :=
  let '(r, h) := replay obliging_host [] (install_tcp_listener 3 tcp_port) in
  assert_eq r (Ok tt)
  && existsb (fun o => match o with HostOp.SockListen s port => (s =? 3) && (port =? tcp_port) | _ => false end) (ops h).

Definition test_combined_installs_tcp_listener_before_ready_point : bool := installs_listener 80.
Definition test_combined_installs_proxy_bridge_listener_before_ready_point : bool := installs_listener 8080.

(** ** The tests pass *)

Definition net_tests : list (string * bool) :=
  [ ("default_config_is_bounded", test_default_config_is_bounded);
    ("transparent_http_inspection_is_limited_to_default_http_port", test_transparent_http_inspection_is_limited_to_default_http_port);
    ("transparent_tls_inspection_is_limited_to_default_https_port", test_transparent_tls_inspection_is_limited_to_default_https_port);
    ("default_tcp_policy_denies_host_connect_events", test_default_tcp_policy_denies_host_connect_events);
    ("tcp_attribution_uses_dns_cache_when_available", test_tcp_attribution_uses_dns_cache_when_available);
    ("tcp_attribution_falls_back_to_ip_only_without_dns_cache", test_tcp_attribution_falls_back_to_ip_only_without_dns_cache);
    ("tls_audit_event_records_dns_hostname_and_mismatch_metadata", test_tls_audit_event_records_dns_hostname_and_mismatch_metadata);
    ("transparent_tcp_audit_event_records_endpoints_and_decision", test_transparent_tcp_audit_event_records_endpoints_and_decision);
    ("transparent_http_audit_event_records_origin_metadata", test_transparent_http_audit_event_records_origin_metadata);
    ("transparent_tls_audit_event_records_sni_and_endpoint", test_transparent_tls_audit_event_records_sni_and_endpoint);
    ("transparent_tls_mismatch_audit_uses_specific_denial_kind", test_transparent_tls_mismatch_audit_uses_specific_denial_kind);
    ("transparent_tls_hidden_sni_audit_uses_specific_denial_kind", test_transparent_tls_hidden_sni_audit_uses_specific_denial_kind);
    ("transparent_tls_audit_uses_dns_cache_source_when_sni_is_absent", test_transparent_tls_audit_uses_dns_cache_source_when_sni_is_absent);
    ("transparent_tcp_audit_event_records_unsupported_metadata", test_transparent_tcp_audit_event_records_unsupported_metadata);
    ("malformed_transparent_http_head_emits_unsupported_audit", test_malformed_transparent_http_head_emits_unsupported_audit);
    ("malformed_transparent_tls_hello_emits_unsupported_audit", test_malformed_transparent_tls_hello_emits_unsupported_audit);
    ("tcp_flow_closed_audit_records_bytes_duration_and_endpoints", test_tcp_flow_closed_audit_records_bytes_duration_and_endpoints);
    ("transparent_tcp_audit_rejects_zero_capacity", test_transparent_tcp_audit_rejects_zero_capacity);
    ("default_udp_dns_config_is_bounded", test_default_udp_dns_config_is_bounded);
    ("udp_classification_marks_port_443_as_quic", test_udp_classification_marks_port_443_as_quic);
    ("default_udp_policy_denies_host_forwarding_events", test_default_udp_policy_denies_host_forwarding_events);
    ("worker_limiter_enforces_capacity_and_releases_on_drop", test_worker_limiter_enforces_capacity_and_releases_on_drop);
    ("worker_limiter_rejects_zero_capacity", test_worker_limiter_rejects_zero_capacity);
    ("udp_flow_limit_rejects_zero_capacity", test_udp_flow_limit_rejects_zero_capacity);
    ("udp_audit_event_records_unsupported_metadata", test_udp_audit_event_records_unsupported_metadata);
    ("malformed_broker_dns_query_emits_unsupported_audit", test_malformed_broker_dns_query_emits_unsupported_audit);
    ("udp_audit_event_records_flow_metadata", test_udp_audit_event_records_flow_metadata);
    ("dns_audit_event_records_query_metadata", test_dns_audit_event_records_query_metadata);
    ("udp_flow_limit_denies_new_flow_before_record_or_worker_spawn", test_udp_flow_limit_denies_new_flow_before_record_or_worker_spawn);
    ("dns_response_audit_records_rcode_and_answers", test_dns_response_audit_records_rcode_and_answers);
    ("udp_flow_expired_audit_records_bytes_duration_and_endpoints", test_udp_flow_expired_audit_records_bytes_duration_and_endpoints);
    ("udp_audit_rejects_zero_capacity", test_udp_audit_rejects_zero_capacity);
    ("udp_attribution_uses_dns_cache_for_destination_ip", test_udp_attribution_uses_dns_cache_for_destination_ip);
    ("default_combined_transparent_config_is_bounded", test_default_combined_transparent_config_is_bounded);
    ("combined_rejects_zero_audit_capacity_before_tun_setup", test_combined_rejects_zero_audit_capacity_before_tun_setup);
    ("combined_rejects_zero_worker_capacity_before_tun_setup", test_combined_rejects_zero_worker_capacity_before_tun_setup);
    ("combined_rejects_zero_udp_flow_capacity_before_tun_setup", test_combined_rejects_zero_udp_flow_capacity_before_tun_setup);
    ("combined_deduplicates_additional_transparent_tcp_ports", test_combined_deduplicates_additional_transparent_tcp_ports);
    ("combined_rejects_invalid_http_proxy_bridge_config", test_combined_rejects_invalid_http_proxy_bridge_config);
    ("combined_lifecycle_audit_records_tun_and_proxy_metadata", test_combined_lifecycle_audit_records_tun_and_proxy_metadata);
    ("combined_installs_tcp_listener_before_ready_point", test_combined_installs_tcp_listener_before_ready_point);
    ("combined_installs_proxy_bridge_listener_before_ready_point", test_combined_installs_proxy_bridge_listener_before_ready_point)
  ]%string.

Lemma net_tests_pass : failures net_tests = [].
Proof. vm_compute. reflexivity. Qed.
