(* ===== verification/CliTests.v ===== *)
(** * The unit tests of the two programs, run on the model

    The tests of [foxprox-cli] and [foxprox-setup], translated as in [CoreTests].
    A configuration file is given as the tables the [toml] crate reads from it; the
    tests of the setup listener need a file system and are not translated. *)

From S2P Require Import Prelude Text NetAddr Event Policy Flow Dns Inspection AuditLog Config.
From S2P Require Import Effects AuditIo Args Os Setup RunConfig Cli Icmp CoreTests ProxyTests NetTests.

(** ** [run_config.rs] *)

(** The file reads as [raw]. *)
Definition parsed_config (raw : RawConfig) : Result LauncherConfig IoError :=
  parse_launcher_config (fun _ => Ok raw) [].

Definition test_parses_minimal_default_deny_config : bool :=
  let_ok config := parsed_config raw_config_default in
  assert_eq (sandbox_str (lc_sandbox_id config)) (lit "foxprox-run")
  && assert_eq (lc_transparent_tcp_ports config) [80; 443] && assert_eq (lc_udp_forward_ports config) [443]
  && assert_eq (lc_http_proxy_port config) (Some 8080) && assert_eq (lc_socks5_proxy_port config) (Some 1080)
  && assert_eq (rs_rules (lc_policy config)) []
  && assert_eq (rs_default_action (lc_policy config)) DecisionAction.DenyDrop.

(** [[policy]] with these rules, the other tables left out. *)
Definition raw_rules (default_action : option str) (rules : list RawRule) : RawPolicy :=
  mkRawPolicy default_action None None None None [] rules.

Definition raw_with_rule (rule : RawRule) : RawConfig :=
  mkRawConfig raw_sandbox_default raw_network_default raw_proxy_default raw_bwrap_default (raw_rules None [rule]).

Definition allow_example_http : RawRule :=
  {| rr_id := lit "allow-example-http"; rr_effect := lit "allow"; rr_protocol := Some (lit "http");
     rr_destination_cidr := None; rr_destination_ports := Some (lit "80"); rr_hostname := None;
     rr_domain_suffix := Some (lit "example.com"); rr_origin_scheme := Some (lit "http");
     rr_http_methods := Some [lit "GET"; lit "HEAD"]; rr_http_path_prefix := Some (lit "/");
     rr_min_attribution := Some (lit "high") |}.

Definition deny_private_tcp : RawRule :=
  {| rr_id := lit "deny-private-tcp"; rr_effect := lit "deny"; rr_protocol := Some (lit "tcp");
     rr_destination_cidr := Some (lit "10.0.0.0/8"); rr_destination_ports := Some (lit "1-65535"); rr_hostname := None;
     rr_domain_suffix := None; rr_origin_scheme := None; rr_http_methods := None; rr_http_path_prefix := None;
     rr_min_attribution := None |}.

Definition browser_config : RawConfig :=
  let sandbox := raw_sandbox_default in
  let network := raw_network_default in
  mkRawConfig
    (mkRawSandbox (lit "browser") (raw_ifname sandbox) (raw_setup_socket_host sandbox) (raw_setup_socket_sandbox sandbox)
       (raw_setup_helper_host sandbox) (raw_resolv_conf sandbox) (raw_keep_cap_net_raw sandbox))
    (mkRawNetwork (raw_sandbox_ip network) (raw_broker_ip network) (raw_prefix_len network) (raw_mtu network)
       (raw_upstream_dns network) [80; 443; 443] [443] (raw_audit_queue_capacity network)
       (raw_max_worker_threads network) (raw_max_udp_flows network))
    raw_proxy_default raw_bwrap_default (raw_rules (Some (lit "deny-drop")) [allow_example_http; deny_private_tcp]).

Definition test_parses_policy_rules : bool :=
  let_ok config := parsed_config browser_config in
  assert_eq (sandbox_str (lc_sandbox_id config)) (lit "browser") && assert_eq (lc_transparent_tcp_ports config) [80; 443]
  && match rs_rules (lc_policy config) with
     | [first; second] => assert_eq (r_id first) (lit "allow-example-http") && assert_eq (r_effect second) RuleEffect.Deny
     | _ => false
     end.

(** An allow rule with one more key. *)
Definition allow_raw (id : string) (protocol destination_cidr destination_ports : option str) : RawRule :=
  mkRawRule (lit id) (lit "allow") protocol destination_cidr destination_ports None None None None None None.

Definition test_rejects_invalid_port_ranges : bool :=
  invalid_input (parsed_config (raw_with_rule (allow_raw "bad" None None (Some (lit "443-80"))))).

Definition test_parses_ipv6_cidr_rule : bool :=
  let rule := allow_raw "allow-v6" (Some (lit "tcp")) (Some (lit "2001:db8::/32")) None in
  let_ok config := parsed_config (raw_with_rule rule) in
  match rs_rules (lc_policy config) with
  | [rule] => match r_destination_cidr rule with
              | Some (Cidr.V6 network prefix) =>
                  assert_eq (Some (V6 network)) (parse_ip (lit "2001:db8::")) && assert_eq prefix 32
              | _ => false
              end
  | _ => false
  end.

(** ** [foxprox-cli/src/main.rs] *)

Definition test_usage_mentions_combined_transparent_proof : bool :=
  forallb (fun text => contains usage (lit text))
    ["foxprox run --config PATH"; "proof-transparent"; "--max-workers"; "--udp-forward-port"; "--tcp-forward-port";
     "--http-proxy-port"; "--socks5-proxy-port"].

Definition any_address : SocketAddr := mkSocketAddr (V4 (ipv4_new 0 0 0 0)) 0.

Definition error_says {A} (r : Result A IoError) (text : string) : bool :=
  invalid_input r && unwrap_err r (fun error => contains (io_message error) (lit text)).

Definition test_http_proxy_backend_loopback_validation_accepts_loopback_only : bool :=
  let_ok _ := validate_http_proxy_backend_loopback (loopback 0) in
  let_some v6 := parse_ip (lit "::1") in
  let_ok _ := validate_http_proxy_backend_loopback (mkSocketAddr v6 0) in
  error_says (validate_http_proxy_backend_loopback any_address) "loopback-only".

Definition test_transparent_proxy_bridge_input_validation_rejects_conflicts_before_backend_start : bool :=
  invalid_input (validate_transparent_proxy_bridge_inputs [80] (Some 8080) (loopback 0) (Some 8080) (loopback 0))
  && invalid_input (validate_transparent_proxy_bridge_inputs [80] None (loopback 0) (Some 1080) any_address)
  && error_says (validate_transparent_proxy_bridge_inputs [80; 443] (Some 443) (loopback 0) None (loopback 0))
       "transparent TCP ports".

Definition test_icmp_audit_event_records_message_metadata : bool :=
  let_some source := parse_ip (lit "10.255.0.2") in
  let_some destination := parse_ip (lit "10.255.0.1") in
  let audit := icmp_audit_event 0 (NetworkEvent.IcmpMessage net_test source destination 8 0)
                 (decision_allow (lit "allow-icmp")) in
  shows audit
    [kind_is AuditEventKind.IcmpMessage; protocol_is Protocol.Icmp;
     fun audit => assert_eq ((fun e => ip_display (ep_ip e)) <$> ae_source audit) (Some (lit "10.255.0.2"));
     fun audit => assert_eq ((fun e => ip_display (ep_ip e)) <$> ae_destination audit) (Some (lit "10.255.0.1"));
     fun audit => unwrap_some (ae_detail audit) (fun text => contains text (lit "type=8")); allowed_in].

Definition test_icmp_audit_rejects_zero_capacity : bool := invalid_input (audit_buffer 0).

(** ** [foxprox-setup/src/main.rs] *)

(** [parse_args] of these words, with the variable of the setup socket unset. *)
Definition setup_args (words : list string) : Result SetupArgs IoError := setup_parse_args None (map lit words).

Definition test_parse_args_accepts_resolv_conf_path : bool :=
  let_ok args := setup_args ["--setup-socket"; "/tmp/setup.sock"; "--resolv-conf"; "/tmp/resolv.conf"; "--"; "/bin/true"] in
  assert_eq (su_resolv_conf args) (lit "/tmp/resolv.conf").

Definition test_parse_args_accepts_proxy_environment_values : bool :=
  let_ok args := setup_args
    ["--setup-socket"; "/tmp/setup.sock"; "--http-proxy"; "http://10.255.0.1:8080"; "--https-proxy";
     "http://10.255.0.1:8080"; "--all-proxy"; "socks5h://10.255.0.1:1080"; "--no-proxy"; "localhost,127.0.0.1"; "--";
     "/bin/true"] in
  let env := su_proxy_env args in
  assert_eq (xe_http_proxy env) (Some (lit "http://10.255.0.1:8080"))
  && assert_eq (xe_https_proxy env) (Some (lit "http://10.255.0.1:8080"))
  && assert_eq (xe_all_proxy env) (Some (lit "socks5h://10.255.0.1:1080"))
  && assert_eq (xe_no_proxy env) (Some (lit "localhost,127.0.0.1")).

(** [envs.get(name)] of the command's variables, the last setting of a name. *)
Definition env_is (envs : list (str * str)) (name value : string) : bool :=
  assert_eq (snd <$> List.find (fun v => bool_decide (v.1 = lit name)) (rev envs)) (Some (lit value)).

Definition test_apply_proxy_env_sets_upper_and_lower_case_variables : bool :=
  let envs := apply_proxy_env
    (mkProxyEnv (Some (lit "http://10.255.0.1:8080")) (Some (lit "http://10.255.0.1:8080"))
       (Some (lit "socks5h://10.255.0.1:1080")) (Some (lit "localhost"))) in
  forallb (fun v => env_is envs v.1 v.2)
    [("HTTP_PROXY", "http://10.255.0.1:8080"); ("http_proxy", "http://10.255.0.1:8080");
     ("HTTPS_PROXY", "http://10.255.0.1:8080"); ("https_proxy", "http://10.255.0.1:8080");
     ("ALL_PROXY", "socks5h://10.255.0.1:1080"); ("all_proxy", "socks5h://10.255.0.1:1080");
     ("NO_PROXY", "localhost"); ("no_proxy", "localhost")]%string.

(** What was written to the file at [path], opened and truncated first. *)
Definition file_contents (path : str) (h : list (Action Os)) : option str :=
  match map (fun e : Action Os => projT1 e) h with
  | [OsOp.OpenTruncate path'; OsOp.WriteAll _ bytes] => if bool_decide (path' = path) then Some bytes else None
  | _ => None
  end.

Definition test_write_resolv_conf_points_dns_at_broker : bool :=
  let path := lit "/tmp/resolv.conf" in
  let '(r, h) := replay obliging_os [] (write_resolv_conf path (ipv4_new 10 255 0 1)) in
  let_ok _ := r in
  let_some contents := file_contents path h in
  contains contents (lit "nameserver 10.255.0.1") && contains contents (lit "broker-controlled").

(** ** The tests pass *)

Definition cli_tests : list (string * bool) :=
  [ ("parses_minimal_default_deny_config", test_parses_minimal_default_deny_config);
    ("parses_policy_rules", test_parses_policy_rules);
    ("rejects_invalid_port_ranges", test_rejects_invalid_port_ranges);
    ("parses_ipv6_cidr_rule", test_parses_ipv6_cidr_rule);
    ("usage_mentions_combined_transparent_proof", test_usage_mentions_combined_transparent_proof);
    ("http_proxy_backend_loopback_validation_accepts_loopback_only", test_http_proxy_backend_loopback_validation_accepts_loopback_only);
    ("transparent_proxy_bridge_input_validation_rejects_conflicts_before_backend_start", test_transparent_proxy_bridge_input_validation_rejects_conflicts_before_backend_start);
    ("icmp_audit_event_records_message_metadata", test_icmp_audit_event_records_message_metadata);
    ("icmp_audit_rejects_zero_capacity", test_icmp_audit_rejects_zero_capacity);
    ("parse_args_accepts_resolv_conf_path", test_parse_args_accepts_resolv_conf_path);
    ("parse_args_accepts_proxy_environment_values", test_parse_args_accepts_proxy_environment_values);
    ("apply_proxy_env_sets_upper_and_lower_case_variables", test_apply_proxy_env_sets_upper_and_lower_case_variables);
    ("write_resolv_conf_points_dns_at_broker", test_write_resolv_conf_points_dns_at_broker)
  ]%string.

Lemma cli_tests_pass : failures cli_tests = [].
Proof. vm_compute. reflexivity. Qed.
